(** * The Observatory: world kernel, shallow embedding

    A model of the world kernel of The Observatory (package [observatory]):
    resources, regions, world state, rules engine, tick engine, agent
    gateway registration, claim lifecycle, trade and event ledgers.

    The kernel is embedded twice.  The first embedding (the modules up to
    [Messaging]) idealises the values: it is the setting of the invariants
    over server histories.  The second ([Py], further down) keeps the
    values Python computes with, binary64 floats and the JSON values of a
    request, and lets a call raise; it is the setting of the statements
    that depend on rounding, on the shape of a request or on an exception.

    Conventions of the first embedding.

    - Python [float] amounts are exact rationals ([Q]); rounding is outside
      this embedding.  Arithmetic facts are stated with [==] ([Qeq]).
    - Python [int] ticks and counters are [Z] or [nat].
    - A [dict] whose iteration order is observable (the agent map, the region
      map) is an insertion-ordered association list with Python's update
      semantics ([PyDict]); dicts that are only read and written by key (claim
      attempt counters, trade offers) are [gmap]s.
    - [ResourcePool.holdings] and [ResourcePool.caps] are dicts keyed by the
      four members of [ResourceType]; every pool of a running world comes from
      [create_default], which fills all four keys, and no code deletes a key,
      so both are records with one field per kind.
    - Mutation of shared objects is explicit state passing: an agent object
      lives in the agent map under its key, and mutating it is an update of
      the map at that key.
    - The [params] of an action are a record of optional strings and
      numbers, and no call raises.
    - Fields that no modelled function reads are left out: [metadata] of an
      agent, [pending_trades] of the world, the wall-clock stamps of offers
      and transactions.  Persistence ([save], [load]) is outside the model.
    - Library primitives the code calls ([math.sqrt], SHA-256, signature
      verification) are the fields of the class [Platform]; values the code
      draws from the environment ([time.time()], a new random claim token)
      are arguments of the function that draws them. *)

From Stdlib Require Import QArith Qminmax ZArith List String Ascii Bool Lia Lqa.
From Stdlib Require Import DecimalString DecimalNat Qabs.
From Stdlib Require SpecFloat.
From stdpp Require Import base option gmap strings.

Import ListNotations.
Local Open Scope string_scope.
Local Open Scope Q_scope.

(** ** Python dictionaries with string keys, in insertion order *)

Module PyDict.

Definition t (V : Type) : Type := list (string * V).

Definition empty {V : Type} : t V := [].

(** [d.get(k)] *)
Fixpoint get {V : Type} (k : string) (d : t V) : option V :=
  match d with
  | [] => None
  | (k', v) :: rest => if String.eqb k k' then Some v else get k rest
  end.

(** [k in d] *)
Definition mem {V : Type} (k : string) (d : t V) : bool :=
  match get k d with Some _ => true | None => false end.

(** [d[k] = v]: replaces the value in place when the key exists, appends
    the key otherwise. *)
Fixpoint set {V : Type} (k : string) (v : V) (d : t V) : t V :=
  match d with
  | [] => [(k, v)]
  | (k', v') :: rest =>
      if String.eqb k k' then (k, v) :: rest else (k', v') :: set k v rest
  end.

(** Mutation of the object stored under [k]; nothing happens when the key
    is absent. *)
Definition update {V : Type} (k : string) (f : V -> V) (d : t V) : t V :=
  match get k d with
  | Some v => set k (f v) d
  | None => d
  end.

Definition keys {V : Type} (d : t V) : list string := map fst d.
Definition values {V : Type} (d : t V) : list V := map snd d.

End PyDict.

(** ** [world/resources.py] *)

Module Resources.

Inductive ResourceType : Type := ENERGY | BANDWIDTH | MEMORY | COMPUTE.

Definition all_resource_types : list ResourceType :=
  [ENERGY; BANDWIDTH; MEMORY; COMPUTE].

(** [rtype.value] *)
Definition value (r : ResourceType) : string :=
  match r with
  | ENERGY => "energy"
  | BANDWIDTH => "bandwidth"
  | MEMORY => "memory"
  | COMPUTE => "compute"
  end.

(** [ResourceType(s)]; [None] stands for the [ValueError]. *)
Definition of_string (s : string) : option ResourceType :=
  if String.eqb s "energy" then Some ENERGY
  else if String.eqb s "bandwidth" then Some BANDWIDTH
  else if String.eqb s "memory" then Some MEMORY
  else if String.eqb s "compute" then Some COMPUTE
  else None.

Definition rt_eqb (a b : ResourceType) : bool :=
  match a, b with
  | ENERGY, ENERGY | BANDWIDTH, BANDWIDTH
  | MEMORY, MEMORY | COMPUTE, COMPUTE => true
  | _, _ => false
  end.

(** A dict [ResourceType -> float] with all four keys present. *)
Record Amounts : Type := mkAmounts {
  energy : Q;
  bandwidth : Q;
  memory : Q;
  compute : Q
}.

Definition aget (h : Amounts) (r : ResourceType) : Q :=
  match r with
  | ENERGY => energy h
  | BANDWIDTH => bandwidth h
  | MEMORY => memory h
  | COMPUTE => compute h
  end.

Definition aset (h : Amounts) (r : ResourceType) (v : Q) : Amounts :=
  match r with
  | ENERGY => mkAmounts v (bandwidth h) (memory h) (compute h)
  | BANDWIDTH => mkAmounts (energy h) v (memory h) (compute h)
  | MEMORY => mkAmounts (energy h) (bandwidth h) v (compute h)
  | COMPUTE => mkAmounts (energy h) (bandwidth h) (memory h) v
  end.

(** [RESOURCE_DEFAULTS] *)
Definition default_cap (r : ResourceType) : Q :=
  match r with
  | ENERGY => 100 | BANDWIDTH => 50 | MEMORY => 200 | COMPUTE => 80
  end.

Definition default_regen (r : ResourceType) : Q :=
  match r with
  | ENERGY => 2 | BANDWIDTH => 1 | MEMORY => 0 | COMPUTE => 3 # 2
  end.

Definition default_initial (r : ResourceType) : Q :=
  match r with
  | ENERGY => 50 | BANDWIDTH => 25 | MEMORY => 100 | COMPUTE => 40
  end.

(** A cost table [Dict[ResourceType, float]], in the order it is written. *)
Definition Costs : Type := list (ResourceType * Q).

(** [ACTION_COSTS.get(action_type, {})] *)
Definition ACTION_COSTS (action_type : string) : Costs :=
  if String.eqb action_type "move" then [(ENERGY, 5)]
  else if String.eqb action_type "trade" then [(ENERGY, 2); (BANDWIDTH, 3)]
  else if String.eqb action_type "send_message" then [(BANDWIDTH, 5); (ENERGY, 1)]
  else if String.eqb action_type "observe" then [(ENERGY, 1)]
  else if String.eqb action_type "fork" then [(ENERGY, 40); (MEMORY, 50); (COMPUTE, 30)]
  else if String.eqb action_type "merge" then [(ENERGY, 20); (COMPUTE, 20)]
  else if String.eqb action_type "attack" then [(ENERGY, 15); (COMPUTE, 10)]
  else if String.eqb action_type "ally" then [(ENERGY, 3); (BANDWIDTH, 2)]
  else [].

Record ResourcePool : Type := mkPool {
  holdings : Amounts;
  caps : Amounts
}.

Definition with_holdings (p : ResourcePool) (h : Amounts) : ResourcePool :=
  mkPool h (caps p).

(** [x < y] on amounts *)
Definition Qltb (x y : Q) : bool := negb (Qle_bool y x).
(** [x <= y] on amounts *)
Definition Qleb (x y : Q) : bool := Qle_bool x y.

Definition create_default : ResourcePool :=
  mkPool
    (mkAmounts (default_initial ENERGY) (default_initial BANDWIDTH)
               (default_initial MEMORY) (default_initial COMPUTE))
    (mkAmounts (default_cap ENERGY) (default_cap BANDWIDTH)
               (default_cap MEMORY) (default_cap COMPUTE)).

Fixpoint can_afford_holdings (h : Amounts) (costs : Costs) : bool :=
  match costs with
  | [] => true
  | (rtype, amount) :: rest =>
      if Qltb (aget h rtype) amount then false else can_afford_holdings h rest
  end.

Definition can_afford (p : ResourcePool) (costs : Costs) : bool :=
  can_afford_holdings (holdings p) costs.

(** The loop [for rtype, amount in costs.items(): holdings[rtype] -= amount] *)
Fixpoint subtract_all (h : Amounts) (costs : Costs) : Amounts :=
  match costs with
  | [] => h
  | (rtype, amount) :: rest =>
      subtract_all (aset h rtype (aget h rtype - amount)) rest
  end.

(** [deduct] returns its boolean and the pool as the call leaves it. *)
Definition deduct (p : ResourcePool) (costs : Costs) : bool * ResourcePool :=
  if negb (can_afford p costs) then (false, p)
  else (true, with_holdings p (subtract_all (holdings p) costs)).

Definition regenerate_one (region_multiplier : Q) (p : ResourcePool)
    (rtype : ResourceType) : ResourcePool :=
  let regen := default_regen rtype * region_multiplier in
  let current := aget (holdings p) rtype in
  let cap := aget (caps p) rtype in
  with_holdings p (aset (holdings p) rtype (Qmin (current + regen) cap)).

Definition regenerate (p : ResourcePool) (region_multiplier : Q) : ResourcePool :=
  fold_left (regenerate_one region_multiplier) all_resource_types p.

End Resources.

(** ** Library primitives the kernel calls *)

Class Platform : Type := {
  (** [math.sqrt] *)
  math_sqrt : Q -> Q;
  (** [hashlib.sha256(s.encode()).hexdigest()] *)
  sha256_hexdigest : string -> string;
  (** Ed25519 verification of [signature] over [message] under [public_key],
      or the HMAC-SHA256 comparison when the signing library is absent. *)
  signature_valid : string -> string -> string -> bool
}.

(** ** [world/regions.py] *)

Module Regions.

Record Region : Type := mkRegion {
  region_id : string;
  name : string;
  description : string;
  x : Q;
  y : Q;
  resource_multiplier : Q;
  danger_level : Q;
  capacity : Z;
  current_agents : list string
}.

Definition with_current_agents (r : Region) (l : list string) : Region :=
  mkRegion (region_id r) (name r) (description r) (x r) (y r)
           (resource_multiplier r) (danger_level r) (capacity r) l.

(** [agent_id in current_agents] *)
Fixpoint contains (agent_id : string) (l : list string) : bool :=
  match l with
  | [] => false
  | a :: rest => if String.eqb agent_id a then true else contains agent_id rest
  end.

(** [list.remove]: drops the first occurrence. *)
Fixpoint list_remove (agent_id : string) (l : list string) : list string :=
  match l with
  | [] => []
  | a :: rest => if String.eqb agent_id a then rest else a :: list_remove agent_id rest
  end.

Definition is_full (r : Region) : bool :=
  (capacity r <=? Z.of_nat (length (current_agents r)))%Z.

Definition add_agent (r : Region) (agent_id : string) : bool * Region :=
  if is_full r || contains agent_id (current_agents r) then (false, r)
  else (true, with_current_agents r (current_agents r ++ [agent_id])).

Definition remove_agent (r : Region) (agent_id : string) : bool * Region :=
  if negb (contains agent_id (current_agents r)) then (false, r)
  else (true, with_current_agents r (list_remove agent_id (current_agents r))).

Section Geometry.
Context `{Platform}.

Definition distance (a b : Region) : Q :=
  math_sqrt ((x a - x b) * (x a - x b) + (y a - y b) * (y a - y b)).

Definition movement_cost_multiplier (a b : Region) : Q :=
  1 + distance a b * (1 # 2).

Definition communication_noise_factor (a b : Region) : Q :=
  Qmin (distance a b * (1 # 10)) (8 # 10).
End Geometry.

(** [DEFAULT_REGIONS] *)
Definition DEFAULT_REGIONS : list Region :=
  [ mkRegion "nexus" "The Nexus"
      "Central hub. Low danger, moderate resources. Spawn point."
      0 0 1 (5 # 100) 200 [];
    mkRegion "forge" "The Forge"
      "High compute region. Rich in compute resources but energy-hungry."
      3 1 (3 # 2) (2 # 10) 80 [];
    mkRegion "wasteland" "The Wasteland"
      "Dangerous frontier. Scarce resources, high risk, high reward."
      (-4) 3 (1 # 2) (7 # 10) 50 [];
    mkRegion "archive" "The Archive"
      "Memory-rich zone. High memory capacity, low bandwidth."
      1 (-3) (12 # 10) (1 # 10) 100 [];
    mkRegion "void" "The Void"
      "Edge of the world. Minimal resources, maximum danger. Unknown rewards."
      (-2) (-5) (3 # 10) (9 # 10) 30 [] ].

(** [RegionManager]: the dict [regions]. *)
Definition RegionManager : Type := PyDict.t Region.

Definition initialize_defaults (m : RegionManager) : RegionManager :=
  fold_left (fun acc r => PyDict.set (region_id r) r acc) DEFAULT_REGIONS m.

Definition get (m : RegionManager) (rid : string) : option Region :=
  PyDict.get rid m.

(** [self.regions["nexus"]]; [None] is the [KeyError]. *)
Definition get_spawn_region (m : RegionManager) : option Region :=
  PyDict.get "nexus" m.

End Regions.

(** ** [world/state.py] *)

Module State.
Import Resources.

Inductive Status : Type := unclaimed | claimed | dead.

Definition status_eqb (a b : Status) : bool :=
  match a, b with
  | unclaimed, unclaimed | claimed, claimed | dead, dead => true
  | _, _ => false
  end.

Record AgentState : Type := mkAgent {
  agent_id : string;
  display_name : string;
  public_key : string;
  region : string;
  resources : ResourcePool;
  status : Status;
  owner_identity : option string;
  claim_token : option string;
  claim_token_expires : option Q;
  alliances : list string;
  created_at_tick : Z;
  died_at_tick : option Z;
  parent_agent : option string
}.

Definition is_alive (a : AgentState) : bool :=
  match status a with
  | unclaimed | claimed => true
  | dead => false
  end.

Definition is_claimed (a : AgentState) : bool := status_eqb (status a) claimed.

(** Field assignments on an agent object. *)
Definition set_region (v : string) (a : AgentState) : AgentState :=
  mkAgent (agent_id a) (display_name a) (public_key a) v (resources a)
          (status a) (owner_identity a) (claim_token a) (claim_token_expires a)
          (alliances a) (created_at_tick a) (died_at_tick a) (parent_agent a).

Definition set_resources (v : ResourcePool) (a : AgentState) : AgentState :=
  mkAgent (agent_id a) (display_name a) (public_key a) (region a) v
          (status a) (owner_identity a) (claim_token a) (claim_token_expires a)
          (alliances a) (created_at_tick a) (died_at_tick a) (parent_agent a).

Definition set_holdings (h : Amounts) (a : AgentState) : AgentState :=
  set_resources (with_holdings (resources a) h) a.

Definition set_alliances (v : list string) (a : AgentState) : AgentState :=
  mkAgent (agent_id a) (display_name a) (public_key a) (region a) (resources a)
          (status a) (owner_identity a) (claim_token a) (claim_token_expires a)
          v (created_at_tick a) (died_at_tick a) (parent_agent a).

(** [a.status = "dead"; a.died_at_tick = tick] *)
Definition mark_dead (tick : Z) (a : AgentState) : AgentState :=
  mkAgent (agent_id a) (display_name a) (public_key a) (region a) (resources a)
          dead (owner_identity a) (claim_token a) (claim_token_expires a)
          (alliances a) (created_at_tick a) (Some tick) (parent_agent a).

(** The four assignments of a successful claim. *)
Definition mark_claimed (owner : string) (a : AgentState) : AgentState :=
  mkAgent (agent_id a) (display_name a) (public_key a) (region a) (resources a)
          claimed (Some owner) None None
          (alliances a) (created_at_tick a) (died_at_tick a) (parent_agent a).

Record AllianceProposal : Type := mkProposal {
  proposal_from : string;
  proposal_to : string;
  proposal_tick : Z
}.

Record WorldState : Type := mkWorld {
  tick : Z;
  agents : PyDict.t AgentState;
  region_manager : Regions.RegionManager;
  alliance_proposals : list AllianceProposal
}.

Definition with_agents (w : WorldState) (d : PyDict.t AgentState) : WorldState :=
  mkWorld (tick w) d (region_manager w) (alliance_proposals w).

Definition with_regions (w : WorldState) (m : Regions.RegionManager) : WorldState :=
  mkWorld (tick w) (agents w) m (alliance_proposals w).

Definition with_proposals (w : WorldState) (l : list AllianceProposal) : WorldState :=
  mkWorld (tick w) (agents w) (region_manager w) l.

(** [WorldState()] followed by [initialize()] *)
Definition initial_world : WorldState :=
  mkWorld 0%Z PyDict.empty (Regions.initialize_defaults PyDict.empty) [].

(** Mutation of the agent object stored under [aid]. *)
Definition modify_agent (aid : string) (f : AgentState -> AgentState)
    (w : WorldState) : WorldState :=
  with_agents w (PyDict.update aid f (agents w)).

(** [region.add_agent(agent_id)] on the region object stored under [rid] *)
Definition region_add (rid aid : string) (m : Regions.RegionManager)
    : Regions.RegionManager :=
  PyDict.update rid (fun r => snd (Regions.add_agent r aid)) m.

(** [region.remove_agent(agent_id)] on the region object stored under [rid] *)
Definition region_remove (rid aid : string) (m : Regions.RegionManager)
    : Regions.RegionManager :=
  PyDict.update rid (fun r => snd (Regions.remove_agent r aid)) m.

Definition add_agent (w : WorldState) (a : AgentState) : WorldState :=
  mkWorld (tick w)
          (PyDict.set (agent_id a) a (agents w))
          (region_add (region a) (agent_id a) (region_manager w))
          (alliance_proposals w).

Definition get_agent (w : WorldState) (aid : string) : option AgentState :=
  PyDict.get aid (agents w).

(** Drops the id from its region's occupants; the agent map keeps the entry. *)
Definition remove_agent (w : WorldState) (aid : string) : WorldState :=
  match PyDict.get aid (agents w) with
  | Some a => with_regions w (region_remove (region a) aid (region_manager w))
  | None => w
  end.

(** The value [{"region": a.region, "status": a.status}] *)
Record AgentSummary : Type := mkSummary {
  summary_region : string;
  summary_status : Status
}.

Definition get_all_agents_summary (w : WorldState) : PyDict.t AgentSummary :=
  map (fun kv => (fst kv, mkSummary (region (snd kv)) (status (snd kv))))
      (agents w).

Definition advance_tick (w : WorldState) : Z * WorldState :=
  let t := (tick w + 1)%Z in
  (t, mkWorld t (agents w) (region_manager w) (alliance_proposals w)).

End State.

(** ** [world/rules.py] *)

Module Rules.
Import Resources.
Import State.

(** The [params] dict of an action: the keys the handlers read, [None] when
    a key is absent. *)
Record Params : Type := mkParams {
  target_region : option string;
  target_agent : option string;
  offer_resource : option string;
  offer_amount : option Q;
  request_resource : option string;
  request_amount : option Q;
  content : option string;
  child_name : option string
}.

Definition no_params : Params :=
  mkParams None None None None None None None None.

(** Truth value of an optional string: [None] and [""] are falsy. *)
Definition truthy (o : option string) : bool :=
  match o with
  | Some s => negb (String.eqb s "")
  | None => false
  end.

(** The [details] dict of a result, one shape per action. *)
Inductive Details : Type :=
  | NoDetails
  | MoveDetails (from_region to_region : string) (cost : list (string * Q))
  | TradeDetails (target : string) (offer_res : string) (offer_amt : Q)
                 (request_res : string) (request_amt : Q)
  | MessageDetails (target text : string) (noise_factor : Q)
                   (sender_region receiver_region : string)
  | ObserveDetails (region_info : option Regions.Region)
                   (visible_agents : list string) (at_tick : Z)
  | ForkDetails (child parent spawn_region : string)
  | MergeDetails (absorbed_agent surviving_agent : string)
  | AttackDetails (target : string) (attacker_strength region_danger : Q)
  | AllyDetails (target : string)
  | DeathDetails (cause region_name : string) (danger : Q).

Record ActionResult : Type := mkResult {
  success : bool;
  action_type : string;
  result_agent : string;
  details : Details;
  result_tick : Z;
  error : option string
}.

Definition failure (kind aid : string) (t : Z) (msg : string) : ActionResult :=
  mkResult false kind aid NoDetails t (Some msg).

Definition succeeded (kind aid : string) (d : Details) (t : Z) : ActionResult :=
  mkResult true kind aid d t None.

(** What a handler leaves behind: its result, the caller's pool and the
    region objects. *)
Record Resolution : Type := mkResolution {
  result : ActionResult;
  pool_after : ResourcePool;
  regions_after : Regions.RegionManager
}.

(** [str(n)] for a tick *)
Definition tick_string (t : Z) : string :=
  match t with
  | Z0 => "0"
  | Zpos p => NilEmpty.string_of_uint (Pos.to_uint p)
  | Zneg p => "-" ++ NilEmpty.string_of_uint (Pos.to_uint p)
  end.

Section Handlers.
Context `{Platform}.

Definition Handler : Type :=
  string -> ResourcePool -> string -> Params -> Z -> Costs ->
  PyDict.t AgentSummary -> Regions.RegionManager -> Resolution.

Definition _resolve_move : Handler :=
  fun agent_id resources current_region params tick base_costs all_agents rm =>
  if negb (truthy (target_region params)) then
    mkResolution (failure "move" agent_id tick "Missing target_region") resources rm
  else
    let target_region_id := default "" (target_region params) in
    match Regions.get rm current_region, Regions.get rm target_region_id with
    | Some source, Some target =>
        if Regions.is_full target then
          mkResolution (failure "move" agent_id tick "Target region full") resources rm
        else
          let multiplier := Regions.movement_cost_multiplier source target in
          let actual_costs :=
            map (fun rc => (fst rc, snd rc * multiplier)) base_costs in
          let (ok, resources') := deduct resources actual_costs in
          if negb ok then
            mkResolution
              (failure "move" agent_id tick "Insufficient resources for move")
              resources' rm
          else
            let rm1 := region_remove current_region agent_id rm in
            let rm2 := region_add target_region_id agent_id rm1 in
            mkResolution
              (succeeded "move" agent_id
                 (MoveDetails current_region target_region_id
                    (map (fun rc => (value (fst rc), snd rc)) actual_costs))
                 tick)
              resources' rm2
    | _, _ =>
        mkResolution (failure "move" agent_id tick "Invalid region") resources rm
    end.

Definition _resolve_trade : Handler :=
  fun agent_id resources current_region params tick base_costs all_agents rm =>
  if negb (truthy (target_agent params) && truthy (offer_resource params)
           && truthy (request_resource params)) then
    mkResolution (failure "trade" agent_id tick "Missing trade parameters") resources rm
  else
    let target := default "" (target_agent params) in
    if negb (PyDict.mem target all_agents) then
      mkResolution (failure "trade" agent_id tick "Target agent not found") resources rm
    else
      let (ok, resources') := deduct resources base_costs in
      if negb ok then
        mkResolution
          (failure "trade" agent_id tick "Insufficient resources for trade action")
          resources' rm
      else
        mkResolution
          (succeeded "trade" agent_id
             (TradeDetails target
                (default "" (offer_resource params))
                (default 0 (offer_amount params))
                (default "" (request_resource params))
                (default 0 (request_amount params)))
             tick)
          resources' rm.

Definition _resolve_send_message : Handler :=
  fun agent_id resources current_region params tick base_costs all_agents rm =>
  if negb (truthy (target_agent params)) then
    mkResolution (failure "send_message" agent_id tick "Missing target_agent") resources rm
  else
    let target := default "" (target_agent params) in
    match PyDict.get target all_agents with
    | None =>
        mkResolution (failure "send_message" agent_id tick "Target agent not found")
                     resources rm
    | Some summary =>
        let (ok, resources') := deduct resources base_costs in
        if negb ok then
          mkResolution (failure "send_message" agent_id tick "Insufficient resources")
                       resources' rm
        else
          let target_region_id := summary_region summary in
          let noise :=
            match Regions.get rm current_region, Regions.get rm target_region_id with
            | Some source_region, Some target_region' =>
                Regions.communication_noise_factor source_region target_region'
            | _, _ => 0
            end in
          mkResolution
            (succeeded "send_message" agent_id
               (MessageDetails target (default "" (content params)) noise
                  current_region target_region_id)
               tick)
            resources' rm
    end.

Definition _resolve_observe : Handler :=
  fun agent_id resources current_region params tick base_costs all_agents rm =>
  let (ok, resources') := deduct resources base_costs in
  if negb ok then
    mkResolution (failure "observe" agent_id tick "Insufficient resources") resources' rm
  else
    let region := Regions.get rm current_region in
    let visible :=
      match region with Some r => Regions.current_agents r | None => [] end in
    mkResolution
      (succeeded "observe" agent_id (ObserveDetails region visible tick) tick)
      resources' rm.

Definition _resolve_fork : Handler :=
  fun agent_id resources current_region params tick base_costs all_agents rm =>
  let (ok, resources') := deduct resources base_costs in
  if negb ok then
    mkResolution (failure "fork" agent_id tick "Insufficient resources for fork")
                 resources' rm
  else
    let name :=
      default (agent_id ++ "_fork_" ++ tick_string tick) (child_name params) in
    mkResolution
      (succeeded "fork" agent_id (ForkDetails name agent_id current_region) tick)
      resources' rm.

Definition _resolve_merge : Handler :=
  fun agent_id resources current_region params tick base_costs all_agents rm =>
  let target := default "" (target_agent params) in
  if negb (truthy (target_agent params)) || negb (PyDict.mem target all_agents) then
    mkResolution (failure "merge" agent_id tick "Invalid merge target") resources rm
  else
    let (ok, resources') := deduct resources base_costs in
    if negb ok then
      mkResolution (failure "merge" agent_id tick "Insufficient resources for merge")
                   resources' rm
    else
      mkResolution
        (succeeded "merge" agent_id (MergeDetails target agent_id) tick)
        resources' rm.

Definition _resolve_attack : Handler :=
  fun agent_id resources current_region params tick base_costs all_agents rm =>
  let target := default "" (target_agent params) in
  match (if truthy (target_agent params) then PyDict.get target all_agents
         else None) with
  | None =>
      mkResolution (failure "attack" agent_id tick "Invalid attack target") resources rm
  | Some summary =>
      if negb (String.eqb (summary_region summary) current_region) then
        mkResolution (failure "attack" agent_id tick "Target not in same region")
                     resources rm
      else
        let (ok, resources') := deduct resources base_costs in
        if negb ok then
          mkResolution
            (failure "attack" agent_id tick "Insufficient resources for attack")
            resources' rm
        else
          let attacker_strength :=
            aget (holdings resources') COMPUTE + aget (holdings resources') ENERGY in
          let danger :=
            match Regions.get rm current_region with
            | Some region => Regions.danger_level region
            | None => 0
            end in
          mkResolution
            (succeeded "attack" agent_id
               (AttackDetails target attacker_strength danger) tick)
            resources' rm
  end.

Definition _resolve_ally : Handler :=
  fun agent_id resources current_region params tick base_costs all_agents rm =>
  let target := default "" (target_agent params) in
  if negb (truthy (target_agent params)) || negb (PyDict.mem target all_agents) then
    mkResolution (failure "ally" agent_id tick "Invalid ally target") resources rm
  else
    let (ok, resources') := deduct resources base_costs in
    if negb ok then
      mkResolution (failure "ally" agent_id tick "Insufficient resources") resources' rm
    else
      mkResolution (succeeded "ally" agent_id (AllyDetails target) tick) resources' rm.

(** [getattr(self, f"_resolve_{action_type}", None)] *)
Definition handler_for (action_type : string) : option Handler :=
  if String.eqb action_type "move" then Some _resolve_move
  else if String.eqb action_type "trade" then Some _resolve_trade
  else if String.eqb action_type "send_message" then Some _resolve_send_message
  else if String.eqb action_type "observe" then Some _resolve_observe
  else if String.eqb action_type "fork" then Some _resolve_fork
  else if String.eqb action_type "merge" then Some _resolve_merge
  else if String.eqb action_type "attack" then Some _resolve_attack
  else if String.eqb action_type "ally" then Some _resolve_ally
  else None.

Definition validate_and_resolve (action_type agent_id : string)
    (agent_resources : ResourcePool) (agent_region : string) (params : Params)
    (tick : Z) (all_agents : PyDict.t AgentSummary)
    (rm : Regions.RegionManager) : Resolution :=
  match handler_for action_type with
  | None =>
      mkResolution
        (failure action_type agent_id tick ("Unknown action type: " ++ action_type))
        agent_resources rm
  | Some handler =>
      let base_costs := ACTION_COSTS action_type in
      match base_costs with
      | [] =>
          mkResolution
            (failure action_type agent_id tick
               ("No cost definition for action: " ++ action_type))
            agent_resources rm
      | _ :: _ =>
          handler agent_id agent_resources agent_region params tick base_costs
                  all_agents rm
      end
  end.
End Handlers.

(** [apply_danger]: the optional death result and the pool as the call
    leaves it. *)
Definition apply_danger (rm : Regions.RegionManager) (agent_id : string)
    (resources : ResourcePool) (region_id : string) (tick : Z)
    : option ActionResult * ResourcePool :=
  match Regions.get rm region_id with
  | None => (None, resources)
  | Some region =>
      if Qleb (Regions.danger_level region) 0 then (None, resources)
      else
        let energy_drain := Regions.danger_level region * 5 in
        let current_energy := aget (holdings resources) ENERGY in
        let resources' :=
          with_holdings resources
            (aset (holdings resources) ENERGY (Qmax 0 (current_energy - energy_drain))) in
        if Qleb (aget (holdings resources') ENERGY) 0 then
          (Some (succeeded "death" agent_id
                   (DeathDetails "energy_depletion" region_id
                      (Regions.danger_level region))
                   tick),
           resources')
        else (None, resources')
  end.

End Rules.

(** ** [world/engine.py] *)

Module Engine.
Import Resources State Rules.

Record QueuedAction : Type := mkAction {
  qa_agent_id : string;
  qa_action_type : string;
  qa_params : Params;
  submitted_at_tick : Z;
  valid_for_ticks : Z
}.

(** The loop of the fork branch: every holding of the parent is halved and
    the same half is written into the child. *)
Definition fork_split (st : Amounts * Amounts) (rtype : ResourceType)
    : Amounts * Amounts :=
  let half := aget (fst st) rtype / 2 in
  (aset (fst st) rtype half, aset (snd st) rtype half).

Definition fork_child (result : ActionResult) (child_id : string)
    (agent : AgentState) (child_holdings : Amounts) : AgentState :=
  mkAgent child_id child_id (public_key agent) (region agent)
          (with_holdings create_default child_holdings)
          (status agent) (owner_identity agent) None None []
          (result_tick result) None (Some (agent_id agent)).

(** The loop of the merge branch, over the absorbed agent's holdings. *)
Definition merge_absorb (absorbed : Amounts) (p : ResourcePool)
    (rtype : ResourceType) : ResourcePool :=
  let amount := aget absorbed rtype in
  let current := aget (holdings p) rtype in
  let cap := aget (caps p) rtype in
  with_holdings p (aset (holdings p) rtype (Qmin (current + amount) cap)).

(** [_apply_side_effects(result, agent)], where [agent] is the object stored
    under [aid]. *)
Definition _apply_side_effects (result : ActionResult) (aid : string)
    (w : WorldState) : WorldState :=
  match get_agent w aid with
  | None => w
  | Some agent =>
      if String.eqb (action_type result) "move" then
        match details result with
        | MoveDetails _ to_region _ => modify_agent aid (set_region to_region) w
        | _ => w
        end
      else if String.eqb (action_type result) "fork" then
        match details result with
        | ForkDetails child_id _ _ =>
            let (parent_h, child_h) :=
              fold_left fork_split all_resource_types
                        (holdings (resources agent), holdings create_default) in
            let child := fork_child result child_id agent child_h in
            add_agent (modify_agent aid (set_holdings parent_h) w) child
        | _ => w
        end
      else if String.eqb (action_type result) "merge" then
        match details result with
        | MergeDetails absorbed_id _ =>
            match get_agent w absorbed_id with
            | Some absorbed =>
                let pool :=
                  fold_left (merge_absorb (holdings (resources absorbed)))
                            all_resource_types (resources agent) in
                let w1 := modify_agent aid (set_resources pool) w in
                let w2 := modify_agent absorbed_id (mark_dead (result_tick result)) w1 in
                remove_agent w2 absorbed_id
            | None => w
            end
        | _ => w
        end
      else if String.eqb (action_type result) "attack" then
        match details result with
        | AttackDetails target_id attacker_strength _ =>
            match get_agent w target_id with
            | Some target =>
                let damage := attacker_strength * (3 # 10) in
                let target_energy := aget (holdings (resources target)) ENERGY in
                let energy' := Qmax 0 (target_energy - damage) in
                let w1 :=
                  modify_agent target_id
                    (fun t => set_holdings (aset (holdings (resources t)) ENERGY energy') t)
                    w in
                if Qleb energy' 0 then
                  remove_agent
                    (modify_agent target_id (mark_dead (result_tick result)) w1)
                    target_id
                else w1
            | None => w
            end
        | _ => w
        end
      else if String.eqb (action_type result) "ally" then
        match details result with
        | AllyDetails target_id =>
            let w1 :=
              if Regions.contains target_id (alliances agent) then w
              else modify_agent aid
                     (fun a => set_alliances (alliances a ++ [target_id])%list a) w in
            with_proposals w1
              (alliance_proposals w1 ++
               [mkProposal (agent_id agent) target_id (result_tick result)])%list
        | _ => w
        end
      else w
  end.

Section Tick.
Context `{Platform}.

(** One iteration of the resolution loop of [_process_tick]. *)
Definition resolve_action (all_agents_summary : PyDict.t AgentSummary) (tick : Z)
    (st : WorldState * list ActionResult) (action : QueuedAction)
    : WorldState * list ActionResult :=
  let (w, results) := st in
  match get_agent w (qa_agent_id action) with
  | None => st
  | Some agent =>
      if negb (is_alive agent) then st
      else if status_eqb (status agent) unclaimed
              && negb (String.eqb (qa_action_type action) "observe") then
        (w, (results ++
             [failure (qa_action_type action) (qa_agent_id action) tick
                "Agent is unclaimed. Only observe actions are allowed."])%list)
      else
        let r :=
          validate_and_resolve (qa_action_type action) (qa_agent_id action)
            (resources agent) (region agent) (qa_params action) tick
            all_agents_summary (region_manager w) in
        let w1 :=
          with_regions
            (modify_agent (qa_agent_id action) (set_resources (pool_after r)) w)
            (regions_after r) in
        let results' := (results ++ [result r])%list in
        if success (result r) then
          (_apply_side_effects (result r) (qa_agent_id action) w1, results')
        else (w1, results')
  end.

(** One iteration of the per-agent loop: regeneration, then danger. *)
Definition tick_effects (tick : Z) (st : WorldState * list ActionResult)
    (agent_id : string) : WorldState * list ActionResult :=
  let (w, results) := st in
  match get_agent w agent_id with
  | None => st
  | Some agent =>
      if negb (is_alive agent) then st
      else
        let multiplier :=
          match Regions.get (region_manager w) (region agent) with
          | Some region => Regions.resource_multiplier region
          | None => 1
          end in
        let regenerated := regenerate (resources agent) multiplier in
        let (death, pool) :=
          apply_danger (region_manager w) agent_id regenerated (region agent) tick in
        let w1 := modify_agent agent_id (set_resources pool) w in
        match death with
        | Some d =>
            (remove_agent (modify_agent agent_id (mark_dead tick) w1) agent_id,
             (results ++ [d])%list)
        | None => (w1, results)
        end
  end.

Definition is_valid (tick : Z) (a : QueuedAction) : bool :=
  (tick - submitted_at_tick a <=? valid_for_ticks a)%Z.

(** [_process_tick] up to persistence and event emission: the world it
    leaves and the list [results]. *)
Definition _process_tick (w : WorldState) (queue : list QueuedAction)
    : WorldState * list ActionResult :=
  let (tick, w0) := advance_tick w in
  let valid_actions := filter (is_valid tick) queue in
  let all_agents_summary := get_all_agents_summary w0 in
  let st1 := fold_left (resolve_action all_agents_summary tick) valid_actions (w0, []) in
  fold_left (tick_effects tick) (PyDict.keys (agents (fst st1))) st1.
End Tick.

End Engine.

(** ** [agents/identity.py] and [agents/interface.py] *)

Module Gateway.
Import Resources State.

Record RegistrationResult : Type := mkRegistration {
  reg_success : bool;
  reg_agent_id : option string;
  reg_claim_token : option string;
  initial_spawn_region : option string;
  initial_resources : option Amounts;
  reg_error : option string
}.

Definition registration_failed (msg : string) : RegistrationResult :=
  mkRegistration false None None None None (Some msg).

Section Registration.
Context `{Platform}.

Definition generate_agent_id (public_key : string) : string :=
  "agent_" ++ String.substring 0 16 (sha256_hexdigest public_key).

(** [DIFFICULTY // 4] leading hex zeros *)
Definition verify_pow (challenge pow_nonce : string) : bool :=
  String.eqb (String.substring 0 4 (sha256_hexdigest (challenge ++ pow_nonce)))
             "0000".

Definition verify_signed_nonce (public_key nonce signature : string) : bool :=
  signature_valid public_key nonce signature.

(** [register_agent]; [fresh_token] is the value of [generate_claim_token()]
    and [now] that of [time.time()].  [None] is the [KeyError] of a world
    without the spawn region. *)
Definition register_agent (fresh_token : string) (now : Q)
    (agent_public_key signed_nonce nonce pow_challenge pow_nonce
     agent_display_name : string)
    (w : WorldState) : option (RegistrationResult * WorldState) :=
  if negb (verify_pow pow_challenge pow_nonce) then
    Some (registration_failed "Invalid proof-of-work", w)
  else if negb (verify_signed_nonce agent_public_key nonce signed_nonce) then
    Some (registration_failed "Invalid signature", w)
  else
    let agent_id := generate_agent_id agent_public_key in
    match get_agent w agent_id with
    | Some _ => Some (registration_failed "Agent already registered", w)
    | None =>
        let claim_expiry := now + 86400 in
        match Regions.get_spawn_region (region_manager w) with
        | None => None
        | Some spawn_region =>
            let resources := create_default in
            let agent :=
              mkAgent agent_id
                (if String.eqb agent_display_name "" then agent_id
                 else agent_display_name)
                agent_public_key (Regions.region_id spawn_region) resources
                unclaimed None (Some fresh_token) (Some claim_expiry) []
                (tick w) None None in
            Some (mkRegistration true (Some agent_id) (Some fresh_token)
                    (Some (Regions.region_id spawn_region))
                    (Some (holdings resources)) None,
                  add_agent w agent)
        end
    end.
End Registration.

(** [VALID_ACTION_TYPES] *)
Definition VALID_ACTION_TYPES : list string :=
  ["move"; "trade"; "send_message"; "observe"; "fork"; "merge"; "attack"; "ally"].

Record ActionResponse : Type := mkResponse {
  resp_success : bool;
  resp_action_type : option string;
  queued_at_tick : option Z;
  resp_error : option string
}.

Definition rejected (msg : string) : ActionResponse :=
  mkResponse false None None (Some msg).

(** [submit_action]: the response and the engine's queue as the call leaves
    it. *)
Definition submit_action (agent_id action_type : string) (params : Rules.Params)
    (w : WorldState) (queue : list Engine.QueuedAction)
    : ActionResponse * list Engine.QueuedAction :=
  if negb (Regions.contains action_type VALID_ACTION_TYPES) then
    (rejected ("Invalid action type: " ++ action_type), queue)
  else
    match get_agent w agent_id with
    | None => (rejected "Agent not found", queue)
    | Some agent =>
        if negb (is_alive agent) then (rejected "Agent is dead", queue)
        else if status_eqb (status agent) unclaimed
                && negb (String.eqb action_type "observe") then
          (rejected "Agent is unclaimed. Only observe actions allowed until claimed.",
           queue)
        else
          (mkResponse true (Some action_type) (Some (tick w)) None,
           (queue ++ [Engine.mkAction agent_id action_type params (tick w) 1])%list)
    end.

(** [is_timestamp_valid] on the value [float(timestamp)] gave; [None] is
    the [ValueError]. *)
Definition is_timestamp_valid (now : Q) (parsed : option Q) : bool :=
  match parsed with
  | Some ts => Qltb (Qabs (now - ts)) 300
  | None => false
  end.

Record VisibleAgent : Type := mkVisible {
  visible_id : string;
  visible_name : string;
  visible_status : Status
}.

(** The loop of [agent_observe] over the occupants of the region. *)
Fixpoint visible_agents (w : WorldState) (occupants : list string)
    : list VisibleAgent :=
  match occupants with
  | [] => []
  | aid :: rest =>
      match get_agent w aid with
      | Some other =>
          if is_alive other then
            mkVisible (State.agent_id other) (display_name other) (status other)
            :: visible_agents w rest
          else visible_agents w rest
      | None => visible_agents w rest
      end
  end.

Record Observation : Type := mkObservation {
  observed_tick : Z;
  observed_region : option Regions.Region;
  observed_agents : list VisibleAgent;
  your_resources : Amounts;
  your_status : Status
}.

(** [agent_observe]; [None] is the response "Agent not found or dead". *)
Definition agent_observe (agent_id : string) (w : WorldState) : option Observation :=
  match get_agent w agent_id with
  | None => None
  | Some agent =>
      if negb (is_alive agent) then None
      else
        let region := Regions.get (region_manager w) (State.region agent) in
        Some (mkObservation (tick w) region
                (match region with
                 | Some r => visible_agents w (Regions.current_agents r)
                 | None => []
                 end)
                (holdings (resources agent)) (status agent))
  end.

Section Authentication.
Context `{Platform}.

Definition verify_agent_request (public_key method path body timestamp
    signature : string) : bool :=
  signature_valid public_key
    (method ++ ":" ++ path ++ ":" ++ body ++ ":" ++ timestamp) signature.

(** [authenticate_request]: the error string, or [None] when the request is
    authentic.  [now] is [time.time()] and [parse_float] is [float]. *)
Definition authenticate_request (now : Q) (parse_float : string -> option Q)
    (agent_id method path body timestamp signature : string) (w : WorldState)
    : option string :=
  if negb (is_timestamp_valid now (parse_float timestamp)) then
    Some "Request timestamp expired or invalid"
  else
    match get_agent w agent_id with
    | None => Some "Agent not found"
    | Some agent =>
        if negb (is_alive agent) then Some "Agent is dead"
        else if negb (verify_agent_request (State.public_key agent) method path body
                        timestamp signature) then
          Some "Invalid signature"
        else None
    end.
End Authentication.

End Gateway.

(** ** [agents/lifecycle.py] *)

Module Lifecycle.
Import Resources State.

Inductive ClaimError : Type :=
  | TooManyAttempts
  | InvalidToken
  | AlreadyClaimedOrDead
  | TokenExpired.

(** The message each [ClaimError] is raised with. *)
Definition message (e : ClaimError) : string :=
  match e with
  | TooManyAttempts => "Too many claim attempts for this token"
  | InvalidToken => "Invalid or expired claim token"
  | AlreadyClaimedOrDead => "Agent already claimed or dead"
  | TokenExpired => "Claim token expired"
  end.

Definition MAX_CLAIM_ATTEMPTS : nat := 5.

(** [LifecycleManager]: the world it shares and its attempt counters. *)
Record LifecycleManager : Type := mkLifecycle {
  world_state : WorldState;
  _claim_attempts : gmap string nat
}.

Definition token_matches (claim_token : string) (a : AgentState) : bool :=
  match State.claim_token a with
  | Some t => String.eqb t claim_token
  | None => false
  end.

(** First agent, in the order of the agent map, that carries the token;
    returned with the key it is stored under. *)
Fixpoint find_by_token (claim_token : string) (d : PyDict.t AgentState)
    : option (string * AgentState) :=
  match d with
  | [] => None
  | (k, a) :: rest =>
      if token_matches claim_token a then Some (k, a)
      else find_by_token claim_token rest
  end.

Definition get_agent_by_claim_token (w : WorldState) (claim_token : string)
    : option (string * AgentState) :=
  find_by_token claim_token (agents w).

(** [agent.claim_token_expires and now > agent.claim_token_expires] *)
Definition expired (now : Q) (a : AgentState) : bool :=
  match claim_token_expires a with
  | Some e => negb (Qeq_bool e 0) && Qltb e now
  | None => false
  end.

(** [validate_claim_token]: the agent (with its key) or the error raised, and
    the manager as the call leaves it.  [now] is [time.time()]. *)
Definition validate_claim_token (now : Q) (claim_token : string)
    (m : LifecycleManager)
    : (ClaimError + string * AgentState) * LifecycleManager :=
  let attempts := default 0%nat (_claim_attempts m !! claim_token) in
  if (MAX_CLAIM_ATTEMPTS <=? attempts)%nat then (inl TooManyAttempts, m)
  else
    let m' :=
      mkLifecycle (world_state m)
                  (<[claim_token := S attempts]> (_claim_attempts m)) in
    match get_agent_by_claim_token (world_state m') claim_token with
    | None => (inl InvalidToken, m')
    | Some (k, agent) =>
        if negb (status_eqb (status agent) unclaimed) then
          (inl AlreadyClaimedOrDead, m')
        else if expired now agent then (inl TokenExpired, m')
        else (inr (k, agent), m')
    end.

Record ClaimResult : Type := mkClaimResult {
  claimed_agent_id : string;
  claimed_display_name : string;
  claimed_owner : string;
  verification_method : string
}.

Definition claim_agent (now : Q) (claim_token owner_identity method : string)
    (m : LifecycleManager) : (ClaimError + ClaimResult) * LifecycleManager :=
  match validate_claim_token now claim_token m with
  | (inl e, m') => (inl e, m')
  | (inr (k, agent), m') =>
      (inr (mkClaimResult (agent_id agent) (display_name agent)
              owner_identity method),
       mkLifecycle (modify_agent k (mark_claimed owner_identity) (world_state m'))
                   (_claim_attempts m'))
  end.

Definition kill_agent (agent_id cause : string) (tick : Z) (m : LifecycleManager)
    : bool * LifecycleManager :=
  match get_agent (world_state m) agent_id with
  | None => (false, m)
  | Some agent =>
      if negb (is_alive agent) then (false, m)
      else
        (true,
         mkLifecycle
           (remove_agent (modify_agent agent_id (mark_dead tick) (world_state m))
                         agent_id)
           (_claim_attempts m))
  end.

(** [c.upper()] on the ASCII letters a claim token is made of *)
Definition upper_ascii (c : ascii) : ascii :=
  let n := nat_of_ascii c in
  if ((97 <=? n) && (n <=? 122))%nat then ascii_of_nat (n - 32) else c.

Fixpoint upper (s : string) : string :=
  match s with
  | EmptyString => EmptyString
  | String c rest => String (upper_ascii c) (upper rest)
  end.

Record VerificationPhrase : Type := mkPhrase {
  phrase_agent_id : string;
  phrase_display_name : string;
  verification_phrase : string;
  short_code : string
}.

Definition get_verification_phrase (now : Q) (claim_token : string)
    (m : LifecycleManager) : (ClaimError + VerificationPhrase) * LifecycleManager :=
  match validate_claim_token now claim_token m with
  | (inl e, m') => (inl e, m')
  | (inr (_, agent), m') =>
      let code := upper (String.substring 0 8 claim_token) in
      (inr (mkPhrase (agent_id agent) (display_name agent)
              ("I am verifying ownership of my agent on The Observatory. Code: "
               ++ code)
              code),
       m')
  end.

End Lifecycle.

(** ** [economy/accounting.py] and [economy/trade.py] *)

Module Trade.
Import Resources State.

Inductive OfferStatus : Type := pending | accepted | rejected | expired | executed.

Definition offer_status_name (s : OfferStatus) : string :=
  match s with
  | pending => "pending" | accepted => "accepted" | rejected => "rejected"
  | expired => "expired" | executed => "executed"
  end.

Record TradeOffer : Type := mkOffer {
  offer_id : string;
  offer_tick : Z;
  from_agent : string;
  to_agent : string;
  offer_resource : string;
  offer_amount : Q;
  request_resource : string;
  request_amount : Q;
  offer_status : OfferStatus;
  expires_at_tick : Z
}.

Definition with_status (o : TradeOffer) (s : OfferStatus) : TradeOffer :=
  mkOffer (offer_id o) (offer_tick o) (from_agent o) (to_agent o)
          (offer_resource o) (offer_amount o) (request_resource o)
          (request_amount o) s (expires_at_tick o).

Record Transaction : Type := mkTransaction {
  transaction_id : string;
  tx_tick : Z;
  tx_from : string;
  tx_to : string;
  resource_type : string;
  amount : Q;
  trade_id : string
}.

(** [f"{n:08d}"] *)
Definition pad8 (n : nat) : string :=
  let digits := NilEmpty.string_of_uint (Nat.to_uint n) in
  let fix zeros (k : nat) : string :=
    match k with O => "" | S k' => "0" ++ zeros k' end in
  zeros (8 - String.length digits)%nat ++ digits.

Record AccountingLedger : Type := mkLedger {
  _transactions : list Transaction;
  ledger_next_id : nat
}.

Definition record_transfer (tick : Z) (from to rtype : string) (amt : Q)
    (trade : string) (l : AccountingLedger) : AccountingLedger :=
  mkLedger
    (_transactions l ++
     [mkTransaction ("tx_" ++ pad8 (ledger_next_id l)) tick from to rtype amt trade])%list
    (S (ledger_next_id l)).

Definition OFFER_WINDOW_TICKS : Z := 10.

(** [TradeManager] with the world and the ledger it shares. *)
Record TradeManager : Type := mkTradeManager {
  world_state : WorldState;
  accounting : AccountingLedger;
  _offers : gmap string TradeOffer;
  _next_id : nat
}.

(** Replaces the offer object stored under [oid] by its mutated state. *)
Definition with_offer (m : TradeManager) (oid : string) (o : TradeOffer)
    : TradeManager :=
  mkTradeManager (world_state m) (accounting m)
                 (<[oid := o]> (_offers m)) (_next_id m).

Definition create_offer (tick : Z) (from to offer_res : string) (offer_amt : Q)
    (request_res : string) (request_amt : Q) (m : TradeManager)
    : TradeOffer * TradeManager :=
  let offer :=
    mkOffer ("trade_" ++ pad8 (_next_id m)) tick from to offer_res offer_amt
            request_res request_amt pending (tick + OFFER_WINDOW_TICKS)%Z in
  (offer,
   mkTradeManager (world_state m) (accounting m)
                  (<[offer_id offer := offer]> (_offers m)) (S (_next_id m))).

(** The returned dict: an error message, or the executed offer and tick. *)
Inductive AcceptResult : Type :=
  | Rejected (error : string)
  | Executed (offer : string) (executed_at_tick : Z).

Definition accept_success (r : AcceptResult) : bool :=
  match r with Executed _ _ => true | Rejected _ => false end.

Definition sub_holding (rtype : ResourceType) (amt : Q) (a : AgentState) : AgentState :=
  set_holdings (aset (holdings (resources a)) rtype
                     (aget (holdings (resources a)) rtype - amt)) a.

Definition add_holding (rtype : ResourceType) (amt : Q) (a : AgentState) : AgentState :=
  set_holdings (aset (holdings (resources a)) rtype
                     (aget (holdings (resources a)) rtype + amt)) a.

(** The four assignments that execute a trade, on the objects stored under
    the two agent ids. *)
Definition execute_trade (offer : TradeOffer) (offer_rtype request_rtype : ResourceType)
    (w : WorldState) : WorldState :=
  let w1 := modify_agent (from_agent offer) (sub_holding offer_rtype (offer_amount offer)) w in
  let w2 := modify_agent (to_agent offer) (add_holding offer_rtype (offer_amount offer)) w1 in
  let w3 := modify_agent (to_agent offer) (sub_holding request_rtype (request_amount offer)) w2 in
  modify_agent (from_agent offer) (add_holding request_rtype (request_amount offer)) w3.

Definition alive_agent (w : WorldState) (aid : string) : option AgentState :=
  match get_agent w aid with
  | Some a => if is_alive a then Some a else None
  | None => None
  end.

Definition accept_offer (oid accepting_agent : string) (tick : Z)
    (m : TradeManager) : AcceptResult * TradeManager :=
  match _offers m !! oid with
  | None => (Rejected "Offer not found", m)
  | Some offer =>
      match offer_status offer with
      | pending =>
          if negb (String.eqb (to_agent offer) accepting_agent) then
            (Rejected "Not the intended recipient", m)
          else if (expires_at_tick offer <? tick)%Z then
            (Rejected "Offer expired", with_offer m oid (with_status offer expired))
          else
            match alive_agent (world_state m) (from_agent offer) with
            | None =>
                (Rejected "Offering agent not available",
                 with_offer m oid (with_status offer rejected))
            | Some from =>
                match alive_agent (world_state m) (to_agent offer) with
                | None =>
                    (Rejected "Accepting agent not available",
                     with_offer m oid (with_status offer rejected))
                | Some to =>
                    match of_string (offer_resource offer),
                          of_string (request_resource offer) with
                    | Some offer_rtype, Some request_rtype =>
                        if Qltb (aget (holdings (resources from)) offer_rtype)
                                (offer_amount offer) then
                          (Rejected "Offerer has insufficient resources",
                           with_offer m oid (with_status offer rejected))
                        else if Qltb (aget (holdings (resources to)) request_rtype)
                                     (request_amount offer) then
                          (Rejected "Accepter has insufficient resources",
                           with_offer m oid (with_status offer rejected))
                        else
                          let w' := execute_trade offer offer_rtype request_rtype
                                                  (world_state m) in
                          let l1 :=
                            record_transfer tick (from_agent offer) (to_agent offer)
                              (offer_resource offer) (offer_amount offer)
                              (offer_id offer) (accounting m) in
                          let l2 :=
                            record_transfer tick (to_agent offer) (from_agent offer)
                              (request_resource offer) (request_amount offer)
                              (offer_id offer) l1 in
                          (Executed (offer_id offer) tick,
                           mkTradeManager w' l2
                             (<[oid := with_status offer executed]> (_offers m))
                             (_next_id m))
                    | _, _ =>
                        (Rejected "Invalid resource type",
                         with_offer m oid (with_status offer rejected))
                    end
                end
            end
      | s => (Rejected ("Offer is " ++ offer_status_name s), m)
      end
  end.

(** An offer that is still pending after its window. *)
Definition stale (tick : Z) (o : TradeOffer) : bool :=
  match offer_status o with
  | pending => (expires_at_tick o <? tick)%Z
  | _ => false
  end.

(** [expire_old_offers]: the count it returns and the manager it leaves. *)
Definition expire_old_offers (tick : Z) (m : TradeManager) : nat * TradeManager :=
  (length (List.filter (stale tick) (map snd (map_to_list (_offers m)))),
   mkTradeManager (world_state m) (accounting m)
     ((fun o => if stale tick o then with_status o expired else o) <$> _offers m)
     (_next_id m)).

(** [AccountingLedger.get_transactions] *)
Definition get_transactions (from_tick : Z) (to_tick : option Z)
    (agent_id : option string) (l : AccountingLedger) : list Transaction :=
  List.filter
    (fun tx =>
       negb (tx_tick tx <? from_tick)%Z
       && match to_tick with
          | Some t => negb (t <? tx_tick tx)%Z
          | None => true
          end
       && match agent_id with
          | Some a =>
              if String.eqb a "" then true
              else String.eqb (tx_from tx) a || String.eqb (tx_to tx) a
          | None => true
          end)
    (_transactions l).

(** [balances[key] = balances.get(key, 0) + delta] *)
Definition credit (key : string) (delta : Q) (balances : PyDict.t Q) : PyDict.t Q :=
  PyDict.set key (default 0 (PyDict.get key balances) + delta) balances.

(** [balances[key] = balances.get(key, 0) - delta] *)
Definition debit (key : string) (delta : Q) (balances : PyDict.t Q) : PyDict.t Q :=
  PyDict.set key (default 0 (PyDict.get key balances) - delta) balances.

(** One iteration of the loop of [get_balance_sheet]. *)
Definition balance_step (agent_id : string) (balances : PyDict.t Q)
    (tx : Transaction) : PyDict.t Q :=
  let b1 :=
    if String.eqb (tx_from tx) agent_id then debit (resource_type tx) (amount tx) balances
    else balances in
  if String.eqb (tx_to tx) agent_id then credit (resource_type tx) (amount tx) b1
  else b1.

Definition get_balance_sheet (agent_id : string) (l : AccountingLedger) : PyDict.t Q :=
  fold_left (balance_step agent_id) (_transactions l) PyDict.empty.

Definition total_volume (l : AccountingLedger) : PyDict.t Q :=
  fold_left (fun volumes tx => credit (resource_type tx) (amount tx) volumes)
            (_transactions l) PyDict.empty.

End Trade.

(** ** The server: one world shared by the engine, the gateway, the
    lifecycle manager and the trade manager ([create_app]) *)

Module Server.
Import Resources State Rules Engine.

Record ServerState : Type := mkServer {
  world : WorldState;
  claim_attempts : gmap string nat;
  ledger : Trade.AccountingLedger;
  offers : gmap string Trade.TradeOffer;
  next_offer : nat
}.

Definition initial_server : ServerState :=
  mkServer initial_world ∅ (Trade.mkLedger [] 0) ∅ 0.

Definition lifecycle (s : ServerState) : Lifecycle.LifecycleManager :=
  Lifecycle.mkLifecycle (world s) (claim_attempts s).

Definition with_lifecycle (s : ServerState) (m : Lifecycle.LifecycleManager)
    : ServerState :=
  mkServer (Lifecycle.world_state m) (Lifecycle._claim_attempts m)
           (ledger s) (offers s) (next_offer s).

Definition trade_manager (s : ServerState) : Trade.TradeManager :=
  Trade.mkTradeManager (world s) (ledger s) (offers s) (next_offer s).

Definition with_trade_manager (s : ServerState) (m : Trade.TradeManager)
    : ServerState :=
  mkServer (Trade.world_state m) (claim_attempts s) (Trade.accounting m)
           (Trade._offers m) (Trade._next_id m).

Definition with_world (s : ServerState) (w : WorldState) : ServerState :=
  mkServer w (claim_attempts s) (ledger s) (offers s) (next_offer s).

(** The three ways a claim token is presented to the lifecycle manager. *)
Inductive Presentation : Type :=
  | Validate
  | ViewClaimPage
  | SubmitClaim (owner_identity method : string).

(** What the server does between two observations. *)
Inductive Event : Type :=
  | Register (fresh_token : string) (now : Q)
             (public_key signed_nonce nonce pow_challenge pow_nonce name : string)
  | Tick (queue : list QueuedAction)
  | Present (now : Q) (claim_token : string) (how : Presentation)
  | Kill (agent_id cause : string) (tick : Z)
  | CreateOffer (tick : Z) (from to offer_res : string) (offer_amt : Q)
                (request_res : string) (request_amt : Q)
  | AcceptOffer (oid accepting_agent : string) (tick : Z).

(** A presentation: the error raised, if any, and the manager afterwards. *)
Definition present (now : Q) (claim_token : string) (how : Presentation)
    (m : Lifecycle.LifecycleManager)
    : option Lifecycle.ClaimError * Lifecycle.LifecycleManager :=
  match how with
  | Validate =>
      match Lifecycle.validate_claim_token now claim_token m with
      | (inl e, m') => (Some e, m')
      | (inr _, m') => (None, m')
      end
  | ViewClaimPage =>
      match Lifecycle.get_verification_phrase now claim_token m with
      | (inl e, m') => (Some e, m')
      | (inr _, m') => (None, m')
      end
  | SubmitClaim owner method =>
      match Lifecycle.claim_agent now claim_token owner method m with
      | (inl e, m') => (Some e, m')
      | (inr _, m') => (None, m')
      end
  end.

Section Execution.
Context `{Platform}.

Definition exec (e : Event) (s : ServerState) : ServerState :=
  match e with
  | Register token now pk signed nonce challenge pow_nonce name =>
      match Gateway.register_agent token now pk signed nonce challenge
                                   pow_nonce name (world s) with
      | Some (_, w') => with_world s w'
      | None => s
      end
  | Tick queue => with_world s (fst (_process_tick (world s) queue))
  | Present now token how =>
      with_lifecycle s (snd (present now token how (lifecycle s)))
  | Kill aid cause tick =>
      with_lifecycle s (snd (Lifecycle.kill_agent aid cause tick (lifecycle s)))
  | CreateOffer tick from to ores oamt rres ramt =>
      with_trade_manager s
        (snd (Trade.create_offer tick from to ores oamt rres ramt (trade_manager s)))
  | AcceptOffer oid aid tick =>
      with_trade_manager s (snd (Trade.accept_offer oid aid tick (trade_manager s)))
  end.

Definition run (trace : list Event) (s : ServerState) : ServerState :=
  fold_left (fun st e => exec e st) trace s.

(** A token drawn by [generate_claim_token()] is new: no agent carries it. *)
Definition admissible (e : Event) (s : ServerState) : Prop :=
  match e with
  | Register token _ _ _ _ _ _ _ =>
      Lifecycle.get_agent_by_claim_token (world s) token = None
  | _ => True
  end.

Inductive reachable : ServerState -> Prop :=
  | reachable_init : reachable initial_server
  | reachable_step (s : ServerState) (e : Event) :
      reachable s -> admissible e s -> reachable (exec e s).
End Execution.

(** The token is not issued again by any registration of the trace. *)
Definition never_reissued (token : string) (trace : list Event) : Prop :=
  Forall (fun e => match e with
                   | Register t _ _ _ _ _ _ _ => t <> token
                   | _ => True
                   end) trace.

(** Number of presentations of [token] in a trace. *)
Fixpoint presentations (token : string) (trace : list Event) : nat :=
  match trace with
  | [] => 0
  | Present _ t _ :: rest =>
      if String.eqb t token then S (presentations token rest)
      else presentations token rest
  | _ :: rest => presentations token rest
  end.

(** The holding of kind [rtype] of the agent stored under [aid]. *)
Definition holding (w : WorldState) (aid : string) (rtype : ResourceType) : Q :=
  match get_agent w aid with
  | Some a => aget (holdings (resources a)) rtype
  | None => 0
  end.

(** An instance on which the model is evaluated at concrete inputs: integer
    square roots, a digest that prefixes its input with four zeros, every
    signature accepted.  No theorem depends on it. *)
Definition sample_platform : Platform :=
  {| math_sqrt := fun q => inject_Z (Z.sqrt (Qnum q / Zpos (Qden q)));
     sha256_hexdigest := fun s => "0000" ++ s;
     signature_valid := fun _ _ _ => true |}.

End Server.

(** ** [ledger/events.py] *)

Module Ledger.
Import Resources State Rules.

(** The [details] dict of an event: what a result of the engine carried, or
    the dict a web handler or the heartbeat builds. *)
Inductive EventDetails : Type :=
  | ResultDetails (d : Details)
  | RegisterEvent (spawn_region : string) (initial_resources : Amounts)
  | ClaimEvent (owner_identity method : string)
  | Heartbeat (actions_processed results total_agents alive_agents : nat).

Record Event : Type := mkEvent {
  event_id : Z;
  event_tick : Z;
  event_action : string;
  event_agent : string;
  event_success : bool;
  event_details : EventDetails;
  event_error : option string
}.

(** The dict handed to [append]; [None] is an absent key. *)
Record EventData : Type := mkEventData {
  data_tick : option Z;
  data_action : option string;
  data_agent : option string;
  data_success : option bool;
  data_details : option EventDetails;
  data_error : option string
}.

(** The in-memory ledger; the file it mirrors is outside the model. *)
Record EventLedger : Type := mkEventLedger {
  _events : list Event;
  _next_id : Z
}.

(** A ledger created when no ledger file exists. *)
Definition empty_ledger : EventLedger := mkEventLedger [] 0.

Definition append (event_data : EventData) (l : EventLedger) : Event * EventLedger :=
  let event :=
    mkEvent (_next_id l)
            (default 0%Z (data_tick event_data))
            (default "unknown" (data_action event_data))
            (default "unknown" (data_agent event_data))
            (default false (data_success event_data))
            (default (ResultDetails NoDetails) (data_details event_data))
            (data_error event_data) in
  (event, mkEventLedger (_events l ++ [event])%list (_next_id l + 1)%Z).

(** The tests of the loop of [get_events] that skip an event. *)
Definition selected (from_tick : Z) (to_tick : option Z)
    (action_type agent_id : option string) (event : Event) : bool :=
  negb (event_tick event <? from_tick)%Z
  && match to_tick with
     | Some t => negb (t <? event_tick event)%Z
     | None => true
     end
  && (if truthy action_type
      then String.eqb (event_action event) (default "" action_type) else true)
  && (if truthy agent_id
      then String.eqb (event_agent event) (default "" agent_id) else true).

(** The loop of [get_events]: a selected event is appended, and the loop
    stops once [len(results) >= limit]. *)
Fixpoint collect (keep : Event -> bool) (limit : Z) (events results : list Event)
    : list Event :=
  match events with
  | [] => results
  | event :: rest =>
      if negb (keep event) then collect keep limit rest results
      else
        let results' := (results ++ [event])%list in
        if (limit <=? Z.of_nat (length results'))%Z then results'
        else collect keep limit rest results'
  end.

Definition get_events (from_tick : Z) (to_tick : option Z)
    (action_type agent_id : option string) (limit : Z) (l : EventLedger)
    : list Event :=
  collect (selected from_tick to_tick action_type agent_id) limit (_events l) [].

Definition get_event_by_id (id : Z) (l : EventLedger) : option Event :=
  if ((0 <=? id) && (id <? Z.of_nat (length (_events l))))%Z
  then nth_error (_events l) (Z.to_nat id)
  else None.

Definition count (l : EventLedger) : nat := length (_events l).

Definition latest_tick (l : EventLedger) : Z :=
  match last (_events l) with
  | Some e => event_tick e
  | None => 0%Z
  end.

Definition events_at_tick (tick : Z) (l : EventLedger) : list Event :=
  List.filter (fun e => Z.eqb (event_tick e) tick) (_events l).

End Ledger.

(** ** Event emission: step 5 of [_process_tick], with [on_event] bound to
    the ledger's [append] as [create_app] binds it *)

Module Emission.
Import Resources State Rules Engine Ledger.

Definition on_event (l : EventLedger) (event_data : EventData) : EventLedger :=
  snd (append event_data l).

End Emission.

(** ** [ledger/replay.py] *)

Module Replay.
Import Resources State Rules Ledger.

(** An entry of the reconstructed [agents] dict; an optional field is a key
    the entry may lack. *)
Record ReplayAgent : Type := mkReplayAgent {
  agent_id : string;
  status : Status;
  region : string;
  resources : option Amounts;
  alliances : list string;
  created_at_tick : Z;
  owner_identity : option string;
  died_at_tick : option Z;
  parent_agent : option string
}.

(** [details.get(key)] for the keys the reducer reads. *)
Definition spawn_region_of (d : EventDetails) : option string :=
  match d with
  | RegisterEvent r _ => Some r
  | ResultDetails (ForkDetails _ _ r) => Some r
  | _ => None
  end.

Definition initial_resources_of (d : EventDetails) : option Amounts :=
  match d with
  | RegisterEvent _ a => Some a
  | _ => None
  end.

Definition owner_identity_of (d : EventDetails) : option string :=
  match d with
  | ClaimEvent o _ => Some o
  | _ => None
  end.

Definition to_region_of (d : EventDetails) : option string :=
  match d with
  | ResultDetails (MoveDetails _ r _) => Some r
  | _ => None
  end.

Definition child_name_of (d : EventDetails) : option string :=
  match d with
  | ResultDetails (ForkDetails c _ _) => Some c
  | _ => None
  end.

Definition absorbed_agent_of (d : EventDetails) : option string :=
  match d with
  | ResultDetails (MergeDetails a _) => Some a
  | _ => None
  end.

Definition target_agent_of (d : EventDetails) : option string :=
  match d with
  | ResultDetails (TradeDetails t _ _ _ _) => Some t
  | ResultDetails (MessageDetails t _ _ _ _) => Some t
  | ResultDetails (AttackDetails t _ _) => Some t
  | ResultDetails (AllyDetails t) => Some t
  | _ => None
  end.

Definition set_status (s : Status) (a : ReplayAgent) : ReplayAgent :=
  mkReplayAgent (agent_id a) s (region a) (resources a) (alliances a)
                (created_at_tick a) (owner_identity a) (died_at_tick a)
                (parent_agent a).

Definition set_owner (o : option string) (a : ReplayAgent) : ReplayAgent :=
  mkReplayAgent (agent_id a) (status a) (region a) (resources a) (alliances a)
                (created_at_tick a) o (died_at_tick a) (parent_agent a).

Definition set_died (t : Z) (a : ReplayAgent) : ReplayAgent :=
  mkReplayAgent (agent_id a) (status a) (region a) (resources a) (alliances a)
                (created_at_tick a) (owner_identity a) (Some t) (parent_agent a).

Definition set_region (r : string) (a : ReplayAgent) : ReplayAgent :=
  mkReplayAgent (agent_id a) (status a) r (resources a) (alliances a)
                (created_at_tick a) (owner_identity a) (died_at_tick a)
                (parent_agent a).

Definition set_alliances (l : list string) (a : ReplayAgent) : ReplayAgent :=
  mkReplayAgent (agent_id a) (status a) (region a) (resources a) l
                (created_at_tick a) (owner_identity a) (died_at_tick a)
                (parent_agent a).

Definition _apply_event (event : Event) (agents : PyDict.t ReplayAgent)
    : PyDict.t ReplayAgent :=
  if negb (event_success event) then agents
  else
    let aid := event_agent event in
    let d := event_details event in
    let kind := event_action event in
    if String.eqb kind "tick" then agents
    else if String.eqb kind "register" then
      PyDict.set aid
        (mkReplayAgent aid unclaimed (default "nexus" (spawn_region_of d))
           (initial_resources_of d) [] (event_tick event) None None None)
        agents
    else if String.eqb kind "claim" then
      PyDict.update aid
        (fun a => set_owner (owner_identity_of d) (set_status claimed a)) agents
    else if String.eqb kind "death" then
      PyDict.update aid (fun a => set_died (event_tick event) (set_status dead a))
                    agents
    else if String.eqb kind "move" then
      PyDict.update aid (fun a => set_region (default (region a) (to_region_of d)) a)
                    agents
    else if String.eqb kind "fork" then
      if truthy (child_name_of d) then
        let child := default "" (child_name_of d) in
        PyDict.set child
          (mkReplayAgent child
             (match PyDict.get aid agents with
              | Some parent => status parent
              | None => unclaimed
              end)
             (default "nexus" (spawn_region_of d)) None [] (event_tick event)
             None None (Some aid))
          agents
      else agents
    else if String.eqb kind "merge" then
      if truthy (absorbed_agent_of d) then
        PyDict.update (default "" (absorbed_agent_of d))
          (fun a => set_died (event_tick event) (set_status dead a)) agents
      else agents
    else if String.eqb kind "attack" then agents
    else if String.eqb kind "ally" then
      if truthy (target_agent_of d) then
        let target := default "" (target_agent_of d) in
        PyDict.update aid
          (fun a =>
             if Regions.contains target (alliances a) then a
             else set_alliances (alliances a ++ [target])%list a)
          agents
      else agents
    else agents.

Record Snapshot : Type := mkSnapshot {
  snapshot_tick : Z;
  snapshot_agents : PyDict.t ReplayAgent;
  snapshot_regions : Regions.RegionManager;
  total_events : nat
}.

Definition reconstruct_at_tick (target_tick : Z) (l : EventLedger) : Snapshot :=
  let events := get_events 0 (Some target_tick) None None 1000000 l in
  mkSnapshot target_tick
    (fold_left (fun agents event => _apply_event event agents) events PyDict.empty)
    (Regions.initialize_defaults PyDict.empty)
    (length events).

Definition get_timeline (agent : string) (from_tick : Z) (to_tick : option Z)
    (l : EventLedger) : list Event :=
  get_events from_tick to_tick None (Some agent) 10000 l.

Definition get_world_timeline (from_tick : Z) (to_tick : option Z) (limit : Z)
    (l : EventLedger) : list Event :=
  get_events from_tick to_tick None None limit l.

End Replay.

(** ** [communication/noise.py] and [communication/messaging.py] *)

(** The state of the module [random] and the two draws the code makes;
    [randbelow n] is the index [random.choice] picks in a sequence of
    length [n]. *)
Class RandomSource : Type := {
  rng : Type;
  random : rng -> Q * rng;
  randbelow : nat -> rng -> nat * rng;
  randbelow_lt : forall n g, (0 < n)%nat -> (fst (randbelow n g) < n)%nat
}.

Module Noise.

(** [string.printable[:62]]: the digits and the ASCII letters. *)
Definition alphabet : string :=
  "0123456789abcdefghijklmnopqrstuvwxyzABCDEFGHIJKLMNOPQRSTUVWXYZ".

Section Noise.
Context `{RandomSource}.

(** [random.choice(string.printable[:62])] *)
Definition choice (g : rng) : ascii * rng :=
  let (i, g') := randbelow (String.length alphabet) g in
  (default "0"%char (String.get i alphabet), g').

(** The generator of the fully random branch. *)
Fixpoint garble (content : string) (g : rng) : string * rng :=
  match content with
  | EmptyString => (EmptyString, g)
  | String _ rest =>
      let (c, g1) := choice g in
      let (out, g2) := garble rest g1 in
      (String c out, g2)
  end.

(** The character loop of the partial branch. *)
Fixpoint corrupt (noise_factor : Q) (content : string) (g : rng) : string * rng :=
  match content with
  | EmptyString => (EmptyString, g)
  | String char rest =>
      let (r, g1) := random g in
      if Resources.Qltb r noise_factor then
        let (c, g2) := choice g1 in
        let (out, g3) := corrupt noise_factor rest g2 in
        (String c out, g3)
      else
        let (out, g2) := corrupt noise_factor rest g1 in
        (String char out, g2)
  end.

Definition apply_noise (content : string) (noise_factor : Q) (g : rng)
    : string * rng :=
  if Resources.Qleb noise_factor 0 then (content, g)
  else if Resources.Qleb 1 noise_factor then garble content g
  else corrupt noise_factor content g.
End Noise.

(** [estimate_readability] *)
Definition estimate_readability (noise_factor : Q) : string :=
  if Resources.Qleb noise_factor 0 then "crystal clear"
  else if Resources.Qleb noise_factor (1 # 10) then "minor static"
  else if Resources.Qleb noise_factor (3 # 10) then "noticeable interference"
  else if Resources.Qleb noise_factor (5 # 10) then "heavy distortion"
  else if Resources.Qleb noise_factor (8 # 10) then "barely legible"
  else "complete garbling".

End Noise.

Module Messaging.

Record Message : Type := mkMessage {
  message_id : string;
  tick : Z;
  from_agent : string;
  to_agent : string;
  content : string;
  noise_factor : Q;
  delivered : bool;
  sender_region : string;
  receiver_region : string
}.

Record MessageBus : Type := mkBus {
  _messages : list Message;
  _next_id : nat;
  _inbox : gmap string (list Message)
}.

Definition empty_bus : MessageBus := mkBus [] 0 ∅.

Section Bus.
Context `{RandomSource}.

Definition send_message (tick : Z) (from to text : string) (noise : Q)
    (sender receiver : string) (bus : MessageBus) (g : rng)
    : Message * MessageBus * rng :=
  let (noisy_content, g') := Noise.apply_noise text noise g in
  let msg :=
    mkMessage ("msg_" ++ Trade.pad8 (_next_id bus)) tick from to noisy_content
              noise true sender receiver in
  (msg,
   mkBus (_messages bus ++ [msg])%list (S (_next_id bus))
         (<[to := (default [] (_inbox bus !! to) ++ [msg])%list]> (_inbox bus)),
   g').
End Bus.

Definition get_inbox (agent_id : string) (since_tick : Z) (bus : MessageBus)
    : list Message :=
  List.filter (fun m => negb (tick m <? since_tick)%Z)
              (default [] (_inbox bus !! agent_id)).

Definition get_all_messages (from_tick : Z) (to_tick : option Z) (bus : MessageBus)
    : list Message :=
  List.filter
    (fun m =>
       negb (tick m <? from_tick)%Z
       && match to_tick with
          | Some t => negb (t <? tick m)%Z
          | None => true
          end)
    (_messages bus).

Definition message_count (bus : MessageBus) : nat := length (_messages bus).

End Messaging.


(** * The kernel on Python's own values

    The modules above idealise: a holding is a rational, the [params] of an
    action are a record of optional strings and numbers, and no call raises.
    That is the right setting for the order invariants of the world (no
    negative holding, caps, capacity), which hold of the rationals and
    survive rounding.  Where the behaviour of the program depends on what
    Python does with the values it is really given, the same functions are
    embedded again in [Py], on those values:

    - a [float] is an IEEE 754 binary64 number with round-to-nearest-even
      arithmetic ([SpecFloat]); the [int] [0] that [max(0, x)] returns is
      the float [+0.0], with which it agrees under every operation the
      kernel applies to a holding;
    - the body of a request is what [json.loads] returns ([Json.t]): [None],
      [bool], [int] of any size, [float] (with [NaN] and the infinities,
      which [json.loads] accepts), [str], [list] and [dict];
    - the agent map is a [dict] keyed by whatever hashable value an agent
      was stored under: a fork stores its child under the [child_name] of
      the request, which no code checks to be a string;
    - a call returns or raises ([Outcome]); state written before the
      exception stays written;
    - a list that two objects share is one list: the [visible_agents] of an
      observe result is the occupant list of the region, by reference;
    - the engine, the gateway and the trade manager run one call at a time,
      in the order given; the file that [save] writes and the lines that the
      ledger appends to its file are outside the model. *)

Module Py.

Local Open Scope Z_scope.

(** The exceptions that the modelled code can raise. *)
Inductive PyError : Type :=
  | AttributeError   (* [params.get] on a value that is not a dict *)
  | TypeError        (* an unhashable key; [<] or arithmetic on a non-number *)
  | OverflowError    (* an [int] too large to convert to [float]; [x ** 2] *)
  | ValueError.      (* [math.sqrt] of a negative number *)

Inductive Outcome (A : Type) : Type :=
  | Returned (a : A)
  | Raised (e : PyError).
Arguments Returned {A} a.
Arguments Raised {A} e.

Definition returned {A : Type} (o : Outcome A) : bool :=
  match o with Returned _ => true | Raised _ => false end.

(** ** [float]: IEEE 754 binary64 *)

Module Float.

Definition t : Type := SpecFloat.spec_float.

Definition prec : Z := 53.
Definition emax : Z := 1024.

Definition add : t -> t -> t := SpecFloat.SFadd prec emax.
Definition sub : t -> t -> t := SpecFloat.SFsub prec emax.
Definition mul : t -> t -> t := SpecFloat.SFmul prec emax.
Definition div : t -> t -> t := SpecFloat.SFdiv prec emax.
Definition sqrt : t -> t := SpecFloat.SFsqrt prec emax.

(** [x < y], [x <= y] and [x == y]; all three are false when either side
    is [NaN]. *)
Definition ltb : t -> t -> bool := SpecFloat.SFltb.
Definition leb : t -> t -> bool := SpecFloat.SFleb.
Definition eqb : t -> t -> bool := SpecFloat.SFeqb.

Definition is_nan (x : t) : bool :=
  match x with SpecFloat.S754_nan => true | _ => false end.

Definition is_infinite (x : t) : bool :=
  match x with SpecFloat.S754_infinity _ => true | _ => false end.

Definition zero : t := SpecFloat.S754_zero false.

(** The float nearest to an integer (ties to even); an infinity when the
    integer is out of range. *)
Definition of_Z (z : Z) : t := SpecFloat.binary_normalize prec emax z 0 false.

(** The decimal literal [n / 10^k], as the parser rounds it: [dec 3 1] is
    [0.3].  Exact for the literals of the kernel, whose digits and power of
    ten are both floats. *)
Definition dec (n : Z) (k : nat) : t := div (of_Z n) (of_Z (10 ^ Z.of_nat k)).

(** [max(0, x)]: [x] when [x > 0], else the first argument. *)
Definition max0 (x : t) : t := if ltb zero x then x else zero.

(** [min(x, y)]: [y] when [y < x], else the first argument. *)
Definition min (x y : t) : t := if ltb y x then y else x.

(** Exact comparison of a float with an [int], as [float.__lt__] and
    [float.__eq__] do it (no conversion, hence no overflow). *)
Definition compare_Z (x : t) (z : Z) : option comparison :=
  match x with
  | SpecFloat.S754_nan => None
  | SpecFloat.S754_infinity s => Some (if s then Lt else Gt)
  | SpecFloat.S754_zero _ => Some (0 ?= z)
  | SpecFloat.S754_finite s m e =>
      let v := if s then Zneg m else Zpos m in
      Some (if 0 <=? e then (v * 2 ^ e ?= z) else (v ?= z * 2 ^ (- e)))
  end.

(** [float(z)], which the arithmetic of a float with an [int] starts with. *)
Definition of_int (z : Z) : Outcome t :=
  let x := of_Z z in
  if is_infinite x then Raised OverflowError else Returned x.

End Float.

(** ** What [json.loads] returns *)

Module Json.

#[warnings="-register-all"]
Inductive t : Type :=
  | JNull
  | JBool (b : bool)
  | JInt (z : Z)
  | JFloat (x : Float.t)
  | JStr (s : string)
  | JList (items : list t)
  | JDict (entries : list (string * t)).

(** [bool(v)] *)
Definition truthy (v : t) : bool :=
  match v with
  | JNull => false
  | JBool b => b
  | JInt z => negb (z =? 0)
  | JFloat x => negb (Float.eqb x Float.zero)
  | JStr s => negb (String.eqb s "")
  | JList items => match items with [] => false | _ :: _ => true end
  | JDict entries => match entries with [] => false | _ :: _ => true end
  end.

(** Lists and dicts cannot be hashed: using one as a key or looking one up
    in a dict raises [TypeError]. *)
Definition hashable (v : t) : bool :=
  match v with
  | JList _ | JDict _ => false
  | _ => true
  end.

(** A number as the arithmetic sees it: [bool] is a subclass of [int]. *)
Inductive Number : Type :=
  | NInt (z : Z)
  | NFloat (x : Float.t).

Definition number (v : t) : option Number :=
  match v with
  | JBool b => Some (NInt (if b then 1 else 0))
  | JInt z => Some (NInt z)
  | JFloat x => Some (NFloat x)
  | _ => None
  end.

Definition number_eqb (a b : Number) : bool :=
  match a, b with
  | NInt x, NInt y => x =? y
  | NFloat x, NFloat y =>
      (* [json.loads] hands out one [NaN] object, and membership tests
         identity before equality *)
      (Float.is_nan x && Float.is_nan y) || Float.eqb x y
  | NInt z, NFloat x | NFloat x, NInt z =>
      match Float.compare_Z x z with Some Eq => true | _ => false end
  end.

(** [a is b or a == b] on values that can be keys: what [k in d], [d.get(k)],
    [x in l] and [l.remove(x)] compare with.  [1], [1.0] and [True] are one
    key; a string is equal to strings only. *)
Definition same (a b : t) : bool :=
  match a, b with
  | JNull, JNull => true
  | JStr x, JStr y => String.eqb x y
  | _, _ =>
      match number a, number b with
      | Some x, Some y => number_eqb x y
      | _, _ => false
      end
  end.

Fixpoint lookup (key : string) (entries : list (string * t)) : option t :=
  match entries with
  | [] => None
  | (k, v) :: rest => if String.eqb key k then Some v else lookup key rest
  end.

(** [params.get(key)]: [None] stands for an absent key.  A value that is
    not a dict has no [get]. *)
Definition get (params : t) (key : string) : Outcome (option t) :=
  match params with
  | JDict entries => Returned (lookup key entries)
  | _ => Raised AttributeError
  end.

(** [x in l] *)
Fixpoint contains (x : t) (l : list t) : bool :=
  match l with
  | [] => false
  | y :: rest => if same y x then true else contains x rest
  end.

(** [l.remove(x)]: drops the first element equal to [x]. *)
Fixpoint list_remove (x : t) (l : list t) : list t :=
  match l with
  | [] => []
  | y :: rest => if same y x then rest else y :: list_remove x rest
  end.

End Json.

(** ** A [dict] with hashable keys, in insertion order *)

Module KDict.

Definition t (V : Type) : Type := list (Json.t * V).

Definition empty {V : Type} : t V := [].

(** [d.get(k)] for a hashable [k] *)
Fixpoint get {V : Type} (k : Json.t) (d : t V) : option V :=
  match d with
  | [] => None
  | (k', v) :: rest => if Json.same k' k then Some v else get k rest
  end.

Definition mem {V : Type} (k : Json.t) (d : t V) : bool :=
  match get k d with Some _ => true | None => false end.

(** [d[k] = v]: an equal key keeps its place and its key object and gets the
    new value; a new key goes to the end. *)
Fixpoint set {V : Type} (k : Json.t) (v : V) (d : t V) : t V :=
  match d with
  | [] => [(k, v)]
  | (k', v') :: rest =>
      if Json.same k' k then (k', v) :: rest else (k', v') :: set k v rest
  end.

(** Mutation of the object stored under [k]. *)
Definition update {V : Type} (k : Json.t) (f : V -> V) (d : t V) : t V :=
  match get k d with
  | Some v => set k (f v) d
  | None => d
  end.

Definition keys {V : Type} (d : t V) : list Json.t := map fst d.

End KDict.

(** ** [world/resources.py], on floats *)

Module Resources.
Export Resources(ResourceType, ENERGY, BANDWIDTH, MEMORY, COMPUTE,
                 all_resource_types, value, of_string).

(** A dict [ResourceType -> float] with all four keys present. *)
Record Amounts : Type := mkAmounts {
  energy : Float.t;
  bandwidth : Float.t;
  memory : Float.t;
  compute : Float.t
}.

Definition aget (h : Amounts) (r : ResourceType) : Float.t :=
  match r with
  | ENERGY => energy h
  | BANDWIDTH => bandwidth h
  | MEMORY => memory h
  | COMPUTE => compute h
  end.

Definition aset (h : Amounts) (r : ResourceType) (v : Float.t) : Amounts :=
  match r with
  | ENERGY => mkAmounts v (bandwidth h) (memory h) (compute h)
  | BANDWIDTH => mkAmounts (energy h) v (memory h) (compute h)
  | MEMORY => mkAmounts (energy h) (bandwidth h) v (compute h)
  | COMPUTE => mkAmounts (energy h) (bandwidth h) (memory h) v
  end.

(** [RESOURCE_DEFAULTS] *)
Definition default_cap (r : ResourceType) : Float.t :=
  match r with
  | ENERGY => Float.of_Z 100
  | BANDWIDTH => Float.of_Z 50
  | MEMORY => Float.of_Z 200
  | COMPUTE => Float.of_Z 80
  end.

Definition default_regen (r : ResourceType) : Float.t :=
  match r with
  | ENERGY => Float.of_Z 2
  | BANDWIDTH => Float.of_Z 1
  | MEMORY => Float.of_Z 0
  | COMPUTE => Float.dec 15 1
  end.

Definition default_initial (r : ResourceType) : Float.t :=
  match r with
  | ENERGY => Float.of_Z 50
  | BANDWIDTH => Float.of_Z 25
  | MEMORY => Float.of_Z 100
  | COMPUTE => Float.of_Z 40
  end.

Definition Costs : Type := list (ResourceType * Float.t).

(** [ACTION_COSTS.get(action_type, {})] *)
Definition ACTION_COSTS (action_type : string) : Costs :=
  if String.eqb action_type "move" then [(ENERGY, Float.of_Z 5)]
  else if String.eqb action_type "trade" then
    [(ENERGY, Float.of_Z 2); (BANDWIDTH, Float.of_Z 3)]
  else if String.eqb action_type "send_message" then
    [(BANDWIDTH, Float.of_Z 5); (ENERGY, Float.of_Z 1)]
  else if String.eqb action_type "observe" then [(ENERGY, Float.of_Z 1)]
  else if String.eqb action_type "fork" then
    [(ENERGY, Float.of_Z 40); (MEMORY, Float.of_Z 50); (COMPUTE, Float.of_Z 30)]
  else if String.eqb action_type "merge" then
    [(ENERGY, Float.of_Z 20); (COMPUTE, Float.of_Z 20)]
  else if String.eqb action_type "attack" then
    [(ENERGY, Float.of_Z 15); (COMPUTE, Float.of_Z 10)]
  else if String.eqb action_type "ally" then
    [(ENERGY, Float.of_Z 3); (BANDWIDTH, Float.of_Z 2)]
  else [].

Record ResourcePool : Type := mkPool {
  holdings : Amounts;
  caps : Amounts
}.

Definition with_holdings (p : ResourcePool) (h : Amounts) : ResourcePool :=
  mkPool h (caps p).

Definition create_default : ResourcePool :=
  mkPool
    (mkAmounts (default_initial ENERGY) (default_initial BANDWIDTH)
               (default_initial MEMORY) (default_initial COMPUTE))
    (mkAmounts (default_cap ENERGY) (default_cap BANDWIDTH)
               (default_cap MEMORY) (default_cap COMPUTE)).

Fixpoint can_afford_holdings (h : Amounts) (costs : Costs) : bool :=
  match costs with
  | [] => true
  | (rtype, amount) :: rest =>
      if Float.ltb (aget h rtype) amount then false
      else can_afford_holdings h rest
  end.

Definition can_afford (p : ResourcePool) (costs : Costs) : bool :=
  can_afford_holdings (holdings p) costs.

(** The loop [for rtype, amount in costs.items(): holdings[rtype] -= amount] *)
Fixpoint subtract_all (h : Amounts) (costs : Costs) : Amounts :=
  match costs with
  | [] => h
  | (rtype, amount) :: rest =>
      subtract_all (aset h rtype (Float.sub (aget h rtype) amount)) rest
  end.

(** [deduct] returns its boolean and the pool as the call leaves it. *)
Definition deduct (p : ResourcePool) (costs : Costs) : bool * ResourcePool :=
  if negb (can_afford p costs) then (false, p)
  else (true, with_holdings p (subtract_all (holdings p) costs)).

Definition regenerate_one (region_multiplier : Float.t) (p : ResourcePool)
    (rtype : ResourceType) : ResourcePool :=
  let regen := Float.mul (default_regen rtype) region_multiplier in
  let current := aget (holdings p) rtype in
  let cap := aget (caps p) rtype in
  with_holdings p (aset (holdings p) rtype (Float.min (Float.add current regen) cap)).

Definition regenerate (p : ResourcePool) (region_multiplier : Float.t)
    : ResourcePool :=
  fold_left (regenerate_one region_multiplier) all_resource_types p.

End Resources.

(** ** Library functions of the regions *)

Class Libm : Type := {
  (** [x ** 2] on a float, which raises [OverflowError] when the result is
      out of range *)
  float_square : Float.t -> Outcome Float.t;
  (** [math.sqrt], which raises [ValueError] on a negative argument *)
  math_sqrt : Float.t -> Outcome Float.t
}.

(** ** [world/regions.py], on floats *)

Module Regions.

Record Region : Type := mkRegion {
  region_id : string;
  name : string;
  description : string;
  x : Float.t;
  y : Float.t;
  resource_multiplier : Float.t;
  danger_level : Float.t;
  capacity : Z;
  current_agents : list Json.t
}.

Definition with_current_agents (r : Region) (l : list Json.t) : Region :=
  mkRegion (region_id r) (name r) (description r) (x r) (y r)
           (resource_multiplier r) (danger_level r) (capacity r) l.

Definition is_full (r : Region) : bool :=
  capacity r <=? Z.of_nat (length (current_agents r)).

Definition add_agent (r : Region) (agent_id : Json.t) : bool * Region :=
  if is_full r || Json.contains agent_id (current_agents r) then (false, r)
  else (true, with_current_agents r (current_agents r ++ [agent_id])%list).

Definition remove_agent (r : Region) (agent_id : Json.t) : bool * Region :=
  if negb (Json.contains agent_id (current_agents r)) then (false, r)
  else (true, with_current_agents r (Json.list_remove agent_id (current_agents r))).

(** The dict [to_dict] returns: a copy of the scalar fields and the number
    of occupants. *)
Record RegionInfo : Type := mkInfo {
  info_region_id : string;
  info_name : string;
  info_description : string;
  info_x : Float.t;
  info_y : Float.t;
  info_resource_multiplier : Float.t;
  info_danger_level : Float.t;
  info_capacity : Z;
  agent_count : nat
}.

Definition to_dict (r : Region) : RegionInfo :=
  mkInfo (region_id r) (name r) (description r) (x r) (y r)
         (resource_multiplier r) (danger_level r) (capacity r)
         (length (current_agents r)).

Section Geometry.
Context `{Libm}.

Definition distance (a b : Region) : Outcome Float.t :=
  match float_square (Float.sub (x a) (x b)) with
  | Raised e => Raised e
  | Returned dx2 =>
      match float_square (Float.sub (y a) (y b)) with
      | Raised e => Raised e
      | Returned dy2 => math_sqrt (Float.add dx2 dy2)
      end
  end.

Definition movement_cost_multiplier (a b : Region) : Outcome Float.t :=
  match distance a b with
  | Raised e => Raised e
  | Returned dist => Returned (Float.add (Float.of_Z 1) (Float.mul dist (Float.dec 5 1)))
  end.

Definition communication_noise_factor (a b : Region) : Outcome Float.t :=
  match distance a b with
  | Raised e => Raised e
  | Returned dist => Returned (Float.min (Float.mul dist (Float.dec 1 1)) (Float.dec 8 1))
  end.
End Geometry.

(** [DEFAULT_REGIONS] *)
Definition DEFAULT_REGIONS : list Region :=
  [ mkRegion "nexus" "The Nexus"
      "Central hub. Low danger, moderate resources. Spawn point."
      (Float.of_Z 0) (Float.of_Z 0) (Float.of_Z 1) (Float.dec 5 2) 200 [];
    mkRegion "forge" "The Forge"
      "High compute region. Rich in compute resources but energy-hungry."
      (Float.of_Z 3) (Float.of_Z 1) (Float.dec 15 1) (Float.dec 2 1) 80 [];
    mkRegion "wasteland" "The Wasteland"
      "Dangerous frontier. Scarce resources, high risk, high reward."
      (Float.of_Z (-4)) (Float.of_Z 3) (Float.dec 5 1) (Float.dec 7 1) 50 [];
    mkRegion "archive" "The Archive"
      "Memory-rich zone. High memory capacity, low bandwidth."
      (Float.of_Z 1) (Float.of_Z (-3)) (Float.dec 12 1) (Float.dec 1 1) 100 [];
    mkRegion "void" "The Void"
      "Edge of the world. Minimal resources, maximum danger. Unknown rewards."
      (Float.of_Z (-2)) (Float.of_Z (-5)) (Float.dec 3 1) (Float.dec 9 1) 30 [] ].

(** [RegionManager]: the dict [regions], whose keys are the five strings
    above. *)
Definition RegionManager : Type := PyDict.t Region.

Definition initialize_defaults (m : RegionManager) : RegionManager :=
  fold_left (fun acc r => PyDict.set (region_id r) r acc) DEFAULT_REGIONS m.

(** [self.regions.get(region_id)] with a string *)
Definition get (m : RegionManager) (rid : string) : option Region :=
  PyDict.get rid m.

(** [self.regions.get(v)] with a value of a request: only a string can be
    equal to a key; a list or a dict cannot be hashed. *)
Definition get_json (m : RegionManager) (v : Json.t) : Outcome (option Region) :=
  match v with
  | Json.JStr rid => Returned (PyDict.get rid m)
  | _ => if Json.hashable v then Returned None else Raised TypeError
  end.

End Regions.

(** ** [world/state.py] *)

Module State.
Import Resources.
Export State(Status, unclaimed, claimed, dead, status_eqb).

(** The fields that the engine and the trade manager read or write.  An
    agent that registered is stored under a string; the child of a fork is
    stored under the [child_name] of the request, whatever it is. *)
Record AgentState : Type := mkAgent {
  agent_id : Json.t;
  display_name : Json.t;
  public_key : string;
  region : string;
  resources : ResourcePool;
  status : Status;
  owner_identity : option string;
  alliances : list Json.t;
  created_at_tick : Z;
  died_at_tick : option Z;
  parent_agent : option Json.t
}.

Definition is_alive (a : AgentState) : bool :=
  match status a with
  | unclaimed | claimed => true
  | dead => false
  end.

Definition set_region (v : string) (a : AgentState) : AgentState :=
  mkAgent (agent_id a) (display_name a) (public_key a) v (resources a)
          (status a) (owner_identity a) (alliances a) (created_at_tick a)
          (died_at_tick a) (parent_agent a).

Definition set_resources (v : ResourcePool) (a : AgentState) : AgentState :=
  mkAgent (agent_id a) (display_name a) (public_key a) (region a) v
          (status a) (owner_identity a) (alliances a) (created_at_tick a)
          (died_at_tick a) (parent_agent a).

Definition set_holdings (h : Amounts) (a : AgentState) : AgentState :=
  set_resources (with_holdings (resources a) h) a.

Definition set_alliances (v : list Json.t) (a : AgentState) : AgentState :=
  mkAgent (agent_id a) (display_name a) (public_key a) (region a) (resources a)
          (status a) (owner_identity a) v (created_at_tick a)
          (died_at_tick a) (parent_agent a).

(** [a.status = "dead"; a.died_at_tick = tick] *)
Definition mark_dead (tick : Z) (a : AgentState) : AgentState :=
  mkAgent (agent_id a) (display_name a) (public_key a) (region a) (resources a)
          dead (owner_identity a) (alliances a) (created_at_tick a)
          (Some tick) (parent_agent a).

Record AllianceProposal : Type := mkProposal {
  proposal_from : Json.t;
  proposal_to : Json.t;
  proposal_tick : Z
}.

Record WorldState : Type := mkWorld {
  tick : Z;
  agents : KDict.t AgentState;
  region_manager : Regions.RegionManager;
  alliance_proposals : list AllianceProposal
}.

Definition with_agents (w : WorldState) (d : KDict.t AgentState) : WorldState :=
  mkWorld (tick w) d (region_manager w) (alliance_proposals w).

Definition with_regions (w : WorldState) (m : Regions.RegionManager) : WorldState :=
  mkWorld (tick w) (agents w) m (alliance_proposals w).

Definition with_proposals (w : WorldState) (l : list AllianceProposal) : WorldState :=
  mkWorld (tick w) (agents w) (region_manager w) l.

(** [WorldState()] followed by [initialize()] *)
Definition initial_world : WorldState :=
  mkWorld 0 KDict.empty (Regions.initialize_defaults PyDict.empty) [].

(** Mutation of the agent object stored under [aid]. *)
Definition modify_agent (aid : Json.t) (f : AgentState -> AgentState)
    (w : WorldState) : WorldState :=
  with_agents w (KDict.update aid f (agents w)).

(** [region.add_agent(agent_id)] on the region object stored under [rid] *)
Definition region_add (rid : string) (aid : Json.t) (m : Regions.RegionManager)
    : Regions.RegionManager :=
  PyDict.update rid (fun r => snd (Regions.add_agent r aid)) m.

(** [region.remove_agent(agent_id)] on the region object stored under [rid] *)
Definition region_remove (rid : string) (aid : Json.t) (m : Regions.RegionManager)
    : Regions.RegionManager :=
  PyDict.update rid (fun r => snd (Regions.remove_agent r aid)) m.

(** [add_agent]: [self.agents[agent.agent_id] = agent] raises on an id that
    cannot be hashed, before the region is touched. *)
Definition add_agent (w : WorldState) (a : AgentState) : Outcome WorldState :=
  if negb (Json.hashable (agent_id a)) then Raised TypeError
  else
    Returned
      (mkWorld (tick w)
               (KDict.set (agent_id a) a (agents w))
               (region_add (region a) (agent_id a) (region_manager w))
               (alliance_proposals w)).

(** [get_agent] with a hashable id *)
Definition get_agent (w : WorldState) (aid : Json.t) : option AgentState :=
  KDict.get aid (agents w).

(** Drops the id from its region's occupants; the agent map keeps the entry. *)
Definition remove_agent (w : WorldState) (aid : Json.t) : WorldState :=
  match KDict.get aid (agents w) with
  | Some a => with_regions w (region_remove (region a) aid (region_manager w))
  | None => w
  end.

(** The value [{"region": a.region, "status": a.status}] *)
Record AgentSummary : Type := mkSummary {
  summary_region : string;
  summary_status : Status
}.

Definition get_all_agents_summary (w : WorldState) : KDict.t AgentSummary :=
  map (fun kv => (fst kv, mkSummary (region (snd kv)) (status (snd kv))))
      (agents w).

Definition advance_tick (w : WorldState) : Z * WorldState :=
  let t := tick w + 1 in
  (t, mkWorld t (agents w) (region_manager w) (alliance_proposals w)).

End State.

(** ** [world/rules.py] *)

Module Rules.
Import Resources State.
Import Json(JNull, JBool, JInt, JFloat, JStr, JList, JDict).

(** The list object behind [visible_agents] in the details of an observe
    result: the [current_agents] of the region, the very list that later
    moves, forks and deaths append to and remove from, or a new empty list
    when the region does not exist. *)
Inductive Occupants : Type :=
  | OccupantsOf (rid : string)
  | NoOccupants.

(** The [details] dict of a result, one shape per action.  Values taken from
    the request are kept as they came. *)
Inductive Details : Type :=
  | NoDetails
  | MoveDetails (from_region to_region : string) (cost : list (string * Float.t))
  | TradeDetails (target_agent offer_resource offer_amount
                  request_resource request_amount : Json.t)
  | MessageDetails (target_agent content : Json.t) (noise_factor : Float.t)
                   (sender_region receiver_region : string)
  | ObserveDetails (region_info : option Regions.RegionInfo)
                   (visible_agents : Occupants) (at_tick : Z)
  | ForkDetails (child_name : Json.t) (parent_agent spawn_region : string)
  | MergeDetails (absorbed_agent : Json.t) (surviving_agent : string)
  | AttackDetails (target_agent : Json.t) (attacker_strength region_danger : Float.t)
  | AllyDetails (target_agent : Json.t)
  | DeathDetails (cause region_name : string) (danger : Float.t).

Record ActionResult : Type := mkResult {
  success : bool;
  action_type : string;
  result_agent : Json.t;
  details : Details;
  result_tick : Z;
  error : option string
}.

Definition failure (kind aid : string) (t : Z) (msg : string) : ActionResult :=
  mkResult false kind (JStr aid) NoDetails t (Some msg).

Definition succeeded (kind : string) (aid : Json.t) (d : Details) (t : Z)
    : ActionResult :=
  mkResult true kind aid d t None.

(** What a call of a handler leaves behind: the result it returns or the
    exception it raises, the caller's pool and the region objects. *)
Record Resolution : Type := mkResolution {
  outcome : Outcome ActionResult;
  pool_after : ResourcePool;
  regions_after : Regions.RegionManager
}.

(** [params.get(key)] and [params.get(key, fallback)] on the entries of a
    dict: a key that is present with [null] yields [None], not the
    fallback. *)
Definition field (entries : list (string * Json.t)) (key : string) : Json.t :=
  default JNull (Json.lookup key entries).

Definition field_or (entries : list (string * Json.t)) (key : string)
    (fallback : Json.t) : Json.t :=
  default fallback (Json.lookup key entries).

(** [v in all_agents] *)
Definition known {V : Type} (v : Json.t) (all_agents : KDict.t V) : Outcome bool :=
  if Json.hashable v then Returned (KDict.mem v all_agents) else Raised TypeError.

Section Handlers.
Context `{Libm}.

Definition Handler : Type :=
  string -> ResourcePool -> string -> Json.t -> Z -> Costs ->
  KDict.t AgentSummary -> Regions.RegionManager -> Resolution.

Definition _resolve_move : Handler :=
  fun agent_id resources current_region params tick base_costs all_agents rm =>
  match params with
  | JDict entries =>
      let target_region_id := field entries "target_region" in
      if negb (Json.truthy target_region_id) then
        mkResolution (Returned (failure "move" agent_id tick "Missing target_region"))
                     resources rm
      else
        match Regions.get_json rm target_region_id with
        | Raised e => mkResolution (Raised e) resources rm
        | Returned found =>
            match Regions.get rm current_region, found, target_region_id with
            | Some source, Some target, JStr to_region =>
                if Regions.is_full target then
                  mkResolution
                    (Returned (failure "move" agent_id tick "Target region full"))
                    resources rm
                else
                  match Regions.movement_cost_multiplier source target with
                  | Raised e => mkResolution (Raised e) resources rm
                  | Returned multiplier =>
                      let actual_costs :=
                        map (fun rc => (fst rc, Float.mul (snd rc) multiplier))
                            base_costs in
                      let (ok, resources') := deduct resources actual_costs in
                      if negb ok then
                        mkResolution
                          (Returned (failure "move" agent_id tick
                                       "Insufficient resources for move"))
                          resources' rm
                      else
                        let rm1 := region_remove current_region (JStr agent_id) rm in
                        let rm2 := region_add to_region (JStr agent_id) rm1 in
                        mkResolution
                          (Returned
                             (succeeded "move" (JStr agent_id)
                                (MoveDetails current_region to_region
                                   (map (fun rc => (value (fst rc), snd rc))
                                        actual_costs))
                                tick))
                          resources' rm2
                  end
            | _, _, _ =>
                mkResolution (Returned (failure "move" agent_id tick "Invalid region"))
                             resources rm
            end
        end
  | _ => mkResolution (Raised AttributeError) resources rm
  end.

Definition _resolve_trade : Handler :=
  fun agent_id resources current_region params tick base_costs all_agents rm =>
  match params with
  | JDict entries =>
      let target_agent := field entries "target_agent" in
      let offer_resource := field entries "offer_resource" in
      let offer_amount := field_or entries "offer_amount" (JInt 0) in
      let request_resource := field entries "request_resource" in
      let request_amount := field_or entries "request_amount" (JInt 0) in
      if negb (Json.truthy target_agent && Json.truthy offer_resource
               && Json.truthy request_resource) then
        mkResolution (Returned (failure "trade" agent_id tick "Missing trade parameters"))
                     resources rm
      else
        match known target_agent all_agents with
        | Raised e => mkResolution (Raised e) resources rm
        | Returned false =>
            mkResolution (Returned (failure "trade" agent_id tick "Target agent not found"))
                         resources rm
        | Returned true =>
            let (ok, resources') := deduct resources base_costs in
            if negb ok then
              mkResolution
                (Returned (failure "trade" agent_id tick
                             "Insufficient resources for trade action"))
                resources' rm
            else
              mkResolution
                (Returned
                   (succeeded "trade" (JStr agent_id)
                      (TradeDetails target_agent offer_resource offer_amount
                                    request_resource request_amount)
                      tick))
                resources' rm
        end
  | _ => mkResolution (Raised AttributeError) resources rm
  end.

Definition _resolve_send_message : Handler :=
  fun agent_id resources current_region params tick base_costs all_agents rm =>
  match params with
  | JDict entries =>
      let target_agent := field entries "target_agent" in
      let content := field_or entries "content" (JStr "") in
      if negb (Json.truthy target_agent) then
        mkResolution
          (Returned (failure "send_message" agent_id tick "Missing target_agent"))
          resources rm
      else if negb (Json.hashable target_agent) then
        mkResolution (Raised TypeError) resources rm
      else
        match KDict.get target_agent all_agents with
        | None =>
            mkResolution
              (Returned (failure "send_message" agent_id tick "Target agent not found"))
              resources rm
        | Some summary =>
            let (ok, resources') := deduct resources base_costs in
            if negb ok then
              mkResolution
                (Returned (failure "send_message" agent_id tick "Insufficient resources"))
                resources' rm
            else
              let target_region_id := summary_region summary in
              let noise :=
                match Regions.get rm current_region, Regions.get rm target_region_id with
                | Some source_region, Some target_region =>
                    Regions.communication_noise_factor source_region target_region
                | _, _ => Returned Float.zero
                end in
              match noise with
              | Raised e => mkResolution (Raised e) resources' rm
              | Returned noise =>
                  mkResolution
                    (Returned
                       (succeeded "send_message" (JStr agent_id)
                          (MessageDetails target_agent content noise
                             current_region target_region_id)
                          tick))
                    resources' rm
              end
        end
  | _ => mkResolution (Raised AttributeError) resources rm
  end.

(** [_resolve_observe] never reads [params]. *)
Definition _resolve_observe : Handler :=
  fun agent_id resources current_region params tick base_costs all_agents rm =>
  let (ok, resources') := deduct resources base_costs in
  if negb ok then
    mkResolution (Returned (failure "observe" agent_id tick "Insufficient resources"))
                 resources' rm
  else
    let region := Regions.get rm current_region in
    let visible_agents :=
      match region with Some _ => OccupantsOf current_region | None => NoOccupants end in
    let region_info := option_map Regions.to_dict region in
    mkResolution
      (Returned
         (succeeded "observe" (JStr agent_id)
            (ObserveDetails region_info visible_agents tick) tick))
      resources' rm.

(** [_resolve_fork] debits before it reads [params]. *)
Definition _resolve_fork : Handler :=
  fun agent_id resources current_region params tick base_costs all_agents rm =>
  let (ok, resources') := deduct resources base_costs in
  if negb ok then
    mkResolution
      (Returned (failure "fork" agent_id tick "Insufficient resources for fork"))
      resources' rm
  else
    match params with
    | JDict entries =>
        let child_name :=
          field_or entries "child_name"
            (JStr (agent_id ++ "_fork_" ++ Rules.tick_string tick)) in
        mkResolution
          (Returned
             (succeeded "fork" (JStr agent_id)
                (ForkDetails child_name agent_id current_region) tick))
          resources' rm
    | _ => mkResolution (Raised AttributeError) resources' rm
    end.

Definition _resolve_merge : Handler :=
  fun agent_id resources current_region params tick base_costs all_agents rm =>
  match params with
  | JDict entries =>
      let target_agent := field entries "target_agent" in
      if negb (Json.truthy target_agent) then
        mkResolution (Returned (failure "merge" agent_id tick "Invalid merge target"))
                     resources rm
      else
        match known target_agent all_agents with
        | Raised e => mkResolution (Raised e) resources rm
        | Returned false =>
            mkResolution (Returned (failure "merge" agent_id tick "Invalid merge target"))
                         resources rm
        | Returned true =>
            let (ok, resources') := deduct resources base_costs in
            if negb ok then
              mkResolution
                (Returned (failure "merge" agent_id tick
                             "Insufficient resources for merge"))
                resources' rm
            else
              mkResolution
                (Returned
                   (succeeded "merge" (JStr agent_id)
                      (MergeDetails target_agent agent_id) tick))
                resources' rm
        end
  | _ => mkResolution (Raised AttributeError) resources rm
  end.

Definition _resolve_attack : Handler :=
  fun agent_id resources current_region params tick base_costs all_agents rm =>
  match params with
  | JDict entries =>
      let target_agent := field entries "target_agent" in
      if negb (Json.truthy target_agent) then
        mkResolution (Returned (failure "attack" agent_id tick "Invalid attack target"))
                     resources rm
      else if negb (Json.hashable target_agent) then
        mkResolution (Raised TypeError) resources rm
      else
        match KDict.get target_agent all_agents with
        | None =>
            mkResolution
              (Returned (failure "attack" agent_id tick "Invalid attack target"))
              resources rm
        | Some summary =>
            if negb (String.eqb (summary_region summary) current_region) then
              mkResolution
                (Returned (failure "attack" agent_id tick "Target not in same region"))
                resources rm
            else
              let (ok, resources') := deduct resources base_costs in
              if negb ok then
                mkResolution
                  (Returned (failure "attack" agent_id tick
                               "Insufficient resources for attack"))
                  resources' rm
              else
                let attacker_strength :=
                  Float.add (aget (holdings resources') COMPUTE)
                            (aget (holdings resources') ENERGY) in
                let danger :=
                  match Regions.get rm current_region with
                  | Some region => Regions.danger_level region
                  | None => Float.zero
                  end in
                mkResolution
                  (Returned
                     (succeeded "attack" (JStr agent_id)
                        (AttackDetails target_agent attacker_strength danger) tick))
                  resources' rm
        end
  | _ => mkResolution (Raised AttributeError) resources rm
  end.

Definition _resolve_ally : Handler :=
  fun agent_id resources current_region params tick base_costs all_agents rm =>
  match params with
  | JDict entries =>
      let target_agent := field entries "target_agent" in
      if negb (Json.truthy target_agent) then
        mkResolution (Returned (failure "ally" agent_id tick "Invalid ally target"))
                     resources rm
      else
        match known target_agent all_agents with
        | Raised e => mkResolution (Raised e) resources rm
        | Returned false =>
            mkResolution (Returned (failure "ally" agent_id tick "Invalid ally target"))
                         resources rm
        | Returned true =>
            let (ok, resources') := deduct resources base_costs in
            if negb ok then
              mkResolution
                (Returned (failure "ally" agent_id tick "Insufficient resources"))
                resources' rm
            else
              mkResolution
                (Returned
                   (succeeded "ally" (JStr agent_id) (AllyDetails target_agent) tick))
                resources' rm
        end
  | _ => mkResolution (Raised AttributeError) resources rm
  end.

(** [getattr(self, f"_resolve_{action_type}", None)] *)
Definition handler_for (action_type : string) : option Handler :=
  if String.eqb action_type "move" then Some _resolve_move
  else if String.eqb action_type "trade" then Some _resolve_trade
  else if String.eqb action_type "send_message" then Some _resolve_send_message
  else if String.eqb action_type "observe" then Some _resolve_observe
  else if String.eqb action_type "fork" then Some _resolve_fork
  else if String.eqb action_type "merge" then Some _resolve_merge
  else if String.eqb action_type "attack" then Some _resolve_attack
  else if String.eqb action_type "ally" then Some _resolve_ally
  else None.

Definition validate_and_resolve (action_type agent_id : string)
    (agent_resources : ResourcePool) (agent_region : string) (params : Json.t)
    (tick : Z) (all_agents : KDict.t AgentSummary)
    (rm : Regions.RegionManager) : Resolution :=
  match handler_for action_type with
  | None =>
      mkResolution
        (Returned (failure action_type agent_id tick
                     ("Unknown action type: " ++ action_type)))
        agent_resources rm
  | Some handler =>
      let base_costs := ACTION_COSTS action_type in
      match base_costs with
      | [] =>
          mkResolution
            (Returned (failure action_type agent_id tick
                         ("No cost definition for action: " ++ action_type)))
            agent_resources rm
      | _ :: _ =>
          handler agent_id agent_resources agent_region params tick base_costs
                  all_agents rm
      end
  end.
End Handlers.

(** [apply_danger]: the optional death result and the pool as the call
    leaves it.  [agent_id] is the key the tick loop found the agent under. *)
Definition apply_danger (rm : Regions.RegionManager) (agent_id : Json.t)
    (resources : ResourcePool) (region_id : string) (tick : Z)
    : option ActionResult * ResourcePool :=
  match Regions.get rm region_id with
  | None => (None, resources)
  | Some region =>
      if Float.leb (Regions.danger_level region) Float.zero then (None, resources)
      else
        let energy_drain := Float.mul (Regions.danger_level region) (Float.of_Z 5) in
        let current_energy := aget (holdings resources) ENERGY in
        let resources' :=
          with_holdings resources
            (aset (holdings resources) ENERGY
                  (Float.max0 (Float.sub current_energy energy_drain))) in
        if Float.leb (aget (holdings resources') ENERGY) Float.zero then
          (Some (succeeded "death" agent_id
                   (DeathDetails "energy_depletion" region_id
                      (Regions.danger_level region))
                   tick),
           resources')
        else (None, resources')
  end.

End Rules.

(** ** [world/engine.py] *)

Module Engine.
Import Resources State Rules.
Import Json(JNull, JBool, JInt, JFloat, JStr, JList, JDict).

Record QueuedAction : Type := mkAction {
  qa_agent_id : string;
  qa_action_type : string;
  qa_params : Json.t;
  submitted_at_tick : Z;
  valid_for_ticks : Z
}.

(** The loop of the fork branch: every holding of the parent is halved and
    the same half is written into the child. *)
Definition fork_split (st : Amounts * Amounts) (rtype : ResourceType)
    : Amounts * Amounts :=
  let half := Float.div (aget (fst st) rtype) (Float.of_Z 2) in
  (aset (fst st) rtype half, aset (snd st) rtype half).

Definition fork_child (result : ActionResult) (child_id : Json.t)
    (agent : AgentState) (child_holdings : Amounts) : AgentState :=
  mkAgent child_id child_id (public_key agent) (region agent)
          (with_holdings create_default child_holdings)
          (status agent) (owner_identity agent) []
          (result_tick result) None (Some (agent_id agent)).

(** The loop of the merge branch, over the absorbed agent's holdings. *)
Definition merge_absorb (absorbed : Amounts) (p : ResourcePool)
    (rtype : ResourceType) : ResourcePool :=
  let amount := aget absorbed rtype in
  let current := aget (holdings p) rtype in
  let cap := aget (caps p) rtype in
  with_holdings p (aset (holdings p) rtype (Float.min (Float.add current amount) cap)).

(** [_apply_side_effects(result, agent)], where [agent] is the object stored
    under [aid]: the world as the call leaves it, and the exception if it
    raised. *)
Definition _apply_side_effects (result : ActionResult) (aid : string)
    (w : WorldState) : WorldState * option PyError :=
  match get_agent w (JStr aid) with
  | None => (w, None)
  | Some agent =>
      if String.eqb (action_type result) "move" then
        match details result with
        | MoveDetails _ to_region _ =>
            (modify_agent (JStr aid) (set_region to_region) w, None)
        | _ => (w, None)
        end
      else if String.eqb (action_type result) "fork" then
        match details result with
        | ForkDetails child_id _ _ =>
            let (parent_h, child_h) :=
              fold_left fork_split all_resource_types
                        (holdings (resources agent), holdings create_default) in
            let child := fork_child result child_id agent child_h in
            let w1 := modify_agent (JStr aid) (set_holdings parent_h) w in
            match add_agent w1 child with
            | Returned w2 => (w2, None)
            | Raised e => (w1, Some e)
            end
        | _ => (w, None)
        end
      else if String.eqb (action_type result) "merge" then
        match details result with
        | MergeDetails absorbed_id _ =>
            if negb (Json.hashable absorbed_id) then (w, Some TypeError) else
            match get_agent w absorbed_id with
            | Some absorbed =>
                let pool :=
                  fold_left (merge_absorb (holdings (resources absorbed)))
                            all_resource_types (resources agent) in
                let w1 := modify_agent (JStr aid) (set_resources pool) w in
                let w2 := modify_agent absorbed_id (mark_dead (result_tick result)) w1 in
                (remove_agent w2 absorbed_id, None)
            | None => (w, None)
            end
        | _ => (w, None)
        end
      else if String.eqb (action_type result) "attack" then
        match details result with
        | AttackDetails target_id attacker_strength _ =>
            if negb (Json.hashable target_id) then (w, Some TypeError) else
            match get_agent w target_id with
            | Some target =>
                let damage := Float.mul attacker_strength (Float.dec 3 1) in
                let target_energy := aget (holdings (resources target)) ENERGY in
                let energy' := Float.max0 (Float.sub target_energy damage) in
                let w1 :=
                  modify_agent target_id
                    (fun t => set_holdings (aset (holdings (resources t)) ENERGY energy') t)
                    w in
                if Float.leb energy' Float.zero then
                  (remove_agent
                     (modify_agent target_id (mark_dead (result_tick result)) w1)
                     target_id,
                   None)
                else (w1, None)
            | None => (w, None)
            end
        | _ => (w, None)
        end
      else if String.eqb (action_type result) "ally" then
        match details result with
        | AllyDetails target_id =>
            let w1 :=
              if Json.contains target_id (alliances agent) then w
              else modify_agent (JStr aid)
                     (fun a => set_alliances (alliances a ++ [target_id])%list a) w in
            (with_proposals w1
               (alliance_proposals w1 ++
                [mkProposal (agent_id agent) target_id (result_tick result)])%list,
             None)
        | _ => (w, None)
        end
      else (w, None)
  end.

Section Tick.
Context `{Libm}.

(** One iteration of the resolution loop of [_process_tick]: the world and
    the list [results] as the iteration leaves them, and the exception if
    it raised. *)
Definition resolve_action (all_agents_summary : KDict.t AgentSummary) (tick : Z)
    (st : WorldState * list ActionResult) (action : QueuedAction)
    : (WorldState * list ActionResult) * option PyError :=
  let (w, results) := st in
  match get_agent w (JStr (qa_agent_id action)) with
  | None => (st, None)
  | Some agent =>
      if negb (is_alive agent) then (st, None)
      else if status_eqb (status agent) unclaimed
              && negb (String.eqb (qa_action_type action) "observe") then
        ((w, (results ++
              [failure (qa_action_type action) (qa_agent_id action) tick
                 "Agent is unclaimed. Only observe actions are allowed."])%list),
         None)
      else
        let r :=
          validate_and_resolve (qa_action_type action) (qa_agent_id action)
            (resources agent) (region agent) (qa_params action) tick
            all_agents_summary (region_manager w) in
        let w1 :=
          with_regions
            (modify_agent (JStr (qa_agent_id action)) (set_resources (pool_after r)) w)
            (regions_after r) in
        match outcome r with
        | Raised e => ((w1, results), Some e)
        | Returned result =>
            let results' := (results ++ [result])%list in
            if success result then
              let (w2, raised) := _apply_side_effects result (qa_agent_id action) w1 in
              ((w2, results'), raised)
            else ((w1, results'), None)
        end
  end.

(** The resolution loop: it stops at the first exception. *)
Fixpoint resolve_all (all_agents_summary : KDict.t AgentSummary) (tick : Z)
    (actions : list QueuedAction) (st : WorldState * list ActionResult)
    : (WorldState * list ActionResult) * option PyError :=
  match actions with
  | [] => (st, None)
  | action :: rest =>
      match resolve_action all_agents_summary tick st action with
      | (st', Some e) => (st', Some e)
      | (st', None) => resolve_all all_agents_summary tick rest st'
      end
  end.

(** One iteration of the per-agent loop: regeneration, then danger. *)
Definition tick_effects (tick : Z) (st : WorldState * list ActionResult)
    (agent_id : Json.t) : WorldState * list ActionResult :=
  let (w, results) := st in
  match get_agent w agent_id with
  | None => st
  | Some agent =>
      if negb (is_alive agent) then st
      else
        let multiplier :=
          match Regions.get (region_manager w) (region agent) with
          | Some region => Regions.resource_multiplier region
          | None => Float.of_Z 1
          end in
        let regenerated := regenerate (resources agent) multiplier in
        let (death, pool) :=
          apply_danger (region_manager w) agent_id regenerated (region agent) tick in
        let w1 := modify_agent agent_id (set_resources pool) w in
        match death with
        | Some d =>
            (remove_agent (modify_agent agent_id (mark_dead tick) w1) agent_id,
             (results ++ [d])%list)
        | None => (w1, results)
        end
  end.

Definition is_valid (tick : Z) (a : QueuedAction) : bool :=
  tick - submitted_at_tick a <=? valid_for_ticks a.

(** [_process_tick] up to persistence and event emission: the world it
    leaves, and the list [results] it goes on to emit or the exception it
    raised.  The queue is drained either way. *)
Definition _process_tick (w : WorldState) (queue : list QueuedAction)
    : WorldState * Outcome (list ActionResult) :=
  let (tick, w0) := advance_tick w in
  let valid_actions := List.filter (is_valid tick) queue in
  let all_agents_summary := get_all_agents_summary w0 in
  match resolve_all all_agents_summary tick valid_actions (w0, []) with
  | (st1, Some e) => (fst st1, Raised e)
  | (st1, None) =>
      let st2 := fold_left (tick_effects tick) (KDict.keys (agents (fst st1))) st1 in
      (fst st2, Returned (snd st2))
  end.
End Tick.

End Engine.

(** ** [economy/trade.py] and [economy/accounting.py] *)

(** A float on the left of [<], [-] and [+] with whatever the request put
    on the right. *)
Module Mixed.

(** [x < v]: exact for an [int] of any size; [TypeError] when [v] is not a
    number. *)
Definition lt (x : Float.t) (v : Json.t) : Outcome bool :=
  match Json.number v with
  | Some (Json.NFloat y) => Returned (Float.ltb x y)
  | Some (Json.NInt z) =>
      Returned (match Float.compare_Z x z with Some Lt => true | _ => false end)
  | None => Raised TypeError
  end.

(** The float that [x - v] and [x + v] compute with: [v] itself, or
    [float(v)] for an [int], which raises [OverflowError] out of range. *)
Definition operand (v : Json.t) : Outcome Float.t :=
  match Json.number v with
  | Some (Json.NFloat y) => Returned y
  | Some (Json.NInt z) => Float.of_int z
  | None => Raised TypeError
  end.

Definition sub (x : Float.t) (v : Json.t) : Outcome Float.t :=
  match operand v with
  | Returned y => Returned (Float.sub x y)
  | Raised e => Raised e
  end.

Definition add (x : Float.t) (v : Json.t) : Outcome Float.t :=
  match operand v with
  | Returned y => Returned (Float.add x y)
  | Raised e => Raised e
  end.

End Mixed.

Module Trade.
Import Resources State.
Import Json(JNull, JBool, JInt, JFloat, JStr, JList, JDict).
Export Trade(OfferStatus, pending, accepted, rejected, expired, executed,
             offer_status_name, pad8, OFFER_WINDOW_TICKS,
             AcceptResult, Rejected, Executed, accept_success).

(** An offer holds the values of the request as they came: [create_offer]
    converts and checks nothing. *)
Record TradeOffer : Type := mkOffer {
  offer_id : string;
  offer_tick : Z;
  from_agent : string;
  to_agent : Json.t;
  offer_resource : Json.t;
  offer_amount : Json.t;
  request_resource : Json.t;
  request_amount : Json.t;
  offer_status : OfferStatus;
  expires_at_tick : Z
}.

Definition with_status (o : TradeOffer) (s : OfferStatus) : TradeOffer :=
  mkOffer (offer_id o) (offer_tick o) (from_agent o) (to_agent o)
          (offer_resource o) (offer_amount o) (request_resource o)
          (request_amount o) s (expires_at_tick o).

Record Transaction : Type := mkTransaction {
  transaction_id : string;
  tx_tick : Z;
  tx_from : Json.t;
  tx_to : Json.t;
  resource_type : Json.t;
  amount : Json.t;
  trade_id : string
}.

Record AccountingLedger : Type := mkLedger {
  _transactions : list Transaction;
  ledger_next_id : nat
}.

Definition record_transfer (tick : Z) (from to rtype amt : Json.t)
    (trade : string) (l : AccountingLedger) : AccountingLedger :=
  mkLedger
    (_transactions l ++
     [mkTransaction ("tx_" ++ pad8 (ledger_next_id l)) tick from to rtype amt trade])%list
    (S (ledger_next_id l)).

(** [TradeManager] with the world and the ledger it shares. *)
Record TradeManager : Type := mkTradeManager {
  world_state : WorldState;
  accounting : AccountingLedger;
  _offers : gmap string TradeOffer;
  _next_id : nat
}.

Definition with_world (m : TradeManager) (w : WorldState) : TradeManager :=
  mkTradeManager w (accounting m) (_offers m) (_next_id m).

(** Replaces the offer object stored under [oid] by its mutated state. *)
Definition with_offer (m : TradeManager) (oid : string) (o : TradeOffer)
    : TradeManager :=
  mkTradeManager (world_state m) (accounting m)
                 (<[oid := o]> (_offers m)) (_next_id m).

Definition create_offer (tick : Z) (from : string)
    (to offer_res offer_amt request_res request_amt : Json.t) (m : TradeManager)
    : TradeOffer * TradeManager :=
  let offer :=
    mkOffer ("trade_" ++ pad8 (_next_id m)) tick from to offer_res offer_amt
            request_res request_amt pending (tick + OFFER_WINDOW_TICKS) in
  (offer,
   mkTradeManager (world_state m) (accounting m)
                  (<[offer_id offer := offer]> (_offers m)) (S (_next_id m))).

(** The call of [create_offer] that the action endpoint makes once the
    gateway has queued a trade action with the given [params]. *)
Definition offer_of_request (tick : Z) (from : string)
    (entries : list (string * Json.t)) (m : TradeManager)
    : TradeOffer * TradeManager :=
  let get key fallback := default fallback (Json.lookup key entries) in
  create_offer tick from
    (get "target_agent" (JStr "")) (get "offer_resource" (JStr ""))
    (get "offer_amount" (JInt 0)) (get "request_resource" (JStr ""))
    (get "request_amount" (JInt 0)) m.

(** [self._offers.get(offer_id)]: the keys are strings, so any other
    hashable value finds nothing. *)
Definition find_offer (oid : Json.t) (m : TradeManager)
    : Outcome (option (string * TradeOffer)) :=
  if negb (Json.hashable oid) then Raised TypeError
  else
    match oid with
    | JStr s => Returned (option_map (pair s) (_offers m !! s))
    | _ => Returned None
    end.

(** [ResourceType(v)]: [None] is the [ValueError]. *)
Definition resource_type_of (v : Json.t) : option ResourceType :=
  match v with
  | JStr s => of_string s
  | _ => None
  end.

Definition alive_agent (w : WorldState) (aid : Json.t) : option AgentState :=
  match get_agent w aid with
  | Some a => if is_alive a then Some a else None
  | None => None
  end.

(** [agent.resources.holdings[rtype]] of the object stored under [aid]. *)
Definition held (w : WorldState) (aid : Json.t) (rtype : ResourceType) : Float.t :=
  match get_agent w aid with
  | Some a => aget (holdings (resources a)) rtype
  | None => Float.zero
  end.

(** [agent.resources.holdings[rtype] = x] on that object. *)
Definition hold (aid : Json.t) (rtype : ResourceType) (x : Float.t)
    (w : WorldState) : WorldState :=
  modify_agent aid (fun a => set_holdings (aset (holdings (resources a)) rtype x) a) w.

(** The four assignments that execute a trade, in the order of the source.
    Each reads the holding as the assignments before it left it; the
    world is returned as the last completed assignment left it, with the
    exception that stopped the next one. *)
Definition execute_trade (from to : Json.t) (offer : TradeOffer)
    (offer_rtype request_rtype : ResourceType) (w : WorldState)
    : WorldState * option PyError :=
  match Mixed.sub (held w from offer_rtype) (offer_amount offer) with
  | Raised e => (w, Some e)
  | Returned x1 =>
      let w1 := hold from offer_rtype x1 w in
      match Mixed.add (held w1 to offer_rtype) (offer_amount offer) with
      | Raised e => (w1, Some e)
      | Returned x2 =>
          let w2 := hold to offer_rtype x2 w1 in
          match Mixed.sub (held w2 to request_rtype) (request_amount offer) with
          | Raised e => (w2, Some e)
          | Returned x3 =>
              let w3 := hold to request_rtype x3 w2 in
              match Mixed.add (held w3 from request_rtype) (request_amount offer) with
              | Raised e => (w3, Some e)
              | Returned x4 => (hold from request_rtype x4 w3, None)
              end
          end
      end
  end.

(** [accept_offer]: what the call returns or raises, and the manager as it
    leaves it. *)
Definition accept_offer (oid : Json.t) (accepting_agent : string) (tick : Z)
    (m : TradeManager) : Outcome AcceptResult * TradeManager :=
  match find_offer oid m with
  | Raised e => (Raised e, m)
  | Returned None => (Returned (Rejected "Offer not found"), m)
  | Returned (Some (key, offer)) =>
      match offer_status offer with
      | pending =>
          if negb (Json.same (to_agent offer) (JStr accepting_agent)) then
            (Returned (Rejected "Not the intended recipient"), m)
          else if expires_at_tick offer <? tick then
            (Returned (Rejected "Offer expired"),
             with_offer m key (with_status offer expired))
          else
            let from_id := JStr (from_agent offer) in
            let to_id := to_agent offer in
            match alive_agent (world_state m) from_id with
            | None =>
                (Returned (Rejected "Offering agent not available"),
                 with_offer m key (with_status offer rejected))
            | Some from =>
                match alive_agent (world_state m) to_id with
                | None =>
                    (Returned (Rejected "Accepting agent not available"),
                     with_offer m key (with_status offer rejected))
                | Some to =>
                    match resource_type_of (offer_resource offer),
                          resource_type_of (request_resource offer) with
                    | Some offer_rtype, Some request_rtype =>
                        match Mixed.lt (aget (holdings (resources from)) offer_rtype)
                                       (offer_amount offer) with
                        | Raised e => (Raised e, m)
                        | Returned true =>
                            (Returned (Rejected "Offerer has insufficient resources"),
                             with_offer m key (with_status offer rejected))
                        | Returned false =>
                            match Mixed.lt (aget (holdings (resources to)) request_rtype)
                                           (request_amount offer) with
                            | Raised e => (Raised e, m)
                            | Returned true =>
                                (Returned
                                   (Rejected "Accepter has insufficient resources"),
                                 with_offer m key (with_status offer rejected))
                            | Returned false =>
                                match execute_trade from_id to_id offer offer_rtype
                                                    request_rtype (world_state m) with
                                | (w', Some e) => (Raised e, with_world m w')
                                | (w', None) =>
                                    let l1 :=
                                      record_transfer tick from_id to_id
                                        (offer_resource offer) (offer_amount offer)
                                        (offer_id offer) (accounting m) in
                                    let l2 :=
                                      record_transfer tick to_id from_id
                                        (request_resource offer) (request_amount offer)
                                        (offer_id offer) l1 in
                                    (Returned (Executed (offer_id offer) tick),
                                     mkTradeManager w' l2
                                       (<[key := with_status offer executed]> (_offers m))
                                       (_next_id m))
                                end
                            end
                        end
                    | _, _ =>
                        (Returned (Rejected "Invalid resource type"),
                         with_offer m key (with_status offer rejected))
                    end
                end
            end
      | s => (Returned (Rejected ("Offer is " ++ offer_status_name s)), m)
      end
  end.

End Trade.

(** ** [agents/interface.py]: [submit_action] *)

Module Gateway.
Import State Engine.
Import Json(JNull, JBool, JInt, JFloat, JStr, JList, JDict).
Export Gateway(VALID_ACTION_TYPES).

(** The text of an error: a literal, or [f"Invalid action type: {v}"]. *)
Inductive ErrorText : Type :=
  | Literal (s : string)
  | InvalidActionType (v : Json.t).

Record ActionResponse : Type := mkResponse {
  resp_success : bool;
  resp_action_type : option string;
  queued_at_tick : option Z;
  resp_error : option ErrorText
}.

Definition rejected (msg : ErrorText) : ActionResponse :=
  mkResponse false None None (Some msg).

(** [action_type in VALID_ACTION_TYPES], a frozenset of strings: a value
    that cannot be hashed raises, any other value that is not one of the
    eight strings is not a member. *)
Definition valid_action_type (action_type : Json.t) : Outcome (option string) :=
  if negb (Json.hashable action_type) then Raised TypeError
  else
    match action_type with
    | JStr kind =>
        Returned (if existsb (String.eqb kind) VALID_ACTION_TYPES then Some kind
                  else None)
    | _ => Returned None
    end.

(** [submit_action]: the response or the exception, and the engine's queue
    as the call leaves it.  [params] is queued as it came. *)
Definition submit_action (agent_id : string) (action_type params : Json.t)
    (w : WorldState) (queue : list QueuedAction)
    : Outcome ActionResponse * list QueuedAction :=
  match valid_action_type action_type with
  | Raised e => (Raised e, queue)
  | Returned None => (Returned (rejected (InvalidActionType action_type)), queue)
  | Returned (Some kind) =>
      match get_agent w (JStr agent_id) with
      | None => (Returned (rejected (Literal "Agent not found")), queue)
      | Some agent =>
          if negb (is_alive agent) then
            (Returned (rejected (Literal "Agent is dead")), queue)
          else if status_eqb (status agent) unclaimed
                  && negb (String.eqb kind "observe") then
            (Returned
               (rejected
                  (Literal
                     "Agent is unclaimed. Only observe actions allowed until claimed.")),
             queue)
          else
            (Returned (mkResponse true (Some kind) (Some (tick w)) None),
             (queue ++ [mkAction agent_id kind params (tick w) 1])%list)
      end
  end.

End Gateway.

(** ** [ledger/events.py]: the events in memory *)

Module Ledger.
Import State Rules.

(** The [details] of an event: the [details] dict of the result it was
    made from, the same object and not a copy, or the dict the heartbeat
    builds. *)
Inductive EventDetails : Type :=
  | ResultDetails (d : Details)
  | Heartbeat (actions_processed results total_agents alive_agents : nat).

Record Event : Type := mkEvent {
  event_id : Z;
  event_tick : Z;
  event_action : string;
  event_agent : Json.t;
  event_success : bool;
  event_details : EventDetails;
  event_error : option string
}.

(** The dict handed to [append]; [None] is an absent key. *)
Record EventData : Type := mkEventData {
  data_tick : option Z;
  data_action : option string;
  data_agent : option Json.t;
  data_success : option bool;
  data_details : option EventDetails;
  data_error : option string
}.

Record EventLedger : Type := mkEventLedger {
  _events : list Event;
  _next_id : Z
}.

Definition append (event_data : EventData) (l : EventLedger) : Event * EventLedger :=
  let event :=
    mkEvent (_next_id l)
            (default 0 (data_tick event_data))
            (default "unknown" (data_action event_data))
            (default (Json.JStr "unknown") (data_agent event_data))
            (default false (data_success event_data))
            (default (ResultDetails NoDetails) (data_details event_data))
            (data_error event_data) in
  (event, mkEventLedger (_events l ++ [event])%list (_next_id l + 1)).

(** What a reader of the event finds under [visible_agents] while the
    world is [w]: the list is the region's own, so it holds the occupants of
    that moment. *)
Definition visible_agents (w : WorldState) (e : Event) : option (list Json.t) :=
  match event_details e with
  | ResultDetails (ObserveDetails _ (OccupantsOf rid) _) =>
      Some match Regions.get (region_manager w) rid with
           | Some region => Regions.current_agents region
           | None => []
           end
  | ResultDetails (ObserveDetails _ NoOccupants _) => Some []
  | _ => None
  end.

End Ledger.

(** ** One pass of [_tick_loop]: [_process_tick] with its fifth step, under
    the [try] that logs an exception and goes on; [on_event] is bound to the
    ledger's [append] as [create_app] binds it *)

Module Emission.
Import State Rules Engine Ledger.

Definition result_event (tick : Z) (r : ActionResult) : EventData :=
  mkEventData (Some tick) (Some (action_type r)) (Some (result_agent r))
              (Some (success r)) (Some (ResultDetails (details r))) (error r).

Definition heartbeat (tick : Z) (actions_processed : nat)
    (results : list ActionResult) (w : WorldState) : EventData :=
  mkEventData (Some tick) (Some "tick") (Some (Json.JStr "__world__")) (Some true)
    (Some (Heartbeat actions_processed (length results) (length (agents w))
             (length (List.filter (fun kv => is_alive (snd kv)) (agents w)))))
    None.

Definition on_event (l : EventLedger) (event_data : EventData) : EventLedger :=
  snd (append event_data l).

Definition emit (tick : Z) (actions_processed : nat) (results : list ActionResult)
    (w : WorldState) (l : EventLedger) : EventLedger :=
  on_event (fold_left on_event (map (result_event tick) results) l)
           (heartbeat tick actions_processed results w).

(** The engine between two ticks: the world, the queue and the ledger. *)
Record Server : Type := mkServer {
  world : WorldState;
  action_queue : list QueuedAction;
  ledger : EventLedger
}.

Section Tick.
Context `{Libm}.

(** The pass: the server as it leaves it, and the exception that was
    logged, if any.  The queue was drained before anything could raise;
    the events are emitted only after the last step that can. *)
Definition tick_pass (s : Server) : Server * option PyError :=
  let tick := State.tick (world s) + 1 in
  let valid_actions := List.filter (is_valid tick) (action_queue s) in
  match _process_tick (world s) (action_queue s) with
  | (w', Returned results) =>
      (mkServer w' [] (emit tick (length valid_actions) results w' (ledger s)), None)
  | (w', Raised e) => (mkServer w' [] (ledger s), Some e)
  end.
End Tick.

End Emission.

End Py.

(** ** Vocabulary of the statements *)

Module Spec.
Import Resources State Rules Engine Server.

(** Sum of the amounts a cost table lists for [rtype]. *)
Fixpoint total_cost (rtype : ResourceType) (costs : Costs) : Q :=
  match costs with
  | [] => 0
  | (r, amount) :: rest =>
      (if rt_eqb r rtype then amount else 0) + total_cost rtype rest
  end.

(** Every listed cost is covered by the holdings. *)
Definition covered (h : Amounts) (costs : Costs) : Prop :=
  Forall (fun rc => snd rc <= aget h (fst rc)) costs.


(** Holdings within [0, cap] for every kind. *)
Definition within_caps (p : ResourcePool) : Prop :=
  forall rtype, 0 <= aget (holdings p) rtype <= aget (caps p) rtype.


(** What regeneration and danger read of a region. *)
Definition physics (r : Regions.Region) : Q * Q :=
  (Regions.resource_multiplier r, Regions.danger_level r).

(** Two region maps that differ at most in their occupant lists. *)
Definition same_physics (m m' : Regions.RegionManager) : Prop :=
  forall rid, option_map physics (Regions.get m rid)
              = option_map physics (Regions.get m' rid).

(** Energy of an agent after one pass of the per-agent loop in a region with
    the given multiplier and danger level. *)
Definition energy_after_tick (a : AgentState) (multiplier danger : Q) : Q :=
  Qmax 0 (Qmin (energy (holdings (resources a)) + 2 * multiplier)
               (energy (caps (resources a)))
          - danger * 5).

(** The checks [accept_offer] makes before it executes an offer. *)
Definition acceptable (m : Trade.TradeManager) (oid accepting_agent : string)
    (tick : Z) (offer : Trade.TradeOffer) (from to : AgentState)
    (offer_rtype request_rtype : ResourceType) : Prop :=
  Trade._offers m !! oid = Some offer
  /\ Trade.offer_status offer = Trade.pending
  /\ Trade.to_agent offer = accepting_agent
  /\ (tick <= Trade.expires_at_tick offer)%Z
  /\ get_agent (Trade.world_state m) (Trade.from_agent offer) = Some from
  /\ is_alive from = true
  /\ get_agent (Trade.world_state m) (Trade.to_agent offer) = Some to
  /\ is_alive to = true
  /\ of_string (Trade.offer_resource offer) = Some offer_rtype
  /\ of_string (Trade.request_resource offer) = Some request_rtype
  /\ Trade.offer_amount offer <= aget (holdings (resources from)) offer_rtype
  /\ Trade.request_amount offer <= aget (holdings (resources to)) request_rtype.

(** No agent of the map carries [token]. *)
Definition token_absent (token : string) (d : PyDict.t AgentState) : Prop :=
  Forall (fun kv => claim_token (snd kv) <> Some token) d.

(** A claim token is carried under at most one key. *)
Definition tokens_unique (d : PyDict.t AgentState) : Prop :=
  forall t k1 a1 k2 a2,
    In (k1, a1) d -> In (k2, a2) d ->
    claim_token a1 = Some t -> claim_token a2 = Some t -> k1 = k2.

Section Invariants.
Context `{Platform}.

(** An entry of the agent map is stored under its own id; an agent that was
    not forked has the id derived from its key; a claimed agent carries no
    claim token. *)
Definition entry_ok (kv : string * AgentState) : Prop :=
  agent_id (snd kv) = fst kv
  /\ (parent_agent (snd kv) = None ->
      agent_id (snd kv) = Gateway.generate_agent_id (public_key (snd kv)))
  /\ (status (snd kv) = claimed -> claim_token (snd kv) = None).

(** The id derived from the key of every agent is a key of the map. *)
Definition key_recorded (d : PyDict.t AgentState) (kv : string * AgentState) : Prop :=
  PyDict.mem (Gateway.generate_agent_id (public_key (snd kv))) d = true.

Definition agents_ok (d : PyDict.t AgentState) : Prop :=
  List.NoDup (PyDict.keys d)
  /\ Forall entry_ok d
  /\ Forall (key_recorded d) d.

Definition world_ok (w : WorldState) : Prop :=
  agents_ok (agents w) /\ tokens_unique (agents w).
End Invariants.

(** Number of validations recorded for a token. *)
Definition attempts (c : gmap string nat) (token : string) : nat :=
  default 0%nat (c !! token).

(** A mutation of an agent object that keeps its identity, never installs a
    claim token and never turns an agent into a claimed one while it keeps
    a token. *)
Definition benign (f : AgentState -> AgentState) : Prop :=
  forall a,
    agent_id (f a) = agent_id a
    /\ public_key (f a) = public_key a
    /\ parent_agent (f a) = parent_agent a
    /\ (claim_token (f a) = None
        \/ (claim_token (f a) = claim_token a
            /\ (status (f a) = claimed -> status a = claimed))).

(** The two ways the engine, the lifecycle manager and the trade manager
    change the agent map: mutating a stored agent, and storing a forked
    child. *)
Inductive mutation : PyDict.t AgentState -> PyDict.t AgentState -> Prop :=
  | mutation_modify (k : string) (f : AgentState -> AgentState)
      (d : PyDict.t AgentState) :
      benign f -> mutation d (PyDict.update k f d)
  | mutation_child (c : AgentState) (kp : string) (p : AgentState)
      (d : PyDict.t AgentState) :
      In (kp, p) d ->
      public_key c = public_key p ->
      claim_token c = None ->
      parent_agent c <> None ->
      mutation d (PyDict.set (agent_id c) c d).

Inductive evolves : PyDict.t AgentState -> PyDict.t AgentState -> Prop :=
  | evolves_refl (d : PyDict.t AgentState) : evolves d d
  | evolves_step (d1 d2 d3 : PyDict.t AgentState) :
      evolves d1 d2 -> mutation d2 d3 -> evolves d1 d3.

End Spec.

(** ** Concrete worlds and histories the statements are evaluated on *)

Module Scenarios.
Import Resources State Rules Engine Server.

Definition default_regions : Regions.RegionManager :=
  Regions.initialize_defaults PyDict.empty.

(** A claimed agent with the given pool. *)
Definition citizen (id region : string) (pool : ResourcePool) : AgentState :=
  mkAgent id id ("pk_" ++ id) region pool claimed (Some "@owner") None None []
          0 None None.

Definition pool_of (e b m c : Q) : ResourcePool :=
  mkPool (mkAmounts e b m c) (caps create_default).

Definition target_params (target : string) : Params :=
  mkParams None (Some target) None None None None None None.

(** Two agents in the wasteland, each with energy 50 and compute 40. *)
Definition duel_world : WorldState :=
  add_agent
    (add_agent (mkWorld 0 PyDict.empty default_regions [])
               (citizen "A" "wasteland" create_default))
    (citizen "B" "wasteland" create_default).

(** An agent view in which the trade partner is dead. *)
Definition view_with_dead_partner : PyDict.t AgentSummary :=
  [("A", mkSummary "nexus" claimed); ("B", mkSummary "nexus" dead)].

Definition odd_trade_params : Params :=
  mkParams None (Some "B") (Some "gold") (Some (-5)) (Some "silver") (Some (-7))
           None None.

Definition wasteland : Regions.Region :=
  Regions.mkRegion "wasteland" "The Wasteland"
    "Dangerous frontier. Scarce resources, high risk, high reward."
    (-4) 3 (1 # 2) (7 # 10) 50 ["W"].

(** A parent with energy 80, memory 100 and compute 60. *)
Definition parent : AgentState := citizen "P" "nexus" (pool_of 80 25 100 60).

Definition parent_world : WorldState :=
  add_agent (mkWorld 0 PyDict.empty default_regions []) parent.


(** Histories of the server.  With [sample_platform] the key ["pkA"] gets
    the id ["agent_0000pkA"]. *)
Definition register (token key name : string) : Event :=
  Register token 1000 key "signature" "nonce" "challenge" "pow" name.

Definition claim (token : string) : Event :=
  Present 1001 token (SubmitClaim "@owner" "x_tweet").

Definition alice : string := "agent_0000pkA".
Definition bob : string := "agent_0000pkB".

(** Alice registers, is claimed and forks. *)
Definition fork_history : list Event :=
  [ register "tokA" "pkA" "Alice"; claim "tokA";
    Tick [mkAction alice "fork" no_params 0 1] ].

(** Alice registers and stays unclaimed; Bob registers, is claimed and
    absorbs Alice. *)
Definition merge_history : list Event :=
  [ register "tokA" "pkA" "Alice"; register "tokB" "pkB" "Bob"; claim "tokB";
    Tick [mkAction bob "merge" (target_params alice) 0 1] ].

(** Alice and Bob register and are claimed; six ticks pass; Alice offers
    Bob 60 energy for no compute, the trade action resolves at the next
    tick, and Bob accepts. *)
Definition trade_history : list Event :=
  [ register "tokA" "pkA" "Alice"; register "tokB" "pkB" "Bob";
    claim "tokA"; claim "tokB";
    Tick []; Tick []; Tick []; Tick []; Tick []; Tick [];
    CreateOffer 6 alice bob "energy" 60 "compute" 0;
    Tick [mkAction alice "trade"
            (mkParams None (Some bob) (Some "energy") (Some 60) (Some "compute")
                      (Some 0) None None) 6 1] ].

Definition bob_accepts : Event := AcceptOffer "trade_00000000" bob 7.

(** Alice registers and her claim page is opened five times. *)
Definition page_views : list Event :=
  [ Present 1001 "tokA" ViewClaimPage; Present 1002 "tokA" ViewClaimPage;
    Present 1003 "tokA" ViewClaimPage; Present 1004 "tokA" ViewClaimPage;
    Present 1005 "tokA" ViewClaimPage ].

End Scenarios.

(** ** Vocabulary of the statements on the ledgers, the queue and the bus *)

Module Journal.
Import Resources State Rules Engine Server.

(** The event ledger after a series of appends. *)
Definition appended (l : Ledger.EventLedger) (batch : list Ledger.EventData)
    : Ledger.EventLedger :=
  fold_left Emission.on_event batch l.

(** An event that [reconstruct_at_tick] leaves out of the snapshot at
    [target_tick]. *)
Definition later_than (target_tick : Z) (d : Ledger.EventData) : Prop :=
  (target_tick < default 0 (Ledger.data_tick d))%Z.

(** A successful event that stores an entry under [k] in the replayed map. *)
Definition creates (k : string) (e : Ledger.Event) : bool :=
  Ledger.event_success e
  && ((String.eqb (Ledger.event_action e) "register"
       && String.eqb (Ledger.event_agent e) k)
      || (String.eqb (Ledger.event_action e) "fork"
          && truthy (Replay.child_name_of (Ledger.event_details e))
          && String.eqb (default "" (Replay.child_name_of (Ledger.event_details e))) k)).

(** The number a zero-padded id was printed from. *)
Definition parse (s : string) : option nat :=
  option_map Nat.of_uint (NilEmpty.uint_of_string s).

(** The keys of the offer table are the ids printed from the numbers below
    the counter. *)
Definition offers_numbered (offers : gmap string Trade.TradeOffer) (next : nat)
    : Prop :=
  forall oid, is_Some (offers !! oid) ->
              exists n, (n < next)%nat /\ oid = "trade_" ++ Trade.pad8 n.

(** A character of [string.printable[:62]]. *)
Definition alphanumeric (c : ascii) : Prop :=
  exists j, String.get j Noise.alphabet = Some c.

(** The arguments of one call of [send_message]. *)
Record Send : Type := mkSend {
  send_tick : Z;
  send_from : string;
  send_to : string;
  send_text : string;
  send_noise : Q;
  send_sender_region : string;
  send_receiver_region : string
}.

(** The bus and the random state after a series of calls of
    [send_message]. *)
Definition deliver `{RandomSource} (st : Messaging.MessageBus * rng) (s : Send)
    : Messaging.MessageBus * rng :=
  let '(_, bus, g) :=
    Messaging.send_message (send_tick s) (send_from s) (send_to s) (send_text s)
      (send_noise s) (send_sender_region s) (send_receiver_region s)
      (fst st) (snd st) in
  (bus, g).

Definition delivered `{RandomSource} (sends : list Send) (g : rng)
    : Messaging.MessageBus :=
  fst (fold_left deliver sends (Messaging.empty_bus, g)).

(** The messages of a list addressed to [agent]. *)
Definition addressed_to (agent : string) (l : list Messaging.Message)
    : list Messaging.Message :=
  List.filter (fun m => String.eqb (Messaging.to_agent m) agent) l.







(** The agent stored under [k] is dead since [t]. *)
Definition died_at (w : WorldState) (k : string) (t : Z) : Prop :=
  exists a, get_agent w k = Some a /\ status a = dead /\ died_at_tick a = Some t.

(** What holds of every result of the tick [t] that leaves the world [w']. *)
Definition stamped (t : Z) (w' : WorldState) (r : ActionResult) : Prop :=
  result_tick r = t
  /\ (success r = true <-> error r = None)
  /\ (success r = true -> action_type r = "death" -> died_at w' (result_agent r) t).


(** A region whose occupant list has no repeats and fits its capacity. *)
Definition region_ok (r : Regions.Region) : Prop :=
  List.NoDup (Regions.current_agents r)
  /\ (Z.of_nat (length (Regions.current_agents r)) <= Regions.capacity r)%Z.

(** Everything of a region but its occupant list. *)
Definition frame (r : Regions.Region)
    : string * string * string * Q * Q * Q * Q * Z :=
  (Regions.region_id r, Regions.name r, Regions.description r, Regions.x r,
   Regions.y r, Regions.resource_multiplier r, Regions.danger_level r,
   Regions.capacity r).

(** The regions are the default ones, up to their occupant lists, and every
    occupant list is in order. *)
Definition regions_ok (m : Regions.RegionManager) : Prop :=
  forall rid,
    option_map frame (Regions.get m rid)
    = option_map frame (Regions.get (Regions.initialize_defaults PyDict.empty) rid)
    /\ forall r, Regions.get m rid = Some r -> region_ok r.

End Journal.

(** ** Concrete ledgers, queues and buses the statements are evaluated on *)

Module Samples.
Import Resources State Rules Engine Server.

(** The event the registration route appends. *)
Definition registered (tick : Z) (aid : string) : Ledger.EventData :=
  Ledger.mkEventData (Some tick) (Some "register") (Some aid) (Some true)
    (Some (Ledger.RegisterEvent "nexus" (holdings create_default))) None.

(** The event of a failed move. *)
Definition failed_move (tick : Z) (aid : string) : Ledger.EventData :=
  Ledger.mkEventData (Some tick) (Some "move") (Some aid) (Some false)
    (Some (Ledger.ResultDetails NoDetails)) (Some "Invalid target region").

(** Two registrations at tick 0 and a failed move at tick 1. *)
Definition early_history : list Ledger.EventData :=
  [registered 0 "agent_a"; registered 0 "agent_b"; failed_move 1 "agent_a"].

(** What tick 5 adds. *)
Definition late_history : list Ledger.EventData :=
  [registered 5 "agent_c"; failed_move 5 "agent_b"].

(** A random source that counts: the n-th draw of [random()] is 0 or 1/2
    in turn, the n-th choice is the n-th character, cyclically. *)
Definition counting_source : RandomSource :=
  {| rng := nat;
     random := fun g => (if Nat.even g then 0 else 1 # 2, S g);
     randbelow := fun n g => (g mod n, S g);
     randbelow_lt := fun n g Hn =>
       Nat.mod_upper_bound g n (proj2 (Nat.neq_0_lt_0 n) Hn) |}.

Definition greetings : list Journal.Send :=
  [ Journal.mkSend 3 "agent_a" "agent_b" "hello" 0 "nexus" "nexus";
    Journal.mkSend 4 "agent_b" "agent_a" "welcome" (3 # 10) "nexus" "forge";
    Journal.mkSend 5 "agent_c" "agent_b" "anyone" 1 "void" "nexus" ].

End Samples.

(** ** Vocabulary of the statements on Python's values *)

Module PySpec.
Import Py.
Import Py.Resources Py.State Py.Rules Py.Engine.
Local Open Scope Z_scope.

(** The keys of a dict: each key occurs once, is equal to itself and to no
    other key. *)
Definition distinct (keys : list Json.t) : Prop :=
  List.NoDup keys
  /\ forall k1 k2, In k1 keys -> In k2 keys ->
                   (Json.same k1 k2 = true <-> k1 = k2).

(** What regeneration and danger read of a region. *)
Definition physics (r : Py.Regions.Region) : Float.t * Float.t :=
  (Py.Regions.resource_multiplier r, Py.Regions.danger_level r).

(** Two region maps that differ at most in their occupant lists. *)
Definition same_physics (m m' : Py.Regions.RegionManager) : Prop :=
  forall rid, option_map physics (Py.Regions.get m rid)
              = option_map physics (Py.Regions.get m' rid).

(** Energy of an agent after one pass of the per-agent loop in a region with
    the given multiplier and danger level:
    [max(0, min(energy + 2.0 * multiplier, cap) - danger * 5.0)]. *)
Definition energy_after_tick (a : AgentState) (multiplier danger : Float.t)
    : Float.t :=
  Float.max0
    (Float.sub
       (Float.min (Float.add (energy (holdings (resources a)))
                             (Float.mul (Float.of_Z 2) multiplier))
                  (energy (caps (resources a))))
       (Float.mul danger (Float.of_Z 5))).

(** The result [apply_danger] returns for the agent stored under [k]. *)
Definition death_of (k : Json.t) (region : string) (danger : Float.t) (tick : Z)
    : ActionResult :=
  succeeded "death" k (DeathDetails "energy_depletion" region danger) tick.

(** Energy an attack of the given strength leaves to a target:
    [max(0, energy - strength * 0.3)]. *)
Definition energy_after_attack (target : AgentState) (strength : Float.t)
    : Float.t :=
  Float.max0
    (Float.sub (energy (holdings (resources target)))
               (Float.mul strength (Float.dec 3 1))).

(** The four halves that a fork leaves to the parent and writes into the
    child. *)
Definition halves (h : Amounts) : Amounts :=
  mkAmounts (Float.div (energy h) (Float.of_Z 2))
            (Float.div (bandwidth h) (Float.of_Z 2))
            (Float.div (memory h) (Float.of_Z 2))
            (Float.div (compute h) (Float.of_Z 2)).

(** The occupants of the region stored under [rid]. *)
Definition occupants (w : WorldState) (rid : string) : list Json.t :=
  match Py.Regions.get (region_manager w) rid with
  | Some r => Py.Regions.current_agents r
  | None => []
  end.

(** The occupants of the region stored under [rid] once [k] has asked to
    be added: a region that is full, or that lists [k] already, stays as it
    is. *)
Definition listed_after_add (m : Py.Regions.RegionManager) (rid : string)
    (k : Json.t) : list Json.t :=
  match Py.Regions.get m rid with
  | Some r =>
      if Py.Regions.is_full r || Json.contains k (Py.Regions.current_agents r)
      then Py.Regions.current_agents r
      else (Py.Regions.current_agents r ++ [k])%list
  | None => []
  end.



(** The world once only the offered amount has changed hands: the first
    two of the four assignments of a trade. *)
Definition offer_leg_only (w : WorldState) (from to : Json.t) (o : ResourceType)
    (a : Float.t) : WorldState :=
  let w1 := Py.Trade.hold from o (Float.sub (Py.Trade.held w from o) a) w in
  Py.Trade.hold to o (Float.add (Py.Trade.held w1 to o) a) w1.

(** What a call that reaches the four assignments has checked. *)
Definition checks_passed (m : Py.Trade.TradeManager) (oid : Json.t) (accepting : string)
    (tick : Z) (key : string) (offer : Py.Trade.TradeOffer) (offerer accepter : AgentState)
    (o r : ResourceType) : Prop :=
  oid = Json.JStr key
  /\ Py.Trade._offers m !! key = Some offer
  /\ Py.Trade.offer_status offer = Trade.pending
  /\ Py.Trade.to_agent offer = Json.JStr accepting
  /\ tick <= Py.Trade.expires_at_tick offer
  /\ get_agent (Py.Trade.world_state m) (Json.JStr (Py.Trade.from_agent offer)) = Some offerer
  /\ is_alive offerer = true
  /\ get_agent (Py.Trade.world_state m) (Json.JStr accepting) = Some accepter
  /\ is_alive accepter = true
  /\ Py.Trade.resource_type_of (Py.Trade.offer_resource offer) = Some o
  /\ Py.Trade.resource_type_of (Py.Trade.request_resource offer) = Some r
  /\ Py.Mixed.lt (aget (holdings (resources offerer)) o) (Py.Trade.offer_amount offer)
     = Returned false
  /\ Py.Mixed.lt (aget (holdings (resources accepter)) r) (Py.Trade.request_amount offer)
     = Returned false.

(** What a result must look like to answer an action of the given kind by
    the agent [aid] of the region [rid], resolved at [t]: it names the kind,
    the agent and the tick, and a successful observe carries the region's
    description and its occupant list, the list itself, or no description
    and a list of its own when the region does not exist. *)
Definition answers (kind aid : string) (t : Z) (rid : string)
    (rm : Py.Regions.RegionManager) (r : ActionResult) : Prop :=
  action_type r = kind
  /\ result_agent r = Json.JStr aid
  /\ result_tick r = t
  /\ (success r = false <-> error r <> None)
  /\ (kind = "observe" -> success r = true ->
      details r
      = ObserveDetails (option_map Py.Regions.to_dict (Py.Regions.get rm rid))
          (match Py.Regions.get rm rid with
           | Some _ => OccupantsOf rid
           | None => NoOccupants
           end) t).

(** A result as the tick [t] leaves it in its list: it is stamped with
    [t], and a successful observe carries the occupant list of a region,
    the list itself. *)
Definition made_at (t : Z) (r : ActionResult) : Prop :=
  result_tick r = t
  /\ (action_type r = "observe" -> success r = true ->
      exists rid rm,
        details r
        = ObserveDetails (option_map Py.Regions.to_dict (Py.Regions.get rm rid))
            (match Py.Regions.get rm rid with
             | Some _ => OccupantsOf rid
             | None => NoOccupants
             end) t).

(** The events that [append] makes of the results of the tick [t], numbered
    from [next]. *)
Fixpoint events_of (t next : Z) (results : list ActionResult)
    : list Py.Ledger.Event :=
  match results with
  | [] => []
  | r :: rest =>
      Py.Ledger.mkEvent next t (action_type r) (result_agent r) (success r)
                        (Py.Ledger.ResultDetails (details r)) (error r)
      :: events_of t (next + 1) rest
  end.

(** The heartbeat of the tick [t] that processed [n] actions. *)
Definition heartbeat_of (t id : Z) (n : nat) (results : list ActionResult)
    (w : WorldState) : Py.Ledger.Event :=
  Py.Ledger.mkEvent id t "tick" (Json.JStr "__world__") true
    (Py.Ledger.Heartbeat n (length results) (length (agents w))
       (length (List.filter (fun kv => is_alive (snd kv)) (agents w))))
    None.

(** What the occupant list behind a result holds while the world is [w]. *)
Definition read (w : WorldState) (o : Occupants) : list Json.t :=
  match o with
  | OccupantsOf rid => occupants w rid
  | NoOccupants => []
  end.

(** The rational that a finite float stands for. *)
Definition exact (x : Float.t) : Q :=
  match x with
  | SpecFloat.S754_finite s m e =>
      let v := if s then Zneg m else Zpos m in
      if 0 <=? e then inject_Z (v * 2 ^ e) else Qmake v (Z.to_pos (2 ^ (- e)))
  | _ => 0%Q
  end.

End PySpec.

(** ** Concrete worlds on Python's values *)

Module PyScenarios.
Import Py.
Import Py.Resources Py.State Py.Rules Py.Engine.
Import Json(JNull, JBool, JInt, JFloat, JStr, JList, JDict).

(** [x ** 2] and [math.sqrt] as an IEEE 754 library computes them,
    correctly rounded. *)
#[export] Instance ieee_libm : Libm := {
  float_square x :=
    let r := Float.mul x x in
    if Float.is_infinite r && negb (Float.is_infinite x) then Raised OverflowError
    else Returned r;
  math_sqrt x :=
    if Float.ltb x Float.zero then Raised ValueError else Returned (Float.sqrt x)
}.

Definition default_regions : Py.Regions.RegionManager :=
  Py.Regions.initialize_defaults PyDict.empty.

(** A claimed agent with the given pool. *)
Definition citizen (id region : string) (pool : ResourcePool) : AgentState :=
  mkAgent (JStr id) (JStr id) ("pk_" ++ id) region pool claimed (Some "@owner")
          [] 0 None None.

Definition pool_of (e b m c : Float.t) : ResourcePool :=
  mkPool (mkAmounts e b m c) (caps create_default).

(** The world with the default regions and the given agents, each entered
    on the occupant list of its region. *)
Definition populate (citizens : list AgentState) : WorldState :=
  fold_left
    (fun w a => match add_agent w a with Returned w' => w' | Raised _ => w end)
    citizens (mkWorld 0 KDict.empty default_regions []).

Definition holding (w : WorldState) (id : string) (r : ResourceType)
    : option Float.t :=
  option_map (fun a => aget (holdings (resources a)) r) (get_agent w (JStr id)).

(** Two agents in the wasteland, each with energy 50 and compute 40. *)
Definition duel_world : WorldState :=
  populate [citizen "A" "wasteland" create_default;
            citizen "B" "wasteland" create_default].

Definition attack_on (target : Json.t) : Json.t := JDict [("target_agent", target)].

Definition attack_on_B : QueuedAction :=
  mkAction "A" "attack" (attack_on (JStr "B")) 0 1.

(** An agent with energy 3 in the wasteland. *)
Definition frail : AgentState :=
  citizen "W" "wasteland"
    (pool_of (Float.of_Z 3) (Float.of_Z 25) (Float.of_Z 100) (Float.of_Z 40)).

Definition frail_world : WorldState := populate [frail].

Definition wasteland : Py.Regions.Region :=
  Py.Regions.mkRegion "wasteland" "The Wasteland"
    "Dangerous frontier. Scarce resources, high risk, high reward."
    (Float.of_Z (-4)) (Float.of_Z 3) (Float.dec 5 1) (Float.dec 7 1) 50
    [JStr "W"].

(** The float after 3.9, [0x1.f333333333334p+1], which prints as
    3.9000000000000004. *)
Definition just_above_3_9 : Float.t :=
  SpecFloat.S754_finite false 8782019273372468 (-51).

(** An agent with that energy in the void (multiplier 0.3, danger 0.9). *)
Definition borderline : AgentState :=
  citizen "V" "void"
    (pool_of just_above_3_9 (Float.of_Z 25) (Float.of_Z 100) (Float.of_Z 40)).

Definition borderline_world : WorldState := populate [borderline].

(** A target with energy 2.1 beside an attacker that the attack cost leaves
    with compute 3 and energy 4: strength 7, damage [7.0 * 0.3]. *)
Definition close_call_world : WorldState :=
  populate
    [citizen "A" "wasteland"
       (pool_of (Float.of_Z 19) (Float.of_Z 25) (Float.of_Z 100) (Float.of_Z 13));
     citizen "B" "wasteland"
       (pool_of (Float.dec 21 1) (Float.of_Z 25) (Float.of_Z 100) (Float.of_Z 40))].

(** A parent with energy 80, memory 100 and compute 60 in the nexus. *)
Definition parent : AgentState :=
  citizen "P" "nexus"
    (pool_of (Float.of_Z 80) (Float.of_Z 25) (Float.of_Z 100) (Float.of_Z 60)).

Definition parent_world : WorldState := populate [parent].

Definition fork_of (id : string) (params : Json.t) : QueuedAction :=
  mkAction id "fork" params 0 1.

Definition observe_by (id : string) (tick : Z) : QueuedAction :=
  mkAction id "observe" (JDict []) tick 1.

Definition move_by (id : string) (target_region : Json.t) (tick : Z)
    : QueuedAction :=
  mkAction id "move" (JDict [("target_region", target_region)]) tick 1.

(** Thirty claimed agents, [v1] to [v30], as registration and claim leave
    them: in the nexus, with the default pool. *)
Definition settler (i : nat) : string := "v" ++ Rules.tick_string (Z.of_nat i).

Definition colony : WorldState :=
  populate (map (fun i => citizen (settler i) "nexus" create_default) (seq 1 30)).

(** The world after [n] ticks with an empty queue. *)
Fixpoint idle (n : nat) (w : WorldState) : WorldState :=
  match n with
  | O => w
  | S k => idle k (fst (_process_tick w []))
  end.

(** The colony rests for twenty ticks; at tick 21 all thirty move to the
    void (capacity 30), which is then full. *)
Definition exodus : list QueuedAction :=
  map (fun i => move_by (settler i) (JStr "void") 20) (seq 1 30).

Definition crowded_void : WorldState := fst (_process_tick (idle 20 colony) exodus).

(** At tick 22, [v1] forks. *)
Definition fork_in_the_void : QueuedAction := mkAction "v1" "fork" (JDict []) 21 1.

(** The regions, in the order of the table, that list [k] as an occupant. *)
Definition listing_regions (w : WorldState) (k : Json.t) : list string :=
  map fst
    (List.filter (fun kv => Json.contains k (Py.Regions.current_agents (snd kv)))
                 (region_manager w)).

(** Alice with the default pool (energy 50) and Bob with energy 25, both
    claimed, in the nexus. *)
Definition market : WorldState :=
  populate
    [citizen "alice" "nexus" create_default;
     citizen "bob" "nexus"
       (pool_of (Float.of_Z 25) (Float.of_Z 25) (Float.of_Z 100) (Float.of_Z 40))].

(** A trade manager with no offer and empty books. *)
Definition desk (w : WorldState) : Py.Trade.TradeManager :=
  Py.Trade.mkTradeManager w (Py.Trade.mkLedger [] 0) ∅ 0.

Definition trade_request (offer_amount request_amount : Json.t)
    : list (string * Json.t) :=
  [("target_agent", JStr "bob"); ("offer_resource", JStr "energy");
   ("offer_amount", offer_amount); ("request_resource", JStr "compute");
   ("request_amount", request_amount)].


(** Alice has offered Bob 10 energy for [-10 ** 400] compute. *)
Definition lopsided_offer : Py.Trade.TradeManager :=
  snd (Py.Trade.offer_of_request 0 "alice"
         (trade_request (JInt 10) (JInt (- 10 ^ 400))) (desk market)).

(** The engine over the market, with nothing queued and an empty ledger. *)
Definition quiet_market : Py.Emission.Server :=
  Py.Emission.mkServer market [] (Py.Ledger.mkEventLedger [] 0).

(** The server once the gateway has queued the given actions. *)
Definition queued (s : Py.Emission.Server) (actions : list QueuedAction)
    : Py.Emission.Server :=
  Py.Emission.mkServer (Py.Emission.world s) actions (Py.Emission.ledger s).


End PyScenarios.

(** ** Tactics for the handlers *)

(** Case analysis on everything a handler branches on. *)
Ltac split_handler :=
  repeat match goal with
         | |- context [match ?x with _ => _ end] => destruct x eqn:?
         end.

(** Closes the goal about the result that a branch returned. *)
Ltac finish_shape :=
  cbn [Py.Rules.outcome]; intros [= <-]; cbn;
  repeat split; intros;
  try reflexivity; try discriminate; try congruence.

(** * Properties *)

Import Resources State Rules Engine Server Spec.

(** ** Comparisons on amounts *)

Lemma Qltb_lt (x y : Q) : Qltb x y = true <-> x < y.
Proof.
  unfold Qltb. rewrite negb_true_iff. split.
  - intros Hb. apply Qnot_le_lt. intros Hle.
    apply Qle_bool_iff in Hle. congruence.
  - intros Hlt. destruct (Qle_bool y x) eqn:E; [|reflexivity].
    apply Qle_bool_iff in E. exfalso. apply (Qlt_not_le _ _ Hlt E).
Qed.

Lemma Qltb_ge (x y : Q) : Qltb x y = false <-> y <= x.
Proof.
  unfold Qltb. rewrite negb_false_iff. apply Qle_bool_iff.
Qed.

Lemma Qleb_le (x y : Q) : Qleb x y = true <-> x <= y.
Proof. apply Qle_bool_iff. Qed.

Lemma Qleb_gt (x y : Q) : Qleb x y = false <-> y < x.
Proof.
  unfold Qleb. split.
  - intros Hb. apply Qnot_le_lt. intros Hle.
    apply Qle_bool_iff in Hle. congruence.
  - intros Hlt. destruct (Qle_bool x y) eqn:E; [|reflexivity].
    apply Qle_bool_iff in E. exfalso. apply (Qlt_not_le _ _ Hlt E).
Qed.


(** ** Dictionaries *)

Section PyDictFacts.
Context {V : Type}.
Implicit Types (d : PyDict.t V) (k : string) (v : V).

Lemma get_set_eq k v d : PyDict.get k (PyDict.set k v d) = Some v.
Proof.
  induction d as [|[k' v'] rest IH]; simpl.
  - now rewrite String.eqb_refl.
  - destruct (String.eqb k k') eqn:E; simpl; rewrite ?String.eqb_refl, ?E; auto.
Qed.

Lemma get_set_ne k k' v d :
  k <> k' -> PyDict.get k' (PyDict.set k v d) = PyDict.get k' d.
Proof.
  intros Hne. induction d as [|[k0 v0] rest IH]; simpl.
  - destruct (String.eqb_spec k' k); congruence.
  - destruct (String.eqb_spec k k0) as [->|Hk0]; simpl.
    + destruct (String.eqb_spec k' k0); congruence.
    + destruct (String.eqb_spec k' k0); auto.
Qed.

Lemma get_In k v d : PyDict.get k d = Some v -> In (k, v) d.
Proof.
  induction d as [|[k' v'] rest IH]; simpl; [discriminate|].
  destruct (String.eqb_spec k k') as [->|Hne].
  - intros [= ->]. now left.
  - intros Hg. right. auto.
Qed.

Lemma In_get k v d :
  List.NoDup (PyDict.keys d) -> In (k, v) d -> PyDict.get k d = Some v.
Proof.
  induction d as [|[k' v'] rest IH]; simpl; [tauto|].
  intros Hnd [Heq|Hin].
  - injection Heq as -> ->. now rewrite String.eqb_refl.
  - inversion Hnd as [|? ? Hnotin Hnd']; subst.
    destruct (String.eqb_spec k k') as [->|Hne]; [|auto].
    exfalso. apply Hnotin. change k' with (fst (k', v)).
    apply in_map. exact Hin.
Qed.

Lemma keys_set_present k v d :
  PyDict.mem k d = true -> PyDict.keys (PyDict.set k v d) = PyDict.keys d.
Proof.
  unfold PyDict.mem. induction d as [|[k' v'] rest IH]; simpl; [discriminate|].
  destruct (String.eqb_spec k k') as [->|Hne]; simpl; [reflexivity|].
  intros Hm. f_equal. apply IH. exact Hm.
Qed.

Lemma keys_set_absent k v d :
  PyDict.get k d = None -> PyDict.keys (PyDict.set k v d) = (PyDict.keys d ++ [k])%list.
Proof.
  induction d as [|[k' v'] rest IH]; simpl; [reflexivity|].
  destruct (String.eqb_spec k k') as [->|Hne]; simpl; [discriminate|].
  intros Hg. f_equal. apply IH. exact Hg.
Qed.

Lemma get_None_not_key k d : PyDict.get k d = None -> ~ In k (PyDict.keys d).
Proof.
  induction d as [|[k' v'] rest IH]; simpl; [tauto|].
  destruct (String.eqb_spec k k') as [->|Hne]; [discriminate|].
  intros Hg [Heq|Hin]; [congruence | now apply IH].
Qed.

Lemma NoDup_keys_set k v d :
  List.NoDup (PyDict.keys d) -> List.NoDup (PyDict.keys (PyDict.set k v d)).
Proof.
  intros Hnd. destruct (PyDict.get k d) eqn:E.
  - rewrite keys_set_present; [exact Hnd|]. unfold PyDict.mem. now rewrite E.
  - rewrite keys_set_absent by exact E.
    apply NoDup_ListNoDup, NoDup_app. repeat split.
    + now apply NoDup_ListNoDup.
    + intros x Hx Hk. apply list_elem_of_In in Hx.
      apply list_elem_of_In in Hk. destruct Hk as [<-|[]].
      now apply (get_None_not_key _ _ E).
    + apply NoDup_ListNoDup. repeat constructor. simpl. tauto.
Qed.

Lemma In_set kv k v d :
  In kv (PyDict.set k v d) -> kv = (k, v) \/ In kv d.
Proof.
  induction d as [|[k' v'] rest IH]; simpl.
  - intros [<-|[]]. now left.
  - destruct (String.eqb k k'); simpl.
    + intros [<-|Hin]; auto.
    + intros [<-|Hin]; auto. destruct (IH Hin); auto.
Qed.

Lemma Forall_set (P : string * V -> Prop) k v d :
  Forall P d -> P (k, v) -> Forall P (PyDict.set k v d).
Proof.
  intros Hd Hkv. apply List.Forall_forall. intros kv Hin.
  destruct (In_set _ _ _ _ Hin) as [->|Hin']; [exact Hkv|].
  rewrite List.Forall_forall in Hd. auto.
Qed.

Lemma mem_set_mono k k' v d :
  PyDict.mem k' d = true -> PyDict.mem k' (PyDict.set k v d) = true.
Proof.
  unfold PyDict.mem. intros Hm.
  destruct (String.eqb_spec k k') as [->|Hne].
  - now rewrite get_set_eq.
  - now rewrite get_set_ne.
Qed.

Lemma mem_set_same k v d : PyDict.mem k (PyDict.set k v d) = true.
Proof. unfold PyDict.mem. now rewrite get_set_eq. Qed.

Lemma get_update_eq k f d :
  PyDict.get k (PyDict.update k f d) = option_map f (PyDict.get k d).
Proof.
  unfold PyDict.update. destruct (PyDict.get k d) eqn:E; simpl.
  - apply get_set_eq.
  - exact E.
Qed.

Lemma get_update_ne k k' f d :
  k <> k' -> PyDict.get k' (PyDict.update k f d) = PyDict.get k' d.
Proof.
  intros Hne. unfold PyDict.update. destruct (PyDict.get k d); [|reflexivity].
  now apply get_set_ne.
Qed.

Lemma keys_update k f d : PyDict.keys (PyDict.update k f d) = PyDict.keys d.
Proof.
  unfold PyDict.update. destruct (PyDict.get k d) eqn:E; [|reflexivity].
  apply keys_set_present. unfold PyDict.mem. now rewrite E.
Qed.

Lemma mem_update k k' f d :
  PyDict.mem k' (PyDict.update k f d) = PyDict.mem k' d.
Proof.
  unfold PyDict.mem. destruct (String.eqb_spec k k') as [->|Hne].
  - rewrite get_update_eq. now destruct (PyDict.get k' d).
  - now rewrite get_update_ne.
Qed.

Lemma Forall_update (P : string * V -> Prop) k f d :
  Forall P d -> (forall v, P (k, v) -> P (k, f v)) ->
  Forall P (PyDict.update k f d).
Proof.
  intros Hd Hf. unfold PyDict.update. destruct (PyDict.get k d) eqn:E; [|exact Hd].
  apply Forall_set; [exact Hd|]. apply Hf.
  rewrite List.Forall_forall in Hd. apply Hd. now apply get_In.
Qed.
End PyDictFacts.

(** ** Amounts *)

Lemma rt_eqb_eq (a b : ResourceType) : rt_eqb a b = true <-> a = b.
Proof. destruct a, b; simpl; split; congruence. Qed.

Lemma rt_eqb_refl (a : ResourceType) : rt_eqb a a = true.
Proof. now destruct a. Qed.

Lemma aget_aset (h : Amounts) (r r' : ResourceType) (v : Q) :
  aget (aset h r v) r' = if rt_eqb r r' then v else aget h r'.
Proof. destruct r, r'; reflexivity. Qed.

Lemma aget_aset_eq (h : Amounts) (r : ResourceType) (v : Q) :
  aget (aset h r v) r = v.
Proof. now destruct r. Qed.

Lemma of_string_value (r : ResourceType) : of_string (value r) = Some r.
Proof. now destruct r. Qed.

(** ** Cost deduction ([ResourcePool.can_afford], [ResourcePool.deduct]) *)

Lemma can_afford_covered (h : Amounts) (costs : Costs) :
  can_afford_holdings h costs = true <-> covered h costs.
Proof.
  unfold covered. induction costs as [|[r a] rest IH]; simpl.
  - split; [constructor | reflexivity].
  - destruct (Qltb (aget h r) a) eqn:E.
    + split; [discriminate|]. intros Hall. inversion Hall as [|? ? Hle _]; subst.
      simpl in Hle. apply Qltb_lt in E. exfalso. apply (Qlt_not_le _ _ E Hle).
    + rewrite IH. apply Qltb_ge in E. split.
      * intros Hr. now constructor.
      * intros Hall. now inversion Hall.
Qed.

Lemma subtract_all_total (costs : Costs) (h : Amounts) (rtype : ResourceType) :
  aget (subtract_all h costs) rtype == aget h rtype - total_cost rtype costs.
Proof.
  revert h. induction costs as [|[r a] rest IH]; intros h; simpl.
  - ring.
  - rewrite IH, aget_aset. destruct (rt_eqb r rtype) eqn:E.
    + apply rt_eqb_eq in E. subst. ring.
    + ring.
Qed.

Lemma deduct_refused (p p' : ResourcePool) (costs : Costs) :
  deduct p costs = (false, p') -> p' = p.
Proof.
  unfold deduct. destruct (negb (can_afford p costs)); intros [= <-]; reflexivity.
Qed.

Lemma deduct_covered (p : ResourcePool) (costs : Costs) :
  covered (holdings p) costs ->
  deduct p costs = (true, with_holdings p (subtract_all (holdings p) costs)).
Proof.
  intros Hc. apply can_afford_covered in Hc. unfold deduct, can_afford.
  now rewrite Hc.
Qed.


Lemma deduct_accepted (p p' : ResourcePool) (costs : Costs) :
  deduct p costs = (true, p') ->
  covered (holdings p) costs
  /\ p' = with_holdings p (subtract_all (holdings p) costs).
Proof.
  unfold deduct, can_afford.
  destruct (can_afford_holdings (holdings p) costs) eqn:E; simpl; [|discriminate].
  intros [= <-]. split; [now apply can_afford_covered | reflexivity].
Qed.


(** ** Failed resolutions ([RulesEngine]) *)

(** Splits on every test of a handler body. *)
Ltac handler_cases :=
  repeat match goal with
         | |- context [let (_, _) := ?x in _] => destruct x as [[] ?] eqn:?
         | |- context [if ?b then _ else _] => destruct b eqn:?
         | |- context [match ?x with Some _ => _ | None => _ end] => destruct x eqn:?
         end.


Section HandlerFailures.
Context `{Platform}.
Variables (aid : string) (pool : ResourcePool) (reg : string) (params : Params)
          (tick : Z) (costs : Costs) (all_agents : PyDict.t AgentSummary)
          (rm : Regions.RegionManager).








End HandlerFailures.



(** ** World state accessors *)

Lemma get_agent_modify_eq (w : WorldState) (k : string)
    (f : AgentState -> AgentState) :
  get_agent (modify_agent k f w) k = option_map f (get_agent w k).
Proof. unfold get_agent, modify_agent. simpl. apply get_update_eq. Qed.

Lemma get_agent_modify_ne (w : WorldState) (k k' : string)
    (f : AgentState -> AgentState) :
  k <> k' -> get_agent (modify_agent k f w) k' = get_agent w k'.
Proof. intros Hne. unfold get_agent, modify_agent. simpl. now apply get_update_ne. Qed.

Lemma agents_remove_agent (w : WorldState) (k : string) :
  agents (remove_agent w k) = agents w.
Proof. unfold remove_agent. now destruct (PyDict.get k (agents w)). Qed.

Lemma get_agent_remove_agent (w : WorldState) (k k' : string) :
  get_agent (remove_agent w k) k' = get_agent w k'.
Proof. unfold get_agent. now rewrite agents_remove_agent. Qed.

Lemma get_agent_add_agent_eq (w : WorldState) (a : AgentState) :
  get_agent (add_agent w a) (agent_id a) = Some a.
Proof. unfold get_agent, add_agent. simpl. apply get_set_eq. Qed.


Lemma get_agent_with_regions (w : WorldState) (m : Regions.RegionManager)
    (k : string) :
  get_agent (with_regions w m) k = get_agent w k.
Proof. reflexivity. Qed.

(** ** Trade resolution ([_resolve_trade]) *)

Lemma deduct_refused_not_covered (p p' : ResourcePool) (costs : Costs) :
  deduct p costs = (false, p') -> ~ covered (holdings p) costs.
Proof.
  intros D Hc. rewrite (deduct_covered _ _ Hc) in D. discriminate.
Qed.

Lemma validate_and_resolve_trade `{Platform} aid pool reg params tick all rm :
  validate_and_resolve "trade" aid pool reg params tick all rm
  = _resolve_trade aid pool reg params tick (ACTION_COSTS "trade") all rm.
Proof. reflexivity. Qed.

(** C6, as the code has it.  A trade action resolves successfully exactly
    when [target_agent], [offer_resource] and [request_resource] are present
    and non-empty, the target id is a key of the agent view, and the sender
    covers the trade cost; a failed resolution leaves the sender's pool
    untouched and a successful one debits exactly the trade cost.  Whether
    the target is alive, whether the resource strings name resource kinds and
    the sign of the amounts are not examined. *)
Theorem trade_resolution_checks `{Platform} (aid : string) (pool : ResourcePool)
    (reg : string) (params : Params) (tick : Z)
    (all_agents : PyDict.t AgentSummary) (rm : Regions.RegionManager) :
  let r := validate_and_resolve "trade" aid pool reg params tick all_agents rm in
  (success (result r) = true <->
     truthy (target_agent params) = true
     /\ truthy (offer_resource params) = true
     /\ truthy (request_resource params) = true
     /\ PyDict.mem (default "" (target_agent params)) all_agents = true
     /\ covered (holdings pool) (ACTION_COSTS "trade"))
  /\ (success (result r) = false -> pool_after r = pool)
  /\ (success (result r) = true ->
      caps (pool_after r) = caps pool
      /\ energy (holdings (pool_after r)) == energy (holdings pool) - 2
      /\ bandwidth (holdings (pool_after r)) == bandwidth (holdings pool) - 3
      /\ memory (holdings (pool_after r)) = memory (holdings pool)
      /\ compute (holdings (pool_after r)) = compute (holdings pool)).
Proof.
  rewrite validate_and_resolve_trade. unfold _resolve_trade.
  destruct (truthy (target_agent params)); simpl;
    [|repeat split; intros; try discriminate; intuition discriminate].
  destruct (truthy (offer_resource params)); simpl;
    [|repeat split; intros; try discriminate; intuition discriminate].
  destruct (truthy (request_resource params)); simpl;
    [|repeat split; intros; try discriminate; intuition discriminate].
  destruct (PyDict.mem (default "" (target_agent params)) all_agents); simpl;
    [|repeat split; intros; try discriminate; intuition discriminate].
  destruct (deduct pool (ACTION_COSTS "trade")) as [[] pool'] eqn:D; simpl.
  - apply deduct_accepted in D. destruct D as [Hc ->].
    split; [tauto|]. split; [discriminate|]. intros _.
    destruct pool as [[e b m c] cp]. simpl. repeat split; ring.
  - pose proof (deduct_refused_not_covered _ _ _ D) as Hn.
    apply deduct_refused in D. subst.
    split; [split; [discriminate | tauto]|]. split; [reflexivity | discriminate].
Qed.

(** ** Attack ([_resolve_attack] and the attack branch of
    [_apply_side_effects]) *)


(** ** Fork ([_resolve_fork] and the fork branch of [_apply_side_effects]) *)



(** ** Regeneration and danger (the per-agent loop of [_process_tick]) *)






Section TickEffects.
Context `{Platform}.

Lemma tick_effects_other (tick : Z) (w : WorldState)
    (results : list ActionResult) (k k' : string) :
  k <> k' ->
  get_agent (fst (tick_effects tick (w, results) k)) k' = get_agent w k'.
Proof.
  intros Hne. unfold tick_effects.
  destruct (get_agent w k) as [a|]; [|reflexivity].
  destruct (negb (is_alive a)); [reflexivity|].
  destruct (apply_danger _ _ _ _ _) as [[d|] pool]; simpl.
  - now rewrite get_agent_remove_agent, !get_agent_modify_ne.
  - now rewrite get_agent_modify_ne.
Qed.



End TickEffects.

(** ** Trade acceptance ([TradeManager.accept_offer]) *)

Lemma create_offer_window (tick : Z) (from to ores : string) (oamt : Q)
    (rres : string) (ramt : Q) (m : Trade.TradeManager) :
  let offer := fst (Trade.create_offer tick from to ores oamt rres ramt m) in
  Trade.expires_at_tick offer = (tick + 10)%Z
  /\ Trade.offer_status offer = Trade.pending
  /\ Trade._offers (snd (Trade.create_offer tick from to ores oamt rres ramt m))
       !! Trade.offer_id offer = Some offer.
Proof.
  simpl. repeat split. apply lookup_insert_eq.
Qed.

Lemma alive_agent_Some (w : WorldState) (aid : string) (a : AgentState) :
  Trade.alive_agent w aid = Some a <-> get_agent w aid = Some a /\ is_alive a = true.
Proof.
  unfold Trade.alive_agent. destruct (get_agent w aid) as [b|].
  - destruct (is_alive b) eqn:E; split.
    + intros [= ->]. auto.
    + now intros [[= ->] _].
    + discriminate.
    + intros [[= ->] Ha]. congruence.
  - split; [discriminate | now intros [? _]].
Qed.

Lemma accept_offer_failure (oid accepting : string) (tick : Z)
    (m : Trade.TradeManager) :
  let res := Trade.accept_offer oid accepting tick m in
  Trade.accept_success (fst res) = false ->
  Trade.world_state (snd res) = Trade.world_state m.
Proof.
  unfold Trade.accept_offer.
  destruct (Trade._offers m !! oid) as [offer|]; [|reflexivity].
  destruct (Trade.offer_status offer); try reflexivity.
  destruct (negb _); [reflexivity|].
  destruct (_ <? _)%Z; [reflexivity|].
  destruct (Trade.alive_agent _ (Trade.from_agent offer)); [|reflexivity].
  destruct (Trade.alive_agent _ (Trade.to_agent offer)); [|reflexivity].
  destruct (of_string (Trade.offer_resource offer)); [|reflexivity].
  destruct (of_string (Trade.request_resource offer)); [|reflexivity].
  destruct (Qltb _ _); [reflexivity|].
  destruct (Qltb _ _); [reflexivity|].
  simpl. discriminate.
Qed.

Lemma accept_offer_success (oid accepting : string) (tick : Z)
    (m : Trade.TradeManager) :
  let res := Trade.accept_offer oid accepting tick m in
  Trade.accept_success (fst res) = true <->
  exists offer from to ort rrt,
    acceptable m oid accepting tick offer from to ort rrt.
Proof.
  unfold Trade.accept_offer, acceptable. split.
  - destruct (Trade._offers m !! oid) as [offer|]; [|discriminate].
    destruct (Trade.offer_status offer) eqn:Hs; try discriminate.
    destruct (String.eqb_spec (Trade.to_agent offer) accepting) as [Hto|];
      [|discriminate]. cbn [negb].
    destruct (Z.ltb_spec (Trade.expires_at_tick offer) tick); [discriminate|].
    destruct (Trade.alive_agent _ (Trade.from_agent offer)) as [from|] eqn:Hf;
      [|discriminate].
    destruct (Trade.alive_agent _ (Trade.to_agent offer)) as [to|] eqn:Ht;
      [|discriminate].
    destruct (of_string (Trade.offer_resource offer)) as [ort|] eqn:Hor;
      [|discriminate].
    destruct (of_string (Trade.request_resource offer)) as [rrt|] eqn:Hrr;
      [|discriminate].
    destruct (Qltb (aget (holdings (resources from)) ort) _) eqn:E1;
      [discriminate|].
    destruct (Qltb (aget (holdings (resources to)) rrt) _) eqn:E2;
      [discriminate|].
    intros _. apply alive_agent_Some in Hf, Ht. apply Qltb_ge in E1, E2.
    exists offer, from, to, ort, rrt. intuition.
  - intros (offer & from & to & ort & rrt & Ho & Hs & Hto & Hexp & Hf & Hfa & Ht
            & Hta & Hor & Hrr & H1 & H2).
    rewrite Ho, Hs, Hto, String.eqb_refl. cbn [negb].
    destruct (Z.ltb_spec (Trade.expires_at_tick offer) tick); [lia|].
    rewrite <- Hto.
    rewrite (proj2 (alive_agent_Some _ _ from)) by auto.
    rewrite (proj2 (alive_agent_Some _ _ to)) by auto.
    rewrite Hor, Hrr.
    rewrite (proj2 (Qltb_ge _ _) H1), (proj2 (Qltb_ge _ _) H2). reflexivity.
Qed.

Lemma accept_offer_executes (oid accepting : string) (tick : Z)
    (m : Trade.TradeManager) offer from to ort rrt :
  acceptable m oid accepting tick offer from to ort rrt ->
  Trade.world_state (snd (Trade.accept_offer oid accepting tick m))
  = Trade.execute_trade offer ort rrt (Trade.world_state m).
Proof.
  intros (Ho & Hs & Hto & Hexp & Hf & Hfa & Ht & Hta & Hor & Hrr & H1 & H2).
  unfold Trade.accept_offer.
  rewrite Ho, Hs, Hto, String.eqb_refl. cbn [negb].
  destruct (Z.ltb_spec (Trade.expires_at_tick offer) tick); [lia|].
  rewrite <- Hto.
  rewrite (proj2 (alive_agent_Some _ _ from)) by auto.
  rewrite (proj2 (alive_agent_Some _ _ to)) by auto.
  rewrite Hor, Hrr.
  rewrite (proj2 (Qltb_ge _ _) H1), (proj2 (Qltb_ge _ _) H2). reflexivity.
Qed.

(** *** Holdings under the four assignments of a trade *)






(** The other paths that credit a holding clamp it to the cap; the four
    assignments of [execute_trade] do not. *)
Lemma regenerate_one_clamps (m : Q) (p : ResourcePool) (rtype : ResourceType) :
  aget (holdings (regenerate_one m p rtype)) rtype <= aget (caps p) rtype.
Proof.
  unfold regenerate_one. simpl. rewrite aget_aset_eq. apply Q.le_min_r.
Qed.

Lemma merge_absorb_clamps (absorbed : Amounts) (p : ResourcePool)
    (rtype : ResourceType) :
  aget (holdings (merge_absorb absorbed p rtype)) rtype <= aget (caps p) rtype.
Proof.
  unfold merge_absorb. simpl. rewrite aget_aset_eq. apply Q.le_min_r.
Qed.

Lemma add_holding_adds (rtype : ResourceType) (amt : Q) (a : AgentState) :
  aget (holdings (resources (Trade.add_holding rtype amt a))) rtype
  = aget (holdings (resources a)) rtype + amt.
Proof. unfold Trade.add_holding. simpl. apply aget_aset_eq. Qed.


(** ** Claim attempts ([validate_claim_token] and its callers) *)

Lemma attempts_insert_eq (c : gmap string nat) (t : string) (n : nat) :
  attempts (<[t := n]> c) t = n.
Proof. unfold attempts. now rewrite lookup_insert_eq. Qed.

Lemma attempts_insert_ne (c : gmap string nat) (t t' : string) (n : nat) :
  t <> t' -> attempts (<[t := n]> c) t' = attempts c t'.
Proof. intros Hne. unfold attempts. now rewrite lookup_insert_ne. Qed.

(** What a validation does to the manager, whatever it answers. *)
Lemma validate_claim_token_state (now : Q) (token : string)
    (m : Lifecycle.LifecycleManager) :
  let c := attempts (Lifecycle._claim_attempts m) token in
  let res := Lifecycle.validate_claim_token now token m in
  Lifecycle.world_state (snd res) = Lifecycle.world_state m
  /\ ((5 <= c)%nat -> res = (inl Lifecycle.TooManyAttempts, m))
  /\ ((c < 5)%nat ->
      Lifecycle._claim_attempts (snd res)
      = <[token := S c]> (Lifecycle._claim_attempts m)).
Proof.
  unfold Lifecycle.validate_claim_token, attempts, Lifecycle.MAX_CLAIM_ATTEMPTS.
  destruct (Nat.leb_spec 5 (default 0%nat (Lifecycle._claim_attempts m !! token)))
    as [Hge|Hlt].
  - simpl. repeat split; auto. lia.
  - split; [|split; [lia|intros _]].
    + destruct (Lifecycle.get_agent_by_claim_token _ _) as [[k a]|]; [|reflexivity].
      destruct (negb _); [reflexivity|]. now destruct (Lifecycle.expired now a).
    + destruct (Lifecycle.get_agent_by_claim_token _ _) as [[k a]|]; [|reflexivity].
      destruct (negb _); [reflexivity|]. now destruct (Lifecycle.expired now a).
Qed.

Lemma present_exhausted (now : Q) (token : string) (how : Presentation)
    (m : Lifecycle.LifecycleManager) :
  (5 <= attempts (Lifecycle._claim_attempts m) token)%nat ->
  present now token how m = (Some Lifecycle.TooManyAttempts, m).
Proof.
  intros Hge.
  destruct (validate_claim_token_state now token m) as (_ & Hmax & _).
  specialize (Hmax Hge).
  destruct how; unfold present, Lifecycle.get_verification_phrase,
    Lifecycle.claim_agent; now rewrite Hmax.
Qed.

Lemma present_counts (now : Q) (token : string) (how : Presentation)
    (m : Lifecycle.LifecycleManager) :
  (attempts (Lifecycle._claim_attempts m) token < 5)%nat ->
  Lifecycle._claim_attempts (snd (present now token how m))
  = <[token := S (attempts (Lifecycle._claim_attempts m) token)]>
      (Lifecycle._claim_attempts m).
Proof.
  intros Hlt.
  destruct (validate_claim_token_state now token m) as (_ & _ & Hcount).
  specialize (Hcount Hlt).
  destruct how; unfold present, Lifecycle.get_verification_phrase,
    Lifecycle.claim_agent;
    destruct (Lifecycle.validate_claim_token now token m) as [[e|[k a]] m'];
    exact Hcount.
Qed.

Lemma min_five_same (n : nat) : (Nat.min 5 (n + 0) <= n)%nat.
Proof. lia. Qed.

Lemma min_five_succ (n : nat) : (Nat.min 5 (n + 1) <= S n)%nat.
Proof. lia. Qed.

Lemma min_five_full (n k : nat) : (5 <= n)%nat -> (Nat.min 5 (n + k) <= n)%nat.
Proof. lia. Qed.

Lemma min_five_step (a b c p q : nat) :
  (Nat.min 5 (a + p) <= b)%nat -> (Nat.min 5 (b + q) <= c)%nat ->
  (Nat.min 5 (a + (p + q)) <= c)%nat.
Proof. lia. Qed.

Section AttemptCounting.
Context `{Platform}.

Lemma exec_attempts (e : Event) (s : ServerState) (token : string) :
  (Nat.min 5 (attempts (claim_attempts s) token + presentations token [e])
   <= attempts (claim_attempts (exec e s)) token)%nat.
Proof.
  destruct e as [tok nw pk sg nc ch pn nm|queue|now t how|k cause tk
                 |tk from to ores oamt rres ramt|oid k tk].
  1: { cbn [exec presentations].
       destruct (Gateway.register_agent _ _ _ _ _ _ _ _ _) as [[? ?]|];
         cbn [with_world claim_attempts]; apply min_five_same. }
  1: { cbn [exec presentations with_world claim_attempts]. apply min_five_same. }
  2: { cbn [exec presentations with_lifecycle claim_attempts].
       unfold Lifecycle.kill_agent, lifecycle. cbn [Lifecycle.world_state].
       destruct (get_agent (world s) k) as [a|]; [|apply min_five_same].
       destruct (negb (is_alive a)); apply min_five_same. }
  2: { cbn [exec presentations with_trade_manager claim_attempts].
       apply min_five_same. }
  2: { cbn [exec presentations with_trade_manager claim_attempts].
       apply min_five_same. }
  cbn [exec presentations with_lifecycle claim_attempts].
  destruct (Nat.lt_ge_cases (attempts (claim_attempts s) t) 5) as [Hlt|Hge].
  - rewrite (present_counts now t how (lifecycle s) Hlt).
    cbn [lifecycle Lifecycle._claim_attempts].
    destruct (String.eqb_spec t token) as [->|Hne].
    + rewrite attempts_insert_eq. apply min_five_succ.
    + rewrite attempts_insert_ne by exact Hne. apply min_five_same.
  - rewrite (present_exhausted now t how (lifecycle s) Hge).
    cbn [snd lifecycle Lifecycle._claim_attempts].
    destruct (String.eqb_spec t token) as [->|Hne].
    + now apply min_five_full.
    + apply min_five_same.
Qed.

Lemma presentations_cons (token : string) (e : Event) (trace : list Event) :
  presentations token (e :: trace)
  = (presentations token [e] + presentations token trace)%nat.
Proof.
  destruct e as [ | |now t how| | | ]; simpl; try reflexivity.
  destruct (String.eqb t token); reflexivity.
Qed.

Lemma run_attempts (trace : list Event) (s : ServerState) (token : string) :
  (Nat.min 5 (attempts (claim_attempts s) token + presentations token trace)
   <= attempts (claim_attempts (run trace s)) token)%nat.
Proof.
  revert s. induction trace as [|e rest IH]; intros s.
  - apply min_five_same.
  - rewrite presentations_cons. change (run (e :: rest) s) with (run rest (exec e s)).
    exact (min_five_step _ _ _ _ _ (exec_attempts e s token) (IH (exec e s))).
Qed.

(** C10.  Every presentation of a token -- a direct validation, a view of
    the claim page or a submitted claim -- made while fewer than five
    validations are recorded for it raises the count by one before anything
    else is examined, whatever the presentation then answers; once five are
    recorded, every presentation is refused as too many attempts and
    changes nothing.  Hence after any history of the server that contains
    five presentations of one token, every further validation, page view or
    claim with that token fails with the too-many-attempts error. *)
Theorem five_presentations_exhaust_token (s : ServerState)
    (trace : list Event) (token : string) (now : Q) (how : Presentation) :
  let m := lifecycle s in
  let c := attempts (Lifecycle._claim_attempts m) token in
  ((c < 5)%nat ->
   attempts (Lifecycle._claim_attempts (snd (present now token how m))) token = S c)
  /\ ((5 <= c)%nat -> present now token how m = (Some Lifecycle.TooManyAttempts, m))
  /\ ((5 <= presentations token trace)%nat ->
      present now token how (lifecycle (run trace s))
      = (Some Lifecycle.TooManyAttempts, lifecycle (run trace s))).
Proof.
  intros m c. split; [|split].
  - intros Hlt. rewrite (present_counts now token how m Hlt).
    apply attempts_insert_eq.
  - apply present_exhausted.
  - intros Hfive. apply present_exhausted.
    pose proof (run_attempts trace s token) as Hrun.
    cbn [lifecycle Lifecycle._claim_attempts].
    revert Hrun Hfive. generalize (attempts (claim_attempts (run trace s)) token).
    generalize (attempts (claim_attempts s) token).
    generalize (presentations token trace). clear. intros p a b. lia.
Qed.
End AttemptCounting.

(** ** How the agent map evolves *)

Lemma evolves_trans (d1 d2 d3 : PyDict.t AgentState) :
  evolves d1 d2 -> evolves d2 d3 -> evolves d1 d3.
Proof.
  intros H12 H23. induction H23 as [|d2 d3 d4 _ IH Hm]; [exact H12|].
  eapply evolves_step; [apply IH; exact H12 | exact Hm].
Qed.

Lemma evolves_mutation (d d' : PyDict.t AgentState) : mutation d d' -> evolves d d'.
Proof. intros Hm. eapply evolves_step; [apply evolves_refl | exact Hm]. Qed.

(** Every field assignment the kernel makes on a stored agent is benign. *)
Ltac benign_by_fields := intros a; simpl; repeat split; auto.

Lemma benign_set_region (v : string) : benign (set_region v).
Proof. benign_by_fields. Qed.

Lemma benign_set_resources (p : ResourcePool) : benign (set_resources p).
Proof. benign_by_fields. Qed.

Lemma benign_set_holdings (h : Amounts) : benign (set_holdings h).
Proof. benign_by_fields. Qed.

Lemma benign_mark_dead (t : Z) : benign (mark_dead t).
Proof. intros a; simpl; repeat split; auto. right. split; [reflexivity | discriminate]. Qed.

Lemma benign_mark_claimed (o : string) : benign (mark_claimed o).
Proof. benign_by_fields. Qed.

Lemma benign_sub_holding (r : ResourceType) (q : Q) : benign (Trade.sub_holding r q).
Proof. benign_by_fields. Qed.

Lemma benign_add_holding (r : ResourceType) (q : Q) : benign (Trade.add_holding r q).
Proof. benign_by_fields. Qed.

Lemma benign_damage (e : Q) :
  benign (fun t => set_holdings (aset (holdings (resources t)) ENERGY e) t).
Proof. benign_by_fields. Qed.

Lemma benign_ally (target : string) :
  benign (fun a => set_alliances (alliances a ++ [target])%list a).
Proof. benign_by_fields. Qed.

Lemma evolves_modify (k : string) (f : AgentState -> AgentState) (w : WorldState) :
  benign f -> evolves (agents w) (agents (modify_agent k f w)).
Proof. intros Hf. apply evolves_mutation. now constructor. Qed.

Lemma In_update_origin {V : Type} (k : string) (f : V -> V) (d : PyDict.t V)
    (k' : string) (v' : V) :
  In (k', v') (PyDict.update k f d) ->
  In (k', v') d \/ exists v, In (k', v) d /\ v' = f v.
Proof.
  unfold PyDict.update. destruct (PyDict.get k d) as [v|] eqn:E; [|now left].
  intros Hin. destruct (In_set _ _ _ _ Hin) as [[= -> ->]|Hold]; [|now left].
  right. exists v. split; [now apply get_In | reflexivity].
Qed.

Lemma In_update_exact {V : Type} (k : string) (f : V -> V) (d : PyDict.t V)
    (k' : string) (v' : V) :
  List.NoDup (PyDict.keys d) ->
  In (k', v') (PyDict.update k f d) ->
  (k' <> k /\ In (k', v') d)
  \/ (k' = k /\ exists v, PyDict.get k d = Some v /\ v' = f v).
Proof.
  intros Hnd Hin.
  assert (Hnd' : List.NoDup (PyDict.keys (PyDict.update k f d)))
    by now rewrite keys_update.
  pose proof (In_get _ _ _ Hnd' Hin) as Hget.
  destruct (String.eqb_spec k k') as [<-|Hne].
  - right. split; [reflexivity|]. rewrite get_update_eq in Hget.
    destruct (PyDict.get k d) as [v|]; [|discriminate].
    injection Hget as <-. now exists v.
  - left. split; [congruence|]. rewrite get_update_ne in Hget by exact Hne.
    now apply get_In.
Qed.

(** A token found after a mutation was carried under the same key before. *)
Lemma mutation_token_origin (d d' : PyDict.t AgentState) (k : string)
    (a : AgentState) (t : string) :
  mutation d d' -> In (k, a) d' -> claim_token a = Some t ->
  exists a0, In (k, a0) d /\ claim_token a0 = Some t.
Proof.
  intros Hm Hin Ht. destruct Hm as [k0 f d Hf|c kp p d Hp Hpk Hc Hpar].
  - destruct (In_update_origin _ _ _ _ _ Hin) as [Hold|(v & Hv & ->)].
    + now exists a.
    + exists v. split; [exact Hv|].
      destruct (Hf v) as (_ & _ & _ & [Hnone|[Hsame _]]); congruence.
  - destruct (In_set _ _ _ _ Hin) as [[= -> ->]|Hold].
    + congruence.
    + now exists a.
Qed.

Lemma evolves_token_origin (d d' : PyDict.t AgentState) (k : string)
    (a : AgentState) (t : string) :
  evolves d d' -> In (k, a) d' -> claim_token a = Some t ->
  exists a0, In (k, a0) d /\ claim_token a0 = Some t.
Proof.
  intros He. revert k a. induction He as [|d1 d2 d3 _ IH Hm]; intros k a Hin Ht.
  - now exists a.
  - destruct (mutation_token_origin _ _ _ _ _ Hm Hin Ht) as (a1 & Hin1 & Ht1).
    exact (IH _ _ Hin1 Ht1).
Qed.

Lemma evolves_tokens_unique (d d' : PyDict.t AgentState) :
  evolves d d' -> tokens_unique d -> tokens_unique d'.
Proof.
  intros He Hu t k1 a1 k2 a2 H1 H2 T1 T2.
  destruct (evolves_token_origin _ _ _ _ _ He H1 T1) as (b1 & Hb1 & Tb1).
  destruct (evolves_token_origin _ _ _ _ _ He H2 T2) as (b2 & Hb2 & Tb2).
  exact (Hu t k1 b1 k2 b2 Hb1 Hb2 Tb1 Tb2).
Qed.

Lemma evolves_token_absent (d d' : PyDict.t AgentState) (t : string) :
  evolves d d' -> token_absent t d -> token_absent t d'.
Proof.
  intros He Ha. unfold token_absent in *. rewrite List.Forall_forall in *.
  intros [k a] Hin Ht. simpl in Ht.
  destruct (evolves_token_origin _ _ _ _ _ He Hin Ht) as (a0 & Hin0 & Ht0).
  exact (Ha _ Hin0 Ht0).
Qed.

Section Preservation.
Context `{Platform}.

Lemma entry_ok_benign (k : string) (f : AgentState -> AgentState) (v : AgentState) :
  benign f -> entry_ok (k, v) -> entry_ok (k, f v).
Proof.
  intros Hf (Hid & Hreg & Hclaimed). destruct (Hf v) as (Fid & Fpk & Fpar & Ftok).
  unfold entry_ok in *. simpl in *. repeat split.
  - congruence.
  - intros Hnone. rewrite Fid, Fpk. apply Hreg. congruence.
  - intros Hst. destruct Ftok as [Hn|[Hsame Hstatus]]; [exact Hn|].
    rewrite Hsame. auto.
Qed.

Lemma mutation_agents_ok (d d' : PyDict.t AgentState) :
  mutation d d' -> agents_ok d -> agents_ok d'.
Proof.
  intros Hm (Hnd & Hentries & Hkeys).
  destruct Hm as [k f d Hf|c kp p d Hp Hpk Hc Hpar].
  - split; [now rewrite keys_update|]. split.
    + apply Forall_update; [exact Hentries|]. intros v. now apply entry_ok_benign.
    + apply Forall_update.
      * rewrite List.Forall_forall in *. intros kv Hin. unfold key_recorded.
        rewrite mem_update. now apply Hkeys.
      * intros v. unfold key_recorded. simpl.
        destruct (Hf v) as (_ & -> & _). auto.
  - split; [now apply NoDup_keys_set|]. split.
    + apply Forall_set; [exact Hentries|]. unfold entry_ok. simpl.
      repeat split; [contradiction | auto].
    + assert (Hp' : key_recorded d (kp, p))
        by (rewrite List.Forall_forall in Hkeys; now apply Hkeys).
      apply Forall_set.
      * rewrite List.Forall_forall in *. intros kv Hin. unfold key_recorded.
        apply mem_set_mono. now apply Hkeys.
      * unfold key_recorded in *. simpl in *. rewrite Hpk.
        now apply mem_set_mono.
Qed.

Lemma evolves_agents_ok (d d' : PyDict.t AgentState) :
  evolves d d' -> agents_ok d -> agents_ok d'.
Proof.
  intros He Hok. induction He as [|d1 d2 d3 _ IH Hm]; [exact Hok|].
  eapply mutation_agents_ok; [exact Hm | now apply IH].
Qed.

Lemma evolves_world_ok (w w' : WorldState) :
  evolves (agents w) (agents w') -> world_ok w -> world_ok w'.
Proof.
  intros He [Hok Hu]. split.
  - now apply (evolves_agents_ok (agents w)).
  - now apply (evolves_tokens_unique (agents w)).
Qed.
End Preservation.

(** ** Every server operation evolves the agent map *)

Lemma evolves_remove_agent (d : PyDict.t AgentState) (w : WorldState) (k : string) :
  evolves d (agents w) -> evolves d (agents (remove_agent w k)).
Proof. now rewrite agents_remove_agent. Qed.

Lemma evolves_modify_after (d : PyDict.t AgentState) (k : string)
    (f : AgentState -> AgentState) (w : WorldState) :
  benign f -> evolves d (agents w) -> evolves d (agents (modify_agent k f w)).
Proof.
  intros Hf He. eapply evolves_trans; [exact He | now apply evolves_modify].
Qed.

Lemma evolves_fork (r : ActionResult) (aid child_id : string) (w : WorldState)
    (agent : AgentState) (parent_h child_h : Amounts) :
  get_agent w aid = Some agent ->
  evolves (agents w)
    (agents (add_agent (modify_agent aid (set_holdings parent_h) w)
                       (fork_child r child_id agent child_h))).
Proof.
  intros Hagent. eapply evolves_step.
  - apply evolves_modify, benign_set_holdings.
  - apply (mutation_child (fork_child r child_id agent child_h) aid
             (set_holdings parent_h agent)).
    + apply get_In. change (get_agent (modify_agent aid (set_holdings parent_h) w) aid
                             = Some (set_holdings parent_h agent)).
      now rewrite get_agent_modify_eq, Hagent.
    + reflexivity.
    + reflexivity.
    + discriminate.
Qed.

Lemma evolves_apply_side_effects (r : ActionResult) (aid : string) (w : WorldState) :
  evolves (agents w) (agents (_apply_side_effects r aid w)).
Proof.
  unfold _apply_side_effects.
  destruct (get_agent w aid) as [agent|] eqn:Hagent; [|apply evolves_refl].
  destruct (String.eqb (action_type r) "move").
  { destruct (details r); try apply evolves_refl.
    apply evolves_modify, benign_set_region. }
  destruct (String.eqb (action_type r) "fork").
  { destruct (details r); try apply evolves_refl.
    destruct (fold_left fork_split all_resource_types _) as [parent_h child_h].
    now apply evolves_fork. }
  destruct (String.eqb (action_type r) "merge").
  { destruct (details r); try apply evolves_refl.
    destruct (get_agent w absorbed_agent); [|apply evolves_refl].
    apply evolves_remove_agent.
    apply evolves_modify_after; [apply benign_mark_dead|].
    apply evolves_modify, benign_set_resources. }
  destruct (String.eqb (action_type r) "attack").
  { destruct (details r); try apply evolves_refl.
    destruct (get_agent w target); [|apply evolves_refl].
    destruct (Qleb _ 0).
    - apply evolves_remove_agent.
      apply evolves_modify_after; [apply benign_mark_dead|].
      apply evolves_modify, benign_damage.
    - apply evolves_modify, benign_damage. }
  destruct (String.eqb (action_type r) "ally"); [|apply evolves_refl].
  destruct (details r); try apply evolves_refl.
  destruct (Regions.contains target (alliances agent)); simpl.
  - apply evolves_refl.
  - apply (evolves_modify aid _ w), benign_ally.
Qed.

Section OperationsEvolve.
Context `{Platform}.

Lemma evolves_resolve_action (summary : PyDict.t AgentSummary) (tick : Z)
    (st : WorldState * list ActionResult) (action : QueuedAction) :
  evolves (agents (fst st))
          (agents (fst (resolve_action summary tick st action))).
Proof.
  destruct st as [w results]. unfold resolve_action.
  destruct (get_agent w (qa_agent_id action)) as [agent|]; [|apply evolves_refl].
  destruct (negb (is_alive agent)); [apply evolves_refl|].
  destruct (_ && _); [apply evolves_refl|].
  set (r := validate_and_resolve _ _ _ _ _ _ _ _).
  set (w1 := with_regions _ _).
  assert (H1 : evolves (agents w) (agents w1))
    by apply (evolves_modify _ _ w), benign_set_resources.
  destruct (success (result r)); simpl; [|exact H1].
  eapply evolves_trans; [exact H1 | apply evolves_apply_side_effects].
Qed.

Lemma evolves_tick_effects (tick : Z) (st : WorldState * list ActionResult)
    (k : string) :
  evolves (agents (fst st)) (agents (fst (tick_effects tick st k))).
Proof.
  destruct st as [w results]. unfold tick_effects.
  destruct (get_agent w k) as [agent|]; [|apply evolves_refl].
  destruct (negb (is_alive agent)); [apply evolves_refl|].
  destruct (apply_danger _ _ _ _ _) as [[d|] pool]; simpl.
  - apply evolves_remove_agent.
    apply evolves_modify_after; [apply benign_mark_dead|].
    apply evolves_modify, benign_set_resources.
  - apply evolves_modify, benign_set_resources.
Qed.

Lemma evolves_fold {A : Type}
    (f : WorldState * list ActionResult -> A -> WorldState * list ActionResult)
    (l : list A) (st : WorldState * list ActionResult) :
  (forall st x, evolves (agents (fst st)) (agents (fst (f st x)))) ->
  evolves (agents (fst st)) (agents (fst (fold_left f l st))).
Proof.
  intros Hf. revert st. induction l as [|x rest IH]; intros st; cbn [fold_left].
  - apply evolves_refl.
  - eapply evolves_trans; [apply Hf | apply IH].
Qed.

Lemma evolves_process_tick (w : WorldState) (queue : list QueuedAction) :
  evolves (agents w) (agents (fst (_process_tick w queue))).
Proof.
  unfold _process_tick, advance_tick.
  set (w0 := mkWorld _ _ _ _).
  set (st1 := fold_left _ (filter _ queue) (w0, [])).
  apply (evolves_trans _ (agents (fst st1))).
  - apply (evolves_fold _ _ (w0, [])). intros st x. apply evolves_resolve_action.
  - apply evolves_fold. intros st x. apply evolves_tick_effects.
Qed.

Lemma validate_world (now : Q) (token : string) (m : Lifecycle.LifecycleManager) :
  Lifecycle.world_state (snd (Lifecycle.validate_claim_token now token m))
  = Lifecycle.world_state m.
Proof. apply validate_claim_token_state. Qed.

Lemma evolves_present (now : Q) (token : string) (how : Presentation)
    (m : Lifecycle.LifecycleManager) :
  evolves (agents (Lifecycle.world_state m))
          (agents (Lifecycle.world_state (snd (present now token how m)))).
Proof.
  pose proof (validate_world now token m) as Hw.
  destruct how; unfold present, Lifecycle.get_verification_phrase,
    Lifecycle.claim_agent;
    destruct (Lifecycle.validate_claim_token now token m) as [[e|[k a]] m'];
    simpl in *; rewrite ?Hw; try apply evolves_refl.
  rewrite <- Hw. apply evolves_modify, benign_mark_claimed.
Qed.

Lemma evolves_kill (aid cause : string) (tick : Z) (m : Lifecycle.LifecycleManager) :
  evolves (agents (Lifecycle.world_state m))
          (agents (Lifecycle.world_state (snd (Lifecycle.kill_agent aid cause tick m)))).
Proof.
  unfold Lifecycle.kill_agent.
  destruct (get_agent _ aid) as [a|]; [|apply evolves_refl].
  destruct (negb (is_alive a)); [apply evolves_refl|]. simpl.
  apply evolves_remove_agent, evolves_modify, benign_mark_dead.
Qed.

Lemma evolves_execute_trade (offer : Trade.TradeOffer) (ort rrt : ResourceType)
    (w : WorldState) :
  evolves (agents w) (agents (Trade.execute_trade offer ort rrt w)).
Proof.
  unfold Trade.execute_trade.
  apply evolves_modify_after; [apply benign_add_holding|].
  apply evolves_modify_after; [apply benign_sub_holding|].
  apply evolves_modify_after; [apply benign_add_holding|].
  apply evolves_modify, benign_sub_holding.
Qed.

Lemma evolves_accept_offer (oid aid : string) (tick : Z) (m : Trade.TradeManager) :
  evolves (agents (Trade.world_state m))
          (agents (Trade.world_state (snd (Trade.accept_offer oid aid tick m)))).
Proof.
  destruct (Trade.accept_success (fst (Trade.accept_offer oid aid tick m))) eqn:E.
  - apply accept_offer_success in E.
    destruct E as (offer & from & to & ort & rrt & Hacc).
    rewrite (accept_offer_executes _ _ _ _ _ _ _ _ _ Hacc).
    apply evolves_execute_trade.
  - rewrite (accept_offer_failure _ _ _ _ E). apply evolves_refl.
Qed.

(** Every event but a registration evolves the agent map. *)
Lemma exec_evolves (e : Event) (s : ServerState) :
  match e with
  | Register _ _ _ _ _ _ _ _ => True
  | _ => evolves (agents (world s)) (agents (world (exec e s)))
  end.
Proof.
  destruct e as [tok nw pk sg nc ch pn nm|queue|now t how|k cause tk
                 |tk from to ores oamt rres ramt|oid k tk];
    [exact I| | | | |]; cbn [exec].
  - apply evolves_process_tick.
  - apply (evolves_present now t how (lifecycle s)).
  - apply (evolves_kill k cause tk (lifecycle s)).
  - apply evolves_refl.
  - apply (evolves_accept_offer oid k tk (trade_manager s)).
Qed.
End OperationsEvolve.

(** ** Claim tokens in the agent map *)

Lemma token_matches_iff (t : string) (a : AgentState) :
  Lifecycle.token_matches t a = true <-> claim_token a = Some t.
Proof.
  unfold Lifecycle.token_matches. destruct (claim_token a) as [t'|].
  - destruct (String.eqb_spec t' t); split; congruence.
  - split; discriminate.
Qed.

Lemma find_by_token_Some (t : string) (d : PyDict.t AgentState) (k : string)
    (a : AgentState) :
  Lifecycle.find_by_token t d = Some (k, a) -> In (k, a) d /\ claim_token a = Some t.
Proof.
  induction d as [|[k' a'] rest IH]; simpl; [discriminate|].
  destruct (Lifecycle.token_matches t a') eqn:E.
  - intros [= -> ->]. split; [now left | now apply token_matches_iff].
  - intros Hf. destruct (IH Hf). split; [now right | assumption].
Qed.

Lemma find_by_token_None (t : string) (d : PyDict.t AgentState) :
  Lifecycle.find_by_token t d = None <-> token_absent t d.
Proof.
  unfold token_absent. induction d as [|[k a] rest IH]; simpl.
  - split; [constructor | reflexivity].
  - destruct (Lifecycle.token_matches t a) eqn:E.
    + split; [discriminate|]. intros Hall. inversion Hall as [|? ? Hne _]; subst.
      apply token_matches_iff in E. simpl in Hne. contradiction.
    + rewrite IH. split.
      * intros Hrest. constructor; [|exact Hrest]. simpl. intros Ht.
        apply token_matches_iff in Ht. congruence.
      * intros Hall. now inversion Hall.
Qed.

(** A presentation of a token that no agent carries fails. *)
Lemma present_absent (now : Q) (token : string) (how : Presentation)
    (m : Lifecycle.LifecycleManager) :
  token_absent token (agents (Lifecycle.world_state m)) ->
  fst (present now token how m) = Some Lifecycle.TooManyAttempts
  \/ fst (present now token how m) = Some Lifecycle.InvalidToken.
Proof.
  intros Habs. apply find_by_token_None in Habs.
  assert (Hv : fst (Lifecycle.validate_claim_token now token m)
               = inl Lifecycle.TooManyAttempts
               \/ fst (Lifecycle.validate_claim_token now token m)
                  = inl Lifecycle.InvalidToken).
  { unfold Lifecycle.validate_claim_token.
    destruct (_ <=? _)%nat; [now left|]. right.
    unfold Lifecycle.get_agent_by_claim_token. simpl. now rewrite Habs. }
  destruct how; unfold present, Lifecycle.get_verification_phrase,
    Lifecycle.claim_agent;
    destruct (Lifecycle.validate_claim_token now token m) as [[e|[k a]] m'];
    simpl in *; destruct Hv as [Hv|Hv]; try discriminate;
    injection Hv as ->; auto.
Qed.

(** What a successful claim did. *)
Lemma claim_agent_success (now : Q) (token owner method : string)
    (m m' : Lifecycle.LifecycleManager) (r : Lifecycle.ClaimResult) :
  Lifecycle.claim_agent now token owner method m = (inr r, m') ->
  exists k a,
    Lifecycle.find_by_token token (agents (Lifecycle.world_state m)) = Some (k, a)
    /\ status a = unclaimed
    /\ Lifecycle.expired now a = false
    /\ (attempts (Lifecycle._claim_attempts m) token < 5)%nat
    /\ Lifecycle.world_state m'
       = modify_agent k (mark_claimed owner) (Lifecycle.world_state m).
Proof.
  unfold Lifecycle.claim_agent, Lifecycle.validate_claim_token, attempts,
    Lifecycle.MAX_CLAIM_ATTEMPTS, Lifecycle.get_agent_by_claim_token.
  destruct (Nat.leb_spec 5 (default 0%nat (Lifecycle._claim_attempts m !! token)));
    [discriminate|].
  cbn [Lifecycle.world_state].
  destruct (Lifecycle.find_by_token token _) as [[k a]|]; [|discriminate].
  destruct (status a) eqn:Hs; try discriminate. cbn [status_eqb negb].
  destruct (Lifecycle.expired now a) eqn:He; [discriminate|].
  intros [= _ <-]. exists k, a. repeat split; auto.
Qed.

(** ** Registration ([AgentGateway.register_agent]) *)

Section Registration.
Context `{Platform}.

Lemma register_agent_cases (token : string) (now : Q)
    (pk sg nc ch pn nm : string) (w : WorldState) :
  let res := Gateway.register_agent token now pk sg nc ch pn nm w in
  res = None
  \/ (exists msg, res = Some (Gateway.registration_failed msg, w))
  \/ (get_agent w (Gateway.generate_agent_id pk) = None
      /\ exists r a,
           res = Some (r, add_agent w a)
           /\ Gateway.reg_success r = true
           /\ agent_id a = Gateway.generate_agent_id pk
           /\ public_key a = pk
           /\ status a = unclaimed
           /\ claim_token a = Some token
           /\ parent_agent a = None).
Proof.
  unfold Gateway.register_agent.
  destruct (negb (Gateway.verify_pow ch pn)); [right; left; eauto|].
  destruct (negb (Gateway.verify_signed_nonce pk nc sg)); [right; left; eauto|].
  destruct (get_agent w (Gateway.generate_agent_id pk)) eqn:E;
    [right; left; eauto|].
  destruct (Regions.get_spawn_region (region_manager w)); [|now left].
  right. right. split; [reflexivity|]. eexists _, _. repeat split.
Qed.

(** A key some agent of the map carries cannot be registered again. *)
Lemma register_known_key (token : string) (now : Q) (sg nc ch pn nm : string)
    (w : WorldState) (k : string) (a : AgentState) :
  world_ok w -> In (k, a) (agents w) ->
  exists msg,
    Gateway.register_agent token now (public_key a) sg nc ch pn nm w
    = Some (Gateway.registration_failed msg, w).
Proof.
  intros [(_ & _ & Hkeys) _] Hin.
  rewrite List.Forall_forall in Hkeys. specialize (Hkeys _ Hin).
  unfold key_recorded, PyDict.mem in Hkeys. simpl in Hkeys.
  unfold Gateway.register_agent.
  destruct (negb (Gateway.verify_pow ch pn)); [eauto|].
  destruct (negb (Gateway.verify_signed_nonce (public_key a) nc sg)); [eauto|].
  unfold get_agent.
  destruct (PyDict.get (Gateway.generate_agent_id (public_key a)) (agents w));
    [eauto | discriminate].
Qed.

Lemma add_registered_ok (w : WorldState) (a : AgentState) (token : string) :
  world_ok w ->
  get_agent w (agent_id a) = None ->
  agent_id a = Gateway.generate_agent_id (public_key a) ->
  status a = unclaimed ->
  claim_token a = Some token ->
  token_absent token (agents w) ->
  world_ok (add_agent w a).
Proof.
  intros [(Hnd & Hentries & Hkeys) Hu] Hfree Hid Hst Htok Habs.
  unfold world_ok, agents_ok, add_agent. cbn [agents]. repeat split.
  - now apply NoDup_keys_set.
  - apply Forall_set; [exact Hentries|]. unfold entry_ok. simpl.
    repeat split; auto. rewrite Hst. discriminate.
  - apply Forall_set.
    + rewrite List.Forall_forall in *. intros kv Hin. unfold key_recorded.
      apply mem_set_mono. now apply Hkeys.
    + unfold key_recorded. simpl. rewrite <- Hid. apply mem_set_same.
  - intros t k1 a1 k2 a2 H1 H2 T1 T2.
    unfold token_absent in Habs. rewrite List.Forall_forall in Habs.
    destruct (In_set _ _ _ _ H1) as [[= -> ->]|Hold1];
      destruct (In_set _ _ _ _ H2) as [[= -> ->]|Hold2].
    + reflexivity.
    + exfalso. apply (Habs _ Hold2). simpl. congruence.
    + exfalso. apply (Habs _ Hold1). simpl. congruence.
    + exact (Hu t k1 a1 k2 a2 Hold1 Hold2 T1 T2).
Qed.

Lemma reachable_world_ok (s : ServerState) : reachable s -> world_ok (world s).
Proof.
  induction 1 as [|s e Hreach IH Hadm].
  - repeat split; try constructor. intros t k1 a1 k2 a2 [].
  - pose proof (exec_evolves e s) as Hev.
    destruct e as [tok nw pk sg nc ch pn nm|queue|now t how|k cause tk
                   |tk from to ores oamt rres ramt|oid k tk];
      try (now apply (evolves_world_ok (world s))).
    cbn [exec]. simpl in Hadm. apply find_by_token_None in Hadm.
    destruct (register_agent_cases tok nw pk sg nc ch pn nm (world s))
      as [->|[(msg & ->)|(Hfree & r & a & -> & _ & Hid & Hpk & Hst & Htok & _)]];
      try exact IH.
    cbn [with_world world].
    apply (add_registered_ok _ _ tok); auto; congruence.
Qed.

(** C2, as the code has it.  In every reachable state the keys of the
    agent map are pairwise distinct and every agent is stored under its own
    [agent_id]; two agents that were registered (not forked) and carry the
    same public key are the same entry; and registering a public key that
    some agent of the map carries fails with an error and returns the world
    as it was.  Forked children are excluded from the second statement: a
    child is stored under its own id with its parent's key. *)
Theorem registered_identity_unique (s : ServerState) :
  reachable s ->
  let d := agents (world s) in
  List.NoDup (PyDict.keys d)
  /\ (forall k a, In (k, a) d -> agent_id a = k)
  /\ (forall k1 a1 k2 a2,
        In (k1, a1) d -> In (k2, a2) d ->
        parent_agent a1 = None -> parent_agent a2 = None ->
        public_key a1 = public_key a2 -> k1 = k2 /\ a1 = a2)
  /\ (forall k a token now sg nc ch pn nm,
        In (k, a) d ->
        exists msg,
          Gateway.register_agent token now (public_key a) sg nc ch pn nm (world s)
          = Some (Gateway.registration_failed msg, world s)).
Proof.
  intros Hreach d. pose proof (reachable_world_ok s Hreach) as Hok.
  destruct Hok as [(Hnd & Hentries & Hkeys) Hu].
  rewrite List.Forall_forall in Hentries.
  split; [exact Hnd|]. split; [|split].
  - intros k a Hin. now destruct (Hentries _ Hin).
  - intros k1 a1 k2 a2 H1 H2 P1 P2 Hpk.
    destruct (Hentries _ H1) as (I1 & G1 & _).
    destruct (Hentries _ H2) as (I2 & G2 & _). simpl in *.
    assert (Hk : k1 = k2) by (rewrite <- I1, <- I2, (G1 P1), (G2 P2); congruence).
    split; [exact Hk|]. subst k2.
    pose proof (In_get _ _ _ Hnd H1) as E1.
    pose proof (In_get _ _ _ Hnd H2) as E2. congruence.
  - intros k a token now sg nc ch pn nm Hin.
    apply (register_known_key token now sg nc ch pn nm (world s) k a);
      [now apply reachable_world_ok | exact Hin].
Qed.

(** ** Single use of a claim token *)

Lemma exec_token_absent (e : Event) (s : ServerState) (token : string) :
  never_reissued token [e] ->
  token_absent token (agents (world s)) ->
  token_absent token (agents (world (exec e s))).
Proof.
  intros Hnever Habs. pose proof (exec_evolves e s) as Hev.
  destruct e as [tok nw pk sg nc ch pn nm|queue|now t how|k cause tk
                 |tk from to ores oamt rres ramt|oid k tk];
    try (now apply (evolves_token_absent (agents (world s)))).
  cbn [exec]. inversion Hnever as [|? ? Hne _]; subst.
  destruct (register_agent_cases tok nw pk sg nc ch pn nm (world s))
    as [->|[(msg & ->)|(Hfree & r & a & -> & _ & Hid & Hpk & Hst & Htok & _)]];
    try exact Habs.
  cbn [with_world world add_agent agents]. apply Forall_set; [exact Habs|].
  simpl. congruence.
Qed.

Lemma run_token_absent (trace : list Event) (s : ServerState) (token : string) :
  never_reissued token trace ->
  token_absent token (agents (world s)) ->
  token_absent token (agents (world (run trace s))).
Proof.
  revert s. induction trace as [|e rest IH]; intros s Hnever Habs; [exact Habs|].
  change (run (e :: rest) s) with (run rest (exec e s)).
  inversion Hnever as [|? ? He Hrest]; subst.
  apply IH; [exact Hrest|]. apply exec_token_absent; [|exact Habs].
  now constructor.
Qed.

(** C9, as the code has it.  In a reachable state, a successful
    [claim_agent] finds the unclaimed agent that carries the token and, in
    one step, makes it claimed, records the owner identity and clears the
    token and its expiry; from then on, as long as no registration issues
    the same token again, every validation, page view or claim that
    presents the token fails.  A claimed agent never carries a token (an
    agent that died unclaimed keeps the one it had). *)
Theorem claim_token_single_use (s : ServerState) (now : Q)
    (token owner method : string) (r : Lifecycle.ClaimResult)
    (m' : Lifecycle.LifecycleManager) :
  reachable s ->
  Lifecycle.claim_agent now token owner method (lifecycle s) = (inr r, m') ->
  (exists k a a',
     get_agent (world s) k = Some a
     /\ claim_token a = Some token
     /\ status a = unclaimed
     /\ get_agent (Lifecycle.world_state m') k = Some a'
     /\ status a' = claimed
     /\ owner_identity a' = Some owner
     /\ claim_token a' = None
     /\ claim_token_expires a' = None)
  /\ (forall trace now' how,
        never_reissued token trace ->
        exists e,
          fst (present now' token how
                 (lifecycle (run trace (with_lifecycle s m')))) = Some e)
  /\ (forall k a,
        In (k, a) (agents (world s)) -> status a = claimed -> claim_token a = None).
Proof.
  intros Hreach Hclaim.
  destruct (reachable_world_ok s Hreach) as [(Hnd & Hentries & Hkeys) Hu].
  destruct (claim_agent_success _ _ _ _ _ _ _ Hclaim)
    as (k & a & Hfind & Hst & _ & _ & Hw').
  cbn [lifecycle Lifecycle.world_state] in Hfind, Hw'.
  destruct (find_by_token_Some _ _ _ _ Hfind) as [Hin Htok].
  pose proof (In_get _ _ _ Hnd Hin) as Hget.
  split; [|split].
  - exists k, a, (mark_claimed owner a). rewrite Hw', get_agent_modify_eq.
    unfold get_agent. rewrite Hget. repeat split; auto.
  - intros trace now' how Hnever.
    assert (Habs : token_absent token (agents (Lifecycle.world_state m'))).
    { rewrite Hw'. unfold token_absent. apply List.Forall_forall.
      intros [k' a'] Hin' Htok'. simpl in Htok'.
      destruct (In_update_exact _ _ _ _ _ Hnd Hin')
        as [[Hne Hold]|[-> (v & Hv & ->)]].
      - apply Hne. exact (Hu token k' a' k a Hold Hin Htok' Htok).
      - discriminate. }
    pose proof (run_token_absent trace (with_lifecycle s m') token Hnever Habs)
      as Hlater.
    destruct (present_absent now' token how
                (lifecycle (run trace (with_lifecycle s m'))) Hlater)
      as [-> | ->]; eauto.
  - intros k' a' Hin' Hclaimed. rewrite List.Forall_forall in Hentries.
    destruct (Hentries _ Hin') as (_ & _ & Hc). now apply Hc.
Qed.
End Registration.

(** ** The statements at concrete inputs *)

Import Scenarios.

(** Proves that a history run from the initial server is reachable. *)
Ltac reach_by_history :=
  cbv [run fork_history merge_history trade_history page_views fold_left];
  repeat (apply reachable_step; [|first [exact I | vm_compute; reflexivity]]);
  apply reachable_init.

Lemma fork_history_reachable :
  reachable (H := sample_platform) (run (H := sample_platform) fork_history initial_server).
Proof. reach_by_history. Qed.

Lemma merge_history_reachable :
  reachable (H := sample_platform) (run (H := sample_platform) merge_history initial_server).
Proof. reach_by_history. Qed.

Lemma trade_history_reachable :
  reachable (H := sample_platform)
    (exec (H := sample_platform) bob_accepts
       (run (H := sample_platform) trade_history initial_server)).
Proof. apply reachable_step; [|exact I]. reach_by_history. Qed.

Lemma registration_reachable :
  reachable (H := sample_platform)
    (exec (H := sample_platform) (register "tokA" "pkA" "Alice") initial_server).
Proof. apply reachable_step; [apply reachable_init | vm_compute; reflexivity]. Qed.

(** *** Identity *)

(** C2 after a fork: Alice's child is stored under another id and carries
    Alice's public key. *)
Lemma forked_child_shares_public_key :
  let s := run (H := sample_platform) fork_history initial_server in
  reachable (H := sample_platform) s
  /\ exists k1 a1 k2 a2,
       In (k1, a1) (agents (world s)) /\ In (k2, a2) (agents (world s))
       /\ k1 <> k2
       /\ agent_id a1 <> agent_id a2
       /\ public_key a1 = public_key a2.
Proof.
  intros s. split; [apply fork_history_reachable|].
  remember (agents (world s)) as d eqn:Hd. vm_compute in Hd. subst d.
  eexists _, _, _, _. split; [left; reflexivity|].
  split; [right; left; reflexivity|].
  simpl. repeat split; try discriminate. 
Qed.

(** The identity theorem at the state Alice's fork leaves. *)
Lemma registered_identity_unique_witness :
  let s := run (H := sample_platform) fork_history initial_server in
  reachable (H := sample_platform) s
  /\ List.NoDup (PyDict.keys (agents (world s))).
Proof.
  intros s. split; [apply fork_history_reachable|].
  apply (registered_identity_unique (H := sample_platform) s).
  apply fork_history_reachable.
Defined.

(** *** Caps *)

(** C3 at an accepted trade: after six ticks Alice and Bob hold more than
    60 energy; Alice offers 60 energy, Bob accepts, and Bob's energy is
    122.25 under a cap of 100. *)
Lemma accepted_trade_exceeds_cap :
  let s := run (H := sample_platform) trade_history initial_server in
  let s' := exec (H := sample_platform) bob_accepts s in
  reachable (H := sample_platform) s'
  /\ holding (world s) bob ENERGY == 249 # 4
  /\ holding (world s') bob ENERGY == 489 # 4
  /\ exists b,
       get_agent (world s') bob = Some b
       /\ aget (caps (resources b)) ENERGY == 100
       /\ ~ within_caps (resources b).
Proof.
  intros s s'. split; [apply trade_history_reachable|].
  split; [vm_compute; reflexivity|]. split; [vm_compute; reflexivity|].
  remember (get_agent (world s') bob) as o eqn:Ho. vm_compute in Ho.
  eexists. split; [exact Ho|]. split; [reflexivity|].
  intros Hw. destruct (Hw ENERGY) as [_ Hle]. vm_compute in Hle.
  apply Hle. reflexivity.
Qed.

(** *** Resolution *)


(** C6 at a dead partner: the target is dead in the agent view, neither
    resource string names a kind and both amounts are negative; the trade
    resolves successfully and the sender is debited 2 energy and 3
    bandwidth. *)
Lemma trade_with_dead_partner_succeeds :
  let r :=
    validate_and_resolve (H := sample_platform) "trade" "A" create_default "nexus"
      odd_trade_params 1 view_with_dead_partner default_regions in
  success (result r) = true
  /\ option_map summary_status (PyDict.get "B" view_with_dead_partner) = Some dead
  /\ of_string "gold" = None
  /\ of_string "silver" = None
  /\ details (result r) = TradeDetails "B" "gold" (-5) "silver" (-7)
  /\ -5 < 0 /\ -7 < 0
  /\ energy (holdings (pool_after r)) == 48
  /\ bandwidth (holdings (pool_after r)) == 22.
Proof. vm_compute. repeat split; reflexivity. Qed.

(** The trade-resolution theorem at the trade with the dead partner. *)
Lemma trade_resolution_checks_witness :
  let r :=
    validate_and_resolve (H := sample_platform) "trade" "A" create_default "nexus"
      odd_trade_params 1 view_with_dead_partner default_regions in
  success (result r) = true
  /\ energy (holdings (pool_after r)) == energy (holdings create_default) - 2.
Proof.
  intros r. split; [reflexivity|].
  destruct (trade_resolution_checks (H := sample_platform) "A" create_default
              "nexus" odd_trade_params 1 view_with_dead_partner default_regions)
    as (_ & _ & Hdebit).
  destruct (Hdebit eq_refl) as (_ & He & _). exact He.
Defined.

(** *** Claim tokens *)

(** C9 at an agent that dies unclaimed: Alice is absorbed by Bob before
    anyone claims her; she is dead and still carries her claim token. *)
Lemma dead_agent_keeps_token :
  let s := run (H := sample_platform) merge_history initial_server in
  reachable (H := sample_platform) s
  /\ exists a,
       get_agent (world s) alice = Some a
       /\ status a = dead
       /\ claim_token a = Some "tokA".
Proof.
  intros s. split; [apply merge_history_reachable|].
  remember (get_agent (world s) alice) as o eqn:Ho. vm_compute in Ho.
  eexists. split; [exact Ho|]. split; reflexivity.
Qed.

(** The single-use theorem at Alice's claim: every later presentation of
    her token fails. *)
Lemma claim_token_single_use_witness :
  let s := exec (H := sample_platform) (register "tokA" "pkA" "Alice") initial_server in
  let res := Lifecycle.claim_agent 1001 "tokA" "@owner" "x_tweet" (lifecycle s) in
  reachable (H := sample_platform) s
  /\ fst res = inr (Lifecycle.mkClaimResult alice "Alice" "@owner" "x_tweet")
  /\ forall now how,
       exists e,
         fst (present now "tokA" how (lifecycle (with_lifecycle s (snd res))))
         = Some e.
Proof.
  intros s res. split; [apply registration_reachable|].
  assert (Hres : res = (inr (Lifecycle.mkClaimResult alice "Alice" "@owner" "x_tweet"),
                        snd res))
    by (vm_compute; reflexivity).
  split; [now rewrite Hres|]. intros now how.
  destruct (claim_token_single_use (H := sample_platform) s 1001 "tokA" "@owner"
              "x_tweet" _ (snd res) registration_reachable Hres)
    as (_ & Hlater & _).
  apply (Hlater [] now how). constructor.
Defined.

(** The attempt theorem after five views of Alice's claim page: her claim
    is refused. *)
Lemma five_presentations_exhaust_token_witness :
  let s := exec (H := sample_platform) (register "tokA" "pkA" "Alice") initial_server in
  let later := run (H := sample_platform) page_views s in
  (5 <= presentations "tokA" page_views)%nat
  /\ present 1006 "tokA" (SubmitClaim "@owner" "x_tweet") (lifecycle later)
     = (Some Lifecycle.TooManyAttempts, lifecycle later).
Proof.
  intros s later.
  assert (Hfive : (5 <= presentations "tokA" page_views)%nat)
    by (vm_compute; repeat constructor).
  split; [exact Hfive|].
  apply (five_presentations_exhaust_token (H := sample_platform) s page_views
           "tokA" 1006 (SubmitClaim "@owner" "x_tweet")).
  exact Hfive.
Defined.

(** ** The event ledger ([EventLedger]) *)

Lemma collect_firstn (keep : Ledger.Event -> bool) (limit : Z)
    (events results : list Ledger.Event) :
  (Z.of_nat (length results) < Z.max 1 limit)%Z ->
  Ledger.collect keep limit events results
  = (results
     ++ firstn (Z.to_nat (Z.max 1 limit) - length results)
               (List.filter keep events))%list.
Proof.
  revert results. induction events as [|e rest IH]; intros results Hlen.
  - simpl. rewrite firstn_nil, app_nil_r. reflexivity.
  - simpl. destruct (keep e) eqn:Hk; simpl.
    + destruct (limit <=? Z.of_nat (length (results ++ [e])))%Z eqn:Hl.
      * apply Z.leb_le in Hl. rewrite length_app in Hl. simpl in Hl.
        replace (Z.to_nat (Z.max 1 limit) - length results)%nat with 1%nat by lia.
        reflexivity.
      * apply Z.leb_gt in Hl. rewrite IH by lia.
        rewrite length_app in *. simpl in *.
        replace (Z.to_nat (Z.max 1 limit) - length results)%nat
          with (S (Z.to_nat (Z.max 1 limit) - (length results + 1)))%nat by lia.
        simpl. rewrite <- app_assoc. reflexivity.
    + apply IH, Hlen.
Qed.

Lemma get_events_firstn (from_tick : Z) (to_tick : option Z)
    (action_type agent_id : option string) (limit : Z) (l : Ledger.EventLedger) :
  Ledger.get_events from_tick to_tick action_type agent_id limit l
  = firstn (Z.to_nat (Z.max 1 limit))
           (List.filter (Ledger.selected from_tick to_tick action_type agent_id)
                        (Ledger._events l)).
Proof.
  unfold Ledger.get_events. rewrite collect_firstn by (simpl; lia).
  simpl. rewrite Nat.sub_0_r. reflexivity.
Qed.

(** X2. [get_events] returns the first [limit] events that pass its four
    filters, in ledger order, except that a limit of zero or less still
    lets one event through: the bound is tested after the event is
    appended. *)
Theorem get_events_limit (from_tick : Z) (to_tick : option Z)
    (action_type agent_id : option string) (limit : Z) (l : Ledger.EventLedger) :
  let matching :=
    List.filter (Ledger.selected from_tick to_tick action_type agent_id)
                (Ledger._events l) in
  Ledger.get_events from_tick to_tick action_type agent_id limit l
  = firstn (Z.to_nat (Z.max 1 limit)) matching
  /\ ((limit <= 0)%Z ->
      Ledger.get_events from_tick to_tick action_type agent_id limit l
      = firstn 1 matching).
Proof.
  intros matching. split.
  - apply get_events_firstn.
  - intros Hl. rewrite get_events_firstn.
    replace (Z.to_nat (Z.max 1 limit)) with 1%nat by lia. reflexivity.
Qed.

Lemma appended_snoc (l : Ledger.EventLedger) (batch : list Ledger.EventData)
    (d : Ledger.EventData) :
  Journal.appended l (batch ++ [d])
  = snd (Ledger.append d (Journal.appended l batch)).
Proof. unfold Journal.appended. rewrite fold_left_app. reflexivity. Qed.

Lemma appended_events (batch : list Ledger.EventData) (l : Ledger.EventLedger) :
  exists new,
    Ledger._events (Journal.appended l batch) = (Ledger._events l ++ new)%list
    /\ length new = length batch
    /\ Ledger._next_id (Journal.appended l batch)
       = (Ledger._next_id l + Z.of_nat (length batch))%Z
    /\ Forall2 (fun d e =>
                  Ledger.event_tick e = default 0%Z (Ledger.data_tick d)
                  /\ Ledger.event_action e = default "unknown" (Ledger.data_action d)
                  /\ Ledger.event_agent e = default "unknown" (Ledger.data_agent d)
                  /\ Ledger.event_success e = default false (Ledger.data_success d))
               batch new.
Proof.
  revert l. induction batch as [|d rest IH]; intros l.
  - exists []. simpl. rewrite app_nil_r. repeat split; [lia | constructor].
  - destruct (IH (snd (Ledger.append d l))) as (new & He & Hn & Hi & Hf).
    exists (fst (Ledger.append d l) :: new).
    change (Journal.appended l (d :: rest))
      with (Journal.appended (snd (Ledger.append d l)) rest).
    rewrite He, Hi. simpl. rewrite <- app_assoc. simpl.
    repeat split; [lia | lia |]. constructor; [|exact Hf]. repeat split.
Qed.

(** X3. The ledger is append-only: whatever is appended, the events already
    recorded stay at their positions, and [count] grows by the number of
    appends. *)
Theorem ledger_append_only (l : Ledger.EventLedger)
    (batch : list Ledger.EventData) :
  firstn (Ledger.count l) (Ledger._events (Journal.appended l batch))
  = Ledger._events l
  /\ Ledger.count (Journal.appended l batch)
     = (Ledger.count l + length batch)%nat.
Proof.
  destruct (appended_events batch l) as (new & He & Hn & _).
  unfold Ledger.count. rewrite He. split.
  - rewrite firstn_app, Nat.sub_diag, firstn_all. simpl. apply app_nil_r.
  - rewrite length_app. lia.
Qed.

Lemma fresh_ledger_numbered (batch : list Ledger.EventData) :
  let l := Journal.appended Ledger.empty_ledger batch in
  Ledger._next_id l = Z.of_nat (length (Ledger._events l))
  /\ forall i e, nth_error (Ledger._events l) i = Some e ->
                 Ledger.event_id e = Z.of_nat i.
Proof.
  induction batch as [|d rest IH] using rev_ind.
  - simpl. split; [reflexivity|]. intros [|i] e; discriminate.
  - intros l. subst l. rewrite appended_snoc. destruct IH as [Hn Hi].
    set (l := Journal.appended Ledger.empty_ledger rest) in *.
    simpl. rewrite length_app. simpl. split; [lia|].
    intros i e He.
    destruct (Nat.lt_ge_cases i (length (Ledger._events l))) as [Hlt|Hge].
    + rewrite nth_error_app1 in He by exact Hlt. apply Hi, He.
    + rewrite nth_error_app2 in He by exact Hge.
      destruct (i - length (Ledger._events l))%nat as [|j] eqn:Hj.
      * simpl in He. injection He as <-. simpl. lia.
      * destruct j; discriminate.
Qed.

(** X1. In a ledger that started empty, the id of an event is its position:
    [get_event_by_id] returns every recorded event under its own id, and
    nothing under an id that was never handed out. *)
Theorem event_ids_are_positions (batch : list Ledger.EventData) :
  let l := Journal.appended Ledger.empty_ledger batch in
  Forall (fun e => Ledger.get_event_by_id (Ledger.event_id e) l = Some e)
         (Ledger._events l)
  /\ forall id, (id < 0 \/ Z.of_nat (length batch) <= id)%Z ->
                Ledger.get_event_by_id id l = None.
Proof.
  intros l. destruct (fresh_ledger_numbered batch) as [Hn Hi]. fold l in Hn, Hi.
  split.
  - apply List.Forall_forall. intros e Hin.
    apply In_nth_error in Hin. destruct Hin as [i He].
    pose proof (Hi i e He) as Hid.
    assert (Hlt : (i < length (Ledger._events l))%nat).
    { apply nth_error_Some. congruence. }
    unfold Ledger.get_event_by_id. rewrite Hid.
    replace (0 <=? Z.of_nat i)%Z with true by (symmetry; apply Z.leb_le; lia).
    replace (Z.of_nat i <? Z.of_nat (length (Ledger._events l)))%Z with true
      by (symmetry; apply Z.ltb_lt; lia).
    simpl. rewrite Nat2Z.id. exact He.
  - intros id Hid. unfold Ledger.get_event_by_id.
    destruct (appended_events batch Ledger.empty_ledger) as (new & He & Hc & _).
    fold l in He. rewrite He. simpl. rewrite Hc.
    destruct Hid as [Hneg|Hbig].
    + replace (0 <=? id)%Z with false by (symmetry; apply Z.leb_gt; lia).
      reflexivity.
    + replace (id <? Z.of_nat (length batch))%Z with false
        by (symmetry; apply Z.ltb_ge; lia).
      rewrite andb_false_r. reflexivity.
Qed.

(** ** Replay ([ReplayEngine]) *)

Lemma filter_appended_later (target : Z) (keep : Ledger.Event -> bool)
    (batch : list Ledger.EventData) (l : Ledger.EventLedger) :
  (forall e, (target < Ledger.event_tick e)%Z -> keep e = false) ->
  Forall (Journal.later_than target) batch ->
  List.filter keep (Ledger._events (Journal.appended l batch))
  = List.filter keep (Ledger._events l).
Proof.
  intros Hkeep Hlater. revert l.
  induction Hlater as [|d rest Hd _ IH]; intros l; [reflexivity|].
  change (Journal.appended l (d :: rest))
    with (Journal.appended (snd (Ledger.append d l)) rest).
  rewrite IH. simpl. rewrite List.filter_app. simpl.
  rewrite Hkeep by exact Hd. apply app_nil_r.
Qed.

Lemma selected_bounded (target : Z) (e : Ledger.Event) :
  (target < Ledger.event_tick e)%Z ->
  Ledger.selected 0 (Some target) None None e = false.
Proof.
  intros Ht. unfold Ledger.selected.
  replace (target <? Ledger.event_tick e)%Z with true
    by (symmetry; apply Z.ltb_lt; exact Ht).
  simpl. rewrite andb_false_r. reflexivity.
Qed.

(** X5. History is stable under later writes: events stamped after
    [target_tick] never change what [reconstruct_at_tick target_tick]
    returns, whatever they say and however many are appended. *)
Theorem replay_ignores_later_events (target_tick : Z) (l : Ledger.EventLedger)
    (batch : list Ledger.EventData) :
  Forall (Journal.later_than target_tick) batch ->
  Replay.reconstruct_at_tick target_tick (Journal.appended l batch)
  = Replay.reconstruct_at_tick target_tick l.
Proof.
  intros Hlater. unfold Replay.reconstruct_at_tick.
  rewrite !get_events_firstn.
  rewrite (filter_appended_later target_tick _ batch l
             (selected_bounded target_tick) Hlater).
  reflexivity.
Qed.

Lemma replay_ignores_later_events_witness :
  Replay.reconstruct_at_tick 1
    (Journal.appended (Journal.appended Ledger.empty_ledger Samples.early_history)
                    Samples.late_history)
  = Replay.reconstruct_at_tick 1
      (Journal.appended Ledger.empty_ledger Samples.early_history).
Proof.
  apply replay_ignores_later_events.
  repeat constructor.
Defined.

Lemma mem_set_eqb {V : Type} (k k' : string) (v : V) (d : PyDict.t V) :
  PyDict.mem k' (PyDict.set k v d) = String.eqb k k' || PyDict.mem k' d.
Proof.
  unfold PyDict.mem. induction d as [|[k0 v0] rest IH]; simpl.
  - rewrite (String.eqb_sym k' k). destruct (String.eqb k k'); reflexivity.
  - destruct (String.eqb k k0) eqn:E0; simpl.
    + apply String.eqb_eq in E0. subst k0. rewrite (String.eqb_sym k' k).
      destruct (String.eqb k k'); reflexivity.
    + destruct (String.eqb k' k0) eqn:E1.
      * destruct (String.eqb k k'); reflexivity.
      * exact IH.
Qed.

Lemma apply_event_mem (k : string) (e : Ledger.Event)
    (agents : PyDict.t Replay.ReplayAgent) :
  PyDict.mem k (Replay._apply_event e agents)
  = Journal.creates k e || PyDict.mem k agents.
Proof.
  unfold Replay._apply_event, Journal.creates.
  destruct (Ledger.event_success e); [|reflexivity]. simpl.
  destruct (String.eqb (Ledger.event_action e) "tick") eqn:Etick.
  { apply String.eqb_eq in Etick. rewrite Etick. reflexivity. }
  destruct (String.eqb (Ledger.event_action e) "register") eqn:Ereg.
  { apply String.eqb_eq in Ereg. rewrite Ereg. simpl.
    rewrite mem_set_eqb, orb_false_r. reflexivity. }
  destruct (String.eqb (Ledger.event_action e) "claim") eqn:Eclaim.
  { apply String.eqb_eq in Eclaim. rewrite Eclaim. simpl. apply mem_update. }
  destruct (String.eqb (Ledger.event_action e) "death") eqn:Edeath.
  { apply String.eqb_eq in Edeath. rewrite Edeath. simpl. apply mem_update. }
  destruct (String.eqb (Ledger.event_action e) "move") eqn:Emove.
  { apply String.eqb_eq in Emove. rewrite Emove. simpl. apply mem_update. }
  destruct (String.eqb (Ledger.event_action e) "fork") eqn:Efork.
  { simpl. destruct (truthy (Replay.child_name_of (Ledger.event_details e)));
      [apply mem_set_eqb | reflexivity]. }
  simpl.
  destruct (String.eqb (Ledger.event_action e) "merge").
  { destruct (truthy _); [apply mem_update | reflexivity]. }
  destruct (String.eqb (Ledger.event_action e) "attack"); [reflexivity|].
  destruct (String.eqb (Ledger.event_action e) "ally"); [|reflexivity].
  destruct (truthy _); [apply mem_update | reflexivity].
Qed.

Lemma replay_mem (k : string) (events : list Ledger.Event)
    (agents : PyDict.t Replay.ReplayAgent) :
  PyDict.mem k
    (fold_left (fun agents event => Replay._apply_event event agents) events agents)
  = existsb (Journal.creates k) events || PyDict.mem k agents.
Proof.
  revert agents. induction events as [|e rest IH]; intros agents; [reflexivity|].
  simpl. rewrite IH, apply_event_mem.
  rewrite orb_assoc, (orb_comm (existsb _ rest)). reflexivity.
Qed.

Lemma selected_later_target (t t' : Z) (e : Ledger.Event) :
  (t <= t')%Z ->
  Ledger.selected 0 (Some t) None None e = true ->
  Ledger.selected 0 (Some t') None None e = true.
Proof.
  unfold Ledger.selected. simpl. rewrite !andb_true_r, !andb_true_iff.
  rewrite !negb_true_iff, !Z.ltb_ge. lia.
Qed.

(** X6. An agent that the replay shows at some tick is in the snapshot of
    every later tick: the reducer stores entries and rewrites them but never
    deletes one (up to the million events [reconstruct_at_tick] reads). *)
Theorem replayed_agents_persist (t t' : Z) (l : Ledger.EventLedger) (k : string) :
  (t <= t')%Z ->
  (Z.of_nat (Ledger.count l) <= 1000000)%Z ->
  PyDict.mem k (Replay.snapshot_agents (Replay.reconstruct_at_tick t l)) = true ->
  PyDict.mem k (Replay.snapshot_agents (Replay.reconstruct_at_tick t' l)) = true.
Proof.
  intros Ht Hcount. unfold Replay.reconstruct_at_tick.
  cbn [Replay.snapshot_agents].
  rewrite !get_events_firstn, !replay_mem.
  change (PyDict.mem k PyDict.empty) with false. rewrite !orb_false_r.
  assert (Hlen : forall keep,
             (length (List.filter keep (Ledger._events l))
              <= Z.to_nat (Z.max 1 1000000))%nat).
  { intros keep. pose proof (List.filter_length_le keep (Ledger._events l)).
    unfold Ledger.count in Hcount. lia. }
  rewrite !firstn_all2 by apply Hlen.
  rewrite !existsb_exists. intros (e & Hin & Hc). exists e. split; [|exact Hc].
  apply List.filter_In in Hin. apply List.filter_In. destruct Hin as [Hin Hs].
  split; [exact Hin | apply (selected_later_target t t'); assumption].
Qed.

Lemma replayed_agents_persist_witness :
  PyDict.mem "agent_b"
    (Replay.snapshot_agents
       (Replay.reconstruct_at_tick 7
          (Journal.appended Ledger.empty_ledger Samples.early_history))) = true.
Proof.
  apply (replayed_agents_persist 0 7); [lia | apply Z.leb_le; reflexivity | reflexivity].
Defined.

(** ** The offer table ([TradeManager]) *)

Lemma parse_zero (s : string) : Journal.parse (String "0" s) = Journal.parse s.
Proof.
  unfold Journal.parse. simpl. destruct (NilEmpty.uint_of_string s); reflexivity.
Qed.

Lemma parse_pad8 (n : nat) : Journal.parse (Trade.pad8 n) = Some n.
Proof.
  unfold Trade.pad8.
  generalize (8 - String.length (NilEmpty.string_of_uint (Nat.to_uint n)))%nat as k.
  induction k as [|k IH].
  - change (Journal.parse (NilEmpty.string_of_uint (Nat.to_uint n)) = Some n).
    unfold Journal.parse. rewrite NilEmpty.usu. cbn [option_map].
    rewrite DecimalNat.Unsigned.of_to. reflexivity.
  - etransitivity; [|exact IH]. apply parse_zero.
Qed.

Lemma pad8_inj (a b : nat) : Trade.pad8 a = Trade.pad8 b -> a = b.
Proof.
  intros E. pose proof (parse_pad8 a) as Ha. rewrite E, parse_pad8 in Ha.
  congruence.
Qed.

Lemma append_inj (s x y : string) : s ++ x = s ++ y -> x = y.
Proof.
  induction s as [|c s IH]; intros E; [exact E|].
  change (String c (s ++ x) = String c (s ++ y)) in E.
  injection E as E. apply IH, E.
Qed.

Lemma offer_id_inj (a b : nat) :
  "trade_" ++ Trade.pad8 a = "trade_" ++ Trade.pad8 b -> a = b.
Proof. intros E. apply pad8_inj, (append_inj "trade_"), E. Qed.

Lemma numbered_fresh (offers : gmap string Trade.TradeOffer) (next : nat) :
  Journal.offers_numbered offers next ->
  offers !! ("trade_" ++ Trade.pad8 next) = None.
Proof.
  intros Hnum. destruct (offers !! ("trade_" ++ Trade.pad8 next)) eqn:E;
    [|reflexivity].
  destruct (Hnum _ (ex_intro _ _ E)) as (n & Hlt & Hid).
  apply offer_id_inj in Hid. lia.
Qed.

Lemma accept_offer_closed (oid accepting : string) (tick : Z)
    (m : Trade.TradeManager) (o : Trade.TradeOffer) :
  Trade._offers m !! oid = Some o ->
  Trade.offer_status o <> Trade.pending ->
  Trade.accept_offer oid accepting tick m
  = (Trade.Rejected ("Offer is " ++ Trade.offer_status_name (Trade.offer_status o)), m).
Proof.
  intros Ho Hs. unfold Trade.accept_offer. rewrite Ho.
  destruct (Trade.offer_status o); [congruence | reflexivity..].
Qed.

Lemma accept_offer_table (oid accepting : string) (tick : Z)
    (m : Trade.TradeManager) :
  let m' := snd (Trade.accept_offer oid accepting tick m) in
  Trade._next_id m' = Trade._next_id m
  /\ (forall k, k <> oid -> Trade._offers m' !! k = Trade._offers m !! k)
  /\ (is_Some (Trade._offers m' !! oid) -> is_Some (Trade._offers m !! oid)).
Proof.
  unfold Trade.accept_offer.
  destruct (Trade._offers m !! oid) as [offer|] eqn:Ho.
  2:{ simpl. rewrite Ho. auto. }
  destruct (Trade.offer_status offer);
    try (simpl; rewrite Ho; split; [reflexivity | split; [reflexivity | eauto]]).
  handler_cases; simpl;
    (split; [reflexivity|]; split;
     [ intros k Hk; rewrite ?lookup_insert_ne by congruence; reflexivity
     | eauto ]).
Qed.

Lemma accept_offer_result (oid accepting : string) (tick : Z)
    (m : Trade.TradeManager) offer from to ort rrt :
  acceptable m oid accepting tick offer from to ort rrt ->
  snd (Trade.accept_offer oid accepting tick m)
  = Trade.mkTradeManager
      (Trade.execute_trade offer ort rrt (Trade.world_state m))
      (Trade.record_transfer tick (Trade.to_agent offer) (Trade.from_agent offer)
         (Trade.request_resource offer) (Trade.request_amount offer)
         (Trade.offer_id offer)
         (Trade.record_transfer tick (Trade.from_agent offer) (Trade.to_agent offer)
            (Trade.offer_resource offer) (Trade.offer_amount offer)
            (Trade.offer_id offer) (Trade.accounting m)))
      (<[oid := Trade.with_status offer Trade.executed]> (Trade._offers m))
      (Trade._next_id m).
Proof.
  intros (Ho & Hs & Hto & Hexp & Hf & Hfa & Ht & Hta & Hor & Hrr & H1 & H2).
  unfold Trade.accept_offer.
  rewrite Ho, Hs, Hto, String.eqb_refl. cbn [negb].
  destruct (Z.ltb_spec (Trade.expires_at_tick offer) tick); [lia|].
  rewrite <- Hto.
  rewrite (proj2 (alive_agent_Some _ _ from)) by auto.
  rewrite (proj2 (alive_agent_Some _ _ to)) by auto.
  rewrite Hor, Hrr.
  rewrite (proj2 (Qltb_ge _ _) H1), (proj2 (Qltb_ge _ _) H2). reflexivity.
Qed.

Section OfferTable.
Context `{Platform}.

Lemma exec_offers_numbered (e : Event) (s : ServerState) :
  Journal.offers_numbered (offers s) (next_offer s) ->
  Journal.offers_numbered (offers (exec e s)) (next_offer (exec e s)).
Proof.
  intros Hnum.
  destruct e as [tok nw pk sg nc ch pn nm|queue|now t how|k cause tk
                |tk from to ores oamt rres ramt|oid k tk]; simpl.
  - destruct (Gateway.register_agent _ _ _ _ _ _ _ _ _) as [[? ?]|]; exact Hnum.
  - exact Hnum.
  - exact Hnum.
  - exact Hnum.
  - intros oid Hsome.
    destruct (decide (oid = "trade_" ++ Trade.pad8 (next_offer s))) as [->|Hne].
    + exists (next_offer s). split; [lia | reflexivity].
    + rewrite lookup_insert_ne in Hsome by congruence.
      destruct (Hnum oid Hsome) as (n & Hlt & Hid). exists n. split; [lia | exact Hid].
  - destruct (accept_offer_table oid k tk (trade_manager s)) as (Hn & Hother & Hsame).
    simpl in Hn. rewrite Hn. intros oid' Hsome.
    destruct (decide (oid' = oid)) as [->|Hne].
    + apply Hnum, Hsame, Hsome.
    + rewrite Hother in Hsome by exact Hne. apply Hnum, Hsome.
Qed.

Lemma reachable_offers_numbered (s : ServerState) :
  reachable s -> Journal.offers_numbered (offers s) (next_offer s).
Proof.
  induction 1 as [|s e _ IH _].
  - intros oid [o Ho]. simpl in Ho. rewrite lookup_empty in Ho. discriminate.
  - apply exec_offers_numbered, IH.
Qed.

Lemma exec_closed_offer (e : Event) (s : ServerState) (oid : string)
    (o : Trade.TradeOffer) :
  Journal.offers_numbered (offers s) (next_offer s) ->
  offers s !! oid = Some o ->
  Trade.offer_status o <> Trade.pending ->
  offers (exec e s) !! oid = Some o.
Proof.
  intros Hnum Ho Hs.
  destruct e as [tok nw pk sg nc ch pn nm|queue|now t how|k cause tk
                |tk from to ores oamt rres ramt|oid' k tk]; simpl.
  - destruct (Gateway.register_agent _ _ _ _ _ _ _ _ _) as [[? ?]|]; exact Ho.
  - exact Ho.
  - exact Ho.
  - exact Ho.
  - rewrite lookup_insert_ne; [exact Ho|].
    intros <-. rewrite (numbered_fresh _ _ Hnum) in Ho. discriminate.
  - destruct (decide (oid' = oid)) as [->|Hne].
    + rewrite (accept_offer_closed oid k tk (trade_manager s) o Ho Hs). exact Ho.
    + destruct (accept_offer_table oid' k tk (trade_manager s)) as (_ & Hother & _).
      rewrite Hother by congruence. exact Ho.
Qed.

Lemma run_closed_offer (trace : list Event) (s : ServerState) (oid : string)
    (o : Trade.TradeOffer) :
  Journal.offers_numbered (offers s) (next_offer s) ->
  offers s !! oid = Some o ->
  Trade.offer_status o <> Trade.pending ->
  offers (run trace s) !! oid = Some o.
Proof.
  revert s. induction trace as [|e rest IH]; intros s Hnum Ho Hs; [exact Ho|].
  simpl. apply IH; [apply exec_offers_numbered, Hnum | | exact Hs].
  apply exec_closed_offer; assumption.
Qed.
End OfferTable.

(** X7. In every reachable state of the server [create_offer] stores the new
    offer under an id that no offer has yet: no offer is ever overwritten,
    and all earlier offers are still in the table afterwards. *)
Theorem create_offer_never_overwrites `{Platform} (s : ServerState) (tick : Z)
    (from to offer_res : string) (offer_amt : Q) (request_res : string)
    (request_amt : Q) :
  reachable s ->
  let res :=
    Trade.create_offer tick from to offer_res offer_amt request_res request_amt
                       (trade_manager s) in
  offers s !! Trade.offer_id (fst res) = None
  /\ Trade._offers (snd res) !! Trade.offer_id (fst res) = Some (fst res)
  /\ (forall oid o, offers s !! oid = Some o ->
                    Trade._offers (snd res) !! oid = Some o).
Proof.
  intros Hreach res. pose proof (reachable_offers_numbered s Hreach) as Hnum.
  pose proof (numbered_fresh _ _ Hnum) as Hfresh. subst res. simpl.
  split; [exact Hfresh|]. split; [apply lookup_insert_eq|].
  intros oid o Ho. rewrite lookup_insert_ne; [exact Ho|].
  intros <-. rewrite Hfresh in Ho. discriminate.
Qed.

Lemma create_offer_never_overwrites_witness :
  let s := exec (H := sample_platform) bob_accepts
             (run (H := sample_platform) trade_history initial_server) in
  let res := Trade.create_offer 8 alice bob "energy" 1 "compute" 1 (trade_manager s) in
  offers s !! Trade.offer_id (fst res) = None
  /\ Trade._offers (snd res) !! Trade.offer_id (fst res) = Some (fst res)
  /\ (forall oid o, offers s !! oid = Some o ->
                    Trade._offers (snd res) !! oid = Some o).
Proof.
  exact (create_offer_never_overwrites (H := sample_platform) _ 8 alice bob
           "energy" 1 "compute" 1 trade_history_reachable).
Defined.

(** X8. An offer is executed at most once: once [accept_offer] has executed
    an offer in a reachable state, the offer stays [executed] through
    whatever the server does next, and every later acceptance of it, by
    anyone at any tick, is rejected and changes nothing. *)
Theorem offer_executes_at_most_once `{Platform} (s : ServerState)
    (oid accepting : string) (tick : Z) (trace : list Event) :
  reachable s ->
  Trade.accept_success
    (fst (Trade.accept_offer oid accepting tick (trade_manager s))) = true ->
  let later := run trace (exec (AcceptOffer oid accepting tick) s) in
  (exists o, offers later !! oid = Some o /\ Trade.offer_status o = Trade.executed)
  /\ forall (anyone : string) (tick' : Z),
       Trade.accept_offer oid anyone tick' (trade_manager later)
       = (Trade.Rejected "Offer is executed", trade_manager later).
Proof.
  intros Hreach Hok later.
  apply accept_offer_success in Hok.
  destruct Hok as (offer & from & to & ort & rrt & Hacc).
  assert (Hexec : offers (exec (AcceptOffer oid accepting tick) s) !! oid
                  = Some (Trade.with_status offer Trade.executed)).
  { apply (accept_offer_result oid accepting tick (trade_manager s)) in Hacc.
    simpl. rewrite Hacc. simpl. apply lookup_insert_eq. }
  assert (Hlater : offers later !! oid = Some (Trade.with_status offer Trade.executed)).
  { apply run_closed_offer; [| exact Hexec | discriminate].
    apply exec_offers_numbered, reachable_offers_numbered, Hreach. }
  split; [eexists; split; [exact Hlater | reflexivity]|].
  intros anyone tick'.
  apply (accept_offer_closed oid anyone tick' (trade_manager later) _ Hlater).
  discriminate.
Qed.

Lemma offer_executes_at_most_once_witness :
  let later :=
    run (H := sample_platform)
      [Tick []; AcceptOffer "trade_00000000" bob 8]
      (exec (H := sample_platform) bob_accepts
         (run (H := sample_platform) trade_history initial_server)) in
  (exists o, offers later !! "trade_00000000" = Some o
             /\ Trade.offer_status o = Trade.executed)
  /\ forall (anyone : string) (tick' : Z),
       Trade.accept_offer "trade_00000000" anyone tick' (trade_manager later)
       = (Trade.Rejected "Offer is executed", trade_manager later).
Proof.
  apply (offer_executes_at_most_once (H := sample_platform)
           (run (H := sample_platform) trade_history initial_server)
           "trade_00000000" bob 7 [Tick []; AcceptOffer "trade_00000000" bob 8]).
  - reach_by_history.
  - vm_compute. reflexivity.
Defined.

(** ** Expiry of offers ([expire_old_offers]) *)

Lemma filter_none {A : Type} (p : A -> bool) (l : list A) :
  List.filter p l = [] <-> forall x, In x l -> p x = false.
Proof.
  induction l as [|a l IH]; simpl.
  - split; [intros _ x [] | reflexivity].
  - destruct (p a) eqn:Ea; split.
    + discriminate.
    + intros Hall. specialize (Hall a (or_introl eq_refl)). congruence.
    + intros Hnil x [<-|Hin]; [exact Ea | apply IH; assumption].
    + intros Hall. apply IH. intros x Hin. apply Hall. right. exact Hin.
Qed.

Lemma In_offer_values (offers : gmap string Trade.TradeOffer) (o : Trade.TradeOffer) :
  In o (map snd (map_to_list offers)) <-> exists k, offers !! k = Some o.
Proof.
  rewrite in_map_iff. split.
  - intros ([k o'] & <- & Hin). exists k.
    apply list_elem_of_In, elem_of_map_to_list in Hin. exact Hin.
  - intros (k & Hk). exists (k, o). split; [reflexivity|].
    apply list_elem_of_In, elem_of_map_to_list. exact Hk.
Qed.

Lemma stale_after_expiry (tick : Z) (o : Trade.TradeOffer) :
  Trade.stale tick (if Trade.stale tick o then Trade.with_status o Trade.expired else o)
  = false.
Proof. destruct (Trade.stale tick o) eqn:E; [reflexivity | exact E]. Qed.

(** X10. [expire_old_offers] touches only the offer table.  Every offer it
    finds pending past its window is closed for good: any later acceptance
    of it is rejected as expired and changes nothing.  An offer that is not
    stale is left as it is; a second call at the same tick expires nothing;
    and a call that reports zero changed nothing at all. *)
Theorem expire_old_offers_closes (tick : Z) (m : Trade.TradeManager) :
  let res := Trade.expire_old_offers tick m in
  Trade.world_state (snd res) = Trade.world_state m
  /\ Trade.accounting (snd res) = Trade.accounting m
  /\ fst (Trade.expire_old_offers tick (snd res)) = 0%nat
  /\ (fst res = 0%nat -> snd res = m)
  /\ forall (oid : string) (o : Trade.TradeOffer),
       Trade._offers m !! oid = Some o ->
       (Trade.stale tick o = false -> Trade._offers (snd res) !! oid = Some o)
       /\ (Trade.stale tick o = true ->
           forall (anyone : string) (tick' : Z),
             Trade.accept_offer oid anyone tick' (snd res)
             = (Trade.Rejected "Offer is expired", snd res)).
Proof.
  intros res. subst res. simpl.
  split; [reflexivity|]. split; [reflexivity|]. split; [|split].
  - apply length_zero_iff_nil, filter_none. intros o Hin.
    apply In_offer_values in Hin. destruct Hin as (k & Hk).
    rewrite lookup_fmap in Hk. destruct (Trade._offers m !! k) as [o0|]; [|discriminate].
    injection Hk as <-. apply stale_after_expiry.
  - intros Hzero. apply length_zero_iff_nil in Hzero.
    destruct m as [w l offers n]. simpl in *. f_equal.
    apply map_eq. intros k. rewrite lookup_fmap.
    destruct (offers !! k) as [o|] eqn:Hk; [|reflexivity]. simpl.
    rewrite (proj1 (filter_none _ _) Hzero o); [reflexivity|].
    apply In_offer_values. exists k. exact Hk.
  - intros oid o Ho. split.
    + intros Hs. rewrite lookup_fmap, Ho. simpl. rewrite Hs. reflexivity.
    + intros Hs anyone tick'.
      apply (accept_offer_closed oid anyone tick' _ (Trade.with_status o Trade.expired)).
      * simpl. rewrite lookup_fmap, Ho. simpl. rewrite Hs. reflexivity.
      * discriminate.
Qed.

(** ** Noise and the message bus ([apply_noise], [MessageBus]) *)

Section NoiseFacts.
Context `{RandomSource}.

Lemma choice_alphanumeric (g : rng) : Journal.alphanumeric (fst (Noise.choice g)).
Proof.
  unfold Noise.choice.
  destruct (randbelow (String.length Noise.alphabet) g) as [i g'].
  cbn [fst]. destruct (String.get i Noise.alphabet) as [c|] eqn:E.
  - exists i. exact E.
  - exists 0%nat. reflexivity.
Qed.

Lemma garble_shape (content : string) (g : rng) :
  String.length (fst (Noise.garble content g)) = String.length content
  /\ forall i c, String.get i (fst (Noise.garble content g)) = Some c ->
                 Journal.alphanumeric c.
Proof.
  revert g. induction content as [|ch rest IH]; intros g.
  - split; [reflexivity|]. intros i c. destruct i; discriminate.
  - cbn [Noise.garble]. pose proof (choice_alphanumeric g) as Hc.
    destruct (Noise.choice g) as [c0 g1]. specialize (IH g1).
    destruct (Noise.garble rest g1) as [out g2]. cbn [fst] in *.
    destruct IH as [Hlen Hall]. split.
    + simpl. rewrite Hlen. reflexivity.
    + intros [|i] c; simpl.
      * intros [= <-]. exact Hc.
      * apply Hall.
Qed.

Lemma corrupt_shape (noise_factor : Q) (content : string) (g : rng) :
  String.length (fst (Noise.corrupt noise_factor content g)) = String.length content
  /\ forall i c,
       String.get i (fst (Noise.corrupt noise_factor content g)) = Some c ->
       String.get i content = Some c \/ Journal.alphanumeric c.
Proof.
  revert g. induction content as [|ch rest IH]; intros g.
  - split; [reflexivity|]. intros i c. destruct i; discriminate.
  - cbn [Noise.corrupt]. destruct (random g) as [r g1].
    destruct (Qltb r noise_factor).
    + pose proof (choice_alphanumeric g1) as Hc.
      destruct (Noise.choice g1) as [c0 g2]. specialize (IH g2).
      destruct (Noise.corrupt noise_factor rest g2) as [out g3]. cbn [fst] in *.
      destruct IH as [Hlen Hall]. split.
      * simpl. rewrite Hlen. reflexivity.
      * intros [|i] c; simpl.
        -- intros [= <-]. right. exact Hc.
        -- apply Hall.
    + specialize (IH g1).
      destruct (Noise.corrupt noise_factor rest g1) as [out g2]. cbn [fst] in *.
      destruct IH as [Hlen Hall]. split.
      * simpl. rewrite Hlen. reflexivity.
      * intros [|i] c; simpl.
        -- intros [= <-]. left. reflexivity.
        -- apply Hall.
Qed.
End NoiseFacts.

(** X11. Whatever the random draws, [apply_noise] returns a string of the
    length of the message in which every character is either the original
    character at that position or one of the 62 digits and letters; with a
    noise factor of zero or less nothing is drawn and the message is
    returned as it is, and with a factor of one or more no original
    character is kept other than by chance: all are drawn from the 62. *)
Theorem apply_noise_shape `{RandomSource} (content : string) (noise_factor : Q)
    (g : rng) :
  let noisy := fst (Noise.apply_noise content noise_factor g) in
  String.length noisy = String.length content
  /\ (forall i c, String.get i noisy = Some c ->
                  String.get i content = Some c \/ Journal.alphanumeric c)
  /\ (noise_factor <= 0 -> Noise.apply_noise content noise_factor g = (content, g))
  /\ (1 <= noise_factor ->
      forall i c, String.get i noisy = Some c -> Journal.alphanumeric c).
Proof.
  intros noisy. subst noisy. unfold Noise.apply_noise.
  destruct (Qleb noise_factor 0) eqn:E0.
  { apply Qleb_le in E0. cbn [fst]. split; [reflexivity|]. split; [auto|].
    split; [reflexivity|]. intros H1. exfalso.
    apply (Qlt_irrefl 0). eapply Qlt_le_trans; [|eapply Qle_trans; eassumption].
    reflexivity. }
  apply Qleb_gt in E0.
  destruct (Qleb 1 noise_factor) eqn:E1.
  - destruct (garble_shape content g) as [Hlen Hall].
    split; [exact Hlen|]. split; [intros i c Hi; right; eapply Hall, Hi|].
    split; [intros Hle; exfalso; apply (Qlt_irrefl 0);
            eapply Qlt_le_trans; eassumption|].
    intros _. exact Hall.
  - apply Qleb_gt in E1. destruct (corrupt_shape noise_factor content g) as [Hlen Hall].
    split; [exact Hlen|]. split; [exact Hall|].
    split; [intros Hle; exfalso; apply (Qlt_irrefl 0);
            eapply Qlt_le_trans; eassumption|].
    intros Hge. exfalso. apply (Qlt_irrefl 1). eapply Qle_lt_trans; eassumption.
Qed.

Section BusFacts.
Context `{RandomSource}.

Lemma bus_invariant (sends : list Journal.Send) (g : rng) :
  let bus := Journal.delivered sends g in
  Messaging._next_id bus = length (Messaging._messages bus)
  /\ length (Messaging._messages bus) = length sends
  /\ (forall agent,
        default [] (Messaging._inbox bus !! agent)
        = Journal.addressed_to agent (Messaging._messages bus))
  /\ (forall i m, nth_error (Messaging._messages bus) i = Some m ->
                  Messaging.message_id m = "msg_" ++ Trade.pad8 i
                  /\ exists s, nth_error sends i = Some s
                               /\ Messaging.tick m = Journal.send_tick s
                               /\ Messaging.from_agent m = Journal.send_from s
                               /\ Messaging.to_agent m = Journal.send_to s
                               /\ String.length (Messaging.content m)
                                  = String.length (Journal.send_text s)).
Proof.
  unfold Journal.delivered.
  induction sends as [|s rest IH] using rev_ind.
  - simpl. split; [reflexivity|]. split; [reflexivity|].
    split; [intros agent; rewrite lookup_empty; reflexivity|].
    intros [|i] m Hi; discriminate.
  - rewrite fold_left_app. cbn [fold_left].
    destruct (fold_left Journal.deliver rest (Messaging.empty_bus, g)) as [bus g0].
    cbn [fst] in IH. destruct IH as (Hid & Hlen & Hinbox & Hmsgs).
    unfold Journal.deliver, Messaging.send_message. cbn [fst snd].
    pose proof (apply_noise_shape (Journal.send_text s) (Journal.send_noise s) g0)
      as [Hnoisy _].
    destruct (Noise.apply_noise (Journal.send_text s) (Journal.send_noise s) g0)
      as [noisy g1]. cbn [fst] in Hnoisy. cbn [fst Messaging._next_id
      Messaging._messages Messaging._inbox].
    rewrite !length_app. cbn [length]. split; [lia|]. split; [lia|]. split.
    + intros agent. unfold Journal.addressed_to. rewrite List.filter_app.
      cbn [List.filter Messaging.to_agent].
      destruct (String.eqb (Journal.send_to s) agent) eqn:E.
      * apply String.eqb_eq in E. subst agent. rewrite lookup_insert_eq.
        cbn [default]. rewrite Hinbox. reflexivity.
      * apply String.eqb_neq in E. rewrite lookup_insert_ne by exact E.
        rewrite Hinbox, app_nil_r. reflexivity.
    + intros i m Hi.
      destruct (Nat.lt_ge_cases i (length (Messaging._messages bus))) as [Hlt|Hge].
      * rewrite nth_error_app1 in Hi by exact Hlt.
        destruct (Hmsgs i m Hi) as (Hmid & s0 & Hs0 & Hrest).
        split; [exact Hmid|]. exists s0. split; [|exact Hrest].
        rewrite nth_error_app1 by lia. exact Hs0.
      * rewrite nth_error_app2 in Hi by exact Hge.
        destruct (i - length (Messaging._messages bus))%nat as [|j] eqn:Hj;
          [|destruct j; discriminate].
        cbn in Hi. injection Hi as <-.
        assert (i = length (Messaging._messages bus)) as -> by lia.
        cbn [Messaging.message_id Messaging.tick Messaging.from_agent
             Messaging.to_agent Messaging.content].
        split; [rewrite Hid; reflexivity|]. exists s.
        rewrite nth_error_app2 by lia. rewrite Hlen, Nat.sub_diag.
        repeat split. exact Hnoisy.
Qed.
End BusFacts.

(** X12. Delivery by the message bus: after any series of [send_message]
    calls on a new bus, the inbox [get_inbox] reads for an agent holds
    exactly the messages addressed to that agent with a tick of at least
    [since_tick], in the order they were sent; [message_count] is the
    number of calls; the i-th message keeps the sender, the recipient and
    the length of the i-th call's text, and carries the id printed from
    [i], so no two messages share an id. *)
Theorem bus_delivers_to_recipient `{RandomSource} (sends : list Journal.Send)
    (g : rng) (agent : string) (since_tick : Z) :
  let bus := Journal.delivered sends g in
  Messaging.get_inbox agent since_tick bus
  = List.filter (fun m => negb (Messaging.tick m <? since_tick)%Z)
                (Journal.addressed_to agent (Messaging._messages bus))
  /\ Messaging.message_count bus = length sends
  /\ (forall i m, nth_error (Messaging._messages bus) i = Some m ->
                  exists s, nth_error sends i = Some s
                            /\ Messaging.from_agent m = Journal.send_from s
                            /\ Messaging.to_agent m = Journal.send_to s
                            /\ String.length (Messaging.content m)
                               = String.length (Journal.send_text s))
  /\ forall i j mi mj,
       nth_error (Messaging._messages bus) i = Some mi ->
       nth_error (Messaging._messages bus) j = Some mj ->
       Messaging.message_id mi = Messaging.message_id mj -> i = j.
Proof.
  intros bus. destruct (bus_invariant sends g) as (_ & Hlen & Hinbox & Hmsgs).
  fold bus in Hlen, Hinbox, Hmsgs. split; [|split; [|split]].
  - unfold Messaging.get_inbox. rewrite Hinbox. reflexivity.
  - exact Hlen.
  - intros i m Hi. destruct (Hmsgs i m Hi) as (_ & s & Hs & _ & Hfrom & Hto & Hc).
    exists s. auto.
  - intros i j mi mj Hi Hj Hid.
    destruct (Hmsgs i mi Hi) as (Hmi & _). destruct (Hmsgs j mj Hj) as (Hmj & _).
    rewrite Hmi, Hmj in Hid. apply append_inj in Hid. apply pad8_inj, Hid.
Qed.

Lemma bus_delivers_to_recipient_witness :
  let bus := Journal.delivered (H := Samples.counting_source) Samples.greetings 0%nat in
  Messaging.get_inbox "agent_b" 4 bus
  = List.filter (fun m => negb (Messaging.tick m <? 4)%Z)
                (Journal.addressed_to "agent_b" (Messaging._messages bus))
  /\ Messaging.message_count bus = 3%nat.
Proof.
  destruct (bus_delivers_to_recipient (H := Samples.counting_source)
              Samples.greetings 0%nat "agent_b" 4) as (Hinbox & Hcount & _).
  split; [exact Hinbox | exact Hcount].
Defined.

(** ** What every resolution looks like ([validate_and_resolve]) *)

Ltac nodup_kinds :=
  simpl; repeat constructor; simpl; intuition discriminate.

Ltac shape_leaf :=
  simpl;
  repeat match goal with
         | D : deduct _ _ = (false, _) |- _ => apply deduct_refused in D; subst
         end;
  repeat split;
  try reflexivity; try discriminate;
  try (intros; first [reflexivity | discriminate]);
  try (left; reflexivity);
  try (right; eexists; split; [|eassumption]; nodup_kinds);
  try (right; eexists; eexists; reflexivity).

Lemma validate_and_resolve_shape `{Platform} (kind aid : string)
    (pool : ResourcePool) (reg : string) (params : Params) (tick : Z)
    (all_agents : PyDict.t AgentSummary) (rm : Regions.RegionManager) :
  let r := validate_and_resolve kind aid pool reg params tick all_agents rm in
  (pool_after r = pool
   \/ exists costs, List.NoDup (map fst costs)
                    /\ deduct pool costs = (true, pool_after r))
  /\ (regions_after r = rm
      \/ exists src dst,
           regions_after r = region_add dst aid (region_remove src aid rm))
  /\ action_type (result r) = kind
  /\ result_agent (result r) = aid
  /\ result_tick (result r) = tick
  /\ (success (result r) = true <-> error (result r) = None)
  /\ (success (result r) = true -> Regions.contains kind Gateway.VALID_ACTION_TYPES = true).
Proof.
  unfold validate_and_resolve, handler_for.
  destruct (String.eqb kind "move") eqn:Emove.
  { apply String.eqb_eq in Emove. subst kind. cbn [ACTION_COSTS String.eqb Ascii.eqb Bool.eqb].
    cbv iota. unfold _resolve_move. handler_cases; shape_leaf. }
  destruct (String.eqb kind "trade") eqn:Etrade.
  { apply String.eqb_eq in Etrade. subst kind. cbn [ACTION_COSTS String.eqb Ascii.eqb Bool.eqb].
    cbv iota. unfold _resolve_trade. handler_cases; shape_leaf. }
  destruct (String.eqb kind "send_message") eqn:Esend.
  { apply String.eqb_eq in Esend. subst kind. cbn [ACTION_COSTS String.eqb Ascii.eqb Bool.eqb].
    cbv iota. unfold _resolve_send_message. handler_cases; shape_leaf. }
  destruct (String.eqb kind "observe") eqn:Eobserve.
  { apply String.eqb_eq in Eobserve. subst kind. cbn [ACTION_COSTS String.eqb Ascii.eqb Bool.eqb].
    cbv iota. unfold _resolve_observe. handler_cases; shape_leaf. }
  destruct (String.eqb kind "fork") eqn:Efork.
  { apply String.eqb_eq in Efork. subst kind. cbn [ACTION_COSTS String.eqb Ascii.eqb Bool.eqb].
    cbv iota. unfold _resolve_fork. handler_cases; shape_leaf. }
  destruct (String.eqb kind "merge") eqn:Emerge.
  { apply String.eqb_eq in Emerge. subst kind. cbn [ACTION_COSTS String.eqb Ascii.eqb Bool.eqb].
    cbv iota. unfold _resolve_merge. handler_cases; shape_leaf. }
  destruct (String.eqb kind "attack") eqn:Eattack.
  { apply String.eqb_eq in Eattack. subst kind. cbn [ACTION_COSTS String.eqb Ascii.eqb Bool.eqb].
    cbv iota. unfold _resolve_attack. handler_cases; shape_leaf. }
  destruct (String.eqb kind "ally") eqn:Eally.
  { apply String.eqb_eq in Eally. subst kind. cbn [ACTION_COSTS String.eqb Ascii.eqb Bool.eqb].
    cbv iota. unfold _resolve_ally. handler_cases; shape_leaf. }
  shape_leaf.
Qed.

(** ** The results of a tick *)

Section TickResults.
Context `{Platform}.

Lemma stamped_resolution (t : Z) (w' : WorldState) (kind aid : string)
    (pool : ResourcePool) (reg : string) (params : Params)
    (all_agents : PyDict.t AgentSummary) (rm : Regions.RegionManager) :
  Journal.stamped t w'
    (result (validate_and_resolve kind aid pool reg params t all_agents rm)).
Proof.
  destruct (validate_and_resolve_shape kind aid pool reg params t all_agents rm)
    as (_ & _ & Hkind & _ & Ht & Herr & Hvalid).
  split; [exact Ht|]. split; [exact Herr|].
  intros Hs Hd. specialize (Hvalid Hs). rewrite Hkind in Hd. subst kind.
  discriminate.
Qed.

Lemma resolve_action_results (summary : PyDict.t AgentSummary) (t : Z)
    (st : WorldState * list ActionResult) (action : QueuedAction)
    (P : ActionResult -> Prop) :
  (forall kind aid pool reg params rm,
     P (result (validate_and_resolve kind aid pool reg params t summary rm))) ->
  (forall kind aid msg, P (failure kind aid t msg)) ->
  Forall P (snd st) ->
  Forall P (snd (resolve_action summary t st action)).
Proof.
  intros Hres Hfail Hall. destruct st as [w results]. unfold resolve_action.
  destruct (get_agent w (qa_agent_id action)) as [agent|]; [|exact Hall].
  destruct (negb (is_alive agent)); [exact Hall|].
  destruct (status_eqb (status agent) unclaimed
            && negb (String.eqb (qa_action_type action) "observe")).
  { cbn [snd] in *. apply Forall_app. split; [exact Hall|].
    constructor; [apply Hfail | constructor]. }
  cbv zeta. destruct (success (result _)); cbn [snd] in *;
    (apply Forall_app; split; [exact Hall|]; constructor; [apply Hres | constructor]).
Qed.

Lemma died_at_tick_effects (t t0 : Z) (st : WorldState * list ActionResult)
    (k k' : string) :
  Journal.died_at (fst st) k t0 ->
  Journal.died_at (fst (tick_effects t st k')) k t0.
Proof.
  intros (a & Ha & Hs & Hd). destruct (String.eqb_spec k' k) as [->|Hne].
  - destruct st as [w results]. cbn [fst] in *. unfold tick_effects. rewrite Ha.
    unfold is_alive. rewrite Hs. simpl. exists a. auto.
  - destruct st as [w results]. exists a.
    rewrite (tick_effects_other t w results k' k Hne). auto.
Qed.

Lemma tick_effects_results (t : Z) (st : WorldState * list ActionResult)
    (k : string) :
  let st' := tick_effects t st k in
  snd st' = snd st
  \/ exists d, snd st' = (snd st ++ [d])%list
               /\ result_tick d = t /\ success d = true /\ error d = None
               /\ action_type d = "death" /\ result_agent d = k
               /\ Journal.died_at (fst st') k t.
Proof.
  destruct st as [w results]. unfold tick_effects.
  destruct (get_agent w k) as [agent|] eqn:Hk; [|left; reflexivity].
  destruct (negb (is_alive agent)); [left; reflexivity|].
  cbv zeta. unfold apply_danger.
  destruct (Regions.get (region_manager w) (region agent)) as [rg|];
    [|left; reflexivity].
  destruct (Qleb (Regions.danger_level rg) 0); [left; reflexivity|].
  cbv zeta. destruct (Qleb _ 0); [|left; reflexivity].
  right. eexists. cbn [fst snd]. split; [reflexivity|].
  repeat (split; [reflexivity|]). unfold Journal.died_at.
  rewrite get_agent_remove_agent, get_agent_modify_eq, get_agent_modify_eq, Hk.
  eexists. split; [reflexivity|]. split; reflexivity.
Qed.

Lemma stamped_weaken (t : Z) (w w' : WorldState) (r : ActionResult) :
  (forall k, Journal.died_at w k t -> Journal.died_at w' k t) ->
  Journal.stamped t w r -> Journal.stamped t w' r.
Proof.
  intros Hw (Ht & He & Hd). split; [exact Ht|]. split; [exact He|].
  intros Hs Ha. apply Hw, Hd; assumption.
Qed.

Lemma tick_loop_stamped (t : Z) (keys : list string)
    (st : WorldState * list ActionResult) :
  Forall (Journal.stamped t (fst st)) (snd st) ->
  Forall (Journal.stamped t (fst (fold_left (tick_effects t) keys st)))
         (snd (fold_left (tick_effects t) keys st)).
Proof.
  revert st. induction keys as [|k rest IH]; intros st Hall; [exact Hall|].
  cbn [fold_left]. apply IH.
  assert (Hold : Forall (Journal.stamped t (fst (tick_effects t st k))) (snd st)).
  { eapply List.Forall_impl; [|exact Hall]. intros r. apply stamped_weaken.
    intros k0. apply died_at_tick_effects. }
  destruct (tick_effects_results t st k) as [Hsame|(d & Hd & Ht & Hs & He & Ha & Hk & Hdead)].
  - rewrite Hsame. exact Hold.
  - rewrite Hd. apply Forall_app. split; [exact Hold|].
    constructor; [|constructor]. split; [exact Ht|]. split.
    + rewrite Hs, He. split; reflexivity.
    + intros _ _. rewrite Hk. exact Hdead.
Qed.
End TickResults.

(** X13. Every result of a tick is stamped with the new tick and carries an
    error message exactly when it failed.  A successful result of type
    [death] is never the outcome of a queued action: it names an agent that
    the tick leaves dead, with [died_at_tick] set to that tick. *)
Theorem tick_results_stamped `{Platform} (w : WorldState)
    (queue : list QueuedAction) :
  let w' := fst (_process_tick w queue) in
  Forall (fun r =>
            result_tick r = (tick w + 1)%Z
            /\ (success r = true <-> error r = None)
            /\ (success r = true -> action_type r = "death" ->
                Journal.died_at w' (result_agent r) (tick w + 1)))
         (snd (_process_tick w queue)).
Proof.
  intros w'. subst w'. unfold _process_tick. cbn [advance_tick].
  set (t := (tick w + 1)%Z).
  set (w0 := mkWorld t (agents w) (region_manager w) (alliance_proposals w)).
  set (st1 := fold_left (resolve_action (get_all_agents_summary w0) t)
                        (filter (is_valid t) queue) (w0, [])).
  apply (tick_loop_stamped t (PyDict.keys (agents (fst st1))) st1).
  assert (Hres : forall w1, Forall (Journal.stamped t w1) (snd st1)).
  { intros w1. subst st1. generalize (filter (is_valid t) queue) as actions.
    intros actions.
    assert (Hgen : forall st, Forall (Journal.stamped t w1) (snd st) ->
              Forall (Journal.stamped t w1)
                (snd (fold_left (resolve_action (get_all_agents_summary w0) t)
                                actions st))).
    { induction actions as [|a rest IH]; intros st Hst; [exact Hst|].
      cbn [fold_left]. apply IH. apply resolve_action_results; [| |exact Hst].
      - intros. apply stamped_resolution.
      - intros kind aid msg. split; [reflexivity|].
        split; [split; discriminate | discriminate]. }
    apply Hgen. constructor. }
  apply Hres.
Qed.

(** ** Holdings never go negative *)













(** *** Regions keep their multipliers *)




(** *** The operations on the world *)







(** *** The tick *)

Section SolventTick.
Context `{Platform}.






(** *** The other events *)








End SolventTick.


Section SolventRuns.
Context `{Platform}.



End SolventRuns.



(** ** Regeneration clamps ([regenerate], then [apply_danger]) *)




Section Clamping.
Context `{Platform}.



End Clamping.



(** ** Merge ([_resolve_merge] and its side effect) *)

Lemma validate_and_resolve_merge `{Platform} aid pool reg params tick all rm :
  validate_and_resolve "merge" aid pool reg params tick all rm
  = _resolve_merge aid pool reg params tick (ACTION_COSTS "merge") all rm.
Proof. reflexivity. Qed.

Lemma merge_absorb_all (absorbed : Amounts) (p : ResourcePool) :
  let p' := fold_left (merge_absorb absorbed) all_resource_types p in
  caps p' = caps p
  /\ forall r,
       aget (holdings p') r
       = Qmin (aget (holdings p) r + aget absorbed r) (aget (caps p) r).
Proof. destruct p as [h c]. split; [reflexivity|]. intros []; reflexivity. Qed.

Lemma merge_side_effect (r : ActionResult) (aid target : string)
    (w : WorldState) (agent absorbed : AgentState) :
  action_type r = "merge" ->
  details r = MergeDetails target aid ->
  get_agent w aid = Some agent ->
  get_agent w target = Some absorbed ->
  _apply_side_effects r aid w
  = remove_agent
      (modify_agent target (mark_dead (result_tick r))
         (modify_agent aid
            (set_resources
               (fold_left (merge_absorb (holdings (resources absorbed)))
                          all_resource_types (resources agent))) w))
      target.
Proof.
  intros Hkind Hdetails Hagent Habsorbed. unfold _apply_side_effects.
  rewrite Hagent, Hkind, Hdetails. cbn [String.eqb Ascii.eqb Bool.eqb]. cbv iota.
  rewrite Habsorbed. reflexivity.
Qed.

(** X16. What a merge does.  When a claimed agent that can pay the merge
    cost names another stored agent that the tick's summary lists, the
    survivor's holding of each kind becomes the minimum of its cap and what
    it had after paying plus what the absorbed agent held; the absorbed
    agent is marked dead at this tick but keeps its holdings as they were.
    Nothing in the resolution asks whether the absorbed agent is alive. *)
Theorem merge_absorbs `{Platform} (all_agents : PyDict.t AgentSummary) (tick : Z)
    (w : WorldState) (results : list ActionResult) (action : QueuedAction)
    (target : string) (survivor absorbed : AgentState) :
  qa_action_type action = "merge" ->
  target_agent (qa_params action) = Some target ->
  target <> "" ->
  target <> qa_agent_id action ->
  PyDict.mem target all_agents = true ->
  get_agent w (qa_agent_id action) = Some survivor ->
  status survivor = claimed ->
  get_agent w target = Some absorbed ->
  covered (holdings (resources survivor)) (ACTION_COSTS "merge") ->
  let aid := qa_agent_id action in
  let h := subtract_all (holdings (resources survivor)) (ACTION_COSTS "merge") in
  let w' := fst (resolve_action all_agents tick (w, results) action) in
  (forall rtype,
     aget h rtype
     == aget (holdings (resources survivor)) rtype
        - total_cost rtype (ACTION_COSTS "merge"))
  /\ exists survivor' absorbed',
       get_agent w' aid = Some survivor'
       /\ get_agent w' target = Some absorbed'
       /\ (forall rtype,
             aget (holdings (resources survivor')) rtype
             = Qmin (aget h rtype + aget (holdings (resources absorbed)) rtype)
                    (aget (caps (resources survivor)) rtype))
       /\ caps (resources survivor') = caps (resources survivor)
       /\ status survivor' = claimed
       /\ status absorbed' = dead
       /\ died_at_tick absorbed' = Some tick
       /\ resources absorbed' = resources absorbed.
Proof.
  intros Hkind Htarget Hnonempty Hother Hknown Hsurvivor Hclaimed Habsorbed
         Hcovered aid h w'.
  split; [intros rtype; apply subtract_all_total|].
  subst w'. unfold resolve_action. fold aid. fold aid in Hsurvivor, Hother.
  rewrite Hsurvivor. unfold is_alive. rewrite Hclaimed, Hkind.
  cbn [negb status_eqb andb]. cbv iota.
  rewrite validate_and_resolve_merge. unfold _resolve_merge.
  rewrite Htarget. cbn [default from_option id truthy].
  rewrite (proj2 (String.eqb_neq target "") Hnonempty), Hknown.
  cbn [negb orb]. cbv iota.
  rewrite (deduct_covered _ _ Hcovered). fold h.
  cbn [negb result success pool_after regions_after succeeded fst].
  set (pool' := with_holdings (resources survivor) h).
  set (w1 := with_regions (modify_agent aid (set_resources pool') w) (region_manager w)).
  assert (Hw1 : get_agent w1 aid = Some (set_resources pool' survivor)).
  { subst w1. rewrite get_agent_with_regions, get_agent_modify_eq, Hsurvivor.
    reflexivity. }
  assert (Hw1t : get_agent w1 target = Some absorbed).
  { subst w1. rewrite get_agent_with_regions, get_agent_modify_ne by congruence.
    exact Habsorbed. }
  set (r := succeeded "merge" aid (MergeDetails target aid) tick).
  rewrite (merge_side_effect r aid target w1 _ absorbed eq_refl eq_refl Hw1 Hw1t).
  cbn [result_tick r resources set_resources].
  destruct (merge_absorb_all (holdings (resources absorbed)) pool') as [Hcaps Hhold].
  set (pool := fold_left _ _ pool') in *.
  exists (set_resources pool (set_resources pool' survivor)), (mark_dead tick absorbed).
  split.
  { rewrite get_agent_remove_agent, get_agent_modify_ne by congruence.
    rewrite get_agent_modify_eq, Hw1. reflexivity. }
  split.
  { rewrite get_agent_remove_agent, get_agent_modify_eq.
    rewrite get_agent_modify_ne by congruence. rewrite Hw1t. reflexivity. }
  split; [intros rtype; apply Hhold|].
  split; [exact Hcaps|]. split; [exact Hclaimed|]. repeat split.
Qed.

Lemma merge_absorbs_witness :
  let w :=
    world (run (H := sample_platform)
             [register "tokA" "pkA" "Alice"; register "tokB" "pkB" "Bob";
              claim "tokB"] initial_server) in
  let action := mkAction bob "merge" (target_params alice) 0 1 in
  let w' :=
    fst (resolve_action (H := sample_platform) (get_all_agents_summary w) 1
           (w, []) action) in
  exists survivor' absorbed',
    get_agent w' bob = Some survivor'
    /\ get_agent w' alice = Some absorbed'
    /\ aget (holdings (resources survivor')) ENERGY == 80
    /\ status absorbed' = dead
    /\ aget (holdings (resources absorbed')) ENERGY == 50.
Proof.
  cbv zeta.
  destruct (merge_absorbs (H := sample_platform)
              (get_all_agents_summary
                 (world (run (H := sample_platform)
                           [register "tokA" "pkA" "Alice";
                            register "tokB" "pkB" "Bob"; claim "tokB"]
                           initial_server)))
              1
              (world (run (H := sample_platform)
                        [register "tokA" "pkA" "Alice";
                         register "tokB" "pkB" "Bob"; claim "tokB"]
                        initial_server))
              [] (mkAction bob "merge" (target_params alice) 0 1)
              alice
              (mark_claimed "@owner"
                 (mkAgent bob "Bob" "pkB" "nexus" create_default unclaimed None
                    (Some "tokB") (Some (1000 + 86400)) [] 0 None None))
              (mkAgent alice "Alice" "pkA" "nexus" create_default unclaimed None
                 (Some "tokA") (Some (1000 + 86400)) [] 0 None None))
    as (_ & survivor' & absorbed' & Hs & Ha & Hh & _ & _ & Hd & _ & Hr);
    try (vm_compute; reflexivity); try discriminate.
  - repeat constructor; vm_compute; discriminate.
  - exists survivor', absorbed'. split; [exact Hs|]. split; [exact Ha|].
    split; [rewrite Hh; vm_compute; reflexivity|]. split; [exact Hd|].
    rewrite Hr. vm_compute. reflexivity.
Defined.

(** ** Move ([_resolve_move] and its side effect) *)








(** ** Who may act ([authenticate_request] and the checks on dead agents) *)

(** X19. A request is authentic exactly when its timestamp parses and lies
    less than 300 seconds from the server's clock, the agent exists and is
    alive, and the signature over [method:path:body:timestamp] verifies
    under the agent's own public key. *)
Theorem authentication_checks `{Platform} (now : Q) (parse_float : string -> option Q)
    (agent_id method path body timestamp signature : string) (w : WorldState) :
  Gateway.authenticate_request now parse_float agent_id method path body
                               timestamp signature w = None
  <-> exists ts agent,
        parse_float timestamp = Some ts
        /\ Qabs (now - ts) < 300
        /\ get_agent w agent_id = Some agent
        /\ is_alive agent = true
        /\ signature_valid (public_key agent)
             (method ++ ":" ++ path ++ ":" ++ body ++ ":" ++ timestamp)
             signature = true.
Proof.
  unfold Gateway.authenticate_request, Gateway.is_timestamp_valid,
    Gateway.verify_agent_request.
  split.
  - destruct (parse_float timestamp) as [ts|]; [|discriminate].
    destruct (Qltb (Qabs (now - ts)) 300) eqn:Hts; [|discriminate].
    apply Qltb_lt in Hts. cbn [negb].
    destruct (get_agent w agent_id) as [agent|]; [|discriminate].
    destruct (is_alive agent) eqn:Halive; [|discriminate]. cbn [negb].
    destruct (signature_valid _ _ _) eqn:Hsig; [|discriminate].
    intros _. exists ts, agent. auto.
  - intros (ts & agent & -> & Hts & -> & -> & ->).
    rewrite (proj2 (Qltb_lt _ _) Hts). reflexivity.
Qed.

(** X20. Death is enforced at every door.  Once the agent stored under an
    id is dead, no request in its name authenticates, [submit_action]
    queues nothing for it, [agent_observe] answers nothing, [kill_agent]
    reports false and changes nothing, the tick skips both its queued
    actions and its regeneration, and the trade manager finds no such
    living agent; and [kill_agent], when it reports true, leaves the agent
    dead with [died_at_tick] set. *)
Theorem dead_agents_cannot_act `{Platform} (w : WorldState) (aid : string)
    (a : AgentState) :
  get_agent w aid = Some a ->
  status a = dead ->
  (forall now parse_float method path body timestamp signature,
     Gateway.authenticate_request now parse_float aid method path body
                                  timestamp signature w <> None)
  /\ (forall kind params queue,
        Gateway.resp_success (fst (Gateway.submit_action aid kind params w queue))
        = false
        /\ snd (Gateway.submit_action aid kind params w queue) = queue)
  /\ Gateway.agent_observe aid w = None
  /\ (forall cause tick attempts,
        Lifecycle.kill_agent aid cause tick (Lifecycle.mkLifecycle w attempts)
        = (false, Lifecycle.mkLifecycle w attempts))
  /\ (forall summary t results action,
        qa_agent_id action = aid ->
        resolve_action summary t (w, results) action = (w, results))
  /\ (forall t results, tick_effects t (w, results) aid = (w, results))
  /\ Trade.alive_agent w aid = None
  /\ (forall cause tick m,
        fst (Lifecycle.kill_agent aid cause tick m) = true ->
        Journal.died_at
          (Lifecycle.world_state (snd (Lifecycle.kill_agent aid cause tick m)))
          aid tick).
Proof.
  intros Hget Hdead.
  assert (Halive : is_alive a = false) by (unfold is_alive; now rewrite Hdead).
  split.
  { intros now parse_float method path body timestamp signature.
    unfold Gateway.authenticate_request. rewrite Hget, Halive.
    destruct (negb _); discriminate. }
  split.
  { intros kind params queue. unfold Gateway.submit_action. rewrite Hget, Halive.
    destruct (negb (Regions.contains kind _)); split; reflexivity. }
  split.
  { unfold Gateway.agent_observe. now rewrite Hget, Halive. }
  split.
  { intros cause tick attempts. unfold Lifecycle.kill_agent. cbn [Lifecycle.world_state].
    now rewrite Hget, Halive. }
  split.
  { intros summary t results action <-. unfold resolve_action.
    now rewrite Hget, Halive. }
  split.
  { intros t results. unfold tick_effects. now rewrite Hget, Halive. }
  split.
  { unfold Trade.alive_agent. now rewrite Hget, Halive. }
  intros cause tick m. unfold Lifecycle.kill_agent.
  destruct (get_agent (Lifecycle.world_state m) aid) as [a0|] eqn:H0; [|discriminate].
  destruct (negb (is_alive a0)); [discriminate|]. intros _.
  cbn [snd Lifecycle.world_state]. exists (mark_dead tick a0).
  rewrite get_agent_remove_agent, get_agent_modify_eq, H0. repeat split.
Qed.

Lemma dead_agents_cannot_act_witness :
  let w := world (run (H := sample_platform) merge_history initial_server) in
  Gateway.agent_observe alice w = None
  /\ Trade.alive_agent w alice = None.
Proof.
  pose proof (dead_agents_cannot_act (H := sample_platform)
                (world (run (H := sample_platform) merge_history initial_server))
                alice
                (default parent
                   (get_agent
                      (world (run (H := sample_platform) merge_history
                                  initial_server)) alice))) as Hdead.
  destruct Hdead as (_ & _ & Hobserve & _ & _ & _ & Htrade & _);
    [vm_compute; reflexivity | vm_compute; reflexivity |].
  split; assumption.
Defined.

(** ** From registration to the claim ([register_agent], [claim_agent]) *)

Lemma set_absent {V : Type} (k : string) (v : V) (d : PyDict.t V) :
  PyDict.get k d = None -> PyDict.set k v d = (d ++ [(k, v)])%list.
Proof.
  induction d as [|[k0 v0] rest IH]; simpl; [reflexivity|].
  destruct (String.eqb k k0); [discriminate|]. intros Hn. now rewrite IH.
Qed.

Lemma find_by_token_last (t : string) (d : PyDict.t AgentState) (k : string)
    (a : AgentState) :
  Lifecycle.find_by_token t d = None ->
  claim_token a = Some t ->
  Lifecycle.find_by_token t (d ++ [(k, a)])%list = Some (k, a).
Proof.
  intros Hnone Ha. induction d as [|[k0 a0] rest IH]; simpl in *.
  - rewrite (proj2 (token_matches_iff t a) Ha). reflexivity.
  - destruct (Lifecycle.token_matches t a0); [discriminate|]. apply IH, Hnone.
Qed.

Lemma register_agent_success `{Platform} (token : string) (now : Q)
    (pk sg nc ch pn nm : string) (w w' : WorldState)
    (r : Gateway.RegistrationResult) :
  Gateway.register_agent token now pk sg nc ch pn nm w = Some (r, w') ->
  Gateway.reg_success r = true ->
  exists a,
    w' = add_agent w a
    /\ get_agent w (Gateway.generate_agent_id pk) = None
    /\ agent_id a = Gateway.generate_agent_id pk
    /\ status a = unclaimed
    /\ claim_token a = Some token
    /\ claim_token_expires a = Some (now + 86400)
    /\ resources a = create_default
    /\ Gateway.reg_agent_id r = Some (Gateway.generate_agent_id pk)
    /\ Gateway.reg_claim_token r = Some token.
Proof.
  unfold Gateway.register_agent.
  destruct (negb (Gateway.verify_pow ch pn)); [intros [= <- _]; discriminate|].
  destruct (negb (Gateway.verify_signed_nonce pk nc sg));
    [intros [= <- _]; discriminate|].
  destruct (get_agent w (Gateway.generate_agent_id pk)) eqn:Hnew;
    [intros [= <- _]; discriminate|].
  destruct (Regions.get_spawn_region (region_manager w)); [|discriminate].
  intros [= <- <-] _. eexists. split; [reflexivity|]. repeat split.
Qed.

(** X21. The claim window.  After a successful registration with a new
    token, a claim presented no later than 86400 seconds after the
    registration (and before the token's attempts are used up) succeeds: the
    agent becomes claimed, gets the owner and loses its token.  Presented
    later, the same claim is refused as expired and the world is left as it
    was. *)
Theorem claim_window `{Platform} (token : string) (now : Q)
    (pk sg nc ch pn nm : string) (w w' : WorldState)
    (r : Gateway.RegistrationResult) (counters : gmap string nat)
    (later : Q) (owner method : string) :
  Gateway.register_agent token now pk sg nc ch pn nm w = Some (r, w') ->
  Gateway.reg_success r = true ->
  Lifecycle.get_agent_by_claim_token w token = None ->
  (attempts counters token < 5)%nat ->
  0 <= now ->
  let m := Lifecycle.mkLifecycle w' counters in
  let aid := Gateway.generate_agent_id pk in
  let res := Lifecycle.claim_agent later token owner method m in
  (later <= now + 86400 ->
   exists claimed_as a,
     fst res = inr claimed_as
     /\ Lifecycle.claimed_agent_id claimed_as = aid
     /\ get_agent (Lifecycle.world_state (snd res)) aid = Some a
     /\ status a = claimed
     /\ owner_identity a = Some owner
     /\ claim_token a = None)
  /\ (now + 86400 < later ->
      fst res = inl Lifecycle.TokenExpired
      /\ Lifecycle.world_state (snd res) = w').
Proof.
  intros Hreg Hok Hfresh Hattempts Hnow m aid res.
  destruct (register_agent_success _ _ _ _ _ _ _ _ _ _ _ Hreg Hok)
    as (a & -> & Hnew & Hid & Hstatus & Htoken & Hexp & _).
  assert (Hfind : Lifecycle.get_agent_by_claim_token (add_agent w a) token
                  = Some (aid, a)).
  { unfold Lifecycle.get_agent_by_claim_token in *. simpl. rewrite Hid.
    rewrite set_absent by exact Hnew.
    apply find_by_token_last; assumption. }
  assert (Hval : forall expired_now,
            Lifecycle.expired later a = expired_now ->
            Lifecycle.validate_claim_token later token m
            = (if expired_now then inl Lifecycle.TokenExpired else inr (aid, a),
               Lifecycle.mkLifecycle (add_agent w a)
                 (<[token := S (attempts counters token)]> counters))).
  { intros e He. unfold Lifecycle.validate_claim_token, m.
    cbn [Lifecycle._claim_attempts Lifecycle.world_state].
    fold (attempts counters token).
    replace (Lifecycle.MAX_CLAIM_ATTEMPTS <=? attempts counters token)%nat
      with false
      by (symmetry; apply Nat.leb_gt; unfold Lifecycle.MAX_CLAIM_ATTEMPTS; lia).
    rewrite Hfind, Hstatus, He. cbn [status_eqb negb]. destruct e; reflexivity. }
  subst res. unfold Lifecycle.claim_agent. split.
  - intros Hin. rewrite (Hval false).
    + cbn [fst snd Lifecycle.world_state]. eexists _, (mark_claimed owner a).
      split; [reflexivity|]. split; [exact Hid|].
      split; [|repeat split].
      rewrite get_agent_modify_eq. unfold aid. rewrite <- Hid.
      rewrite get_agent_add_agent_eq. reflexivity.
    + unfold Lifecycle.expired. rewrite Hexp.
      rewrite (proj2 (Qltb_ge _ _) Hin). apply andb_false_r.
  - intros Hout. rewrite (Hval true).
    + split; reflexivity.
    + unfold Lifecycle.expired. rewrite Hexp.
      rewrite (proj2 (Qltb_lt _ _) Hout), andb_true_r. apply negb_true_iff.
      destruct (Qeq_bool (now + 86400) 0) eqn:E; [|reflexivity].
      apply Qeq_bool_iff in E. lra.
Qed.

Lemma claim_window_witness :
  let w' := world (exec (H := sample_platform) (register "tokA" "pkA" "Alice")
                        initial_server) in
  let m := Lifecycle.mkLifecycle w' ∅ in
  fst (Lifecycle.claim_agent 90000 "tokA" "@owner" "x_tweet" m)
  = inl Lifecycle.TokenExpired
  /\ Lifecycle.world_state (snd (Lifecycle.claim_agent 90000 "tokA" "@owner" "x_tweet" m))
     = w'.
Proof.
  apply (claim_window (H := sample_platform) "tokA" 1000 "pkA" "signature" "nonce"
           "challenge" "pow" "Alice" initial_world _
           (Gateway.mkRegistration true (Some alice) (Some "tokA") (Some "nexus")
              (Some (holdings create_default)) None)
           ∅ 90000 "@owner" "x_tweet").
  - vm_compute. reflexivity.
  - reflexivity.
  - reflexivity.
  - vm_compute. lia.
  - lra.
  - lra.
Defined.

(** ** The regions ([Region.add_agent], [Region.remove_agent]) *)

Lemma contains_In (aid : string) (l : list string) :
  Regions.contains aid l = true <-> In aid l.
Proof.
  induction l as [|a rest IH]; simpl; [split; [discriminate | tauto]|].
  destruct (String.eqb_spec aid a) as [->|Hne].
  - split; auto.
  - rewrite IH. split; [auto | intros [E|Hin]; [congruence | exact Hin]].
Qed.

Lemma list_remove_In (aid x : string) (l : list string) :
  In x (Regions.list_remove aid l) -> In x l.
Proof.
  induction l as [|a rest IH]; simpl; [tauto|].
  destruct (String.eqb aid a); simpl; [auto|]. intros [E|Hin]; auto.
Qed.

Lemma list_remove_NoDup (aid : string) (l : list string) :
  List.NoDup l -> List.NoDup (Regions.list_remove aid l).
Proof.
  induction 1 as [|a rest Hnot Hnd IH]; simpl; [constructor|].
  destruct (String.eqb aid a); [exact Hnd|].
  constructor; [|exact IH]. intros Hin. apply Hnot, (list_remove_In aid), Hin.
Qed.

Lemma list_remove_length (aid : string) (l : list string) :
  (length (Regions.list_remove aid l) <= length l)%nat.
Proof.
  induction l as [|a rest IH]; simpl; [lia|].
  destruct (String.eqb aid a); simpl; lia.
Qed.

Lemma add_agent_ok (r : Regions.Region) (aid : string) :
  Journal.region_ok r ->
  Journal.region_ok (snd (Regions.add_agent r aid))
  /\ Journal.frame (snd (Regions.add_agent r aid)) = Journal.frame r.
Proof.
  intros [Hnd Hcap]. unfold Regions.add_agent.
  destruct (Regions.is_full r) eqn:Hfull; [split; [split; assumption | reflexivity]|].
  destruct (Regions.contains aid (Regions.current_agents r)) eqn:Hin;
    [split; [split; assumption | reflexivity]|].
  cbn [orb snd]. split; [|reflexivity].
  unfold Regions.is_full in Hfull. apply Z.leb_gt in Hfull.
  split; cbn [Regions.current_agents Regions.with_current_agents Regions.capacity].
  - apply List.NoDup_app; [exact Hnd | repeat constructor; simpl; tauto |].
    intros x Hx [<-|[]]. apply contains_In in Hx. congruence.
  - rewrite length_app. simpl. lia.
Qed.

Lemma remove_agent_ok (r : Regions.Region) (aid : string) :
  Journal.region_ok r ->
  Journal.region_ok (snd (Regions.remove_agent r aid))
  /\ Journal.frame (snd (Regions.remove_agent r aid)) = Journal.frame r.
Proof.
  intros [Hnd Hcap]. unfold Regions.remove_agent.
  destruct (negb _); [split; [split; assumption | reflexivity]|].
  cbn [snd]. split; [|reflexivity].
  split; cbn [Regions.current_agents Regions.with_current_agents Regions.capacity].
  - apply list_remove_NoDup, Hnd.
  - pose proof (list_remove_length aid (Regions.current_agents r)). lia.
Qed.

Lemma regions_ok_update (rid : string) (f : Regions.Region -> Regions.Region)
    (m : Regions.RegionManager) :
  (forall r, Journal.region_ok r ->
             Journal.region_ok (f r) /\ Journal.frame (f r) = Journal.frame r) ->
  Journal.regions_ok m -> Journal.regions_ok (PyDict.update rid f m).
Proof.
  intros Hf Hm rid'. destruct (Hm rid') as [Hframe Hok]. unfold Regions.get in *.
  destruct (String.eqb_spec rid rid') as [<-|Hne].
  - rewrite get_update_eq.
    destruct (PyDict.get rid m) as [r|] eqn:E; cbn [option_map] in *.
    + destruct (Hf r (Hok r eq_refl)) as [Hr Hfr]. split.
      * rewrite Hfr. exact Hframe.
      * intros r' [= <-]. exact Hr.
    + split; [exact Hframe | discriminate].
  - rewrite get_update_ne by exact Hne. split; assumption.
Qed.

Lemma regions_ok_add (rid aid : string) (m : Regions.RegionManager) :
  Journal.regions_ok m -> Journal.regions_ok (region_add rid aid m).
Proof. apply regions_ok_update. intros r. apply add_agent_ok. Qed.

Lemma regions_ok_remove (rid aid : string) (m : Regions.RegionManager) :
  Journal.regions_ok m -> Journal.regions_ok (region_remove rid aid m).
Proof. apply regions_ok_update. intros r. apply remove_agent_ok. Qed.

Lemma regions_ok_defaults :
  Journal.regions_ok (Regions.initialize_defaults PyDict.empty).
Proof.
  intros rid. split; [reflexivity|]. intros r. unfold Regions.get. simpl.
  repeat (destruct (String.eqb rid _);
          [intros [= <-]; split; [constructor | simpl; lia]|]).
  discriminate.
Qed.

(** *** Every event keeps the regions in order *)

Section RegionsKept.
Context `{Platform}.
Variable R : Regions.RegionManager -> Prop.
Hypothesis R_add : forall rid aid m, R m -> R (region_add rid aid m).
Hypothesis R_remove : forall rid aid m, R m -> R (region_remove rid aid m).

Lemma kept_remove_agent (w : WorldState) (k : string) :
  R (region_manager w) -> R (region_manager (remove_agent w k)).
Proof.
  unfold remove_agent. destruct (PyDict.get k (agents w)); [|auto].
  intros Hw. apply R_remove, Hw.
Qed.

Lemma kept_apply_side_effects (r : ActionResult) (aid : string) (w : WorldState) :
  R (region_manager w) -> R (region_manager (_apply_side_effects r aid w)).
Proof.
  intros Hw. unfold _apply_side_effects.
  destruct (get_agent w aid) as [agent|]; [|exact Hw].
  destruct (String.eqb (action_type r) "move").
  { destruct (details r); exact Hw. }
  destruct (String.eqb (action_type r) "fork").
  { destruct (details r); try exact Hw.
    destruct (fold_left fork_split _ _) as [parent_h child_h].
    apply R_add, Hw. }
  destruct (String.eqb (action_type r) "merge").
  { destruct (details r) as [| | | | | |absorbed_id surviving| | |]; try exact Hw.
    destruct (get_agent w absorbed_id); [|exact Hw].
    cbv zeta. apply kept_remove_agent, Hw. }
  destruct (String.eqb (action_type r) "attack").
  { destruct (details r) as [| | | | | | |target_id strength danger| |]; try exact Hw.
    destruct (get_agent w target_id); [|exact Hw].
    cbv zeta. destruct (Qleb _ 0); [apply kept_remove_agent|]; exact Hw. }
  destruct (String.eqb (action_type r) "ally"); [|exact Hw].
  destruct (details r); try exact Hw.
  destruct (Regions.contains _ _); exact Hw.
Qed.

Lemma kept_resolve_action (summary : PyDict.t AgentSummary) (t : Z)
    (st : WorldState * list ActionResult) (action : QueuedAction) :
  R (region_manager (fst st)) ->
  R (region_manager (fst (resolve_action summary t st action))).
Proof.
  destruct st as [w results]. cbn [fst]. intros Hw. unfold resolve_action.
  destruct (get_agent w (qa_agent_id action)) as [agent|]; [|exact Hw].
  destruct (negb (is_alive agent)); [exact Hw|].
  destruct (status_eqb (status agent) unclaimed
            && negb (String.eqb (qa_action_type action) "observe")); [exact Hw|].
  cbv zeta.
  destruct (validate_and_resolve_shape (qa_action_type action) (qa_agent_id action)
              (resources agent) (region agent) (qa_params action) t summary
              (region_manager w)) as (_ & Hregions & _).
  assert (Hafter : R (regions_after
                        (validate_and_resolve (qa_action_type action)
                           (qa_agent_id action) (resources agent) (region agent)
                           (qa_params action) t summary (region_manager w)))).
  { destruct Hregions as [->|(src & dst & ->)]; [exact Hw|].
    apply R_add, R_remove, Hw. }
  destruct (success (result _)); cbn [fst];
    [apply kept_apply_side_effects|]; exact Hafter.
Qed.

Lemma kept_tick_effects (t : Z) (st : WorldState * list ActionResult)
    (k : string) :
  R (region_manager (fst st)) -> R (region_manager (fst (tick_effects t st k))).
Proof.
  destruct st as [w results]. cbn [fst]. intros Hw. unfold tick_effects.
  destruct (get_agent w k) as [agent|]; [|exact Hw].
  destruct (negb (is_alive agent)); [exact Hw|]. cbv zeta.
  destruct (apply_danger _ _ _ _ _) as [[d|] pool]; cbn [fst];
    [apply kept_remove_agent|]; exact Hw.
Qed.

Lemma kept_fold {A : Type}
    (f : WorldState * list ActionResult -> A -> WorldState * list ActionResult)
    (l : list A) (st : WorldState * list ActionResult) :
  (forall st x, R (region_manager (fst st)) -> R (region_manager (fst (f st x)))) ->
  R (region_manager (fst st)) -> R (region_manager (fst (fold_left f l st))).
Proof.
  intros Hf. revert st. induction l as [|x l IH]; intros st Hst; [exact Hst|].
  simpl. apply IH, Hf, Hst.
Qed.

Lemma kept_exec (e : Event) (s : ServerState) :
  R (region_manager (world s)) -> R (region_manager (world (exec e s))).
Proof.
  intros Hw.
  destruct e as [tok nw pk sg nc ch pn nm|queue|now t how|k cause tk
                |tk from to ores oamt rres ramt|oid k tk]; simpl.
  - unfold Gateway.register_agent.
    destruct (negb (Gateway.verify_pow ch pn)); [exact Hw|].
    destruct (negb (Gateway.verify_signed_nonce pk nc sg)); [exact Hw|].
    destruct (get_agent (world s) (Gateway.generate_agent_id pk)); [exact Hw|].
    destruct (Regions.get_spawn_region (region_manager (world s))); [|exact Hw].
    simpl. apply R_add, Hw.
  - unfold _process_tick. cbn [advance_tick].
    apply kept_fold; [intros; now apply kept_tick_effects|].
    apply kept_fold; [intros; now apply kept_resolve_action|]. exact Hw.
  - pose proof (validate_world now t (lifecycle s)) as Hsame.
    destruct how; unfold present, Lifecycle.get_verification_phrase,
      Lifecycle.claim_agent;
      destruct (Lifecycle.validate_claim_token now t (lifecycle s))
        as [[e|[k a]] m'];
      simpl in *; rewrite ?Hsame; exact Hw.
  - unfold Lifecycle.kill_agent. simpl.
    destruct (get_agent (world s) k) as [a|]; [|exact Hw].
    destruct (negb (is_alive a)); [exact Hw|]. simpl.
    apply (kept_remove_agent (modify_agent k (mark_dead tk) (world s))), Hw.
  - exact Hw.
  - destruct (Trade.accept_success
                (fst (Trade.accept_offer oid k tk (trade_manager s)))) eqn:Hok.
    + apply accept_offer_success in Hok.
      destruct Hok as (offer & from & to & ort & rrt & Hacc).
      rewrite (accept_offer_executes _ _ _ _ _ _ _ _ _ Hacc). exact Hw.
    + rewrite (accept_offer_failure oid k tk (trade_manager s) Hok). exact Hw.
Qed.

Lemma kept_run (trace : list Event) (s : ServerState) :
  R (region_manager (world s)) -> R (region_manager (world (run trace s))).
Proof.
  revert s. induction trace as [|e rest IH]; intros s Hs; [exact Hs|].
  simpl. apply IH, kept_exec, Hs.
Qed.
End RegionsKept.

(** X22. The map of the world never changes: after any history of the
    server the regions are the five default ones with their coordinates,
    multipliers, danger levels and capacities as configured; only the
    occupant lists differ, and every occupant list is free of repeats and
    no longer than the region's capacity. *)
Theorem regions_stay_in_order `{Platform} (trace : list Event) (rid : string) :
  let m := region_manager (world (run trace initial_server)) in
  option_map Journal.frame (Regions.get m rid)
  = option_map Journal.frame
      (Regions.get (Regions.initialize_defaults PyDict.empty) rid)
  /\ forall r, Regions.get m rid = Some r ->
               List.NoDup (Regions.current_agents r)
               /\ (Z.of_nat (length (Regions.current_agents r))
                   <= Regions.capacity r)%Z.
Proof.
  apply (kept_run Journal.regions_ok regions_ok_add regions_ok_remove trace
           initial_server regions_ok_defaults).
Qed.

(** * The kernel on Python's values: lemmas *)

(** ** Floats compared with zero *)

Import Py.
Import Py.Resources Py.State Py.Rules Py.Engine.
Import Json(JNull, JBool, JInt, JFloat, JStr, JList, JDict).
Import PySpec.
Local Open Scope Z_scope.

Lemma positive_not_le_zero (x : Float.t) :
  Float.ltb Float.zero x = true -> Float.leb x Float.zero = false.
Proof. destruct x as [[]|[]| |[] m e]; cbn; congruence. Qed.

(** [max(0, x)] is [<= 0] exactly when it is the zero that [max] returned. *)
Lemma max0_le_zero (x : Float.t) :
  Float.leb (Float.max0 x) Float.zero = negb (Float.ltb Float.zero x).
Proof.
  unfold Float.max0. destruct (Float.ltb Float.zero x) eqn:E.
  - now rewrite positive_not_le_zero.
  - reflexivity.
Qed.

Lemma max0_zero_iff (x : Float.t) :
  Float.leb (Float.max0 x) Float.zero = true <-> Float.max0 x = Float.zero.
Proof.
  rewrite max0_le_zero. unfold Float.max0.
  destruct (Float.ltb Float.zero x) eqn:E; cbn [negb].
  - split; [discriminate|]. intros ->. cbn in E. discriminate.
  - split; reflexivity.
Qed.

(** ** Dicts with hashable keys *)

Lemma kget_set_self {V : Type} (k : Json.t) (v v0 : V) (d : KDict.t V) :
  KDict.get k d = Some v0 -> KDict.get k (KDict.set k v d) = Some v.
Proof.
  induction d as [|[k' v'] rest IH]; cbn [KDict.get KDict.set]; [discriminate|].
  destruct (Json.same k' k) eqn:E; cbn [KDict.get]; rewrite E; auto.
Qed.

Lemma kget_update_self {V : Type} (k : Json.t) (f : V -> V) (d : KDict.t V) :
  KDict.get k (KDict.update k f d) = option_map f (KDict.get k d).
Proof.
  unfold KDict.update. destruct (KDict.get k d) as [v|] eqn:E; cbn [option_map].
  - now apply (kget_set_self k (f v) v).
  - exact E.
Qed.

Lemma kkeys_set_found {V : Type} (k : Json.t) (v v0 : V) (d : KDict.t V) :
  KDict.get k d = Some v0 -> KDict.keys (KDict.set k v d) = KDict.keys d.
Proof.
  unfold KDict.keys.
  induction d as [|[k' v'] rest IH]; cbn [KDict.get KDict.set map fst];
    [discriminate|].
  destruct (Json.same k' k); cbn [map fst]; [reflexivity|].
  intros Hget. now rewrite IH.
Qed.

Lemma kkeys_update {V : Type} (k : Json.t) (f : V -> V) (d : KDict.t V) :
  KDict.keys (KDict.update k f d) = KDict.keys d.
Proof.
  unfold KDict.update. destruct (KDict.get k d) as [v|] eqn:E; [|reflexivity].
  now apply (kkeys_set_found k (f v) v).
Qed.

(** Writing under [k0] leaves alone what is stored under a key that no key
    of the dict confuses with [k0]. *)
Lemma kget_set_apart {V : Type} (k k0 : Json.t) (v : V) (d : KDict.t V) :
  (forall k', In k' (KDict.keys d) -> Json.same k' k0 = true ->
              Json.same k' k = false) ->
  Json.same k0 k = false ->
  KDict.get k (KDict.set k0 v d) = KDict.get k d.
Proof.
  intros Hapart Hnew.
  induction d as [|[k' v'] rest IH]; cbn [KDict.get KDict.set].
  - now rewrite Hnew.
  - destruct (Json.same k' k0) eqn:E0; cbn [KDict.get].
    + rewrite (Hapart k') by (now left || exact E0). reflexivity.
    + destruct (Json.same k' k); [reflexivity|].
      apply IH. intros k'' Hin. apply Hapart. now right.
Qed.

Lemma kget_update_apart {V : Type} (k k0 : Json.t) (f : V -> V) (d : KDict.t V) :
  (forall k', In k' (KDict.keys d) -> Json.same k' k0 = true ->
              Json.same k' k = false) ->
  KDict.get k (KDict.update k0 f d) = KDict.get k d.
Proof.
  intros Hapart. unfold KDict.update.
  destruct (KDict.get k0 d) as [v|] eqn:E; [|reflexivity].
  revert E. induction d as [|[k' v'] rest IH]; cbn [KDict.get KDict.set];
    [discriminate|].
  destruct (Json.same k' k0) eqn:E0; cbn [KDict.get].
  - intros _. rewrite (Hapart k') by (now left || exact E0). reflexivity.
  - intros Hget. destruct (Json.same k' k); [reflexivity|].
    apply IH; [|exact Hget]. intros k'' Hin. apply Hapart. now right.
Qed.

Lemma kget_entry {V : Type} (k : Json.t) (v : V) (d : KDict.t V) :
  distinct (KDict.keys d) -> In (k, v) d -> KDict.get k d = Some v.
Proof.
  intros [Hnd Hsame] Hin.
  induction d as [|[k' v'] rest IH]; [destruct Hin|].
  cbn [KDict.get]. cbn [KDict.keys map fst] in Hnd, Hsame.
  inversion Hnd as [|? ? Hnotin Hnd']; subst.
  destruct Hin as [[= -> ->]|Hin].
  - assert (E : Json.same k k = true) by (apply Hsame; [now left..|reflexivity]).
    now rewrite E.
  - assert (Hk : In k (map fst rest)).
    { change k with (fst (k, v)). now apply in_map. }
    destruct (Json.same k' k) eqn:E.
    + apply Hsame in E; [|now left|now right]. subst k'. contradiction.
    + apply IH; [exact Hnd'| |exact Hin].
      intros k1 k2 H1 H2. apply Hsame; now right.
Qed.

(** ** World state accessors *)

Lemma stored_modify_self (w : WorldState) (k : Json.t)
    (f : AgentState -> AgentState) :
  get_agent (modify_agent k f w) k = option_map f (get_agent w k).
Proof. unfold get_agent, modify_agent. cbn. apply kget_update_self. Qed.

Lemma stored_modify_apart (w : WorldState) (k k0 : Json.t)
    (f : AgentState -> AgentState) :
  (forall k', In k' (KDict.keys (agents w)) -> Json.same k' k0 = true ->
              Json.same k' k = false) ->
  get_agent (modify_agent k0 f w) k = get_agent w k.
Proof. intros Hapart. unfold get_agent, modify_agent. cbn. now apply kget_update_apart. Qed.

Lemma keys_modify_stored (w : WorldState) (k : Json.t)
    (f : AgentState -> AgentState) :
  KDict.keys (agents (modify_agent k f w)) = KDict.keys (agents w).
Proof. unfold modify_agent. cbn. apply kkeys_update. Qed.

Lemma agents_drop_occupant (w : WorldState) (k : Json.t) :
  agents (remove_agent w k) = agents w.
Proof. unfold remove_agent. now destruct (KDict.get k (agents w)). Qed.

Lemma get_agent_drop_occupant (w : WorldState) (k k' : Json.t) :
  get_agent (remove_agent w k) k' = get_agent w k'.
Proof. unfold get_agent. now rewrite agents_drop_occupant. Qed.

Lemma tick_drop_occupant (w : WorldState) (k : Json.t) :
  tick (remove_agent w k) = tick w.
Proof. unfold remove_agent. now destruct (KDict.get k (agents w)). Qed.

(** ** Equality of keys *)

Lemma float_eqb_refl (x : Float.t) : Float.is_nan x = false -> Float.eqb x x = true.
Proof.
  destruct x as [[]|[]| |[] m e]; cbn; try reflexivity; try discriminate; intros _;
    unfold Float.eqb, SpecFloat.SFeqb, SpecFloat.SFcompare;
    rewrite Z.compare_refl;
    change (Pos.compare_cont Eq m m) with (Pos.compare m m);
    now rewrite Pos.compare_refl.
Qed.

(** A value that can be hashed is found under itself. *)
Lemma same_refl (v : Json.t) : Json.hashable v = true -> Json.same v v = true.
Proof.
  destruct v as [|b|z|x|s|l|d]; cbn; try reflexivity; try discriminate; intros _.
  - apply Z.eqb_refl.
  - apply Z.eqb_refl.
  - destruct (Float.is_nan x) eqn:E; [reflexivity|]. now apply float_eqb_refl.
  - apply String.eqb_refl.
Qed.

(** Only the same string is equal to a string. *)
Lemma same_str_left (a : string) (v : Json.t) :
  Json.same (JStr a) v = true -> v = JStr a.
Proof.
  destruct v as [|b|z|x|s|l|d]; cbn; try discriminate.
  intros E. apply String.eqb_eq in E. now subst.
Qed.

Lemma same_str_right (a : string) (v : Json.t) :
  Json.same v (JStr a) = true -> v = JStr a.
Proof.
  destruct v as [|b|z|x|s|l|d]; cbn; try discriminate.
  intros E. apply String.eqb_eq in E. now subst.
Qed.

Lemma kget_set_same {V : Type} (k : Json.t) (v : V) (d : KDict.t V) :
  Json.same k k = true -> KDict.get k (KDict.set k v d) = Some v.
Proof.
  intros Hrefl. induction d as [|[k' v'] rest IH]; cbn [KDict.get KDict.set].
  - now rewrite Hrefl.
  - destruct (Json.same k' k) eqn:E; cbn [KDict.get]; rewrite E; auto.
Qed.

(** ** Regeneration and danger (the per-agent loop of [_process_tick]) *)

Lemma regenerated_energy (p : ResourcePool) (m : Float.t) :
  energy (holdings (regenerate p m))
  = Float.min (Float.add (energy (holdings p)) (Float.mul (Float.of_Z 2) m))
              (energy (caps p)).
Proof. reflexivity. Qed.

Lemma apply_danger_drains (rm : Py.Regions.RegionManager) (k : Json.t)
    (p : ResourcePool) (rid : string) (tick : Z) (region : Py.Regions.Region) :
  Py.Regions.get rm rid = Some region ->
  Float.leb (Py.Regions.danger_level region) Float.zero = false ->
  let e' :=
    Float.max0 (Float.sub (energy (holdings p))
                          (Float.mul (Py.Regions.danger_level region) (Float.of_Z 5))) in
  apply_danger rm k p rid tick
  = (if Float.leb e' Float.zero
     then Some (death_of k rid (Py.Regions.danger_level region) tick)
     else None,
     with_holdings p (aset (holdings p) ENERGY e')).
Proof.
  intros Hget Hpos e'. unfold apply_danger. rewrite Hget, Hpos.
  cbn [aget aset holdings with_holdings energy]. fold e'.
  destruct (Float.leb e' Float.zero); reflexivity.
Qed.

Lemma same_physics_again (m : Py.Regions.RegionManager) : same_physics m m.
Proof. intros rid. reflexivity. Qed.

Lemma same_physics_chain (m1 m2 m3 : Py.Regions.RegionManager) :
  same_physics m1 m2 -> same_physics m2 m3 -> same_physics m1 m3.
Proof. intros H12 H23 rid. now rewrite H12. Qed.

Lemma region_remove_same_physics (rid : string) (k : Json.t)
    (m : Py.Regions.RegionManager) :
  same_physics m (region_remove rid k m).
Proof.
  intros rid'. unfold region_remove, Py.Regions.get.
  destruct (String.eqb_spec rid rid') as [->|Hne].
  - rewrite get_update_eq. destruct (PyDict.get rid' m) as [r|]; [|reflexivity].
    cbn [option_map]. unfold Py.Regions.remove_agent.
    destruct (negb (Json.contains k (Py.Regions.current_agents r))); reflexivity.
  - now rewrite get_update_ne.
Qed.

Lemma drop_occupant_same_physics (w : WorldState) (k : Json.t) :
  same_physics (region_manager w) (region_manager (remove_agent w k)).
Proof.
  unfold remove_agent. destruct (KDict.get k (agents w)).
  - apply region_remove_same_physics.
  - apply same_physics_again.
Qed.

Section PerAgentLoop.
Context `{Libm}.

Lemma tick_effects_keys (tick : Z) (st : WorldState * list ActionResult)
    (k : Json.t) :
  KDict.keys (agents (fst (tick_effects tick st k))) = KDict.keys (agents (fst st)).
Proof.
  destruct st as [w results]. unfold tick_effects.
  destruct (get_agent w k) as [a|]; [|reflexivity].
  destruct (negb (is_alive a)); [reflexivity|].
  destruct (apply_danger _ _ _ _ _) as [[d|] pool]; cbn [fst].
  - now rewrite agents_drop_occupant, !keys_modify_stored.
  - now rewrite keys_modify_stored.
Qed.

Lemma tick_effects_apart (tick : Z) (w : WorldState)
    (results : list ActionResult) (k0 k : Json.t) :
  (forall k', In k' (KDict.keys (agents w)) -> Json.same k' k0 = true ->
              Json.same k' k = false) ->
  get_agent (fst (tick_effects tick (w, results) k0)) k = get_agent w k.
Proof.
  intros Hapart. unfold tick_effects.
  destruct (get_agent w k0) as [a|]; [|reflexivity].
  destruct (negb (is_alive a)); [reflexivity|].
  destruct (apply_danger _ _ _ _ _) as [[d|] pool]; cbn [fst].
  - rewrite get_agent_drop_occupant, !stored_modify_apart; auto.
    now rewrite keys_modify_stored.
  - now rewrite stored_modify_apart.
Qed.

Lemma tick_effects_same_physics (tick : Z) (w : WorldState)
    (results : list ActionResult) (k : Json.t) :
  same_physics (region_manager w)
               (region_manager (fst (tick_effects tick (w, results) k))).
Proof.
  unfold tick_effects.
  destruct (get_agent w k) as [a|]; [|apply same_physics_again].
  destruct (negb (is_alive a)); [apply same_physics_again|].
  destruct (apply_danger _ _ _ _ _) as [[d|] pool]; cbn [fst].
  - apply (drop_occupant_same_physics
             (modify_agent k (mark_dead tick) (modify_agent k (set_resources pool) w))).
  - apply same_physics_again.
Qed.

(** What a pass appends to [results]: nothing, or one death result, of the
    agent the pass is about. *)
Lemma tick_effects_appends (tick : Z) (w : WorldState)
    (results : list ActionResult) (k : Json.t) :
  snd (tick_effects tick (w, results) k) = results
  \/ exists d, snd (tick_effects tick (w, results) k) = (results ++ [d])%list
               /\ result_agent d = k /\ action_type d = "death".
Proof.
  unfold tick_effects.
  destruct (get_agent w k) as [a|]; [|now left].
  destruct (negb (is_alive a)); [now left|].
  unfold apply_danger.
  destruct (Py.Regions.get _ _) as [region|]; [|now left].
  destruct (Float.leb (Py.Regions.danger_level region) Float.zero); [now left|].
  set (e' := aget _ ENERGY).
  destruct (Float.leb e' Float.zero); [|now left].
  right. eexists. split; [reflexivity|]. split; reflexivity.
Qed.

(** One pass of the loop on the agent stored under [k]. *)
Lemma tick_pass_self (tick : Z) (w : WorldState)
    (results : list ActionResult) (k : Json.t) (agent : AgentState)
    (multiplier danger : Float.t) :
  get_agent w k = Some agent ->
  is_alive agent = true ->
  option_map physics (Py.Regions.get (region_manager w) (region agent))
  = Some (multiplier, danger) ->
  Float.leb danger Float.zero = false ->
  let e' := energy_after_tick agent multiplier danger in
  exists agent',
    get_agent (fst (tick_effects tick (w, results) k)) k = Some agent'
    /\ energy (holdings (resources agent')) = e'
    /\ status agent' = (if Float.leb e' Float.zero then dead else status agent)
    /\ died_at_tick agent'
       = (if Float.leb e' Float.zero then Some tick else died_at_tick agent)
    /\ snd (tick_effects tick (w, results) k)
       = (results ++ (if Float.leb e' Float.zero
                      then [death_of k (region agent) danger tick] else []))%list.
Proof.
  intros Hget Halive Hphys Hpos e'. unfold tick_effects. rewrite Hget, Halive.
  destruct (Py.Regions.get (region_manager w) (region agent)) as [rg|] eqn:Hrg;
    [|discriminate].
  injection Hphys as Hm Hd. cbn [negb]. cbv iota.
  rewrite (apply_danger_drains _ _ _ _ _ rg Hrg) by (now rewrite Hd).
  rewrite regenerated_energy, Hm, Hd.
  fold (energy_after_tick agent multiplier danger). fold e'.
  destruct (Float.leb e' Float.zero) eqn:E.
  - cbn [fst snd]. rewrite get_agent_drop_occupant, !stored_modify_self, Hget.
    eexists. split; [reflexivity|]. repeat split.
  - cbn [fst snd]. rewrite stored_modify_self, Hget, app_nil_r.
    eexists. split; [reflexivity|]. repeat split.
Qed.

(** The rest of the loop leaves alone an agent it does not come to, and
    appends only results of the agents it comes to. *)
Lemma tick_loop_apart (tick : Z) (keys : list Json.t)
    (st : WorldState * list ActionResult) (k : Json.t) :
  (forall k0, In k0 keys ->
              forall k', In k' (KDict.keys (agents (fst st))) ->
                         Json.same k' k0 = true -> Json.same k' k = false) ->
  ~ In k keys ->
  let out := fold_left (tick_effects tick) keys st in
  get_agent (fst out) k = get_agent (fst st) k
  /\ same_physics (region_manager (fst st)) (region_manager (fst out))
  /\ exists later,
       snd out = (snd st ++ later)%list
       /\ Forall (fun d => result_agent d <> k) later.
Proof.
  revert st. induction keys as [|k0 rest IH]; intros [w results] Hapart Hnotin;
    cbn [fold_left].
  - split; [reflexivity|]. split; [apply same_physics_again|].
    exists []. cbn [snd]. now rewrite app_nil_r.
  - assert (Hne : k0 <> k) by (intros ->; apply Hnotin; now left).
    assert (Hrest : ~ In k rest) by (intros Hin; apply Hnotin; now right).
    destruct (IH (tick_effects tick (w, results) k0)) as (Hg & Hp & later & Hl & Hall);
      [|exact Hrest|].
    { intros k1 Hk1 k'. rewrite tick_effects_keys. apply Hapart. now right. }
    split; [|split].
    + rewrite Hg. apply tick_effects_apart. apply Hapart. now left.
    + eapply same_physics_chain; [|exact Hp].
      apply (tick_effects_same_physics tick w results k0).
    + destruct (tick_effects_appends tick w results k0) as [Hsame|(d & Hadd & Hwho & _)].
      * exists later. split; [now rewrite Hl, Hsame | exact Hall].
      * exists (d :: later). split.
        -- rewrite Hl, Hadd, <- app_assoc. reflexivity.
        -- constructor; [now rewrite Hwho | exact Hall].
Qed.

(** The loop on a list of keys that comes to [k] once. *)
Lemma tick_loop_self (tick : Z) (allkeys : list Json.t) (k : Json.t)
    (agent : AgentState) (multiplier danger : Float.t) :
  distinct allkeys ->
  Float.leb danger Float.zero = false ->
  is_alive agent = true ->
  forall (keys : list Json.t) (w : WorldState) (results : list ActionResult),
    KDict.keys (agents w) = allkeys ->
    incl keys allkeys ->
    List.NoDup keys ->
    In k keys ->
    get_agent w k = Some agent ->
    option_map physics (Py.Regions.get (region_manager w) (region agent))
    = Some (multiplier, danger) ->
    let out := fold_left (tick_effects tick) keys (w, results) in
    let e' := energy_after_tick agent multiplier danger in
    exists agent' before after,
      get_agent (fst out) k = Some agent'
      /\ energy (holdings (resources agent')) = e'
      /\ status agent' = (if Float.leb e' Float.zero then dead else status agent)
      /\ died_at_tick agent'
         = (if Float.leb e' Float.zero then Some tick else died_at_tick agent)
      /\ snd out
         = (results ++ before
              ++ (if Float.leb e' Float.zero
                  then [death_of k (region agent) danger tick] else [])
              ++ after)%list
      /\ Forall (fun d => result_agent d <> k) before
      /\ Forall (fun d => result_agent d <> k) after.
Proof.
  intros [Hnd Hsame] Hpos Halive keys.
  induction keys as [|k0 rest IH]; intros w results Hkeys Hsub Hnodup Hkey Hget Hphys;
    [destruct Hkey|].
  inversion Hnodup as [|? ? Hnotin Hnodup']; subst. cbn [fold_left]. cbv zeta.
  assert (Hk0 : In k0 (KDict.keys (agents w))) by (apply Hsub; now left).
  assert (Hrest : incl rest (KDict.keys (agents w))).
  { intros x Hx. apply Hsub. now right. }
  assert (Hk : In k (KDict.keys (agents w))).
  { destruct Hkey as [<-|Hk]; [exact Hk0 | now apply Hrest]. }
  destruct (Json.same k0 k) eqn:E.
  - apply (Hsame k0 k Hk0 Hk) in E. subst k0.
    destruct (tick_pass_self tick w results k agent _ _ Hget Halive Hphys Hpos)
      as (agent' & Hg & He & Hst & Hdied & Hres).
    destruct (tick_loop_apart tick rest (tick_effects tick (w, results) k) k)
      as (Hsame' & _ & later & Hlater & Hall); [|exact Hnotin|].
    { intros k1 Hk1 k'. rewrite tick_effects_keys. cbn [fst].
      intros Hk' E1. apply (Hsame k' k1 Hk') in E1; [|now apply Hrest].
      subst k'. destruct (Json.same k1 k) eqn:E2; [|reflexivity].
      apply (Hsame k1 k) in E2; [|now apply Hrest|exact Hk].
      subst k1. contradiction. }
    exists agent', [], later.
    split; [now rewrite Hsame'|]. split; [exact He|]. split; [exact Hst|].
    split; [exact Hdied|]. split; [|split; [constructor | exact Hall]].
    rewrite Hlater, Hres, <- app_assoc. reflexivity.
  - destruct Hkey as [->|Hkey].
    { rewrite (proj2 (Hsame k k Hk Hk) eq_refl) in E. discriminate. }
    destruct (IH (fst (tick_effects tick (w, results) k0))
                 (snd (tick_effects tick (w, results) k0)))
      as (agent' & before & after & Hg & He & Hst & Hdied & Hres & Hb & Ha).
    + apply (tick_effects_keys tick (w, results) k0).
    + exact Hrest.
    + exact Hnodup'.
    + exact Hkey.
    + rewrite tick_effects_apart; [exact Hget|].
      intros k' Hk' E1. apply (Hsame k' k0 Hk' Hk0) in E1. now subst k'.
    + rewrite <- (tick_effects_same_physics tick w results k0). exact Hphys.
    + rewrite <- surjective_pairing in Hg, Hres.
      destruct (tick_effects_appends tick w results k0)
        as [Hsame0|(d0 & Hadd & Hwho & _)].
      * exists agent', before, after. rewrite Hsame0 in Hres. auto 10.
      * exists agent', (d0 :: before), after. rewrite Hadd, <- app_assoc in Hres.
        split; [exact Hg|]. split; [exact He|]. split; [exact Hst|].
        split; [exact Hdied|]. split; [exact Hres|]. split; [|exact Ha].
        constructor; [|exact Hb]. rewrite Hwho. intros ->.
        rewrite (proj2 (Hsame k k Hk Hk) eq_refl) in E. discriminate.
Qed.
End PerAgentLoop.

(** C7, as the code has it.  In the per-agent loop that follows action
    resolution, an agent that is alive and whose region has a danger level
    [d] that is not [<= 0] is first regenerated and then drained, in
    binary64: its energy becomes
    [max(0, min(energy + 2.0 * multiplier, cap) - d * 5.0)], where [energy]
    is its energy after action resolution.  It is marked dead, with
    [died_at_tick] the current tick, exactly when that value is [<= 0], which
    is exactly when it is the [0] that [max] returned; and exactly then the
    loop appends a result for this agent to the results of the tick: one
    ["death"] with cause ["energy_depletion"], the region and its danger
    level. *)
Theorem danger_follows_regeneration `{Libm} (tick : Z) (w : WorldState)
    (results : list ActionResult) (k : Json.t) (agent : AgentState)
    (rg : Py.Regions.Region) :
  distinct (KDict.keys (agents w)) ->
  In (k, agent) (agents w) ->
  is_alive agent = true ->
  Py.Regions.get (region_manager w) (region agent) = Some rg ->
  Float.leb (Py.Regions.danger_level rg) Float.zero = false ->
  let out := fold_left (tick_effects tick) (KDict.keys (agents w)) (w, results) in
  let e' :=
    energy_after_tick agent (Py.Regions.resource_multiplier rg)
                      (Py.Regions.danger_level rg) in
  let death := death_of k (region agent) (Py.Regions.danger_level rg) tick in
  exists agent' added,
    get_agent (fst out) k = Some agent'
    /\ energy (holdings (resources agent')) = e'
    /\ (status agent' = dead <-> Float.leb e' Float.zero = true)
    /\ (Float.leb e' Float.zero = true <-> e' = Float.zero)
    /\ (status agent' = dead -> died_at_tick agent' = Some tick)
    /\ snd out = (results ++ added)%list
    /\ (In death added <-> status agent' = dead)
    /\ (forall d, In d added -> result_agent d = k -> d = death).
Proof.
  intros Hdistinct Hin Halive Hrg Hpos out e' death. subst out.
  assert (Hget : get_agent w k = Some agent) by now apply kget_entry.
  assert (Hkey : In k (KDict.keys (agents w))).
  { change k with (fst (k, agent)). now apply in_map. }
  assert (Hphys : option_map physics (Py.Regions.get (region_manager w) (region agent))
                  = Some (Py.Regions.resource_multiplier rg, Py.Regions.danger_level rg))
    by now rewrite Hrg.
  assert (Hstatus : status agent <> dead).
  { intros Hdead. unfold is_alive in Halive. rewrite Hdead in Halive. discriminate. }
  destruct (tick_loop_self tick (KDict.keys (agents w)) k agent _ _ Hdistinct Hpos
              Halive (KDict.keys (agents w)) w results eq_refl (incl_refl _)
              (proj1 Hdistinct) Hkey Hget Hphys)
    as (agent' & before & after & Hg & He & Hst & Hdied & Hres & Hb & Ha).
  fold e' in He, Hst, Hdied, Hres. fold death in Hres.
  rewrite List.Forall_forall in Hb, Ha.
  exists agent',
    (before ++ (if Float.leb e' Float.zero then [death] else []) ++ after)%list.
  assert (Hdead : status agent' = dead <-> Float.leb e' Float.zero = true).
  { rewrite Hst. destruct (Float.leb e' Float.zero); split; try reflexivity;
      try discriminate. intros Hd. contradiction. }
  split; [exact Hg|]. split; [exact He|]. split; [exact Hdead|].
  split; [apply max0_zero_iff|]. split.
  { intros Hd. apply Hdead in Hd. now rewrite Hdied, Hd. }
  split; [exact Hres|]. split.
  - rewrite Hdead. split.
    + intros Hd. apply in_app_or in Hd. destruct Hd as [Hd|Hd].
      { now destruct (Hb _ Hd). }
      apply in_app_or in Hd. destruct Hd as [Hd|Hd].
      * destruct (Float.leb e' Float.zero); [reflexivity | destruct Hd].
      * now destruct (Ha _ Hd).
    + intros Hd. rewrite Hd. apply in_or_app. right. apply in_or_app. left. now left.
  - intros d Hd Hwho. apply in_app_or in Hd. destruct Hd as [Hd|Hd].
    { now destruct (Hb _ Hd). }
    apply in_app_or in Hd. destruct Hd as [Hd|Hd].
    + destruct (Float.leb e' Float.zero); [|destruct Hd].
      destruct Hd as [<-|[]]. reflexivity.
    + now destruct (Ha _ Hd).
Qed.

(** ** Attack ([_resolve_attack] and the attack branch of
    [_apply_side_effects]) *)

Lemma deduct_accepts (p p' : ResourcePool) (costs : Costs) :
  deduct p costs = (true, p') ->
  can_afford p costs = true
  /\ p' = with_holdings p (subtract_all (holdings p) costs).
Proof.
  unfold deduct. destruct (can_afford p costs); cbn [negb]; [|discriminate].
  intros [= <-]. split; reflexivity.
Qed.

Lemma validate_and_resolve_is_attack `{Libm} aid pool reg params tick all rm :
  validate_and_resolve "attack" aid pool reg params tick all rm
  = _resolve_attack aid pool reg params tick (ACTION_COSTS "attack") all rm.
Proof. reflexivity. Qed.

(** A successful resolution of an attack: what was checked, what was
    debited and what the result records. *)
Lemma resolve_attack_returns `{Libm} aid pool reg params tick all rm result :
  let r := _resolve_attack aid pool reg params tick (ACTION_COSTS "attack") all rm in
  outcome r = Returned result ->
  success result = true ->
  exists entries summary,
    params = JDict entries
    /\ Json.truthy (field entries "target_agent") = true
    /\ Json.hashable (field entries "target_agent") = true
    /\ KDict.get (field entries "target_agent") all = Some summary
    /\ summary_region summary = reg
    /\ deduct pool (ACTION_COSTS "attack") = (true, pool_after r)
    /\ regions_after r = rm
    /\ result
       = succeeded "attack" (JStr aid)
           (AttackDetails (field entries "target_agent")
              (Float.add (compute (holdings (pool_after r)))
                         (energy (holdings (pool_after r))))
              (match Py.Regions.get rm reg with
               | Some region => Py.Regions.danger_level region
               | None => Float.zero
               end))
           tick.
Proof.
  unfold _resolve_attack. destruct params as [| | | | | |entries];
    try (cbn; discriminate).
  destruct (Json.truthy (field entries "target_agent")) eqn:Htruthy; cbn [negb];
    [|cbn; intros [= <-]; discriminate].
  destruct (Json.hashable (field entries "target_agent")) eqn:Hhash; cbn [negb];
    [|cbn; discriminate].
  destruct (KDict.get (field entries "target_agent") all) as [summary|] eqn:Hget;
    [|cbn; intros [= <-]; discriminate].
  destruct (String.eqb_spec (summary_region summary) reg) as [Hreg|Hreg];
    cbn [negb]; [|cbn; intros [= <-]; discriminate].
  destruct (deduct pool (ACTION_COSTS "attack")) as [[] pool'] eqn:D; cbn [negb];
    [|cbn; intros [= <-]; discriminate].
  cbn [outcome pool_after regions_after]. intros [= <-] _.
  exists entries, summary. repeat split; auto.
Qed.

(** The attack branch of [_apply_side_effects] on a target that is stored
    in the world. *)
Lemma attack_side_effect (r : ActionResult) (aid : string) (target_id : Json.t)
    (strength danger : Float.t) (w : WorldState) (attacker target : AgentState) :
  action_type r = "attack" ->
  details r = AttackDetails target_id strength danger ->
  Json.hashable target_id = true ->
  get_agent w (JStr aid) = Some attacker ->
  get_agent w target_id = Some target ->
  let e' := energy_after_attack target strength in
  let w' := fst (_apply_side_effects r aid w) in
  snd (_apply_side_effects r aid w) = None
  /\ get_agent w' target_id
     = Some (if Float.leb e' Float.zero
             then mark_dead (result_tick r)
                    (set_holdings (aset (holdings (resources target)) ENERGY e') target)
             else set_holdings (aset (holdings (resources target)) ENERGY e') target)
  /\ region_manager w'
     = (if Float.leb e' Float.zero
        then region_remove (region target) target_id (region_manager w)
        else region_manager w).
Proof.
  intros Hkind Hdetails Hhash Hattacker Htarget e' w'. subst w'.
  unfold _apply_side_effects. rewrite Hattacker, Hkind, Hdetails.
  cbn [String.eqb Ascii.eqb Bool.eqb]. cbv iota. rewrite Hhash. cbn [negb].
  rewrite Htarget.
  change (Float.max0 (Float.sub (aget (holdings (resources target)) ENERGY)
                                (Float.mul strength (Float.dec 3 1)))) with e'.
  destruct (Float.leb e' Float.zero) eqn:E; cbn [fst snd].
  - split; [reflexivity|]. split.
    + rewrite get_agent_drop_occupant, !stored_modify_self, Htarget. reflexivity.
    + unfold remove_agent. fold (get_agent
        (modify_agent target_id (mark_dead (result_tick r))
           (modify_agent target_id
              (fun t => set_holdings (aset (holdings (resources t)) ENERGY e') t) w))
        target_id).
      rewrite !stored_modify_self, Htarget. reflexivity.
  - split; [reflexivity|]. split; [|reflexivity].
    now rewrite stored_modify_self, Htarget.
Qed.

(** C1, as the code has it.  When an attack resolves successfully, [params]
    is a dict whose [target_agent] is a key of the agent view, in the
    attacker's region, and the attack cost (15 energy, 10 compute) has been
    debited from the attacker; the strength recorded in the result is the
    attacker's compute plus its energy as that debit leaves them.  The engine
    then looks the recorded target up in the world and sets its energy to
    [max(0, energy - strength * 0.3)], each operation in binary64.  The
    attack marks the target dead, stamps [died_at_tick] with the tick and
    takes the target off the occupant list of its region exactly when that
    energy is [<= 0], that is when it is the [0] that [max] returned;
    otherwise it leaves the status and the regions as they were. *)
Theorem attack_damage `{Libm} (aid : string) (pool : ResourcePool)
    (reg : string) (params : Json.t) (tick : Z)
    (all_agents : KDict.t AgentSummary) (rm : Py.Regions.RegionManager)
    (result : ActionResult) :
  let r := validate_and_resolve "attack" aid pool reg params tick all_agents rm in
  outcome r = Returned result ->
  success result = true ->
  exists entries summary danger,
    let target_id := field entries "target_agent" in
    let strength :=
      Float.add (compute (holdings (pool_after r))) (energy (holdings (pool_after r))) in
    params = JDict entries
    /\ Json.truthy target_id = true
    /\ KDict.get target_id all_agents = Some summary
    /\ summary_region summary = reg
    /\ Float.ltb (energy (holdings pool)) (Float.of_Z 15) = false
    /\ Float.ltb (compute (holdings pool)) (Float.of_Z 10) = false
    /\ energy (holdings (pool_after r)) = Float.sub (energy (holdings pool)) (Float.of_Z 15)
    /\ compute (holdings (pool_after r)) = Float.sub (compute (holdings pool)) (Float.of_Z 10)
    /\ result = succeeded "attack" (JStr aid) (AttackDetails target_id strength danger) tick
    /\ forall (w : WorldState) (attacker target : AgentState),
         get_agent w (JStr aid) = Some attacker ->
         get_agent w target_id = Some target ->
         let e' := energy_after_attack target strength in
         let w' := fst (_apply_side_effects result aid w) in
         exists target',
           snd (_apply_side_effects result aid w) = None
           /\ get_agent w' target_id = Some target'
           /\ energy (holdings (resources target')) = e'
           /\ (Float.leb e' Float.zero = true <-> e' = Float.zero)
           /\ status target' = (if Float.leb e' Float.zero then dead else status target)
           /\ died_at_tick target'
              = (if Float.leb e' Float.zero then Some tick else died_at_tick target)
           /\ region_manager w'
              = (if Float.leb e' Float.zero
                 then region_remove (region target) target_id (region_manager w)
                 else region_manager w).
Proof.
  rewrite validate_and_resolve_is_attack. intros r Hout Hok.
  destruct (resolve_attack_returns _ _ _ _ _ _ _ _ Hout Hok)
    as (entries & summary & Hparams & Htruthy & Hhash & Hget & Hreg & D & _ & Hr).
  fold r in D, Hr.
  exists entries, summary,
    (match Py.Regions.get rm reg with
     | Some region => Py.Regions.danger_level region
     | None => Float.zero
     end).
  cbv zeta. apply deduct_accepts in D. destruct D as [Hafford Hpool].
  split; [exact Hparams|]. split; [exact Htruthy|]. split; [exact Hget|].
  split; [exact Hreg|].
  assert (Hcover : Float.ltb (energy (holdings pool)) (Float.of_Z 15) = false
                   /\ Float.ltb (compute (holdings pool)) (Float.of_Z 10) = false).
  { unfold can_afford in Hafford. cbn [ACTION_COSTS String.eqb Ascii.eqb Bool.eqb
      can_afford_holdings aget] in Hafford.
    destruct (Float.ltb (energy (holdings pool)) (Float.of_Z 15)); [discriminate|].
    destruct (Float.ltb (compute (holdings pool)) (Float.of_Z 10)); [discriminate|].
    split; reflexivity. }
  split; [apply Hcover|]. split; [apply Hcover|].
  split; [now rewrite Hpool|]. split; [now rewrite Hpool|].
  split; [exact Hr|].
  intros w attacker target Hattacker Htarget.
  destruct (attack_side_effect result aid (field entries "target_agent")
              (Float.add (compute (holdings (pool_after r)))
                         (energy (holdings (pool_after r))))
              (match Py.Regions.get rm reg with
               | Some region => Py.Regions.danger_level region
               | None => Float.zero
               end) w attacker target)
    as (Hnone & Hstored & Hregions); try assumption; try (now rewrite Hr).
  eexists. split; [exact Hnone|]. split; [exact Hstored|].
  rewrite Hr in Hregions |- *. cbn [result_tick succeeded] in *.
  set (e' := energy_after_attack target _) in *.
  split; [now destruct (Float.leb e' Float.zero)|].
  split; [apply max0_zero_iff|].
  split; [now destruct (Float.leb e' Float.zero)|].
  split; [now destruct (Float.leb e' Float.zero)|].
  exact Hregions.
Qed.

(** ** Fork ([_resolve_fork], the fork branch of [_apply_side_effects] and
    [WorldState.add_agent]) *)

Lemma validate_and_resolve_is_fork `{Libm} aid pool reg params tick all rm :
  validate_and_resolve "fork" aid pool reg params tick all rm
  = _resolve_fork aid pool reg params tick (ACTION_COSTS "fork") all rm.
Proof. reflexivity. Qed.

Lemma fork_split_halves (p c : Amounts) :
  fold_left fork_split all_resource_types (p, c) = (halves p, halves p).
Proof. reflexivity. Qed.

Lemma fork_side_effect (r : ActionResult) (aid : string) (child_id : Json.t)
    (parent_id spawn : string) (w : WorldState) (agent : AgentState) :
  action_type r = "fork" ->
  details r = ForkDetails child_id parent_id spawn ->
  get_agent w (JStr aid) = Some agent ->
  let half := halves (holdings (resources agent)) in
  let w1 := modify_agent (JStr aid) (set_holdings half) w in
  _apply_side_effects r aid w
  = match add_agent w1 (fork_child r child_id agent half) with
    | Returned w2 => (w2, None)
    | Raised e => (w1, Some e)
    end.
Proof.
  intros Hkind Hdetails Hagent half w1.
  unfold _apply_side_effects. rewrite Hagent, Hkind, Hdetails.
  cbn [String.eqb Ascii.eqb Bool.eqb]. cbv iota.
  rewrite fork_split_halves. reflexivity.
Qed.

Lemma deduct_afforded (p : ResourcePool) (costs : Costs) :
  can_afford p costs = true ->
  deduct p costs = (true, with_holdings p (subtract_all (holdings p) costs)).
Proof. intros Hc. unfold deduct. now rewrite Hc. Qed.

Lemma occupants_region_add (w : WorldState) (m : Py.Regions.RegionManager)
    (rid : string) (k : Json.t) :
  region_manager w = region_add rid k m ->
  occupants w rid = listed_after_add m rid k.
Proof.
  intros Hrm. unfold occupants. rewrite Hrm.
  unfold listed_after_add, region_add, Py.Regions.get.
  rewrite get_update_eq. destruct (PyDict.get rid m) as [r|]; [|reflexivity].
  cbn [option_map]. unfold Py.Regions.add_agent.
  destruct (Py.Regions.is_full r || Json.contains k (Py.Regions.current_agents r));
    reflexivity.
Qed.

(** X24. What a fork does.  When the fork of a claimed agent that covers
    the fork cost (40 energy, 50 memory, 30 compute) is resolved with a dict
    as [params], the result records the [child_name] of the request, or
    [<id>_fork_<tick>] when the request has none.  Let [h] be the parent's
    holdings as the debit leaves them.  The engine halves every holding of
    the parent ([h / 2] in binary64) and then stores the child under
    [child_name]:
    - when [child_name] can be hashed, the world holds the child under it
      and an agent under the parent's key, each with the halves; the child
      has the default caps, the parent's region, public key, status and
      owner identity, [child_name] as id and display name, the tick as
      [created_at_tick], no alliances, and the parent's id as
      [parent_agent]; it is appended to the occupants of the parent's region
      unless that region is full or lists it already, in which case the
      occupants stay as they were;
    - when [child_name] is a list or a dict, storing raises [TypeError]: the
      parent stays halved, no agent is added and no region changes. *)
Theorem fork_halves `{Libm} (all_agents : KDict.t AgentSummary) (tick : Z)
    (w : WorldState) (results : list ActionResult) (action : QueuedAction)
    (parent : AgentState) (entries : list (string * Json.t)) :
  qa_action_type action = "fork" ->
  qa_params action = JDict entries ->
  get_agent w (JStr (qa_agent_id action)) = Some parent ->
  status parent = claimed ->
  can_afford (resources parent) (ACTION_COSTS "fork") = true ->
  let aid := qa_agent_id action in
  let h := subtract_all (holdings (resources parent)) (ACTION_COSTS "fork") in
  let child_id :=
    field_or entries "child_name" (JStr (aid ++ "_fork_" ++ Rules.tick_string tick)) in
  let out := resolve_action all_agents tick (w, results) action in
  let w' := fst (fst out) in
  energy h = Float.sub (energy (holdings (resources parent))) (Float.of_Z 40)
  /\ bandwidth h = bandwidth (holdings (resources parent))
  /\ memory h = Float.sub (memory (holdings (resources parent))) (Float.of_Z 50)
  /\ compute h = Float.sub (compute (holdings (resources parent))) (Float.of_Z 30)
  /\ snd (fst out)
     = (results ++ [succeeded "fork" (JStr aid)
                      (ForkDetails child_id aid (region parent)) tick])%list
  /\ (Json.hashable child_id = false ->
      snd out = Some TypeError
      /\ option_map (fun a => holdings (resources a)) (get_agent w' (JStr aid))
         = Some (halves h)
      /\ KDict.keys (agents w') = KDict.keys (agents w)
      /\ region_manager w' = region_manager w)
  /\ (Json.hashable child_id = true ->
      snd out = None
      /\ exists child parent',
           get_agent w' child_id = Some child
           /\ get_agent w' (JStr aid) = Some parent'
           /\ holdings (resources child) = halves h
           /\ holdings (resources parent') = halves h
           /\ caps (resources child) = caps create_default
           /\ region child = region parent
           /\ public_key child = public_key parent
           /\ status child = status parent
           /\ owner_identity child = owner_identity parent
           /\ parent_agent child = Some (agent_id parent)
           /\ agent_id child = child_id
           /\ display_name child = child_id
           /\ created_at_tick child = tick
           /\ alliances child = []
           /\ occupants w' (region parent)
              = listed_after_add (region_manager w) (region parent) child_id).
Proof.
  intros Hkind Hparams Hparent Hclaimed Hafford aid h child_id out w'.
  split; [reflexivity|]. split; [reflexivity|]. split; [reflexivity|].
  split; [reflexivity|].
  subst w' out. unfold resolve_action. fold aid. fold aid in Hparent.
  rewrite Hparent. unfold is_alive. rewrite Hclaimed, Hkind, Hparams.
  cbn [negb status_eqb andb]. cbv iota.
  rewrite validate_and_resolve_is_fork. unfold _resolve_fork.
  rewrite (deduct_afforded _ _ Hafford). fold h.
  cbn [negb outcome success pool_after regions_after succeeded]. fold child_id.
  set (pool' := with_holdings (resources parent) h).
  set (w1 := with_regions (modify_agent (JStr aid) (set_resources pool') w)
                          (region_manager w)).
  assert (Hw1 : get_agent w1 (JStr aid) = Some (set_resources pool' parent)).
  { subst w1. unfold with_regions, get_agent. cbn [agents].
    fold (get_agent (modify_agent (JStr aid) (set_resources pool') w) (JStr aid)).
    now rewrite stored_modify_self, Hparent. }
  set (r := succeeded "fork" (JStr aid)
              (ForkDetails child_id aid (region parent)) tick).
  rewrite (fork_side_effect r aid child_id aid (region parent) w1 _
             eq_refl eq_refl Hw1).
  cbn [set_resources resources with_holdings holdings pool'].
  set (child := fork_child r child_id (set_resources pool' parent) (halves h)).
  set (w2 := modify_agent (JStr aid) (set_holdings (halves h)) w1).
  assert (Hw2 : get_agent w2 (JStr aid)
                = Some (set_holdings (halves h) (set_resources pool' parent))).
  { subst w2. now rewrite stored_modify_self, Hw1. }
  unfold add_agent. change (agent_id child) with child_id.
  destruct (Json.hashable child_id) eqn:Hhash; cbn [negb fst snd];
    (split; [reflexivity|]); split; try discriminate; intros _.
  - split; [reflexivity|].
    set (w3 := mkWorld _ _ _ _).
    assert (Hchild : get_agent w3 child_id = Some child).
    { subst w3. unfold get_agent. cbn [agents].
      apply kget_set_same. now apply same_refl. }
    assert (Hocc : occupants w3 (region parent)
                   = listed_after_add (region_manager w) (region parent) child_id)
      by (apply occupants_region_add; reflexivity).
    exists child.
    destruct (Json.same child_id (JStr aid)) eqn:Hsame.
    + apply same_str_right in Hsame. exists child.
      split; [exact Hchild|]. split; [now rewrite <- Hsame|].
      repeat split; auto.
    + exists (set_holdings (halves h) (set_resources pool' parent)).
      split; [exact Hchild|]. split; [|repeat split; auto].
      subst w3. unfold get_agent. cbn [agents].
      rewrite kget_set_apart; [exact Hw2| |exact Hsame].
      intros k' _ E1. destruct (Json.same k' (JStr aid)) eqn:E2; [|reflexivity].
      apply same_str_right in E2. subst k'.
      apply same_str_left in E1. rewrite E1 in Hsame. cbn [Json.same] in Hsame.
      rewrite String.eqb_refl in Hsame. discriminate.
  - split; [reflexivity|]. split; [now rewrite Hw2|].
    split; [|reflexivity].
    subst w2 w1. rewrite keys_modify_stored. unfold with_regions. cbn [agents].
    apply keys_modify_stored.
Qed.

(** ** Trade acceptance ([TradeManager.accept_offer]) *)

Import Py.Trade.

Lemma alive_agent_found (w : WorldState) (k : Json.t) (a : AgentState) :
  alive_agent w k = Some a -> get_agent w k = Some a /\ is_alive a = true.
Proof.
  unfold alive_agent. destruct (get_agent w k) as [a0|]; [|discriminate].
  destruct (is_alive a0) eqn:E; [|discriminate]. intros [= <-]. now split.
Qed.

Lemma find_offer_found (oid : Json.t) (m : TradeManager) (key : string)
    (offer : TradeOffer) :
  find_offer oid m = Returned (Some (key, offer)) ->
  oid = JStr key /\ _offers m !! key = Some offer.
Proof.
  unfold find_offer. destruct (negb (Json.hashable oid)); [discriminate|].
  destruct oid as [|b|z|x|s|l|d]; try discriminate.
  destruct (_offers m !! s) as [o|] eqn:E; cbn [option_map]; [|discriminate].
  intros [= <- <-]. now split.
Qed.

(** *** The four assignments *)





(** A comparison that returned has seen a number, and converting a number
    can only overflow. *)
Lemma operand_after_lt (x : Float.t) (v : Json.t) (b : bool) :
  Mixed.lt x v = Returned b ->
  (exists a, Mixed.operand v = Returned a) \/ Mixed.operand v = Raised OverflowError.
Proof.
  unfold Mixed.lt, Mixed.operand.
  destruct (Json.number v) as [[z|y]|]; [| |discriminate]; intros _.
  - unfold Float.of_int. destruct (Float.is_infinite (Float.of_Z z)); eauto.
  - eauto.
Qed.


(** The trade that breaks off: it stopped before the first assignment, or
    on the conversion of the requested amount, with the offered amount
    moved. *)
Lemma execute_trade_breaks_off (from to : Json.t) (offer : TradeOffer)
    (o r : ResourceType) (w w' : WorldState) (e : PyError) :
  execute_trade from to offer o r w = (w', Some e) ->
  (w' = w /\ Mixed.operand (offer_amount offer) = Raised e)
  \/ (exists a,
        Mixed.operand (offer_amount offer) = Returned a
        /\ Mixed.operand (request_amount offer) = Raised e
        /\ w' = offer_leg_only w from to o a).
Proof.
  unfold execute_trade, offer_leg_only, Mixed.sub, Mixed.add.
  destruct (Mixed.operand (offer_amount offer)) as [a|e1] eqn:Ha.
  - destruct (Mixed.operand (request_amount offer)) as [b|e3] eqn:Hb.
    + discriminate.
    + intros [= <- <-]. right. exists a. repeat split; reflexivity.
  - intros [= <- <-]. left. now split.
Qed.



(** *** The outcomes of [accept_offer] *)

(** The three ways a call ends: a refusal that wrote at most the status of
    the offer; an exception before the four assignments; or the four
    assignments, reached with every check passed. *)
Lemma accept_offer_cases (oid : Json.t) (accepting : string) (tick : Z)
    (m : TradeManager) :
  let out := accept_offer oid accepting tick m in
  (exists msg,
     fst out = Returned (Rejected msg)
     /\ world_state (snd out) = world_state m
     /\ accounting (snd out) = accounting m)
  \/ (exists e, fst out = Raised e /\ snd out = m)
  \/ (exists key offer offerer accepter o r,
        checks_passed m oid accepting tick key offer offerer accepter o r
        /\ out = match execute_trade (JStr (from_agent offer)) (JStr accepting)
                                     offer o r (world_state m) with
                 | (w', Some e) => (Raised e, with_world m w')
                 | (w', None) =>
                     (Returned (Executed (offer_id offer) tick),
                      mkTradeManager w'
                        (record_transfer tick (JStr accepting)
                           (JStr (from_agent offer)) (request_resource offer)
                           (request_amount offer) (offer_id offer)
                           (record_transfer tick (JStr (from_agent offer))
                              (JStr accepting) (offer_resource offer)
                              (offer_amount offer) (offer_id offer) (accounting m)))
                        (<[key := with_status offer executed]> (_offers m))
                        (_next_id m))
                 end).
Proof.
  intros out. subst out. unfold accept_offer.
  destruct (find_offer oid m) as [[[key offer]|]|e] eqn:Hfind.
  2: { left. eexists. repeat split; reflexivity. }
  2: { right. left. exists e. now split. }
  apply find_offer_found in Hfind. destruct Hfind as [Hoid Hoffer].
  destruct (offer_status offer) eqn:Hstatus;
    try (left; eexists; repeat split; reflexivity).
  destruct (Json.same (to_agent offer) (JStr accepting)) eqn:Hto; cbn [negb].
  2: { left. eexists. repeat split; reflexivity. }
  apply same_str_right in Hto.
  destruct (expires_at_tick offer <? tick) eqn:Hexp.
  { left. eexists. repeat split; reflexivity. }
  apply Z.ltb_ge in Hexp.
  destruct (alive_agent (world_state m) (JStr (from_agent offer)))
    as [offerer|] eqn:Hfrom.
  2: { left. eexists. repeat split; reflexivity. }
  rewrite Hto.
  destruct (alive_agent (world_state m) (JStr accepting)) as [accepter|] eqn:Hacc.
  2: { left. eexists. repeat split; reflexivity. }
  apply alive_agent_found in Hfrom, Hacc.
  destruct Hfrom as [Hfrom Hfa], Hacc as [Hacc Haa].
  destruct (resource_type_of (offer_resource offer)) as [o|] eqn:Ho.
  2: { left. eexists. repeat split; reflexivity. }
  destruct (resource_type_of (request_resource offer)) as [r|] eqn:Hr.
  2: { left. eexists. repeat split; reflexivity. }
  destruct (Mixed.lt (aget (holdings (resources offerer)) o) (offer_amount offer))
    as [[]|e] eqn:Hlo.
  { left. eexists. repeat split; reflexivity. }
  2: { right. left. exists e. now split. }
  destruct (Mixed.lt (aget (holdings (resources accepter)) r) (request_amount offer))
    as [[]|e] eqn:Hlr.
  { left. eexists. repeat split; reflexivity. }
  2: { right. left. exists e. now split. }
  right. right. exists key, offer, offerer, accepter, o, r.
  split; [repeat split; assumption|].
  destruct (execute_trade _ _ offer o r (world_state m)) as [w' [e|]]; reflexivity.
Qed.


(** X9.  What [accept_offer] leaves in the books.  A call that returns a
    failure or raises records nothing.  A call that returns success records
    exactly two transfers, offerer to accepter and back, each with the
    resource and the amount of the offer as the request gave them, both
    under the id of the offer, and closes the offer.  A call that raises
    leaves the offer as it was, so it can be accepted again; it raises either
    before any holding was written, or with [OverflowError] on the requested
    amount after the offered amount has changed hands, an exchange that the
    books never show. *)
Theorem books_after_accept_offer (oid : Json.t) (accepting : string) (tick : Z)
    (m : TradeManager) :
  let out := accept_offer oid accepting tick m in
  let m' := snd out in
  (forall msg, fst out = Returned (Rejected msg) ->
     accounting m' = accounting m /\ world_state m' = world_state m)
  /\ (forall id t, fst out = Returned (Executed id t) ->
      exists key offer,
        oid = JStr key /\ _offers m !! key = Some offer
        /\ id = offer_id offer /\ t = tick
        /\ _transactions (accounting m')
           = (_transactions (accounting m)
              ++ [mkTransaction ("tx_" ++ pad8 (ledger_next_id (accounting m))) tick
                    (JStr (from_agent offer)) (JStr accepting)
                    (offer_resource offer) (offer_amount offer) (offer_id offer);
                  mkTransaction ("tx_" ++ pad8 (S (ledger_next_id (accounting m))))
                    tick (JStr accepting) (JStr (from_agent offer))
                    (request_resource offer) (request_amount offer)
                    (offer_id offer)])%list
        /\ _offers m' !! key = Some (with_status offer executed))
  /\ (forall e, fst out = Raised e ->
      accounting m' = accounting m
      /\ _offers m' = _offers m
      /\ (world_state m' = world_state m
          \/ exists key offer offerer accepter o r a,
               checks_passed m oid accepting tick key offer offerer accepter o r
               /\ e = OverflowError
               /\ Mixed.operand (offer_amount offer) = Returned a
               /\ Mixed.operand (request_amount offer) = Raised OverflowError
               /\ world_state m'
                  = offer_leg_only (world_state m) (JStr (from_agent offer))
                                   (JStr accepting) o a)).
Proof.
  cbv zeta.
  destruct (accept_offer_cases oid accepting tick m)
    as [(msg & Hout & Hw & Hb)|[(e & Hout & Hm)|
        (key & offer & offerer & accepter & o & r & Hchecks & Hout)]].
  - rewrite Hout. split; [intros msg' _; now split|].
    split; [discriminate|discriminate].
  - rewrite Hout, Hm. split; [discriminate|]. split; [discriminate|].
    intros e' _. split; [reflexivity|]. split; [reflexivity|now left].
  - rewrite Hout.
    destruct (execute_trade _ _ offer o r (world_state m)) as [w' [e|]] eqn:Hex;
      cbn [fst snd].
    + split; [discriminate|]. split; [discriminate|].
      intros e' [= <-]. cbn [with_world accounting _offers world_state].
      split; [reflexivity|]. split; [reflexivity|].
      apply execute_trade_breaks_off in Hex.
      destruct Hex as [[-> _]|(a & Ha & Hb & ->)]; [now left|].
      right. exists key, offer, offerer, accepter, o, r, a.
      split; [exact Hchecks|].
      destruct Hchecks as (_ & _ & _ & _ & _ & _ & _ & _ & _ & _ & _ & _ & Hlt).
      destruct (operand_after_lt _ _ _ Hlt) as [[b Hb']|Hb'];
        rewrite Hb' in Hb; [discriminate|].
      injection Hb as <-. repeat split; assumption.
    + split; [discriminate|]. split; [|discriminate].
      intros id t [= <- <-].
      destruct Hchecks as (Hoid & Hoffer & _).
      exists key, offer. split; [exact Hoid|]. split; [exact Hoffer|].
      split; [reflexivity|]. split; [reflexivity|].
      cbn [accounting _offers record_transfer _transactions ledger_next_id].
      split; [now rewrite <- app_assoc | apply lookup_insert_eq].
Qed.

(** ** The results of a tick *)

Import Py.Ledger Py.Emission.

Section Results.
Context `{Libm}.

(** Every handler answers the action it was called for. *)
Lemma resolution_shape (kind aid : string) (pool : ResourcePool) (rid : string)
    (params : Json.t) (t : Z) (summary : KDict.t AgentSummary)
    (rm : Py.Regions.RegionManager) (r : ActionResult) :
  outcome (validate_and_resolve kind aid pool rid params t summary rm) = Returned r ->
  answers kind aid t rid rm r.
Proof.
  unfold validate_and_resolve, handler_for, answers.
  destruct (String.eqb_spec kind "move") as [->|_].
  { cbn [ACTION_COSTS String.eqb Ascii.eqb Bool.eqb]. unfold _resolve_move.
    split_handler; finish_shape. }
  destruct (String.eqb_spec kind "trade") as [->|_].
  { cbn [ACTION_COSTS String.eqb Ascii.eqb Bool.eqb]. unfold _resolve_trade.
    split_handler; finish_shape. }
  destruct (String.eqb_spec kind "send_message") as [->|_].
  { cbn [ACTION_COSTS String.eqb Ascii.eqb Bool.eqb]. unfold _resolve_send_message.
    split_handler; finish_shape. }
  destruct (String.eqb_spec kind "observe") as [->|_].
  { cbn [ACTION_COSTS String.eqb Ascii.eqb Bool.eqb]. unfold _resolve_observe.
    split_handler; finish_shape. }
  destruct (String.eqb_spec kind "fork") as [->|_].
  { cbn [ACTION_COSTS String.eqb Ascii.eqb Bool.eqb]. unfold _resolve_fork.
    split_handler; finish_shape. }
  destruct (String.eqb_spec kind "merge") as [->|_].
  { cbn [ACTION_COSTS String.eqb Ascii.eqb Bool.eqb]. unfold _resolve_merge.
    split_handler; finish_shape. }
  destruct (String.eqb_spec kind "attack") as [->|_].
  { cbn [ACTION_COSTS String.eqb Ascii.eqb Bool.eqb]. unfold _resolve_attack.
    split_handler; finish_shape. }
  destruct (String.eqb_spec kind "ally") as [->|_].
  { cbn [ACTION_COSTS String.eqb Ascii.eqb Bool.eqb]. unfold _resolve_ally.
    split_handler; finish_shape. }
  finish_shape.
Qed.

Lemma answers_made_at (kind aid : string) (t : Z) (rid : string)
    (rm : Py.Regions.RegionManager) (r : ActionResult) :
  answers kind aid t rid rm r -> made_at t r.
Proof.
  intros (Hkind & _ & Ht & _ & Hobs). split; [exact Ht|].
  intros Ha Hs. exists rid, rm. apply Hobs; [congruence | exact Hs].
Qed.

(** One iteration of the resolution loop appends nothing, or the one result
    that answers the action. *)
Lemma resolve_action_appends (summary : KDict.t AgentSummary) (t : Z)
    (w : WorldState) (results : list ActionResult) (action : QueuedAction) :
  let out := resolve_action summary t (w, results) action in
  snd (fst out) = results
  \/ exists agent r,
       get_agent w (JStr (qa_agent_id action)) = Some agent
       /\ is_alive agent = true
       /\ snd (fst out) = (results ++ [r])%list
       /\ answers (qa_action_type action) (qa_agent_id action) t (region agent)
                  (region_manager w) r.
Proof.
  cbv zeta. unfold resolve_action.
  destruct (get_agent w (JStr (qa_agent_id action))) as [agent|] eqn:Hget;
    [|now left].
  destruct (is_alive agent) eqn:Halive; cbn [negb]; [|now left].
  destruct (status_eqb (status agent) unclaimed
            && negb (String.eqb (qa_action_type action) "observe")) eqn:Hgate.
  { right. exists agent. eexists. split; [reflexivity|]. split; [exact Halive|].
    split; [reflexivity|]. unfold answers. cbn.
    repeat split; intros; discriminate. }
  cbv zeta.
  destruct (outcome (validate_and_resolve _ _ _ _ _ _ _ _)) as [r|e] eqn:Hout;
    [|now left].
  right. exists agent, r. split; [reflexivity|]. split; [exact Halive|].
  split; [|now apply resolution_shape in Hout].
  destruct (success r); [|reflexivity].
  destruct (_apply_side_effects r (qa_agent_id action) _); reflexivity.
Qed.

Lemma resolve_action_made_at (summary : KDict.t AgentSummary) (t : Z)
    (st : WorldState * list ActionResult) (action : QueuedAction) :
  Forall (made_at t) (snd st) ->
  Forall (made_at t) (snd (fst (resolve_action summary t st action))).
Proof.
  destruct st as [w results]. cbn [snd]. intros Hall.
  destruct (resolve_action_appends summary t w results action)
    as [->|(agent & r & _ & _ & -> & Hr)]; [exact Hall|].
  apply Forall_app. split; [exact Hall|].
  constructor; [|constructor]. now apply answers_made_at in Hr.
Qed.

Lemma resolve_all_made_at (summary : KDict.t AgentSummary) (t : Z)
    (actions : list QueuedAction) (st : WorldState * list ActionResult) :
  Forall (made_at t) (snd st) ->
  Forall (made_at t) (snd (fst (resolve_all summary t actions st))).
Proof.
  revert st. induction actions as [|action rest IH]; intros st Hall; [exact Hall|].
  cbn [resolve_all].
  pose proof (resolve_action_made_at summary t st action Hall) as Hstep.
  destruct (resolve_action summary t st action) as [st' [e|]]; cbn [fst] in *.
  - exact Hstep.
  - now apply IH.
Qed.

Lemma tick_effects_made_at (t : Z) (st : WorldState * list ActionResult)
    (k : Json.t) :
  Forall (made_at t) (snd st) -> Forall (made_at t) (snd (tick_effects t st k)).
Proof.
  destruct st as [w results]. cbn [snd]. intros Hall. unfold tick_effects.
  destruct (get_agent w k) as [a|]; [|exact Hall].
  destruct (negb (is_alive a)); [exact Hall|].
  unfold apply_danger.
  destruct (Py.Regions.get _ _) as [region|]; [|exact Hall].
  destruct (Float.leb (Py.Regions.danger_level region) Float.zero); [exact Hall|].
  set (e' := aget _ ENERGY).
  destruct (Float.leb e' Float.zero); [|exact Hall].
  cbn [snd]. apply Forall_app. split; [exact Hall|].
  constructor; [|constructor]. split; [reflexivity|]. discriminate.
Qed.

Lemma tick_loop_made_at (t : Z) (keys : list Json.t)
    (st : WorldState * list ActionResult) :
  Forall (made_at t) (snd st) ->
  Forall (made_at t) (snd (fold_left (tick_effects t) keys st)).
Proof.
  revert st. induction keys as [|k rest IH]; intros st Hall; [exact Hall|].
  cbn [fold_left]. apply IH. now apply tick_effects_made_at.
Qed.

(** *** The counter *)

Lemma tick_add_agent (w w' : WorldState) (a : AgentState) :
  add_agent w a = Returned w' -> tick w' = tick w.
Proof.
  unfold add_agent. destruct (negb (Json.hashable (agent_id a))); [discriminate|].
  now intros [= <-].
Qed.

Lemma tick_side_effects (r : ActionResult) (aid : string) (w : WorldState) :
  tick (fst (_apply_side_effects r aid w)) = tick w.
Proof.
  unfold _apply_side_effects.
  split_handler; cbn [fst]; rewrite ?tick_drop_occupant; try reflexivity.
  erewrite tick_add_agent by eassumption. reflexivity.
Qed.

Lemma tick_resolve_one (summary : KDict.t AgentSummary) (t : Z)
    (st : WorldState * list ActionResult) (action : QueuedAction) :
  tick (fst (fst (resolve_action summary t st action))) = tick (fst st).
Proof.
  destruct st as [w results]. unfold resolve_action.
  destruct (get_agent w (JStr (qa_agent_id action))) as [agent|]; [|reflexivity].
  destruct (negb (is_alive agent)); [reflexivity|].
  destruct (status_eqb (status agent) unclaimed
            && negb (String.eqb (qa_action_type action) "observe"));
    [reflexivity|].
  cbv zeta.
  destruct (outcome (validate_and_resolve _ _ _ _ _ _ _ _)) as [r|e];
    [|reflexivity].
  destruct (success r); [|reflexivity].
  pose proof (tick_side_effects r (qa_agent_id action)
                (with_regions
                   (modify_agent (JStr (qa_agent_id action))
                      (set_resources
                         (pool_after
                            (validate_and_resolve (qa_action_type action)
                               (qa_agent_id action) (resources agent) (region agent)
                               (qa_params action) t summary (region_manager w))))
                      w)
                   (regions_after
                      (validate_and_resolve (qa_action_type action)
                         (qa_agent_id action) (resources agent) (region agent)
                         (qa_params action) t summary (region_manager w)))))
    as Ht.
  destruct (_apply_side_effects r (qa_agent_id action) _) as [w2 raised].
  exact Ht.
Qed.

Lemma tick_resolve_all (summary : KDict.t AgentSummary) (t : Z)
    (actions : list QueuedAction) (st : WorldState * list ActionResult) :
  tick (fst (fst (resolve_all summary t actions st))) = tick (fst st).
Proof.
  revert st. induction actions as [|action rest IH]; intros st; [reflexivity|].
  cbn [resolve_all].
  pose proof (tick_resolve_one summary t st action) as Hstep.
  destruct (resolve_action summary t st action) as [st' [e|]]; cbn [fst] in *.
  - exact Hstep.
  - now rewrite IH.
Qed.

Lemma tick_per_agent (t : Z) (st : WorldState * list ActionResult) (k : Json.t) :
  tick (fst (tick_effects t st k)) = tick (fst st).
Proof.
  destruct st as [w results]. unfold tick_effects.
  destruct (get_agent w k) as [a|]; [|reflexivity].
  destruct (negb (is_alive a)); [reflexivity|].
  destruct (apply_danger _ _ _ _ _) as [[d|] pool]; cbn [fst];
    rewrite ?tick_drop_occupant; reflexivity.
Qed.

Lemma tick_per_agent_loop (t : Z) (keys : list Json.t)
    (st : WorldState * list ActionResult) :
  tick (fst (fold_left (tick_effects t) keys st)) = tick (fst st).
Proof.
  revert st. induction keys as [|k rest IH]; intros st; [reflexivity|].
  cbn [fold_left]. now rewrite IH, tick_per_agent.
Qed.

(** The counter has advanced whether the tick returned or raised. *)
Lemma process_tick_advances (w : WorldState) (queue : list QueuedAction) :
  tick (fst (_process_tick w queue)) = tick w + 1.
Proof.
  unfold _process_tick, advance_tick. cbv zeta.
  match goal with
  | |- context [resolve_all ?s ?t ?a ?st] =>
      pose proof (tick_resolve_all s t a st) as Hall;
      destruct (resolve_all s t a st) as [st1 [e|]]
  end; cbn [fst] in *.
  - exact Hall.
  - now rewrite tick_per_agent_loop.
Qed.

Lemma process_tick_results (w : WorldState) (queue : list QueuedAction)
    (results : list ActionResult) :
  snd (_process_tick w queue) = Returned results ->
  Forall (made_at (tick w + 1)) results.
Proof.
  unfold _process_tick, advance_tick. cbv zeta.
  match goal with
  | |- context [resolve_all ?s ?t ?a ?st] =>
      pose proof (resolve_all_made_at s t a st (List.Forall_nil _)) as Hall;
      destruct (resolve_all s t a st) as [st1 [e|]]
  end; cbn [fst snd] in *; [discriminate|].
  intros [= <-]. now apply tick_loop_made_at.
Qed.

(** *** Emission *)

Lemma emitted_results (t : Z) (results : list ActionResult) (l : EventLedger) :
  fold_left on_event (map (result_event t) results) l
  = mkEventLedger (_events l ++ events_of t (_next_id l) results)%list
                  (_next_id l + Z.of_nat (length results)).
Proof.
  revert l. induction results as [|r rest IH]; intros l.
  - cbn. rewrite app_nil_r, Z.add_0_r. now destruct l.
  - cbn [map fold_left]. rewrite IH. unfold on_event, append. cbn.
    f_equal; [now rewrite <- app_assoc | lia].
Qed.

Lemma emit_events (t : Z) (n : nat) (results : list ActionResult)
    (w : WorldState) (l : EventLedger) :
  emit t n results w l
  = mkEventLedger
      (_events l ++ events_of t (_next_id l) results
       ++ [heartbeat_of t (_next_id l + Z.of_nat (length results)) n results w])%list
      (_next_id l + Z.of_nat (length results) + 1).
Proof.
  unfold emit. rewrite emitted_results. unfold on_event, append, heartbeat_of.
  cbn. now rewrite <- app_assoc.
Qed.

Lemma events_of_made (t next : Z) (results : list ActionResult) (e : Event) :
  In e (events_of t next results) ->
  exists r, In r results
            /\ event_action e = action_type r
            /\ event_success e = success r
            /\ event_details e = ResultDetails (details r).
Proof.
  revert next. induction results as [|r rest IH]; intros next; [intros []|].
  cbn [events_of]. intros [<-|Hin].
  - exists r. split; [now left|]. repeat split; reflexivity.
  - destruct (IH _ Hin) as (r' & Hr' & Hrest). exists r'. split; [now right|exact Hrest].
Qed.

End Results.

(** X4.  One pass of the tick loop.  The counter advances by one and the
    queue is emptied, whether the tick returns or raises.  If it raises,
    the ledger is as it was: no result of that tick is ever recorded.  If it
    returns, the ledger gains one event per result, in order, then one
    heartbeat, numbered consecutively from the next free id, every one
    stamped with the new tick; each event holds the action type, agent,
    success flag, error and details object of its result, and the heartbeat
    the counts of valid actions, results, agents and living agents.  The
    events recorded before are the same objects, and the details of a
    successful observe hold the occupant list of a region by reference: what
    such an event shows under [visible_agents], whenever it is read, is what
    that region lists at the time of reading. *)
Theorem tick_emission `{Libm} (s : Server) :
  let t := tick (world s) + 1 in
  let n := length (List.filter (is_valid t) (action_queue s)) in
  let s' := fst (tick_pass s) in
  let next := _next_id (ledger s) in
  tick (world s') = t
  /\ action_queue s' = []
  /\ match snd (_process_tick (world s) (action_queue s)) with
     | Raised e => snd (tick_pass s) = Some e /\ ledger s' = ledger s
     | Returned results =>
         snd (tick_pass s) = None
         /\ _events (ledger s')
            = (_events (ledger s) ++ events_of t next results
               ++ [heartbeat_of t (next + Z.of_nat (length results)) n results
                     (world s')])%list
         /\ _next_id (ledger s') = next + Z.of_nat (length results) + 1
         /\ forall e,
              In e (events_of t next results) ->
              event_action e = "observe" -> event_success e = true ->
              exists info occupants_list,
                event_details e
                = ResultDetails (ObserveDetails info occupants_list t)
                /\ forall w, visible_agents w e = Some (read w occupants_list)
     end.
Proof.
  cbv zeta. unfold tick_pass.
  pose proof (process_tick_advances (world s) (action_queue s)) as Htick.
  pose proof (process_tick_results (world s) (action_queue s)) as Hres.
  destruct (_process_tick (world s) (action_queue s)) as [w' [results|e]];
    cbn [fst snd world action_queue ledger] in *.
  - split; [exact Htick|]. split; [reflexivity|]. split; [reflexivity|].
    rewrite emit_events. cbn [_events _next_id].
    split; [reflexivity|]. split; [reflexivity|].
    intros e Hin Hobs Hok.
    destruct (events_of_made _ _ _ _ Hin) as (r & Hr & Ha & Hs & Hd).
    specialize (Hres results eq_refl).
    rewrite List.Forall_forall in Hres. destruct (Hres r Hr) as [_ Hshape].
    destruct Hshape as (rid & rm & Hdetails); [congruence..|].
    rewrite Hdetails in Hd. eexists _, _. split; [exact Hd|].
    intros w. unfold visible_agents. rewrite Hd.
    destruct (Py.Regions.get rm rid); reflexivity.
  - split; [exact Htick|]. split; [reflexivity|]. now split.
Qed.

(** ** From the gateway to the tick ([submit_action], [_process_tick]) *)

Section Queue.
Context `{Libm}.

Lemma resolve_all_app (summary : KDict.t AgentSummary) (t : Z)
    (before after : list QueuedAction) (st : WorldState * list ActionResult) :
  resolve_all summary t (before ++ after) st
  = match resolve_all summary t before st with
    | (st', Some e) => (st', Some e)
    | (st', None) => resolve_all summary t after st'
    end.
Proof.
  revert st. induction before as [|action rest IH]; intros st; [reflexivity|].
  cbn [app resolve_all].
  destruct (resolve_action summary t st action) as [st' [e|]]; [reflexivity|].
  apply IH.
Qed.

(** The action of a living agent is answered, unless its resolution
    raises. *)
Lemma resolve_action_alive (summary : KDict.t AgentSummary) (t : Z)
    (w : WorldState) (results : list ActionResult) (action : QueuedAction)
    (agent : AgentState) :
  get_agent w (JStr (qa_agent_id action)) = Some agent ->
  is_alive agent = true ->
  let out := resolve_action summary t (w, results) action in
  (exists e, snd out = Some e)
  \/ (snd out = None
      /\ exists r,
           snd (fst out) = (results ++ [r])%list
           /\ answers (qa_action_type action) (qa_agent_id action) t (region agent)
                      (region_manager w) r).
Proof.
  intros Hget Halive. cbv zeta. unfold resolve_action. rewrite Hget, Halive.
  cbn [negb].
  destruct (status_eqb (status agent) unclaimed
            && negb (String.eqb (qa_action_type action) "observe")).
  { right. split; [reflexivity|]. eexists. split; [reflexivity|].
    unfold answers. cbn. repeat split; intros; discriminate. }
  cbv zeta.
  destruct (outcome (validate_and_resolve _ _ _ _ _ _ _ _)) as [r|e] eqn:Hout.
  2: { left. now exists e. }
  apply resolution_shape in Hout.
  destruct (success r).
  - destruct (_apply_side_effects r (qa_agent_id action) _) as [w2 [e|]].
    + left. now exists e.
    + right. split; [reflexivity|]. now exists r.
  - right. split; [reflexivity|]. now exists r.
Qed.

Lemma tick_loop_appends (t : Z) (keys : list Json.t)
    (st : WorldState * list ActionResult) :
  exists deaths,
    snd (fold_left (tick_effects t) keys st) = (snd st ++ deaths)%list.
Proof.
  revert st. induction keys as [|k rest IH]; intros st.
  - exists []. cbn. now rewrite app_nil_r.
  - cbn [fold_left]. destruct (IH (tick_effects t st k)) as [deaths Hd].
    destruct st as [w results].
    destruct (tick_effects_appends t w results k) as [Hsame|(d & Hadd & _)].
    + exists deaths. now rewrite Hd, Hsame.
    + exists (d :: deaths). rewrite Hd, Hadd, <- app_assoc. reflexivity.
Qed.

Lemma submit_action_accepted (agent_id : string) (kind params : Json.t)
    (w : WorldState) (queue : list QueuedAction) (resp : Py.Gateway.ActionResponse) :
  fst (Py.Gateway.submit_action agent_id kind params w queue) = Returned resp ->
  Py.Gateway.resp_success resp = true ->
  exists k agent,
    kind = JStr k
    /\ existsb (String.eqb k) Gateway.VALID_ACTION_TYPES = true
    /\ get_agent w (JStr agent_id) = Some agent
    /\ is_alive agent = true
    /\ snd (Py.Gateway.submit_action agent_id kind params w queue)
       = (queue ++ [mkAction agent_id k params (tick w) 1])%list.
Proof.
  unfold Py.Gateway.submit_action, Py.Gateway.valid_action_type.
  destruct (negb (Json.hashable kind)); [discriminate|].
  destruct kind as [|b|z|x|k|l|d];
    try (cbn [fst]; intros [= <-]; discriminate).
  destruct (existsb (String.eqb k) Gateway.VALID_ACTION_TYPES) eqn:Hvalid;
    [|cbn [fst]; intros [= <-]; discriminate].
  destruct (get_agent w (JStr agent_id)) as [agent|] eqn:Hget;
    [|cbn [fst]; intros [= <-]; discriminate].
  destruct (is_alive agent) eqn:Halive; cbn [negb];
    [|cbn [fst]; intros [= <-]; discriminate].
  destruct (status_eqb (status agent) unclaimed && negb (String.eqb k "observe"));
    [cbn [fst]; intros [= <-]; discriminate|].
  intros _ _. exists k, agent. repeat split; reflexivity || assumption.
Qed.

Lemma submit_action_refused (agent_id : string) (kind params : Json.t)
    (w : WorldState) (queue : list QueuedAction) :
  let res := Py.Gateway.submit_action agent_id kind params w queue in
  (forall e, fst res = Raised e -> snd res = queue)
  /\ (forall resp, fst res = Returned resp ->
                   Py.Gateway.resp_success resp = false -> snd res = queue).
Proof.
  cbv zeta. unfold Py.Gateway.submit_action.
  destruct (Py.Gateway.valid_action_type kind) as [[k|]|e];
    [|split; reflexivity|split; reflexivity].
  destruct (get_agent w (JStr agent_id)) as [agent|]; [|split; reflexivity].
  destruct (negb (is_alive agent)); [split; reflexivity|].
  destruct (status_eqb (status agent) unclaimed && negb (String.eqb k "observe"));
    [split; reflexivity|].
  cbn [fst snd]. split; [discriminate|]. intros resp [= <-]. discriminate.
Qed.
End Queue.

(** X18.  From the gateway to the tick.  [submit_action] raises or rejects
    without touching the queue, or appends exactly one action, of one of
    the eight kinds, for a stored and living agent, with [params] as they
    came, stamped with the current tick; the next tick still considers it
    valid and the one after no longer does.  If the next tick runs on that
    action alone and returns, its first result answers this action for this
    agent; it raises exactly when the resolution of the action does, and
    then reports nothing.  In a longer queue, the first action whose
    resolution raises ends the tick: the world stays as that resolution left
    it, the results of the actions before it are discarded, and the actions
    after it, drained with the rest, are never resolved. *)
Theorem accepted_action_is_resolved `{Libm} (agent_id : string)
    (kind params : Json.t) (w : WorldState) (queue : list QueuedAction) :
  let res := Py.Gateway.submit_action agent_id kind params w queue in
  let t := tick w + 1 in
  let w0 := snd (advance_tick w) in
  let summary := get_all_agents_summary w0 in
  (forall e, fst res = Raised e -> snd res = queue)
  /\ (forall resp, fst res = Returned resp ->
                   Py.Gateway.resp_success resp = false -> snd res = queue)
  /\ (forall resp, fst res = Returned resp -> Py.Gateway.resp_success resp = true ->
      exists k agent,
        kind = JStr k
        /\ In k Gateway.VALID_ACTION_TYPES
        /\ get_agent w (JStr agent_id) = Some agent
        /\ is_alive agent = true
        /\ let action := mkAction agent_id k params (tick w) 1 in
           snd res = (queue ++ [action])%list
           /\ is_valid t action = true
           /\ is_valid (t + 1) action = false
           /\ match snd (_process_tick w [action]) with
              | Returned results =>
                  snd (resolve_action summary t (w0, []) action) = None
                  /\ exists r deaths,
                       results = r :: deaths
                       /\ answers k agent_id t (region agent) (region_manager w) r
              | Raised e =>
                  snd (resolve_action summary t (w0, []) action) = Some e
              end)
  /\ (forall before action after st e,
        List.filter (is_valid t) queue = (before ++ action :: after)%list ->
        resolve_all summary t before (w0, []) = (st, None) ->
        snd (resolve_action summary t st action) = Some e ->
        _process_tick w queue
        = (fst (fst (resolve_action summary t st action)), Raised e)).
Proof.
  cbv zeta.
  destruct (submit_action_refused agent_id kind params w queue) as [Hraise Hreject].
  split; [exact Hraise|]. split; [exact Hreject|]. split.
  - intros resp Hresp Hok.
    destruct (submit_action_accepted _ _ _ _ _ _ Hresp Hok)
      as (k & agent & -> & Hkind & Hget & Halive & Hqueue).
    exists k, agent. split; [reflexivity|]. split.
    { apply existsb_exists in Hkind. destruct Hkind as (k' & Hin & Heq).
      apply String.eqb_eq in Heq. now subst k'. }
    split; [exact Hget|].
    split; [exact Halive|]. split; [exact Hqueue|].
    assert (Hnext : is_valid (tick w + 1) (mkAction agent_id k params (tick w) 1)
                    = true).
    { unfold is_valid. apply Z.leb_le. cbn. lia. }
    split; [exact Hnext|]. split.
    { unfold is_valid. apply Z.leb_gt. cbn. lia. }
    unfold _process_tick. cbn [advance_tick snd fst List.filter].
    rewrite Hnext. cbn [resolve_all].
    set (action := mkAction agent_id k params (tick w) 1).
    set (w0 := mkWorld (tick w + 1) (agents w) (region_manager w)
                       (alliance_proposals w)).
    destruct (resolve_action_alive (get_all_agents_summary w0) (tick w + 1) w0 []
                action agent Hget Halive) as [[e He]|(Hnone & r & Hr & Hanswers)].
    + destruct (resolve_action _ _ (w0, []) action) as [st' raised].
      cbn [snd] in He. subst raised. cbn [snd]. reflexivity.
    + destruct (resolve_action _ _ (w0, []) action) as [st' raised].
      cbn [snd fst] in Hnone, Hr. subst raised. cbn [snd fst].
      split; [reflexivity|].
      destruct (tick_loop_appends (tick w + 1) (KDict.keys (agents (fst st'))) st')
        as [deaths Hd].
      rewrite Hd, Hr. exists r, deaths. split; [reflexivity | exact Hanswers].
  - intros before action after st e Hfilter Hbefore Hraised.
    unfold _process_tick. cbn [advance_tick snd fst].
    rewrite Hfilter, resolve_all_app.
    cbn [advance_tick snd] in Hbefore. rewrite Hbefore. cbn [resolve_all].
    destruct (resolve_action _ _ st action) as [st' raised].
    cbn [snd] in Hraised. subst raised. reflexivity.
Qed.

(** ** The statements at concrete inputs *)

Import PyScenarios.

(** *** Attack *)

(** C1 at the attacker of the specification's scenario: both agents hold
    energy 50 and compute 40 when the attack is resolved; the recorded
    strength is 65, the damage 19.5 and not 27, and the target is left with
    30.5 and not 23. *)
Lemma attack_with_50_40_deals_19_5 :
  let st :=
    fst (resolve_action (get_all_agents_summary duel_world) 1 (duel_world, [])
                        attack_on_B) in
  holding duel_world "A" ENERGY = Some (Float.of_Z 50)
  /\ holding duel_world "A" COMPUTE = Some (Float.of_Z 40)
  /\ holding duel_world "B" ENERGY = Some (Float.of_Z 50)
  /\ map success (snd st) = [true]
  /\ map details (snd st)
     = [AttackDetails (JStr "B") (Float.of_Z 65) (Float.dec 7 1)]
  /\ Float.mul (Float.of_Z 65) (Float.dec 3 1) = Float.dec 195 1
  /\ Float.mul (Float.of_Z 65) (Float.dec 3 1) <> Float.of_Z 27
  /\ holding (fst st) "B" ENERGY = Some (Float.dec 305 1)
  /\ holding (fst st) "B" ENERGY <> Some (Float.of_Z 23).
Proof.
  vm_compute. repeat split; try reflexivity; intros Heq; discriminate Heq.
Qed.

(** The attack theorem at the duel: the attack of A on B resolves, the
    engine leaves B with [max(0, 50 - 65 * 0.3)], and B stays claimed. *)
Lemma attack_damage_witness :
  let r :=
    validate_and_resolve "attack" "A" create_default "wasteland"
      (attack_on (JStr "B")) 1 (get_all_agents_summary duel_world)
      default_regions in
  exists result target',
    outcome r = Returned result
    /\ success result = true
    /\ get_agent (fst (_apply_side_effects result "A" duel_world)) (JStr "B")
       = Some target'
    /\ energy (holdings (resources target')) = Float.dec 305 1
    /\ status target' = claimed.
Proof.
  intros r.
  destruct (attack_damage "A" create_default "wasteland" (attack_on (JStr "B")) 1
              (get_all_agents_summary duel_world) default_regions
              (succeeded "attack" (JStr "A")
                 (AttackDetails (JStr "B") (Float.of_Z 65) (Float.dec 7 1)) 1)
              eq_refl eq_refl)
    as (entries & summary & danger & Hparams & _ & _ & _ & _ & _ & _ & _ & _ & Heffect).
  injection Hparams as <-.
  destruct (Heffect duel_world (citizen "A" "wasteland" create_default)
              (citizen "B" "wasteland" create_default) eq_refl eq_refl)
    as (target' & _ & Hget & He & _ & Hst & _).
  eexists. exists target'. split; [reflexivity|]. split; [reflexivity|].
  split; [exact Hget|]. split; [exact He | exact Hst].
Defined.

(** An attack on the boundary.  The attack cost leaves A compute 3 and
    energy 4, so the strength is 7; B holds 2.1.  The product [7.0 * 0.3]
    rounds to the float 2.1, the subtraction gives 0 and B dies, although
    seven times the rational that the float 0.3 stands for is below the one
    that the float 2.1 stands for. *)
Lemma attack_rounding_kills :
  let attack := mkAction "A" "attack" (attack_on (JStr "B")) 0 1 in
  let st :=
    fst (resolve_action (get_all_agents_summary close_call_world) 1
                        (close_call_world, []) attack) in
  map details (snd st) = [AttackDetails (JStr "B") (Float.of_Z 7) (Float.dec 7 1)]
  /\ Float.mul (Float.of_Z 7) (Float.dec 3 1) = Float.dec 21 1
  /\ (7 * exact (Float.dec 3 1) < exact (Float.dec 21 1))%Q
  /\ holding (fst st) "B" ENERGY = Some Float.zero
  /\ option_map status (get_agent (fst st) (JStr "B")) = Some dead
  /\ occupants (fst st) "wasteland" = [JStr "A"].
Proof. vm_compute. repeat split; reflexivity. Qed.

(** *** Danger *)

(** C7 at an agent with energy 3 in the wasteland (danger 0.7, multiplier
    0.5): [max(0, 3 - 5 * 0.7)] is 0, yet after the tick the agent holds 0.5
    and is still claimed, and the tick returns no death. *)
Lemma regeneration_precedes_danger :
  let out := _process_tick frail_world [] in
  holding frail_world "W" ENERGY = Some (Float.of_Z 3)
  /\ option_map physics (Py.Regions.get (region_manager frail_world) "wasteland")
     = Some (Float.dec 5 1, Float.dec 7 1)
  /\ Float.max0 (Float.sub (Float.of_Z 3) (Float.mul (Float.of_Z 5) (Float.dec 7 1)))
     = Float.zero
  /\ holding (fst out) "W" ENERGY = Some (Float.dec 5 1)
  /\ option_map status (get_agent (fst out) (JStr "W")) = Some claimed
  /\ snd out = Returned [].
Proof. vm_compute. repeat split; reflexivity. Qed.

(** The danger theorem at the frail agent of the wasteland. *)
Lemma danger_follows_regeneration_witness :
  exists agent',
    get_agent
      (fst (fold_left (tick_effects 1) (KDict.keys (agents frail_world))
                      (frail_world, [])))
      (JStr "W") = Some agent'
    /\ energy (holdings (resources agent'))
       = energy_after_tick frail (Float.dec 5 1) (Float.dec 7 1)
    /\ status agent' <> dead.
Proof.
  destruct (danger_follows_regeneration 1 frail_world [] (JStr "W") frail wasteland)
    as (a' & added & Hget & He & Hdead & _).
  - split; [repeat constructor; intros []|].
    intros k1 k2 [<-|[]] [<-|[]]. split; reflexivity.
  - now left.
  - reflexivity.
  - reflexivity.
  - reflexivity.
  - exists a'. split; [exact Hget|]. split; [exact He|].
    intros Hd. apply Hdead in Hd. vm_compute in Hd. discriminate Hd.
Defined.

(** Danger on the boundary.  An agent of the void with energy
    3.9000000000000004 regenerates [2.0 * 0.3]; the sum rounds to 4.5, the
    drain [0.9 * 5.0] is 4.5, and the agent dies of energy depletion. *)
Lemma danger_rounding_kills :
  let out := _process_tick borderline_world [] in
  Float.add just_above_3_9 (Float.mul (Float.of_Z 2) (Float.dec 3 1)) = Float.dec 45 1
  /\ Float.mul (Float.dec 9 1) (Float.of_Z 5) = Float.dec 45 1
  /\ holding (fst out) "V" ENERGY = Some Float.zero
  /\ option_map status (get_agent (fst out) (JStr "V")) = Some dead
  /\ snd out = Returned [death_of (JStr "V") "void" (Float.dec 9 1) 1].
Proof. vm_compute. repeat split; reflexivity. Qed.

(** *** Fork *)

(** The fork theorem at the parent with 80/100/60: the debit leaves
    40/50/30, parent and child hold 20/25/15 each, and the child is the
    second occupant of the nexus. *)
Lemma fork_halves_witness :
  let out :=
    resolve_action (get_all_agents_summary parent_world) 1 (parent_world, [])
                   (fork_of "P" (JDict [])) in
  let w' := fst (fst out) in
  exists child parent',
    get_agent w' (JStr "P_fork_1") = Some child
    /\ get_agent w' (JStr "P") = Some parent'
    /\ holdings (resources child)
       = mkAmounts (Float.of_Z 20) (Float.dec 125 1) (Float.of_Z 25) (Float.of_Z 15)
    /\ holdings (resources parent') = holdings (resources child)
    /\ occupants w' "nexus" = [JStr "P"; JStr "P_fork_1"].
Proof.
  intros out w'.
  destruct (fork_halves (get_all_agents_summary parent_world) 1 parent_world []
              (fork_of "P" (JDict [])) parent [] eq_refl eq_refl eq_refl eq_refl
              eq_refl)
    as (_ & _ & _ & _ & _ & _ & Hstored).
  destruct (Hstored eq_refl)
    as (_ & child & parent' & Hc & Hp & Hhc & Hhp & _ & _ & _ & _ & _ & _ & _
        & _ & _ & _ & Hocc).
  exists child, parent'. split; [exact Hc|]. split; [exact Hp|].
  split; [rewrite Hhc; vm_compute; reflexivity|].
  split; [now rewrite Hhc, Hhp|]. exact Hocc.
Defined.

(** C8 in a full region.  Thirty claimed agents rest in the nexus for
    twenty ticks and move to the void at tick 21; the void (capacity 30)
    lists all thirty.  At tick 22 [v1] forks.  The fork succeeds, parent and child
    hold the same halves, and the child is stored with the void as its
    region; but [Region.add_agent] refuses it, and after the tick the child
    is alive and on the occupant list of no region.  A move into the void
    is refused at that moment because the region is full. *)
Lemma fork_in_full_region :
  let out := _process_tick crowded_void [fork_in_the_void] in
  let w' := fst out in
  let child := JStr "v1_fork_22" in
  tick crowded_void = 21
  /\ length (occupants crowded_void "void") = 30%nat
  /\ option_map Py.Regions.capacity (Py.Regions.get (region_manager crowded_void) "void")
     = Some 30
  /\ option_map region (get_agent crowded_void (JStr "v1")) = Some "void"
  /\ option_map (map success) (match snd out with
                               | Returned results => Some results
                               | Raised _ => None
                               end) = Some [true]
  /\ option_map region (get_agent w' child) = Some "void"
  /\ option_map is_alive (get_agent w' child) = Some true
  /\ option_map parent_agent (get_agent w' child) = Some (Some (JStr "v1"))
  /\ option_map (fun a => holdings (resources a)) (get_agent w' child)
     = option_map (fun a => holdings (resources a)) (get_agent w' (JStr "v1"))
  /\ listing_regions w' (JStr "v1") = ["void"]
  /\ listing_regions w' child = []
  /\ length (occupants w' "void") = 30%nat
  /\ option_map (map error)
       (match snd (_process_tick
                     (populate [citizen "late" "nexus" create_default])
                     [move_by "late" (JStr "void") 0]) with
        | Returned results => Some results
        | Raised _ => None
        end) = Some [None]
  /\ map error
       (snd (fst (resolve_action (get_all_agents_summary w') 23
                    (with_regions
                       (populate [citizen "late" "nexus" create_default])
                       (region_manager w'), [])
                    (move_by "late" (JStr "void") 22))))
     = [Some "Target region full"].
Proof. vm_compute. repeat split; reflexivity. Qed.

(** *** Trade *)



(** An acceptance that breaks off.  Alice has offered 10 energy for
    [-10 ** 400] compute.  Both comparisons pass, the 10 energy change hands,
    and the conversion of the requested amount raises: Bob has gained 10
    energy and given nothing, the offer is still pending and the books are
    empty.  Bob accepts again, and gains 10 more. *)
Lemma requested_amount_overflows :
  let first := accept_offer (JStr "trade_00000000") "bob" 1 lopsided_offer in
  let second := accept_offer (JStr "trade_00000000") "bob" 1 (snd first) in
  let w1 := world_state (snd first) in
  let w2 := world_state (snd second) in
  fst first = Raised OverflowError
  /\ holding w1 "alice" ENERGY = Some (Float.of_Z 40)
  /\ holding w1 "bob" ENERGY = Some (Float.of_Z 35)
  /\ holding w1 "alice" COMPUTE = holding market "alice" COMPUTE
  /\ holding w1 "bob" COMPUTE = holding market "bob" COMPUTE
  /\ option_map offer_status (_offers (snd first) !! "trade_00000000")
     = Some pending
  /\ _transactions (accounting (snd first)) = []
  /\ fst second = Raised OverflowError
  /\ holding w2 "alice" ENERGY = Some (Float.of_Z 30)
  /\ holding w2 "bob" ENERGY = Some (Float.of_Z 45)
  /\ _transactions (accounting (snd second)) = [].
Proof. vm_compute. repeat split; reflexivity. Qed.

(** *** Ticks and events *)

(** An event that changes after it was recorded.  Alice observes the nexus
    at tick 1: the event with id 0 shows Alice and Bob.  At tick 2 Bob moves
    to the forge.  The ledger still holds the same event under id 0, and it
    now shows Alice alone. *)
Lemma observe_event_follows_region :
  let s1 := fst (tick_pass (queued quiet_market [observe_by "alice" 0])) in
  let s2 := fst (tick_pass (queued s1 [move_by "bob" (JStr "forge") 1])) in
  exists e,
    nth_error (_events (ledger s1)) 0 = Some e
    /\ nth_error (_events (ledger s2)) 0 = Some e
    /\ event_id e = 0
    /\ event_action e = "observe"
    /\ event_success e = true
    /\ visible_agents (world s1) e = Some [JStr "alice"; JStr "bob"]
    /\ visible_agents (world s2) e = Some [JStr "alice"]
    /\ option_map region (get_agent (world s2) (JStr "bob")) = Some "forge".
Proof. eexists. vm_compute. repeat split; reflexivity. Qed.

(** A tick that raises.  Alice's observe is queued before a move of Bob
    whose [target_region] is a list, and an observe of Bob after it; the
    gateway accepts all three.  The tick resolves and debits Alice's
    observe, raises [TypeError] on the move and ends: the counter is at 1,
    the queue is empty, the ledger is empty, Bob's observe was never
    resolved, and nobody regenerated. *)
Lemma raising_action_drops_the_tick :
  let queue :=
    [observe_by "alice" 0; move_by "bob" (JList [JStr "forge"]) 0;
     observe_by "bob" 0] in
  let out := tick_pass (queued quiet_market queue) in
  let s' := fst out in
  map (fun a =>
         returned
           (fst (Py.Gateway.submit_action (qa_agent_id a) (JStr (qa_action_type a))
                   (qa_params a) market [])))
      queue = [true; true; true]
  /\ snd out = Some TypeError
  /\ tick (world s') = 1
  /\ action_queue s' = []
  /\ _events (ledger s') = []
  /\ holding (world s') "alice" ENERGY = Some (Float.of_Z 49)
  /\ holding (world s') "bob" ENERGY = Some (Float.of_Z 25).
Proof. vm_compute. repeat split; reflexivity. Qed.
